(* ===== verification/_CoqProject ===== *)
-Q . S2P
Prelude.v
Text.v
Constants.v
Types.v
UnicodeTable.v
Unicode.v
Utils.v
Codepage.v
Dsi.v
Senders.v
Wakeup.v
ReplyBlock.v
ProtoFiles.v
ProtoVolume.v
Client.v
Calls.v
Did.v
Wire.v
Users.v
UamsDef.v
Url.v
Status.v
Auth.v
Lowlevel.v
Create.v
Session.v
Resource.v
Midlevel.v
ReadOnly.v
Removal.v
Rename.v
Fuse.v
Cmdline.v
Upload.v
Daemon.v
Servers.v
Connect.v
Handshake.v
Mount.v
StatusText.v
MainLoop.v
Getopt.v
MountClient.v
CommandThread.v
Clients.v
Walks.v
Mounting.v
Conversation.v
Startup.v
Afpcmd.v
Tools.v
