(* ===== verification/Prelude.v ===== *)
(** * afpfs-ng: a client for the Apple Filing Protocol

    This library models the client of src/afpfs-ng (protocol stack, file system
    operations, FUSE daemon and command line client) and proves its main properties.
    File names below are relative to src/afpfs-ng.

    ** The program

    A front end (fuse/, cmdline/) calls the operations ml_* of lib/midlevel.c.  They
    convert the path (lib/codepage.c over lib/unicode.c), try the AppleDouble view
    (lib/resource.c), find the parent directory (lib/did.c) and issue AFP calls
    (lib/proto_*.c, lib/lowlevel.c).  A call builds a message behind a DSI header and
    hands it to dsi_send (lib/dsi.c), which queues the request and waits; the thread of
    the main loop (lib/loop.c) runs dsi_recv on what the socket brings, finds the request
    by its id, runs the handler that lib/afp.c lists for its subcommand and wakes the
    sender.  lib/uams.c logs in, lib/afp_url.c parses the addresses of volumes.  The
    servers are a linked list; afp_server_full_connect (lib/afp.c) finds one or identifies,
    adds and logs in a new one.

    afp_client and mount_afp (fuse/client.c) turn a command line into a request on a local
    socket, and start the daemon if there is none (fuse/daemon.c).  The daemon's main loop
    accepts the client, a thread does the command (fuse/commands.c), logs for the client
    and answers; a mount starts another thread with libfuse, whose calls come back as
    fuse/fuse_int.c.  afpcmd (cmdline/) does the same operations from typed lines.

    ** The files

    - [Prelude]: machine integers as [Z] with their conversions, bytes and C arrays
      ([slice] reads, [blit] writes, [None] is an access out of range), C strings.
      [Text]: decimal and hexadecimal numbers, and snprintf into an array.
    - [Constants], [Types]: the constants and structures of the headers; one setter per
      field for assignments.
    - [UnicodeTable], [Unicode], [Codepage]: lib/unicode.c with its table, and
      lib/codepage.c.  [Utils]: lib/utils.c.  [UamsDef]: lib/uams_def.c, lib/map_def.c.
      [Url]: lib/afp_url.c.
    - [Dsi]: lib/dsi.c as functions on the state of a connection.  [Senders], [Wakeup]:
      step relations for threads that send at the same time, and for the calls that wait
      in dsi_send while the main loop handles their replies in dsi_recv.
    - [ReplyBlock], [ProtoFiles], [ProtoVolume]: lib/proto_*.c, one function per request
      and one per reply handler, on byte lists.
    - [Client]: the monad of the upper layers.  A program asks its environment: requests
      to the server ([Exchange]), fresh memory, time, the local machine.  [run] executes
      it against a handler, [wp] and [hoare] state what it does against every environment
      that keeps to a [contract]; [wp_run] connects the two.
    - [Wire]: a handler that answers [Exchange] with [Dsi]: it sends the request and receives
      the reply of a machine that only sees bytes, over a network that cuts it anywhere.
    - [Calls]: one program per AFP call.  [Did]: lib/did.c.  [Users]: lib/users.c.
      [Lowlevel]: lib/lowlevel.c.  [Create]: the cycle of ll_open, ml_creat and
      extra_translate, and lib/forklist.c.  [Resource]: lib/resource.c.  [Midlevel]:
      lib/midlevel.c.
    - [Status], [Auth], [Session]: identification of a server, lib/uams.c, and the sessions
      and volumes of lib/afp.c.
    - [ReadOnly], [Removal], [Rename]: end-to-end theorems about [Midlevel]; [Upload]: one
      about sending a file with com_put.
    - [Fuse]: fuse/fuse_int.c.  [Cmdline]: the commands of cmdline/cmdline_afp.c on a
      connected server and the splitting of lines of cmdline/cmdline_main.c.  [Daemon]: the
      clients of the daemon and their messages, of fuse/commands.c, fuse/client.c and
      lib/loop.c.
    - [Servers]: the list of servers of lib/afp.c on a heap, with the links as pointers and
      accesses to released memory as an outcome.  [Connect]: lib/connect.c, lib/server.c,
      and the connections of lib/afp.c on that heap, reconnecting included; [Handshake]
      runs them end to end.  [Mount]: the commands of the daemon on the same heap.
    - [StatusText]: lib/status.c, lib/log.c, lib/debug.c and the answer to "status".
      [MainLoop]: afp_main_loop, and what it calls on descriptors of clients; the signals,
      the threads that end the program and the wait for its start as step relations; the
      attention messages of lib/dsi.c.  [CommandThread]: process_command_thread, from the
      request of a client to its answer; [Walks]: a step relation for the main loop and
      the threads of all clients, with a step for every access to their list and its memory;
      [Clients]: its specification, in which each walk along the list is one step.
      [Mounting]: a mount from the
      request to the answer; [Conversation]: from the command line of afp_client through the
      daemon to its exit status.
    - [Getopt]: getopt_long.  [MountClient]: fuse/client.c and how the daemon reads its
      requests.  [Startup]: fuse/daemon.c, fuse/fuse_error.c, the thread of libfuse and
      the registration of lib/client.c, with a host that holds the sockets of its users.
    - [Afpcmd]: connecting of cmdline/cmdline_afp.c, the loop, the completion and main of
      cmdline/cmdline_main.c.  [Tools]: cmdline/getstatus.c and the tests of
      cmdline/cmdline_testafp.c.

    A definition has the name of its C function, a record field a prefix and the name of
    the C field.  The names of AFP calls that are programs are those of the protocol
    (FPRead for afp_read with its transport).  A pointer that is followed is an argument
    or a component of the result; a shared structure is part of the state [client], and
    the list of servers of the state [world].

    ** The theorems

    - Transport ([Dsi], [Wire], [Senders], [Wakeup]): a call sends one request and returns the
      code and the data of its reply, in whatever pieces the socket brings them, so that every
      theorem about a program and a contract, those below, holds on top of dsi_send and
      dsi_recv when the replies fit the receive buffer ([Wire.programs_over_wire]; calls of one
      thread, on a connection that stands); ids are distinct as long as the lock is held, and
      are not without it; no wake-up is lost, and no call uses a request that was freed, unless
      a wait runs out or a reply comes twice.  The main loop can use one: a call looks at its
      request without the mutex, and may free it between two stores of the main loop.
    - Wire formats ([ReplyBlock], [ProtoFiles], [ProtoVolume], [Status], [Url], [Daemon],
      [MountClient]): what is sent is what the protocol wants, what an encoder written from
      the protocol produces is parsed back, every message of afp_client has the form of its
      command, and the daemon reads the request that a command line means.
    - Text ([Unicode], [Codepage]): round trips, and composition against the table.
    - Files ([Did], [Lowlevel], [Removal], [Rename], [Fuse], [Cmdline], [Upload]): against a server
      with a directory tree or a file, described by a contract, the operations resolve,
      list, read, write, delete and move exactly what they should.  [ReadOnly]: nothing
      changes a read-only volume.
    - Sessions ([Auth], [Session], [Users]): two sides of an exchange of keys agree and the
      login succeeds for the right password; versions, handlers and volumes are chosen
      as they should be.
    - Connecting ([Servers], [Connect], [Handshake], [Mount], [Mounting]): a server that
      accepts the login ends up identified, logged in and in the list, and with the volume
      that was asked for mounted; a server is taken out of the list and out of nothing else,
      and a mount that cannot succeed leaves the volumes unmounted.
    - The daemon ([Startup], [MainLoop], [CommandThread], [Walks], [Conversation],
      [StatusText]): there is one for a user, it answers each client once with the result of
      its command, over the connection the command came from as long as no two walks along
      the list of clients overlap and no descriptor is used again too early, an error for a
      name it does not know, and it ends after the hook of the front end; the status is the
      text of the servers of the list.  A client gets the result in whatever pieces the
      answer comes, and all of the text if the first piece has the header.
    - The command line ([Afpcmd], [Tools]): until it is connected it sends nothing;
      completion finds the commands that begin with a text.
    - Theorems that show defects say so in their comment: ids that race, reads that are
      repeated for ever, a missing directory that is cached, names that are mangled, a
      refused login and the end of the daemon that read released memory, a server that
      is resumed and closes the list to a circle, a second signal after which the loop does
      not end, a client that is lost from the list of clients and one whose structure is freed
      while its command runs, a list of clients that is walked along while a client of it is
      freed, requests that are freed while their reply is handled, also in runs in which
      nothing goes wrong, a status that is written behind its array, a volume without which
      afpcmd connects and crashes.

    ** Assumptions

    Code outside src is a parameter: libgcrypt is a record of operations, [Auth.gcrypt],
    with the laws of its manual in the class [Auth.GcryptLaws], and a small instance
    shows that they can hold; iconv is an argument in [Status], inet_ntop in [StatusText].
    A server is the contract or the handler of the theorem, and every such theorem has an
    instance in its witness.  [Client.Transport] is what the upper layers need of [Dsi]: no
    packet is shorter than a header.  Sockets, getaddrinfo, getpwuid, pselect, fork and
    libfuse are questions to the environment of a program, as the server is; the addresses
    malloc returns are fresh and not null.  snprintf and getopt_long are modelled as the C
    library documents them, the latter with operands moved behind the options.
    Memory is not exhausted.  Integers are little-endian, a char is signed, an
    int has 32 and a pointer 64 bits.

    ** Fuel

    Loops that are not structural take fuel and end in [Starved], [NoFuel] or [None] when
    it runs out; the theorems say how much is enough: one unit per byte received in
    [Dsi], per byte read in [Fuse], [Cmdline] and [Upload], one per entry and one more for a
    listing, the size of the data for a write, one per server for a walk along the list or
    the text of its status, one per piece for an answer, one per name for completion.
    Where no fuel is enough that is a theorem ([Url.doubled_colon_hangs],
    [Fuse.fuse_read_spins], [MainLoop.bad_descriptors_spin], and the walks along a circular
    list in [Servers]).

    ** Not modelled

    What the commands print besides the status, and the log of the daemon; the calls that
    set up readline and the terminal; log_fuse_event; signal_main_thread, whose effect,
    that pselect is interrupted, is an answer of the environment; lib/meta.c, which is not
    built: its functions are empty or use names that nothing declares.  The texts that the
    commands of the daemon log are an argument of their thread.  Threads interleave where
    they meet on the requests of a connection ([Senders], [Wakeup]), on the clients of the
    daemon ([Walks]) and at the end and the start of the program ([MainLoop]); in the file
    system operations, and on the list of servers, one thread runs at a time.  In [Dsi] a
    tickle of the server is answered on a connection that stands. *)

From stdpp Require Export base option list list_numbers numbers sets.
From Stdlib Require Export ZArith Lia.
From Stdlib Require Strings.Byte Strings.String.
Export (notations) String.

#[global] Open Scope Z_scope.

Declare Scope afp_scope.
Delimit Scope afp_scope with afp.
#[global] Open Scope afp_scope.

(** Linear arithmetic with division and remainder by constants. *)
Ltac dlia := Z.div_mod_to_equations; lia.

(** ** Machine integers

    Integers are kept as [Z]; a conversion to a [w]-bit unsigned type is
    written out as a remainder. *)

Definition u8 (x : Z) : Z := x mod 256.
Definition u16 (x : Z) : Z := x mod 65536.
Definition u32 (x : Z) : Z := x mod 4294967296.
Definition u64 (x : Z) : Z := x mod 18446744073709551616.

(** Conversion to a 32-bit two's complement [int]. *)
Definition i32 (x : Z) : Z :=
  let y := u32 x in if y <? 2147483648 then y else y - 4294967296.

(** [bitmap & bit] used as a condition. *)
Definition has (bitmap bit : Z) : bool := negb (Z.land bitmap bit =? 0).

(** Decide the tests of constant bitmaps in the goal. *)
Ltac decide_bits :=
  repeat lazymatch goal with
  | |- context [has ?a ?b] =>
    let v := eval vm_compute in (has a b) in change (has a b) with v; cbv iota
  end.

(** ** Bytes in memory *)

Definition byte_ok (b : Z) : Prop := 0 <= b < 256.
Abbreviation bytes_ok := (Forall byte_ok).

#[export] Instance byte_ok_dec b : Decision (byte_ok b).
Proof. unfold byte_ok. apply _. Defined.

(** Native (little-endian) representation of an [n]-byte integer. *)
Fixpoint le_bytes (n : nat) (x : Z) : list Z :=
  match n with
  | O => []
  | S n => x mod 256 :: le_bytes n (x / 256)
  end.

Fixpoint le_val (bs : list Z) : Z :=
  match bs with
  | [] => 0
  | b :: bs => b + 256 * le_val bs
  end.

(** Network (big-endian) order, the order on the wire. *)
Definition be_bytes (n : nat) (x : Z) : list Z := reverse (le_bytes n x).
Definition be_val (bs : list Z) : Z := le_val (reverse bs).

(** Byte swapping of an [n]-byte integer: [htons], [htonl] and their inverses
    on a little-endian host. *)
Definition bswap (n : nat) (x : Z) : Z := le_val (reverse (le_bytes n x)).
Definition htons (x : Z) : Z := bswap 2 x.
Definition ntohs (x : Z) : Z := bswap 2 x.
Definition htonl (x : Z) : Z := bswap 4 x.
Definition ntohl (x : Z) : Z := bswap 4 x.

(** The macros [hton64] and [ntoh64] of include/afpfs-ng/utils.h. *)
Definition hton64 (x : Z) : Z :=
  Z.lor (htonl (Z.land (Z.shiftr x 32) 0xffffffff))
        (Z.shiftl (Z.land (htonl x) 0xffffffff) 32).
Definition ntoh64 (x : Z) : Z := hton64 x.

(** Stores of native integers. *)
Definition st8 (x : Z) : list Z := le_bytes 1 x.
Definition st16 (x : Z) : list Z := le_bytes 2 x.
Definition st32 (x : Z) : list Z := le_bytes 4 x.
Definition st64 (x : Z) : list Z := le_bytes 8 x.

(** ** Buffers

    A C buffer is the list of its bytes.  A read or a write that leaves the
    buffer is [None]: the access the C standard does not define. *)

Definition slice (off len : nat) (b : list Z) : option (list Z) :=
  if decide (off + len <= length b)%nat then Some (take len (drop off b)) else None.

Definition blit (off : nat) (src b : list Z) : option (list Z) :=
  if decide (off + length src <= length b)%nat
  then Some (take off b ++ src ++ drop (off + length src) b) else None.

(** [memset(b+off,0,n)] *)
Definition zero_fill (off n : nat) (b : list Z) : option (list Z) :=
  blit off (replicate n 0) b.

Definition ld8 (off : nat) (b : list Z) : option Z := le_val <$> slice off 1 b.
Definition ld16 (off : nat) (b : list Z) : option Z := le_val <$> slice off 2 b.
Definition ld32 (off : nat) (b : list Z) : option Z := le_val <$> slice off 4 b.
Definition ld64 (off : nat) (b : list Z) : option Z := le_val <$> slice off 8 b.

(** ** C strings

    A valid C string argument is the list of its bytes before the NUL
    ([cstring]); a buffer that should hold one is read with [cstr]. *)

Definition nul_free (s : list Z) : Prop := Forall (fun c => c <> 0) s.

#[export] Instance nul_free_dec s : Decision (nul_free s).
Proof. unfold nul_free. apply _. Defined.

Fixpoint cstr (b : list Z) : option (list Z) :=
  match b with
  | [] => None
  | c :: b => if c =? 0 then Some [] else (c ::.) <$> cstr b
  end.

Fixpoint index_of (c : Z) (s : list Z) : option nat :=
  match s with
  | [] => None
  | x :: s => if x =? c then Some O else S <$> index_of c s
  end.

Fixpoint last_index_of (c : Z) (s : list Z) : option nat :=
  match s with
  | [] => None
  | x :: s => match last_index_of c s with
              | Some i => Some (S i)
              | None => if x =? c then Some O else None
              end
  end.

(** [strstr]: the position of the first occurrence. *)
Fixpoint strstr (s pat : list Z) : option nat :=
  if bool_decide (pat `prefix_of` s) then Some O
  else match s with [] => None | _ :: s => S <$> strstr s pat end.

(** The bytes of a string literal. *)
Definition str (s : String.string) : list Z :=
  (fun b => Z.of_N (Byte.to_N b)) <$> String.list_byte_of_string s.
Arguments str s%_string.

Definition bytes_eqb (a b : list Z) : bool := bool_decide (a = b).

(** ** Lemmas on machine integers *)

Create HintDb afp discriminated.
Create Rewrite HintDb afp_len.

Lemma u8_small x : 0 <= x < 256 -> u8 x = x.
Proof. intros. by apply Z.mod_small. Qed.
Lemma u16_small x : 0 <= x < 65536 -> u16 x = x.
Proof. intros. by apply Z.mod_small. Qed.
Lemma u32_small x : 0 <= x < 4294967296 -> u32 x = x.
Proof. intros. by apply Z.mod_small. Qed.

Lemma i32_small x : 0 <= x < 2147483648 -> i32 x = x.
Proof.
  intros H. unfold i32. rewrite u32_small by lia. by rewrite (proj2 (Z.ltb_lt _ _)) by lia.
Qed.

Lemma u8_range x : 0 <= u8 x < 256.
Proof. by apply Z.mod_pos_bound. Qed.
Lemma u16_range x : 0 <= u16 x < 65536.
Proof. by apply Z.mod_pos_bound. Qed.
Lemma u32_range x : 0 <= u32 x < 4294967296.
Proof. by apply Z.mod_pos_bound. Qed.

#[export] Hint Resolve u8_range u16_range u32_range : afp.

(** A disjunction of a multiple of [2^k] and a [k]-bit number is a sum. *)
Lemma lor_shift_add k a b :
  0 <= k -> 0 <= b < 2 ^ k -> Z.lor (a * 2 ^ k) b = a * 2 ^ k + b.
Proof.
  intros Hk H.
  assert (Z.land (a * 2 ^ k) b = 0) as Hd.
  { rewrite <- Z.shiftl_mul_pow2 by lia.
    apply Z.bits_inj'. intros n Hn. rewrite Z.land_spec, Z.bits_0.
    destruct (decide (n < k)).
    - by rewrite Z.shiftl_spec_low.
    - rewrite andb_comm. replace (Z.testbit b n) with false; [done|].
      symmetry. destruct (decide (b = 0)) as [->|]; [apply Z.bits_0|].
      apply Z.bits_above_log2; [lia|]. apply Z.log2_lt_pow2; [lia|].
      apply Z.lt_le_trans with (2 ^ k); [lia|]. apply Z.pow_le_mono_r; lia. }
  rewrite <- Z.lxor_lor by done. by rewrite Z.add_nocarry_lxor.
Qed.

(** A property of all bytes is checked by evaluation. *)
Lemma byte_forall (P : Z -> bool) :
  forallb P (seqZ 0 256) = true -> forall b, byte_ok b -> P b = true.
Proof.
  rewrite forallb_forall. intros H b Hb. apply H, list_elem_of_In, elem_of_seqZ.
  unfold byte_ok in Hb. lia.
Qed.

(** ** Lemmas on byte order *)

Lemma length_le_bytes n x : length (le_bytes n x) = n.
Proof. revert x; induction n as [|n IH]; intros x; simpl; [done|]. by rewrite IH. Qed.

Lemma length_be_bytes n x : length (be_bytes n x) = n.
Proof. unfold be_bytes. by rewrite length_reverse, length_le_bytes. Qed.

Lemma le_bytes_ok n x : bytes_ok (le_bytes n x).
Proof.
  revert x; induction n as [|n IH]; intros x; constructor; [|apply IH].
  by apply Z.mod_pos_bound.
Qed.

Lemma be_bytes_ok n x : bytes_ok (be_bytes n x).
Proof. apply Forall_reverse, le_bytes_ok. Qed.

Lemma le_val_bytes n x : le_val (le_bytes n x) = x mod 256 ^ Z.of_nat n.
Proof.
  revert x; induction n as [|n IH]; intros x; cbn [le_val le_bytes].
  { by rewrite Z.mod_1_r. }
  rewrite IH, Nat2Z.inj_succ, Z.pow_succ_r by lia.
  rewrite Z.rem_mul_r; lia.
Qed.

Lemma le_bytes_val bs : bytes_ok bs -> le_bytes (length bs) (le_val bs) = bs.
Proof.
  induction 1 as [|b bs Hb _ IH]; cbn [le_val le_bytes length]; [done|].
  unfold byte_ok in Hb. f_equal.
  - rewrite (Z.mul_comm 256), Z.mod_add, Z.mod_small; lia.
  - rewrite (Z.mul_comm 256), Z.div_add, Z.div_small by lia. by rewrite Z.add_0_l.
Qed.

Lemma le_val_range bs : bytes_ok bs -> 0 <= le_val bs < 256 ^ Z.of_nat (length bs).
Proof.
  intros H. rewrite <- (le_bytes_val bs H) at 1 2. rewrite le_val_bytes.
  apply Z.mod_pos_bound. lia.
Qed.

Lemma be_val_bytes n x : be_val (be_bytes n x) = x mod 256 ^ Z.of_nat n.
Proof. unfold be_val, be_bytes. rewrite reverse_involutive. apply le_val_bytes. Qed.

Lemma be_bytes_val bs : bytes_ok bs -> be_bytes (length bs) (be_val bs) = bs.
Proof.
  intros H. unfold be_bytes, be_val. rewrite <- length_reverse.
  rewrite le_bytes_val by (by apply Forall_reverse). apply reverse_involutive.
Qed.

Lemma be_val_range bs : bytes_ok bs -> 0 <= be_val bs < 256 ^ Z.of_nat (length bs).
Proof.
  intros H. unfold be_val. rewrite <- length_reverse.
  apply le_val_range. by apply Forall_reverse.
Qed.

(** Storing a swapped integer natively puts the big-endian bytes in memory. *)
Lemma le_bytes_bswap n x : le_bytes n (bswap n x) = be_bytes n x.
Proof.
  unfold bswap, be_bytes.
  rewrite <- (length_le_bytes n x) at 1. rewrite <- length_reverse.
  apply le_bytes_val, Forall_reverse, le_bytes_ok.
Qed.

(** Swapping a natively loaded integer reads the big-endian value. *)
Lemma bswap_le_val bs : bytes_ok bs -> bswap (length bs) (le_val bs) = be_val bs.
Proof. intros H. unfold bswap. by rewrite le_bytes_val. Qed.

Lemma bswap_involutive n x : bswap n (bswap n x) = x mod 256 ^ Z.of_nat n.
Proof.
  unfold bswap at 1. rewrite le_bytes_bswap. unfold be_bytes.
  rewrite reverse_involutive. apply le_val_bytes.
Qed.

Lemma st16_htons x : st16 (htons x) = be_bytes 2 x.
Proof. apply le_bytes_bswap. Qed.
Lemma st32_htonl x : st32 (htonl x) = be_bytes 4 x.
Proof. apply le_bytes_bswap. Qed.

Lemma bswap_range n x : 0 <= bswap n x < 256 ^ Z.of_nat n.
Proof.
  unfold bswap. pose proof (le_val_range (reverse (le_bytes n x))) as H.
  rewrite length_reverse, length_le_bytes in H.
  apply H, Forall_reverse, le_bytes_ok.
Qed.

#[export] Hint Resolve le_bytes_ok be_bytes_ok : afp.
#[export] Hint Rewrite length_le_bytes length_be_bytes @length_app @length_take
  @length_drop @length_replicate @length_reverse @length_cons @length_nil : afp_len.

Lemma length_st8 x : length (st8 x) = 1%nat. Proof. apply length_le_bytes. Qed.
Lemma length_st16 x : length (st16 x) = 2%nat. Proof. apply length_le_bytes. Qed.
Lemma length_st32 x : length (st32 x) = 4%nat. Proof. apply length_le_bytes. Qed.
Lemma length_st64 x : length (st64 x) = 8%nat. Proof. apply length_le_bytes. Qed.
#[export] Hint Rewrite length_st8 length_st16 length_st32 length_st64 : afp_len.

(** Closes goals about the lengths of concatenations of fields. *)
Ltac solve_len := autorewrite with afp_len in *; simpl length in *; lia.

(** ** Lemmas on buffers *)

Lemma slice_Some off len b r :
  slice off len b = Some r <->
  (off + len <= length b)%nat /\ r = take len (drop off b).
Proof. unfold slice. case_decide; naive_solver. Qed.

Lemma slice_None off len b : slice off len b = None <-> (length b < off + len)%nat.
Proof. unfold slice. case_decide; naive_solver lia. Qed.

Lemma slice_length off len b r : slice off len b = Some r -> length r = len.
Proof. intros [Hl ->]%slice_Some. solve_len. Qed.

Lemma slice_ok off len b r : bytes_ok b -> slice off len b = Some r -> bytes_ok r.
Proof. intros Hb [_ ->]%slice_Some. by apply Forall_take, Forall_drop. Qed.

Lemma slice_in_range off len b :
  (off + len <= length b)%nat -> slice off len b = Some (take len (drop off b)).
Proof. intros. unfold slice. by rewrite decide_True. Qed.

(** The field in the middle of a concatenation. *)
Lemma slice_middle pre mid post :
  slice (length pre) (length mid) (pre ++ mid ++ post) = Some mid.
Proof.
  rewrite slice_in_range by solve_len. f_equal.
  by rewrite drop_app_length, take_app_length.
Qed.

Lemma slice_at pre mid post off len :
  off = length pre -> len = length mid ->
  slice off len (pre ++ mid ++ post) = Some mid.
Proof. intros -> ->. apply slice_middle. Qed.

Lemma slice_app_r off len pre post :
  (length pre <= off)%nat ->
  slice off len (pre ++ post) = slice (off - length pre) len post.
Proof.
  intros H. unfold slice. rewrite length_app, drop_app_ge by lia.
  do 2 case_decide; auto; lia.
Qed.

Lemma slice_app_l off len pre post :
  (off + len <= length pre)%nat ->
  slice off len (pre ++ post) = slice off len pre.
Proof.
  intros H. rewrite !slice_in_range by solve_len. f_equal.
  rewrite drop_app_le, take_app_le; [done|solve_len|solve_len].
Qed.

Lemma blit_Some off src b r :
  blit off src b = Some r <->
  (off + length src <= length b)%nat /\
  r = take off b ++ src ++ drop (off + length src) b.
Proof. unfold blit. case_decide; naive_solver. Qed.

Lemma blit_None off src b :
  blit off src b = None <-> (length b < off + length src)%nat.
Proof. unfold blit. case_decide; naive_solver lia. Qed.

Lemma blit_in_range off src b :
  (off + length src <= length b)%nat ->
  blit off src b = Some (take off b ++ src ++ drop (off + length src) b).
Proof. intros. unfold blit. by rewrite decide_True. Qed.

Lemma blit_length off src b r : blit off src b = Some r -> length r = length b.
Proof. intros [H ->]%blit_Some. solve_len. Qed.

Lemma blit_ok off src b r :
  bytes_ok src -> bytes_ok b -> blit off src b = Some r -> bytes_ok r.
Proof.
  intros Hs Hb [_ ->]%blit_Some.
  repeat apply Forall_app_2; auto using Forall_take, Forall_drop.
Qed.

(** Overwriting the middle field of a concatenation. *)
Lemma blit_at pre mid post src off :
  off = length pre -> length src = length mid ->
  blit off src (pre ++ mid ++ post) = Some (pre ++ src ++ post).
Proof.
  intros -> Hl. rewrite blit_in_range by solve_len.
  rewrite take_app_length. do 3 f_equal.
  rewrite Hl, <- length_app, (app_assoc pre mid post). apply drop_app_length.
Qed.

(** Appending a field to the part of a buffer already written. *)
Lemma blit_app pre src rest off :
  off = length pre -> (length src <= length rest)%nat ->
  blit off src (pre ++ rest) = Some (pre ++ src ++ drop (length src) rest).
Proof.
  intros -> Hl. rewrite <- (take_drop (length src) rest) at 1.
  rewrite blit_at by solve_len. done.
Qed.

Lemma blit_0 src b :
  (length src <= length b)%nat -> blit 0 src b = Some (src ++ drop (length src) b).
Proof. intros H. by apply (blit_app [] src b 0). Qed.

Lemma slice_0 mid post len :
  len = length mid -> slice 0 len (mid ++ post) = Some mid.
Proof. intros. by apply (slice_at [] mid post 0 len). Qed.

Lemma zero_fill_all n b :
  n = length b -> zero_fill 0 n b = Some (replicate n 0).
Proof.
  intros ->. unfold zero_fill. rewrite blit_in_range by solve_len.
  rewrite length_replicate, Nat.add_0_l, drop_all. by rewrite take_0, app_nil_r.
Qed.

(** ** Lemmas on loads *)

Lemma ld8_cons b rest : ld8 0 (b :: rest) = Some b.
Proof.
  unfold ld8. rewrite (slice_0 [b] rest 1 eq_refl : slice 0 1 (b :: rest) = _).
  cbn [fmap option_fmap option_map le_val]. f_equal. lia.
Qed.

Lemma bswap_be_bytes n v : bswap n (le_val (be_bytes n v)) = v mod 256 ^ Z.of_nat n.
Proof.
  rewrite <- (length_be_bytes n v) at 1. rewrite bswap_le_val by auto with afp.
  apply be_val_bytes.
Qed.

Lemma ntohs_ld16 pre v rest off :
  off = length pre -> 0 <= v < 65536 ->
  ntohs <$> ld16 off (pre ++ be_bytes 2 v ++ rest) = Some v.
Proof.
  intros -> Hv. unfold ld16. rewrite (slice_at pre (be_bytes 2 v) rest) by done.
  cbn [fmap option_fmap option_map]. f_equal. unfold ntohs.
  rewrite bswap_be_bytes. apply Z.mod_small. lia.
Qed.

Lemma ntohs_ld16_0 v rest :
  0 <= v < 65536 -> ntohs <$> ld16 0 (be_bytes 2 v ++ rest) = Some v.
Proof. intros. by apply (ntohs_ld16 []). Qed.

Lemma ntohl_ld32 pre v rest off :
  off = length pre -> 0 <= v < 4294967296 ->
  ntohl <$> ld32 off (pre ++ be_bytes 4 v ++ rest) = Some v.
Proof.
  intros -> Hv. unfold ld32. rewrite (slice_at pre (be_bytes 4 v) rest) by done.
  cbn [fmap option_fmap option_map]. f_equal. unfold ntohl.
  rewrite bswap_be_bytes. apply Z.mod_small. lia.
Qed.

Lemma le_bytes_mod n x : le_bytes n (x mod 256 ^ Z.of_nat n) = le_bytes n x.
Proof.
  rewrite <- le_val_bytes. rewrite <- (length_le_bytes n x) at 1.
  apply le_bytes_val, le_bytes_ok.
Qed.

Lemma le_bytes_app n m x :
  le_bytes (n + m) x = le_bytes n x ++ le_bytes m (x / 256 ^ Z.of_nat n).
Proof.
  revert x; induction n as [|n IH]; intros x.
  { cbn [app Nat.add le_bytes]. by rewrite Z.pow_0_r, Z.div_1_r. }
  cbn [Nat.add le_bytes app]. rewrite IH, Z.div_div by lia.
  by rewrite Nat2Z.inj_succ, Z.pow_succ_r by lia.
Qed.

Lemma le_val_app a b : le_val (a ++ b) = le_val a + 256 ^ Z.of_nat (length a) * le_val b.
Proof.
  induction a as [|x a IH]; cbn [app le_val length]; [lia|].
  rewrite IH, Nat2Z.inj_succ, Z.pow_succ_r by lia. lia.
Qed.

(** The macro swaps all eight bytes. *)
Lemma hton64_bswap x : 0 <= x < 2 ^ 64 -> hton64 x = bswap 8 x.
Proof.
  intros H. unfold hton64.
  assert (Z.land (Z.shiftr x 32) 0xffffffff = x / 2 ^ 32) as ->.
  { rewrite Z.shiftr_div_pow2 by lia. change 0xffffffff with (Z.ones 32).
    rewrite Z.land_ones by lia. apply Z.mod_small. dlia. }
  assert (Z.land (htonl x) 0xffffffff = htonl x) as ->.
  { change 0xffffffff with (Z.ones 32). rewrite Z.land_ones by lia.
    apply Z.mod_small. exact (bswap_range 4 x). }
  rewrite Z.shiftl_mul_pow2, Z.lor_comm by lia.
  rewrite lor_shift_add by (first [lia|exact (bswap_range 4 _)]).
  unfold htonl, bswap. change 8%nat with (4 + 4)%nat.
  rewrite le_bytes_app, reverse_app, le_val_app, length_reverse, length_le_bytes.
  change (256 ^ Z.of_nat 4) with (2 ^ 32). lia.
Qed.

Lemma st64_hton64 x : 0 <= x < 2 ^ 64 -> st64 (hton64 x) = be_bytes 8 x.
Proof. intros H. rewrite hton64_bswap by done. apply le_bytes_bswap. Qed.

Lemma ntoh64_ld64 pre v rest off :
  off = length pre -> 0 <= v < 2 ^ 64 ->
  ntoh64 <$> ld64 off (pre ++ be_bytes 8 v ++ rest) = Some v.
Proof.
  intros -> Hv. unfold ld64. rewrite (slice_at pre (be_bytes 8 v) rest) by done.
  cbn [fmap option_fmap option_map]. f_equal. unfold ntoh64.
  rewrite hton64_bswap.
  - rewrite bswap_be_bytes. apply Z.mod_small. exact Hv.
  - pose proof (le_val_range (be_bytes 8 v) (be_bytes_ok 8 v)) as H.
    by rewrite length_be_bytes in H.
Qed.

(** ** Lemmas on C strings *)

Lemma cstr_app s t : nul_free s -> cstr (s ++ 0 :: t) = Some s.
Proof.
  induction 1 as [|c s Hc _ IH]; [done|]. simpl. rewrite IH.
  by rewrite (proj2 (Z.eqb_neq c 0)).
Qed.

Lemma cstr_Some b s :
  cstr b = Some s -> nul_free s /\ exists t, b = s ++ 0 :: t.
Proof.
  revert s; induction b as [|c b IH]; intros s H; [done|]. simpl in H.
  destruct (Z.eqb_spec c 0) as [->|Hc].
  - injection H as <-. split; [constructor|]. by exists b.
  - destruct (cstr b) as [s'|]; [|done]. injection H as <-.
    destruct (IH s' eq_refl) as [Hs [t ->]]. split; [by constructor|]. by exists t.
Qed.

Lemma index_of_Some c s i :
  index_of c s = Some i <->
  exists pre post, s = pre ++ c :: post /\ length pre = i /\ c ∉ pre.
Proof.
  revert i; induction s as [|x s IH]; intros i; simpl.
  - split; [done|]. intros ([|??] & ? & ? & ?); discriminate.
  - destruct (Z.eqb_spec x c) as [->|Hx].
    + split; [intros [= <-]; exists [], s; split_and!; auto; apply not_elem_of_nil|].
      intros ([|y pre] & post & Heq & Hl & Hn); simplify_eq/=; [done|]. set_solver.
    + split.
      * destruct (index_of c s) as [k|] eqn:E; [|done]. intros [= <-].
        destruct (proj1 (IH k) eq_refl) as (pre & post & -> & Hl & Hn).
        exists (x :: pre), post. simpl. rewrite Hl, not_elem_of_cons. auto.
      * intros ([|y pre] & post & Heq & Hl & Hn); simplify_eq/=.
        apply not_elem_of_cons in Hn as [_ Hn].
        rewrite (proj2 (IH (length pre))); [done|]. by exists pre, post.
Qed.

Lemma index_of_None c s : index_of c s = None <-> c ∉ s.
Proof.
  induction s as [|x s IH]; simpl.
  - split; [intros _; apply not_elem_of_nil|done].
  - rewrite not_elem_of_cons. destruct (Z.eqb_spec x c) as [->|Hx].
    + naive_solver.
    + rewrite <- IH. destruct (index_of c s); naive_solver.
Qed.

Lemma last_index_of_absent c s : c ∉ s -> last_index_of c s = None.
Proof.
  induction s as [|x s IH]; [done|]. simpl. intros [Hx Hs]%not_elem_of_cons.
  rewrite IH by done. by rewrite (proj2 (Z.eqb_neq x c)).
Qed.

Lemma last_index_of_app c pre post :
  c ∉ post -> last_index_of c (pre ++ c :: post) = Some (length pre).
Proof.
  intros Hn%last_index_of_absent.
  induction pre as [|x pre IH]; simpl; [by rewrite Hn, Z.eqb_refl|by rewrite IH].
Qed.

Lemma last_index_of_Some c s i :
  last_index_of c s = Some i ->
  exists pre post, s = pre ++ c :: post /\ length pre = i /\ c ∉ post.
Proof.
  revert i; induction s as [|x s IH]; intros i; simpl; [done|].
  destruct (last_index_of c s) as [k|] eqn:E.
  - intros [= <-]. destruct (IH k eq_refl) as (pre & post & -> & Hl & Hn).
    exists (x :: pre), post. simpl. by rewrite Hl.
  - destruct (Z.eqb_spec x c) as [->|]; [|done]. intros [= <-]. exists [], s.
    split_and!; [done..|]. intros (pre & post & -> & ?)%list_elem_of_split_r.
    by rewrite last_index_of_app in E.
Qed.

Lemma last_index_of_None c s : last_index_of c s = None -> c ∉ s.
Proof.
  intros E (pre & post & -> & Hn)%list_elem_of_split_r. by rewrite last_index_of_app in E.
Qed.

(** [strstr] does not look across a character that is not in the pattern. *)
Lemma prefix_before (c : Z) pat d rest :
  c ∉ pat -> pat `prefix_of` d ++ c :: rest -> pat `prefix_of` d.
Proof.
  intros Hs [k Hk]. apply app_eq_app in Hk as (l & [[-> _] | [-> Hl]]).
  - by apply prefix_app_r.
  - destruct l as [|x l]; [by rewrite app_nil_r|]. simplify_eq/=. set_solver.
Qed.

Lemma strstr_skip (c : Z) d rest pat :
  c ∉ pat -> strstr d pat = None ->
  strstr (d ++ c :: rest) pat = (fun i => S (length d) + i)%nat <$> strstr rest pat.
Proof.
  intros Hs. induction d as [|x d IH]; intros Hd; cbn [app strstr length] in *;
    case_bool_decide as H1; try done.
  - rewrite bool_decide_eq_false_2; [done|]. intros H2. apply H1.
    by apply (prefix_before c pat [] rest).
  - destruct (strstr d pat) eqn:E; [done|]. rewrite bool_decide_eq_false_2.
    + rewrite IH by done. destruct (strstr rest pat); done.
    + intros H2. apply H1. by apply (prefix_before c pat (x :: d) rest).
Qed.

Lemma strstr_here pat s : strstr (pat ++ s) pat = Some O.
Proof.
  assert (bool_decide (pat `prefix_of` pat ++ s) = true) as H
    by (apply bool_decide_eq_true_2; by exists s).
  destruct (pat ++ s); cbn [strstr]; by rewrite H.
Qed.

Lemma drop_behind {A} (c : A) u t : drop (S (length u)) (u ++ c :: t) = t.
Proof. induction u as [|x u IH]; [done|exact IH]. Qed.
