(* ===== verification/Text.v ===== *)
(** * Formatted output

    What the program uses of printf: the conversions of numbers, and [snprintf] into an
    array.  The text of a format is written out by the caller. *)

From S2P Require Import Prelude.

Module Text.

(** ** Numbers *)

Definition digit (d : Z) : Z := if d <? 10 then 48 + d else 87 + d.

(** [x] in the base, with at most [n] digits. *)
Fixpoint number (base : Z) (n : nat) (x : Z) : list Z :=
  match n with
  | O => []
  | S n => (if x <? base then [] else number base n (x / base)) ++ [digit (x mod base)]
  end.

(** The conversions "%u", "%d", "%llu" and "%x". *)
Definition decimal (x : Z) : list Z := number 10 10 (u32 x).
Definition signed (x : Z) : list Z :=
  let x := i32 x in if x <? 0 then 45 :: number 10 10 (- x) else number 10 10 x.
Definition long_decimal (x : Z) : list Z := number 10 20 (u64 x).
Definition hex (x : Z) : list Z := number 16 8 (u32 x).

(** "%02x" of a [char], which is extended with its sign. *)
Definition hex_char (c : Z) : list Z :=
  if c <? 16 then 48 :: hex c else if c <? 128 then hex c else hex (c - 256).

(** ** Output to an array

    [snprintf(text+pos,size,...)] where the format gives [s].  With a size of 0 nothing is
    written; the size is not compared with the array, and [None] is a write outside. *)
Definition snprintf (pos size : Z) (s text : list Z) : option (Z * list Z) :=
  let written := (if Z.of_nat (length s) <? size then s else take (Z.to_nat (size - 1)) s) ++ [0] in
  text ← (if size =? 0 then Some text
          else if pos <? 0 then None else blit (Z.to_nat pos) written text);
  Some (i32 (Z.of_nat (length s)), text).

(** ** What the numbers are *)

Definition digit_value (c : Z) : Z := if c <? 58 then c - 48 else c - 87.
Definition number_value (base : Z) (s : list Z) : Z :=
  foldl (fun acc c => base * acc + digit_value c) 0 s.

Lemma digit_roundtrip d : 0 <= d -> digit_value (digit d) = d.
Proof. intros H. unfold digit, digit_value. repeat case_match; lia. Qed.

Lemma number_roundtrip base n x :
  1 < base -> 0 <= x < base ^ Z.of_nat n -> number_value base (number base n x) = x.
Proof.
  intros Hb. unfold number_value. revert x. induction n as [|n IH]; intros x Hx.
  { cbn [number foldl]. change (base ^ Z.of_nat 0) with 1 in Hx. lia. }
  rewrite Nat2Z.inj_succ, Z.pow_succ_r in Hx by lia. cbn [number].
  rewrite foldl_app. cbn [foldl]. rewrite digit_roundtrip by (apply Z.mod_pos_bound; lia).
  destruct (Z.ltb_spec x base).
  - cbn [foldl]. rewrite Z.mod_small by lia. lia.
  - rewrite IH; [rewrite <- Z.div_mod; lia|].
    split; [apply Z.div_pos; lia|]. apply Z.div_lt_upper_bound; lia.
Qed.

Lemma number_short base n x : (length (number base n x) <= n)%nat.
Proof.
  revert x. induction n as [|n IH]; intros x; cbn [number length]; [lia|].
  rewrite length_app. case_match; simpl; [lia|]. specialize (IH (x / base)). lia.
Qed.

Lemma number_nonempty base n x : number base (S n) x <> [].
Proof. cbn [number]. by intros [_ ?]%app_eq_nil. Qed.

Definition is_digit_below (base c : Z) : Prop :=
  48 <= c < 58 /\ c < 48 + base \/ 97 <= c < 87 + base.

Lemma number_digits base n x : 1 < base <= 36 -> Forall (is_digit_below base) (number base n x).
Proof.
  intros Hb. revert x. induction n as [|n IH]; intros x; cbn [number]; [done|].
  apply Forall_app. split; [case_match; [done|apply IH]|]. apply Forall_singleton.
  pose proof (Z.mod_pos_bound x base ltac:(lia)). unfold is_digit_below, digit.
  destruct (Z.ltb_spec (x mod base) 10); lia.
Qed.

Lemma number_nul_free base n x : 1 < base <= 36 -> nul_free (number base n x).
Proof.
  intros Hb. eapply Forall_impl; [by apply number_digits|].
  intros c [|]; lia.
Qed.

(** Two bytes with their sign, and the digits of the others. *)
Example hex_chars : hex_char 5 = str "05" /\ hex_char 0x7f = str "7f" /\ hex_char 0x80 = str "ffffff80".
Proof. split_and!; reflexivity. Qed.

(** ** Output that fits, and output that does not *)

Lemma snprintf_fits pos (done rest s : list Z) room :
  pos = Z.of_nat (length done) -> 0 <= room < 2147483648 ->
  Z.of_nat (length s) < room <= Z.of_nat (length rest) ->
  snprintf pos (u64 room) s (done ++ rest) =
    Some (Z.of_nat (length s), done ++ s ++ [0] ++ drop (S (length s)) rest).
Proof.
  intros -> Hr Hs. unfold snprintf, u64. rewrite Z.mod_small by lia. cbv zeta.
  rewrite (proj2 (Z.ltb_lt (Z.of_nat (length s)) _)) by lia.
  rewrite (proj2 (Z.eqb_neq room 0)) by lia.
  rewrite (proj2 (Z.ltb_ge (Z.of_nat (length done)) 0)) by lia.
  rewrite Nat2Z.id. rewrite blit_in_range by (rewrite !length_app; simpl; lia).
  cbn [mbind option_bind]. rewrite i32_small by lia. do 2 f_equal.
  rewrite take_app_length, drop_app_ge by lia. rewrite length_app. cbn [length].
  rewrite <- !app_assoc. do 4 f_equal. lia.
Qed.

(** Behind the end of the array the size is taken for a large one. *)
Lemma snprintf_behind pos len s (text : list Z) :
  Z.of_nat (length text) = len -> len < pos < 4294967296 -> snprintf pos (u64 (len - pos)) s text = None.
Proof.
  intros Hl Hp. unfold snprintf, u64.
  assert ((len - pos) mod 18446744073709551616 = len - pos + 18446744073709551616) as ->
    by (symmetry; apply Z.mod_unique with (-1); lia).
  rewrite (proj2 (Z.eqb_neq _ _)), (proj2 (Z.ltb_ge pos 0)) by lia.
  unfold blit. rewrite decide_False; [done|]. lia.
Qed.

End Text.
