(* ===== verification/Constants.v ===== *)
(** * Protocol constants

    The constants of include/afpfs-ng/afp_protocol.h, lib/dsi_protocol.h,
    include/afpfs-ng/afp.h, include/afpfs-ng/map_def.h and lib/resource.h that
    the modelled code uses, and the Linux [errno], [open] and [stat] values. *)

From S2P Require Import Prelude.

(** ** Sizes and identifiers *)

Definition AFP_SERVER_NAME_LEN : Z := 33.
Definition AFP_SERVER_NAME_UTF8_LEN : Z := 255.
Definition AFP_VOLUME_NAME_LEN : Z := 33.
Definition AFP_VOLUME_NAME_UTF8_LEN : Z := 33.
Definition AFP_SIGNATURE_LEN : Z := 16.
Definition AFP_MACHINETYPE_LEN : Z := 33.
Definition AFP_LOGINMESG_LEN : Z := 200.
Definition AFP_VOLPASS_LEN : Z := 8.
Definition AFP_HOSTNAME_LEN : Z := 255.
Definition AFP_ZONE_LEN : Z := 255.
Definition AFP_SERVER_ICON_LEN : Z := 256.
Definition AFP_MAX_USERNAME_LEN : Z := 127.
Definition AFP_MAX_PASSWORD_LEN : Z := 127.
Definition AFP_UAM_LENGTH : Z := 24.
Definition AFP_MAX_PATH : Z := 768.
Definition AFP_VOL_FLAT : Z := 1.
Definition AFP_VOL_FIXED : Z := 2.
Definition AFP_VOL_VARIABLE : Z := 3.

Definition AFP_ROOT_DID : Z := 2.

Definition AFP_MAX_AFP2_FILESIZE : Z := 4294967296.

(** ** Path types, fork types, access modes *)

Definition kFPShortName : Z := 1.
Definition kFPLongName : Z := 2.
Definition kFPUTF8Name : Z := 3.
Definition AFP_FORKTYPE_DATA : Z := 0x0.
Definition AFP_FORKTYPE_RESOURCE : Z := 0x80.
Definition AFP_OPENFORK_ALLOWREAD : Z := 1.
Definition AFP_OPENFORK_ALLOWWRITE : Z := 2.
Definition AFP_OPENFORK_DENYREAD : Z := 0x10.
Definition AFP_OPENFORK_DENYWRITE : Z := 0x20.
Definition AFP_GETSRVRMSG_UTF8 : Z := 0x2.
Definition AFP_GETSRVRMSG_GETMSG : Z := 0x1.
Definition AFP_MAX_VERSION_LENGTH : Z := 16.
Definition AFP_TOKEN_MAX_LEN : Z := 256.

(** ** Volume attributes *)

Definition kReadOnly : Z := 0x01.
Definition kHasVolumePassword : Z := 0x02.
Definition kSupportsFileIDs : Z := 0x04.
Definition kSupportsCatSearch : Z := 0x08.
Definition kSupportsBlankAccessPrivs : Z := 0x10.
Definition kSupportsUnixPrivs : Z := 0x20.
Definition kSupportsUTF8Names : Z := 0x40.
Definition kNoNetworkUserIDs : Z := 0x80.
Definition kDefaultPrivsFromParent : Z := 0x100.
Definition kNoExchangeFiles : Z := 0x200.
Definition kSupportsExtAttrs : Z := 0x400.
Definition kSupportsACLs : Z := 0x800.

(** ** File creation flags *)

Definition kFPSoftCreate : Z := 0.
Definition kFPHardCreate : Z := 0x80.

(** ** Directory and file bitmaps *)

Definition kFPAttributeBit : Z := 0x1.
Definition kFPParentDirIDBit : Z := 0x2.
Definition kFPCreateDateBit : Z := 0x4.
Definition kFPModDateBit : Z := 0x8.
Definition kFPBackupDateBit : Z := 0x10.
Definition kFPFinderInfoBit : Z := 0x20.
Definition kFPLongNameBit : Z := 0x40.
Definition kFPShortNameBit : Z := 0x80.
Definition kFPNodeIDBit : Z := 0x100.
Definition kFPOffspringCountBit : Z := 0x0200.
Definition kFPOwnerIDBit : Z := 0x0400.
Definition kFPGroupIDBit : Z := 0x0800.
Definition kFPAccessRightsBit : Z := 0x1000.
Definition kFPProDOSInfoBit : Z := 0x2000.
Definition kFPUTF8NameBit : Z := 0x2000.
Definition kFPUnixPrivsBit : Z := 0x8000.
Definition kFPDataForkLenBit : Z := 0x0200.
Definition kFPRsrcForkLenBit : Z := 0x0400.
Definition kFPExtDataForkLenBit : Z := 0x0800.
Definition kFPLaunchLimitBit : Z := 0x1000.
Definition kFPExtRsrcForkLenBit : Z := 0x4000.

(** ** AFP function codes *)

Definition afpByteRangeLock : Z := 1.
Definition afpCloseVol : Z := 2.
Definition afpCloseDir : Z := 3.
Definition afpCloseFork : Z := 4.
Definition afpCopyFile : Z := 5.
Definition afpCreateDir : Z := 6.
Definition afpCreateFile : Z := 7.
Definition afpDelete : Z := 8.
Definition afpEnumerate : Z := 9.
Definition afpFlush : Z := 10.
Definition afpFlushFork : Z := 11.
Definition afpGetForkParms : Z := 14.
Definition afpGetSrvrInfo : Z := 15.
Definition afpGetSrvrParms : Z := 16.
Definition afpGetVolParms : Z := 17.
Definition afpLogin : Z := 18.
Definition afpLoginCont : Z := 19.
Definition afpLogout : Z := 20.
Definition afpMapID : Z := 21.
Definition afpMapName : Z := 22.
Definition afpMoveAndRename : Z := 23.
Definition afpOpenVol : Z := 24.
Definition afpOpenDir : Z := 25.
Definition afpOpenFork : Z := 26.
Definition afpRead : Z := 27.
Definition afpRename : Z := 28.
Definition afpSetDirParms : Z := 29.
Definition afpSetFileParms : Z := 30.
Definition afpSetForkParms : Z := 31.
Definition afpSetVolParms : Z := 32.
Definition afpWrite : Z := 33.
Definition afpGetFileDirParms : Z := 34.
Definition afpSetFileDirParms : Z := 35.
Definition afpChangePassword : Z := 36.
Definition afpGetUserInfo : Z := 37.
Definition afpGetSrvrMsg : Z := 38.
Definition afpOpenDT : Z := 48.
Definition afpCloseDT : Z := 49.
Definition afpGetIcon : Z := 51.
Definition afpGetIconInfo : Z := 52.
Definition afpAddComment : Z := 56.
Definition afpRemoveComment : Z := 57.
Definition afpGetComment : Z := 58.
Definition afpByteRangeLockExt : Z := 59.
Definition afpReadExt : Z := 60.
Definition afpWriteExt : Z := 61.
Definition afpGetAuthMethods : Z := 62.
Definition afp_LoginExt : Z := 63.
Definition afpGetSessionToken : Z := 64.
Definition afpDisconnectOldSession : Z := 65.
Definition afpEnumerateExt : Z := 66.
Definition afpCatSearchExt : Z := 67.
Definition afpEnumerateExt2 : Z := 68.
Definition afpGetExtAttr : Z := 69.
Definition afpSetExtAttr : Z := 70.
Definition afpRemoveExtAttr : Z := 71.
Definition afpListExtAttrs : Z := 72.
Definition afpZzzzz : Z := 122.
Definition afpAddIcon : Z := 192.

(** ** Volume bitmap *)

Definition kFPBadVolPre222Bitmap : Z := 0xFe00.
Definition kFPBadVolBitmap : Z := 0xF000.
Definition kFPVolAttributeBit : Z := 0x1.
Definition kFPVolSignatureBit : Z := 0x2.
Definition kFPVolCreateDateBit : Z := 0x4.
Definition kFPVolModDateBit : Z := 0x8.
Definition kFPVolBackupDateBit : Z := 0x10.
Definition kFPVolIDBit : Z := 0x20.
Definition kFPVolBytesFreeBit : Z := 0x40.
Definition kFPVolBytesTotalBit : Z := 0x80.
Definition kFPVolNameBit : Z := 0x100.
Definition kFPVolExtBytesFreeBit : Z := 0x200.
Definition kFPVolExtBytesTotalBit : Z := 0x400.
Definition kFPVolBlockSizeBit : Z := 0x800.

(** ** Result codes *)

Definition kFPNoErr : Z := 0.
Definition kASPSessClosed : Z := (-1072).
Definition kFPAccessDenied : Z := (-5000).
Definition kFPAuthContinue : Z := (-5001).
Definition kFPBadUAM : Z := (-5002).
Definition kFPBadVersNum : Z := (-5003).
Definition kFPBitmapErr : Z := (-5004).
Definition kFPCantMove : Z := (-5005).
Definition kFPDenyConflict : Z := (-5006).
Definition kFPDirNotEmpty : Z := (-5007).
Definition kFPDiskFull : Z := (-5008).
Definition kFPEOFErr : Z := (-5009).
Definition kFPFileBusy : Z := (-5010).
Definition kFPFlatVol : Z := (-5011).
Definition kFPItemNotFound : Z := (-5012).
Definition kFPLockErr : Z := (-5013).
Definition kFPMiscErr : Z := (-5014).
Definition kFPNoMoreLocks : Z := (-5015).
Definition kFPNoServer : Z := (-5016).
Definition kFPObjectExists : Z := (-5017).
Definition kFPObjectNotFound : Z := (-5018).
Definition kFPParamErr : Z := (-5019).
Definition kFPRangeNotLocked : Z := (-5020).
Definition kFPRangeOverlap : Z := (-5021).
Definition kFPSessClosed : Z := (-5022).
Definition kFPUserNotAuth : Z := (-5023).
Definition kFPCallNotSupported : Z := (-5024).
Definition kFPObjectTypeErr : Z := (-5025).
Definition kFPTooManyFilesOpen : Z := (-5026).
Definition kFPServerGoingDown : Z := (-5027).
Definition kFPCantRename : Z := (-5028).
Definition kFPDirNotFound : Z := (-5029).
Definition kFPIconTypeError : Z := (-5030).
Definition kFPVolLocked : Z := (-5031).
Definition kFPObjectLocked : Z := (-5032).
Definition kFPContainsSharedErr : Z := (-5033).
Definition kFPIDNotFound : Z := (-5034).
Definition kFPIDExists : Z := (-5035).
Definition kFPDiffVolErr : Z := (-5036).
Definition kFPCatalogChanged : Z := (-5037).
Definition kFPSameObjectErr : Z := (-5038).
Definition kFPBadIDErr : Z := (-5039).
Definition kFPPwdSameErr : Z := (-5040).
Definition kFPPwdTooShortErr : Z := (-5041).
Definition kFPPwdExpiredErr : Z := (-5042).
Definition kFPInsideSharedErr : Z := (-5043).
Definition kFPInsideTrashErr : Z := (-5044).
Definition kFPPwdNeedsChangeErr : Z := (-5045).
Definition kFPPwdPolicyErr : Z := (-5046).

(** ** Byte range locks, user and name mapping, user information *)

Definition ByteRangeLock_Lock : Z := 0.
Definition ByteRangeLock_Unlock : Z := 1.
Definition kUserIDToName : Z := 1.
Definition kGroupIDToName : Z := 2.
Definition kUserIDToUTF8Name : Z := 3.
Definition kGroupIDToUTF8Name : Z := 4.
Definition kUserUUIDToUTF8Name : Z := 5.
Definition kGroupUUIDToUTF8Name : Z := 6.
Definition kNameToUserID : Z := 1.
Definition kNameToGroupID : Z := 2.
Definition kUTF8NameToUserID : Z := 3.
Definition kUTF8NameToGroupID : Z := 4.
Definition kUTF8NameToUserUUID : Z := 5.
Definition kUTF8NameToGroupUUID : Z := 6.
Definition HasConfigInfo : Z := 0x1.
Definition HasPassword : Z := 0x80.
Definition kFPGetUserInfo_USER_ID : Z := 1.
Definition kFPGetUserInfo_PRI_GROUPID : Z := 2.

(** ** Server flags and session token types *)

Definition kSupportsCopyfile : Z := 0x01.
Definition kSupportsChgPwd : Z := 0x02.
Definition kDontAllowSavePwd : Z := 0x04.
Definition kSupportsSrvrMsg : Z := 0x08.
Definition kSrvrSig : Z := 0x10.
Definition kSupportsTCP : Z := 0x20.
Definition kSupportsSrvrNotify : Z := 0x40.
Definition kSupportsReconnect : Z := 0x80.
Definition kSupportsDirServices : Z := 0x100.
Definition kSupportsUTF8SrvrName : Z := 0x200.
Definition kSupportsUUIDs : Z := 0x400.
Definition kSupportsSuperClient : Z := 0x8000.
Definition kLoginWithoutID : Z := 0.
Definition kLoginWithID : Z := 1.
Definition kReconnWithID : Z := 2.
Definition kLoginWithTimeAndID : Z := 3.
Definition kReconnWithTimeAndID : Z := 4.
Definition kRecon1Login : Z := 5.
Definition kRecon1ReconnectLogin : Z := 6.
Definition kRecon1Refresh : Z := 7.
Definition kGetKerberosSessionKey : Z := 8.

(** ** DSI *)

Definition DSI_REQUEST : Z := 0x0.
Definition DSI_REPLY : Z := 0x1.
Definition DSI_DSICloseSession : Z := 1.
Definition DSI_DSICommand : Z := 2.
Definition DSI_DSIGetStatus : Z := 3.
Definition DSI_DSIOpenSession : Z := 4.
Definition DSI_DSITickle : Z := 5.
Definition DSI_DSIWrite : Z := 6.
Definition DSI_DSIAttention : Z := 8.

Definition DSI_BLOCK_TIMEOUT : Z := -1.
Definition DSI_DONT_WAIT : Z := 0.
Definition DSI_DEFAULT_TIMEOUT : Z := 5.
Definition DSI_OPENVOLUME_TIMEOUT : Z := 20.
Definition DSI_LOGIN_TIMEOUT : Z := 20.

(** ** Client flags *)

Definition VOLUME_EXTRA_FLAGS_VOL_CHMOD_KNOWN : Z := 0x1.
Definition VOLUME_EXTRA_FLAGS_VOL_CHMOD_BROKEN : Z := 0x2.
Definition VOLUME_EXTRA_FLAGS_SHOW_APPLEDOUBLE : Z := 0x4.
Definition VOLUME_EXTRA_FLAGS_VOL_SUPPORTS_UNIX : Z := 0x8.
Definition VOLUME_EXTRA_FLAGS_NO_LOCKING : Z := 0x10.
Definition VOLUME_EXTRA_FLAGS_IGNORE_UNIXPRIVS : Z := 0x20.
Definition VOLUME_EXTRA_FLAGS_READONLY : Z := 0x40.

Definition AFP_MAX_SUPPORTED_VERSION : Z := 32.
Definition SERVER_MAX_VERSIONS : Z := 10.
Definition SERVER_MAX_UAMS : Z := 10.

(** ** Seconds between the Unix and the AFP epoch (lib/afp_internal.h) *)

Definition AD_DATE_DELTA : Z := 946684800.
Definition AD_DATE_FROM_UNIX (x : Z) : Z := htonl (x - AD_DATE_DELTA).
Definition AD_DATE_TO_UNIX (x : Z) : Z := u32 (ntohl x + AD_DATE_DELTA).

(** ** errno values of the Linux host *)

Definition EPERM : Z := 1.
Definition ENOENT : Z := 2.
Definition EIO : Z := 5.
Definition EBADF : Z := 9.
Definition EACCES : Z := 13.
Definition EFAULT : Z := 14.
Definition EBUSY : Z := 16.
Definition EEXIST : Z := 17.
Definition ENOTDIR : Z := 20.
Definition EISDIR : Z := 21.
Definition EINVAL : Z := 22.
Definition EMFILE : Z := 24.
Definition EFBIG : Z := 27.
Definition ENOSPC : Z := 28.
Definition EROFS : Z := 30.
Definition ENAMETOOLONG : Z := 36.
Definition ENOSYS : Z := 38.
Definition ENOTEMPTY : Z := 39.
Definition EOVERFLOW : Z := 75.
Definition ETIMEDOUT : Z := 110.

(** ** stat and open flags of the Linux host *)

Definition S_IFREG : Z := 0x8000.
Definition S_IFDIR : Z := 0x4000.
Definition O_RDONLY : Z := 0x0.
Definition O_WRONLY : Z := 0x1.
Definition O_RDWR : Z := 0x2.
Definition O_CREAT : Z := 0x40.
Definition O_EXCL : Z := 0x80.
Definition O_TRUNC : Z := 0x200.
Definition O_APPEND : Z := 0x400.
