(* ===== verification/Types.v ===== *)
(** * Shared structures

    The C structures the components share, with one setter per field for the
    assignments [p->field = value]. *)

From S2P Require Import Prelude Constants.

(** [enum server_type] of include/afpfs-ng/afp.h. *)
Definition AFPFS_SERVER_TYPE_UNKNOWN : Z := 0.
Definition AFPFS_SERVER_TYPE_NETATALK : Z := 1.
Definition AFPFS_SERVER_TYPE_AIRPORT : Z := 2.
Definition AFPFS_SERVER_TYPE_MACINTOSH : Z := 3.

(** [struct afp_unixprivs] of include/afpfs-ng/afp_protocol.h. *)
Record afp_unixprivs := mk_afp_unixprivs {
  up_uid : Z;
  up_gid : Z;
  up_permissions : Z;
  up_ua_permissions : Z }.

Definition set_up_uid (v : Z) (x : afp_unixprivs) : afp_unixprivs :=
    {| up_uid := v; up_gid := up_gid x; up_permissions := up_permissions x; up_ua_permissions :=
     up_ua_permissions x |}.
Definition set_up_gid (v : Z) (x : afp_unixprivs) : afp_unixprivs :=
    {| up_uid := up_uid x; up_gid := v; up_permissions := up_permissions x; up_ua_permissions :=
     up_ua_permissions x |}.
Definition set_up_permissions (v : Z) (x : afp_unixprivs) : afp_unixprivs :=
    {| up_uid := up_uid x; up_gid := up_gid x; up_permissions := v; up_ua_permissions :=
     up_ua_permissions x |}.
Definition set_up_ua_permissions (v : Z) (x : afp_unixprivs) : afp_unixprivs :=
    {| up_uid := up_uid x; up_gid := up_gid x; up_permissions := up_permissions x;
     up_ua_permissions := v |}.

(** [struct afp_file_info] of include/afpfs-ng/afp.h: the arrays are the lists of
    their bytes ([finderinfo] 32, [name] and [basename] [AFP_MAX_PATH]); the list
    links, the icon and the unused [translated_name] are left out. *)
Record afp_file_info := mk_afp_file_info {
  fi_attributes : Z;
  fi_did : Z;
  fi_creation_date : Z;
  fi_modification_date : Z;
  fi_backup_date : Z;
  fi_fileid : Z;
  fi_offspring : Z;
  fi_sync : Z;
  fi_finderinfo : list Z;
  fi_name : list Z;
  fi_basename : list Z;
  fi_unixprivs : afp_unixprivs;
  fi_accessrights : Z;
  fi_isdir : Z;
  fi_size : Z;
  fi_resourcesize : Z;
  fi_resource : Z;
  fi_forkid : Z;
  fi_eof : Z }.

Definition set_fi_attributes (v : Z) (x : afp_file_info) : afp_file_info :=
    {| fi_attributes := v; fi_did := fi_did x; fi_creation_date := fi_creation_date x;
     fi_modification_date := fi_modification_date x; fi_backup_date := fi_backup_date x;
     fi_fileid := fi_fileid x; fi_offspring := fi_offspring x; fi_sync := fi_sync x;
     fi_finderinfo := fi_finderinfo x; fi_name := fi_name x; fi_basename := fi_basename x;
     fi_unixprivs := fi_unixprivs x; fi_accessrights := fi_accessrights x; fi_isdir := fi_isdir
     x; fi_size := fi_size x; fi_resourcesize := fi_resourcesize x; fi_resource := fi_resource
     x; fi_forkid := fi_forkid x; fi_eof := fi_eof x |}.
Definition set_fi_did (v : Z) (x : afp_file_info) : afp_file_info :=
    {| fi_attributes := fi_attributes x; fi_did := v; fi_creation_date := fi_creation_date x;
     fi_modification_date := fi_modification_date x; fi_backup_date := fi_backup_date x;
     fi_fileid := fi_fileid x; fi_offspring := fi_offspring x; fi_sync := fi_sync x;
     fi_finderinfo := fi_finderinfo x; fi_name := fi_name x; fi_basename := fi_basename x;
     fi_unixprivs := fi_unixprivs x; fi_accessrights := fi_accessrights x; fi_isdir := fi_isdir
     x; fi_size := fi_size x; fi_resourcesize := fi_resourcesize x; fi_resource := fi_resource
     x; fi_forkid := fi_forkid x; fi_eof := fi_eof x |}.
Definition set_fi_creation_date (v : Z) (x : afp_file_info) : afp_file_info :=
    {| fi_attributes := fi_attributes x; fi_did := fi_did x; fi_creation_date := v;
     fi_modification_date := fi_modification_date x; fi_backup_date := fi_backup_date x;
     fi_fileid := fi_fileid x; fi_offspring := fi_offspring x; fi_sync := fi_sync x;
     fi_finderinfo := fi_finderinfo x; fi_name := fi_name x; fi_basename := fi_basename x;
     fi_unixprivs := fi_unixprivs x; fi_accessrights := fi_accessrights x; fi_isdir := fi_isdir
     x; fi_size := fi_size x; fi_resourcesize := fi_resourcesize x; fi_resource := fi_resource
     x; fi_forkid := fi_forkid x; fi_eof := fi_eof x |}.
Definition set_fi_modification_date (v : Z) (x : afp_file_info) : afp_file_info :=
    {| fi_attributes := fi_attributes x; fi_did := fi_did x; fi_creation_date :=
     fi_creation_date x; fi_modification_date := v; fi_backup_date := fi_backup_date x;
     fi_fileid := fi_fileid x; fi_offspring := fi_offspring x; fi_sync := fi_sync x;
     fi_finderinfo := fi_finderinfo x; fi_name := fi_name x; fi_basename := fi_basename x;
     fi_unixprivs := fi_unixprivs x; fi_accessrights := fi_accessrights x; fi_isdir := fi_isdir
     x; fi_size := fi_size x; fi_resourcesize := fi_resourcesize x; fi_resource := fi_resource
     x; fi_forkid := fi_forkid x; fi_eof := fi_eof x |}.
Definition set_fi_backup_date (v : Z) (x : afp_file_info) : afp_file_info :=
    {| fi_attributes := fi_attributes x; fi_did := fi_did x; fi_creation_date :=
     fi_creation_date x; fi_modification_date := fi_modification_date x; fi_backup_date := v;
     fi_fileid := fi_fileid x; fi_offspring := fi_offspring x; fi_sync := fi_sync x;
     fi_finderinfo := fi_finderinfo x; fi_name := fi_name x; fi_basename := fi_basename x;
     fi_unixprivs := fi_unixprivs x; fi_accessrights := fi_accessrights x; fi_isdir := fi_isdir
     x; fi_size := fi_size x; fi_resourcesize := fi_resourcesize x; fi_resource := fi_resource
     x; fi_forkid := fi_forkid x; fi_eof := fi_eof x |}.
Definition set_fi_fileid (v : Z) (x : afp_file_info) : afp_file_info :=
    {| fi_attributes := fi_attributes x; fi_did := fi_did x; fi_creation_date :=
     fi_creation_date x; fi_modification_date := fi_modification_date x; fi_backup_date :=
     fi_backup_date x; fi_fileid := v; fi_offspring := fi_offspring x; fi_sync := fi_sync x;
     fi_finderinfo := fi_finderinfo x; fi_name := fi_name x; fi_basename := fi_basename x;
     fi_unixprivs := fi_unixprivs x; fi_accessrights := fi_accessrights x; fi_isdir := fi_isdir
     x; fi_size := fi_size x; fi_resourcesize := fi_resourcesize x; fi_resource := fi_resource
     x; fi_forkid := fi_forkid x; fi_eof := fi_eof x |}.
Definition set_fi_offspring (v : Z) (x : afp_file_info) : afp_file_info :=
    {| fi_attributes := fi_attributes x; fi_did := fi_did x; fi_creation_date :=
     fi_creation_date x; fi_modification_date := fi_modification_date x; fi_backup_date :=
     fi_backup_date x; fi_fileid := fi_fileid x; fi_offspring := v; fi_sync := fi_sync x;
     fi_finderinfo := fi_finderinfo x; fi_name := fi_name x; fi_basename := fi_basename x;
     fi_unixprivs := fi_unixprivs x; fi_accessrights := fi_accessrights x; fi_isdir := fi_isdir
     x; fi_size := fi_size x; fi_resourcesize := fi_resourcesize x; fi_resource := fi_resource
     x; fi_forkid := fi_forkid x; fi_eof := fi_eof x |}.
Definition set_fi_sync (v : Z) (x : afp_file_info) : afp_file_info :=
    {| fi_attributes := fi_attributes x; fi_did := fi_did x; fi_creation_date :=
     fi_creation_date x; fi_modification_date := fi_modification_date x; fi_backup_date :=
     fi_backup_date x; fi_fileid := fi_fileid x; fi_offspring := fi_offspring x; fi_sync := v;
     fi_finderinfo := fi_finderinfo x; fi_name := fi_name x; fi_basename := fi_basename x;
     fi_unixprivs := fi_unixprivs x; fi_accessrights := fi_accessrights x; fi_isdir := fi_isdir
     x; fi_size := fi_size x; fi_resourcesize := fi_resourcesize x; fi_resource := fi_resource
     x; fi_forkid := fi_forkid x; fi_eof := fi_eof x |}.
Definition set_fi_finderinfo (v : list Z) (x : afp_file_info) : afp_file_info :=
    {| fi_attributes := fi_attributes x; fi_did := fi_did x; fi_creation_date :=
     fi_creation_date x; fi_modification_date := fi_modification_date x; fi_backup_date :=
     fi_backup_date x; fi_fileid := fi_fileid x; fi_offspring := fi_offspring x; fi_sync :=
     fi_sync x; fi_finderinfo := v; fi_name := fi_name x; fi_basename := fi_basename x;
     fi_unixprivs := fi_unixprivs x; fi_accessrights := fi_accessrights x; fi_isdir := fi_isdir
     x; fi_size := fi_size x; fi_resourcesize := fi_resourcesize x; fi_resource := fi_resource
     x; fi_forkid := fi_forkid x; fi_eof := fi_eof x |}.
Definition set_fi_name (v : list Z) (x : afp_file_info) : afp_file_info :=
    {| fi_attributes := fi_attributes x; fi_did := fi_did x; fi_creation_date :=
     fi_creation_date x; fi_modification_date := fi_modification_date x; fi_backup_date :=
     fi_backup_date x; fi_fileid := fi_fileid x; fi_offspring := fi_offspring x; fi_sync :=
     fi_sync x; fi_finderinfo := fi_finderinfo x; fi_name := v; fi_basename := fi_basename x;
     fi_unixprivs := fi_unixprivs x; fi_accessrights := fi_accessrights x; fi_isdir := fi_isdir
     x; fi_size := fi_size x; fi_resourcesize := fi_resourcesize x; fi_resource := fi_resource
     x; fi_forkid := fi_forkid x; fi_eof := fi_eof x |}.
Definition set_fi_basename (v : list Z) (x : afp_file_info) : afp_file_info :=
    {| fi_attributes := fi_attributes x; fi_did := fi_did x; fi_creation_date :=
     fi_creation_date x; fi_modification_date := fi_modification_date x; fi_backup_date :=
     fi_backup_date x; fi_fileid := fi_fileid x; fi_offspring := fi_offspring x; fi_sync :=
     fi_sync x; fi_finderinfo := fi_finderinfo x; fi_name := fi_name x; fi_basename := v;
     fi_unixprivs := fi_unixprivs x; fi_accessrights := fi_accessrights x; fi_isdir := fi_isdir
     x; fi_size := fi_size x; fi_resourcesize := fi_resourcesize x; fi_resource := fi_resource
     x; fi_forkid := fi_forkid x; fi_eof := fi_eof x |}.
Definition set_fi_unixprivs (v : afp_unixprivs) (x : afp_file_info) : afp_file_info :=
    {| fi_attributes := fi_attributes x; fi_did := fi_did x; fi_creation_date :=
     fi_creation_date x; fi_modification_date := fi_modification_date x; fi_backup_date :=
     fi_backup_date x; fi_fileid := fi_fileid x; fi_offspring := fi_offspring x; fi_sync :=
     fi_sync x; fi_finderinfo := fi_finderinfo x; fi_name := fi_name x; fi_basename :=
     fi_basename x; fi_unixprivs := v; fi_accessrights := fi_accessrights x; fi_isdir :=
     fi_isdir x; fi_size := fi_size x; fi_resourcesize := fi_resourcesize x; fi_resource :=
     fi_resource x; fi_forkid := fi_forkid x; fi_eof := fi_eof x |}.
Definition set_fi_accessrights (v : Z) (x : afp_file_info) : afp_file_info :=
    {| fi_attributes := fi_attributes x; fi_did := fi_did x; fi_creation_date :=
     fi_creation_date x; fi_modification_date := fi_modification_date x; fi_backup_date :=
     fi_backup_date x; fi_fileid := fi_fileid x; fi_offspring := fi_offspring x; fi_sync :=
     fi_sync x; fi_finderinfo := fi_finderinfo x; fi_name := fi_name x; fi_basename :=
     fi_basename x; fi_unixprivs := fi_unixprivs x; fi_accessrights := v; fi_isdir := fi_isdir
     x; fi_size := fi_size x; fi_resourcesize := fi_resourcesize x; fi_resource := fi_resource
     x; fi_forkid := fi_forkid x; fi_eof := fi_eof x |}.
Definition set_fi_isdir (v : Z) (x : afp_file_info) : afp_file_info :=
    {| fi_attributes := fi_attributes x; fi_did := fi_did x; fi_creation_date :=
     fi_creation_date x; fi_modification_date := fi_modification_date x; fi_backup_date :=
     fi_backup_date x; fi_fileid := fi_fileid x; fi_offspring := fi_offspring x; fi_sync :=
     fi_sync x; fi_finderinfo := fi_finderinfo x; fi_name := fi_name x; fi_basename :=
     fi_basename x; fi_unixprivs := fi_unixprivs x; fi_accessrights := fi_accessrights x;
     fi_isdir := v; fi_size := fi_size x; fi_resourcesize := fi_resourcesize x; fi_resource :=
     fi_resource x; fi_forkid := fi_forkid x; fi_eof := fi_eof x |}.
Definition set_fi_size (v : Z) (x : afp_file_info) : afp_file_info :=
    {| fi_attributes := fi_attributes x; fi_did := fi_did x; fi_creation_date :=
     fi_creation_date x; fi_modification_date := fi_modification_date x; fi_backup_date :=
     fi_backup_date x; fi_fileid := fi_fileid x; fi_offspring := fi_offspring x; fi_sync :=
     fi_sync x; fi_finderinfo := fi_finderinfo x; fi_name := fi_name x; fi_basename :=
     fi_basename x; fi_unixprivs := fi_unixprivs x; fi_accessrights := fi_accessrights x;
     fi_isdir := fi_isdir x; fi_size := v; fi_resourcesize := fi_resourcesize x; fi_resource :=
     fi_resource x; fi_forkid := fi_forkid x; fi_eof := fi_eof x |}.
Definition set_fi_resourcesize (v : Z) (x : afp_file_info) : afp_file_info :=
    {| fi_attributes := fi_attributes x; fi_did := fi_did x; fi_creation_date :=
     fi_creation_date x; fi_modification_date := fi_modification_date x; fi_backup_date :=
     fi_backup_date x; fi_fileid := fi_fileid x; fi_offspring := fi_offspring x; fi_sync :=
     fi_sync x; fi_finderinfo := fi_finderinfo x; fi_name := fi_name x; fi_basename :=
     fi_basename x; fi_unixprivs := fi_unixprivs x; fi_accessrights := fi_accessrights x;
     fi_isdir := fi_isdir x; fi_size := fi_size x; fi_resourcesize := v; fi_resource :=
     fi_resource x; fi_forkid := fi_forkid x; fi_eof := fi_eof x |}.
Definition set_fi_resource (v : Z) (x : afp_file_info) : afp_file_info :=
    {| fi_attributes := fi_attributes x; fi_did := fi_did x; fi_creation_date :=
     fi_creation_date x; fi_modification_date := fi_modification_date x; fi_backup_date :=
     fi_backup_date x; fi_fileid := fi_fileid x; fi_offspring := fi_offspring x; fi_sync :=
     fi_sync x; fi_finderinfo := fi_finderinfo x; fi_name := fi_name x; fi_basename :=
     fi_basename x; fi_unixprivs := fi_unixprivs x; fi_accessrights := fi_accessrights x;
     fi_isdir := fi_isdir x; fi_size := fi_size x; fi_resourcesize := fi_resourcesize x;
     fi_resource := v; fi_forkid := fi_forkid x; fi_eof := fi_eof x |}.
Definition set_fi_forkid (v : Z) (x : afp_file_info) : afp_file_info :=
    {| fi_attributes := fi_attributes x; fi_did := fi_did x; fi_creation_date :=
     fi_creation_date x; fi_modification_date := fi_modification_date x; fi_backup_date :=
     fi_backup_date x; fi_fileid := fi_fileid x; fi_offspring := fi_offspring x; fi_sync :=
     fi_sync x; fi_finderinfo := fi_finderinfo x; fi_name := fi_name x; fi_basename :=
     fi_basename x; fi_unixprivs := fi_unixprivs x; fi_accessrights := fi_accessrights x;
     fi_isdir := fi_isdir x; fi_size := fi_size x; fi_resourcesize := fi_resourcesize x;
     fi_resource := fi_resource x; fi_forkid := v; fi_eof := fi_eof x |}.
Definition set_fi_eof (v : Z) (x : afp_file_info) : afp_file_info :=
    {| fi_attributes := fi_attributes x; fi_did := fi_did x; fi_creation_date :=
     fi_creation_date x; fi_modification_date := fi_modification_date x; fi_backup_date :=
     fi_backup_date x; fi_fileid := fi_fileid x; fi_offspring := fi_offspring x; fi_sync :=
     fi_sync x; fi_finderinfo := fi_finderinfo x; fi_name := fi_name x; fi_basename :=
     fi_basename x; fi_unixprivs := fi_unixprivs x; fi_accessrights := fi_accessrights x;
     fi_isdir := fi_isdir x; fi_size := fi_size x; fi_resourcesize := fi_resourcesize x;
     fi_resource := fi_resource x; fi_forkid := fi_forkid x; fi_eof := v |}.

(** The fields of [struct afp_server] that the file operations read;
    [sv_av_number] is [using_version->av_number], [sv_pw_uid] and [sv_pw_gid] are
    those of [passwd]. The DSI side of the structure is in Dsi.v. *)
Record afp_server := mk_afp_server {
  sv_path_encoding : Z;
  sv_av_number : Z;
  sv_rx_quantum : Z;
  sv_tx_quantum : Z;
  sv_server_type : Z;
  sv_connect_time : Z;
  sv_server_uid : Z;
  sv_server_gid : Z;
  sv_server_gid_valid : Z;
  sv_pw_uid : Z;
  sv_pw_gid : Z }.

Definition set_sv_path_encoding (v : Z) (x : afp_server) : afp_server :=
    {| sv_path_encoding := v; sv_av_number := sv_av_number x; sv_rx_quantum := sv_rx_quantum x;
     sv_tx_quantum := sv_tx_quantum x; sv_server_type := sv_server_type x; sv_connect_time :=
     sv_connect_time x; sv_server_uid := sv_server_uid x; sv_server_gid := sv_server_gid x;
     sv_server_gid_valid := sv_server_gid_valid x; sv_pw_uid := sv_pw_uid x; sv_pw_gid :=
     sv_pw_gid x |}.
Definition set_sv_av_number (v : Z) (x : afp_server) : afp_server :=
    {| sv_path_encoding := sv_path_encoding x; sv_av_number := v; sv_rx_quantum := sv_rx_quantum
     x; sv_tx_quantum := sv_tx_quantum x; sv_server_type := sv_server_type x; sv_connect_time :=
     sv_connect_time x; sv_server_uid := sv_server_uid x; sv_server_gid := sv_server_gid x;
     sv_server_gid_valid := sv_server_gid_valid x; sv_pw_uid := sv_pw_uid x; sv_pw_gid :=
     sv_pw_gid x |}.
Definition set_sv_rx_quantum (v : Z) (x : afp_server) : afp_server :=
    {| sv_path_encoding := sv_path_encoding x; sv_av_number := sv_av_number x; sv_rx_quantum :=
     v; sv_tx_quantum := sv_tx_quantum x; sv_server_type := sv_server_type x; sv_connect_time :=
     sv_connect_time x; sv_server_uid := sv_server_uid x; sv_server_gid := sv_server_gid x;
     sv_server_gid_valid := sv_server_gid_valid x; sv_pw_uid := sv_pw_uid x; sv_pw_gid :=
     sv_pw_gid x |}.
Definition set_sv_tx_quantum (v : Z) (x : afp_server) : afp_server :=
    {| sv_path_encoding := sv_path_encoding x; sv_av_number := sv_av_number x; sv_rx_quantum :=
     sv_rx_quantum x; sv_tx_quantum := v; sv_server_type := sv_server_type x; sv_connect_time :=
     sv_connect_time x; sv_server_uid := sv_server_uid x; sv_server_gid := sv_server_gid x;
     sv_server_gid_valid := sv_server_gid_valid x; sv_pw_uid := sv_pw_uid x; sv_pw_gid :=
     sv_pw_gid x |}.
Definition set_sv_server_type (v : Z) (x : afp_server) : afp_server :=
    {| sv_path_encoding := sv_path_encoding x; sv_av_number := sv_av_number x; sv_rx_quantum :=
     sv_rx_quantum x; sv_tx_quantum := sv_tx_quantum x; sv_server_type := v; sv_connect_time :=
     sv_connect_time x; sv_server_uid := sv_server_uid x; sv_server_gid := sv_server_gid x;
     sv_server_gid_valid := sv_server_gid_valid x; sv_pw_uid := sv_pw_uid x; sv_pw_gid :=
     sv_pw_gid x |}.
Definition set_sv_connect_time (v : Z) (x : afp_server) : afp_server :=
    {| sv_path_encoding := sv_path_encoding x; sv_av_number := sv_av_number x; sv_rx_quantum :=
     sv_rx_quantum x; sv_tx_quantum := sv_tx_quantum x; sv_server_type := sv_server_type x;
     sv_connect_time := v; sv_server_uid := sv_server_uid x; sv_server_gid := sv_server_gid x;
     sv_server_gid_valid := sv_server_gid_valid x; sv_pw_uid := sv_pw_uid x; sv_pw_gid :=
     sv_pw_gid x |}.
Definition set_sv_server_uid (v : Z) (x : afp_server) : afp_server :=
    {| sv_path_encoding := sv_path_encoding x; sv_av_number := sv_av_number x; sv_rx_quantum :=
     sv_rx_quantum x; sv_tx_quantum := sv_tx_quantum x; sv_server_type := sv_server_type x;
     sv_connect_time := sv_connect_time x; sv_server_uid := v; sv_server_gid := sv_server_gid x;
     sv_server_gid_valid := sv_server_gid_valid x; sv_pw_uid := sv_pw_uid x; sv_pw_gid :=
     sv_pw_gid x |}.
Definition set_sv_server_gid (v : Z) (x : afp_server) : afp_server :=
    {| sv_path_encoding := sv_path_encoding x; sv_av_number := sv_av_number x; sv_rx_quantum :=
     sv_rx_quantum x; sv_tx_quantum := sv_tx_quantum x; sv_server_type := sv_server_type x;
     sv_connect_time := sv_connect_time x; sv_server_uid := sv_server_uid x; sv_server_gid := v;
     sv_server_gid_valid := sv_server_gid_valid x; sv_pw_uid := sv_pw_uid x; sv_pw_gid :=
     sv_pw_gid x |}.
Definition set_sv_server_gid_valid (v : Z) (x : afp_server) : afp_server :=
    {| sv_path_encoding := sv_path_encoding x; sv_av_number := sv_av_number x; sv_rx_quantum :=
     sv_rx_quantum x; sv_tx_quantum := sv_tx_quantum x; sv_server_type := sv_server_type x;
     sv_connect_time := sv_connect_time x; sv_server_uid := sv_server_uid x; sv_server_gid :=
     sv_server_gid x; sv_server_gid_valid := v; sv_pw_uid := sv_pw_uid x; sv_pw_gid := sv_pw_gid
     x |}.
Definition set_sv_pw_uid (v : Z) (x : afp_server) : afp_server :=
    {| sv_path_encoding := sv_path_encoding x; sv_av_number := sv_av_number x; sv_rx_quantum :=
     sv_rx_quantum x; sv_tx_quantum := sv_tx_quantum x; sv_server_type := sv_server_type x;
     sv_connect_time := sv_connect_time x; sv_server_uid := sv_server_uid x; sv_server_gid :=
     sv_server_gid x; sv_server_gid_valid := sv_server_gid_valid x; sv_pw_uid := v; sv_pw_gid :=
     sv_pw_gid x |}.
Definition set_sv_pw_gid (v : Z) (x : afp_server) : afp_server :=
    {| sv_path_encoding := sv_path_encoding x; sv_av_number := sv_av_number x; sv_rx_quantum :=
     sv_rx_quantum x; sv_tx_quantum := sv_tx_quantum x; sv_server_type := sv_server_type x;
     sv_connect_time := sv_connect_time x; sv_server_uid := sv_server_uid x; sv_server_gid :=
     sv_server_gid x; sv_server_gid_valid := sv_server_gid_valid x; sv_pw_uid := sv_pw_uid x;
     sv_pw_gid := v |}.

(** [struct afp_volume] of include/afpfs-ng/afp.h; [vo_f_bfree], [vo_f_blocks] and
    [vo_f_bsize] are those of [stat]. The directory cache and the list of open
    forks are in Did.v and Forklist.v. *)
Record afp_volume := mk_afp_volume {
  vo_volid : Z;
  vo_flags : Z;
  vo_attributes : Z;
  vo_signature : Z;
  vo_creation_date : Z;
  vo_modification_date : Z;
  vo_backup_date : Z;
  vo_f_bfree : Z;
  vo_f_blocks : Z;
  vo_f_bsize : Z;
  vo_volume_name : list Z;
  vo_volume_name_printable : list Z;
  vo_dtrefnum : Z;
  vo_extra_flags : Z;
  vo_mapping : Z }.

Definition set_vo_volid (v : Z) (x : afp_volume) : afp_volume :=
    {| vo_volid := v; vo_flags := vo_flags x; vo_attributes := vo_attributes x; vo_signature :=
     vo_signature x; vo_creation_date := vo_creation_date x; vo_modification_date :=
     vo_modification_date x; vo_backup_date := vo_backup_date x; vo_f_bfree := vo_f_bfree x;
     vo_f_blocks := vo_f_blocks x; vo_f_bsize := vo_f_bsize x; vo_volume_name := vo_volume_name
     x; vo_volume_name_printable := vo_volume_name_printable x; vo_dtrefnum := vo_dtrefnum x;
     vo_extra_flags := vo_extra_flags x; vo_mapping := vo_mapping x |}.
Definition set_vo_flags (v : Z) (x : afp_volume) : afp_volume :=
    {| vo_volid := vo_volid x; vo_flags := v; vo_attributes := vo_attributes x; vo_signature :=
     vo_signature x; vo_creation_date := vo_creation_date x; vo_modification_date :=
     vo_modification_date x; vo_backup_date := vo_backup_date x; vo_f_bfree := vo_f_bfree x;
     vo_f_blocks := vo_f_blocks x; vo_f_bsize := vo_f_bsize x; vo_volume_name := vo_volume_name
     x; vo_volume_name_printable := vo_volume_name_printable x; vo_dtrefnum := vo_dtrefnum x;
     vo_extra_flags := vo_extra_flags x; vo_mapping := vo_mapping x |}.
Definition set_vo_attributes (v : Z) (x : afp_volume) : afp_volume :=
    {| vo_volid := vo_volid x; vo_flags := vo_flags x; vo_attributes := v; vo_signature :=
     vo_signature x; vo_creation_date := vo_creation_date x; vo_modification_date :=
     vo_modification_date x; vo_backup_date := vo_backup_date x; vo_f_bfree := vo_f_bfree x;
     vo_f_blocks := vo_f_blocks x; vo_f_bsize := vo_f_bsize x; vo_volume_name := vo_volume_name
     x; vo_volume_name_printable := vo_volume_name_printable x; vo_dtrefnum := vo_dtrefnum x;
     vo_extra_flags := vo_extra_flags x; vo_mapping := vo_mapping x |}.
Definition set_vo_signature (v : Z) (x : afp_volume) : afp_volume :=
    {| vo_volid := vo_volid x; vo_flags := vo_flags x; vo_attributes := vo_attributes x;
     vo_signature := v; vo_creation_date := vo_creation_date x; vo_modification_date :=
     vo_modification_date x; vo_backup_date := vo_backup_date x; vo_f_bfree := vo_f_bfree x;
     vo_f_blocks := vo_f_blocks x; vo_f_bsize := vo_f_bsize x; vo_volume_name := vo_volume_name
     x; vo_volume_name_printable := vo_volume_name_printable x; vo_dtrefnum := vo_dtrefnum x;
     vo_extra_flags := vo_extra_flags x; vo_mapping := vo_mapping x |}.
Definition set_vo_creation_date (v : Z) (x : afp_volume) : afp_volume :=
    {| vo_volid := vo_volid x; vo_flags := vo_flags x; vo_attributes := vo_attributes x;
     vo_signature := vo_signature x; vo_creation_date := v; vo_modification_date :=
     vo_modification_date x; vo_backup_date := vo_backup_date x; vo_f_bfree := vo_f_bfree x;
     vo_f_blocks := vo_f_blocks x; vo_f_bsize := vo_f_bsize x; vo_volume_name := vo_volume_name
     x; vo_volume_name_printable := vo_volume_name_printable x; vo_dtrefnum := vo_dtrefnum x;
     vo_extra_flags := vo_extra_flags x; vo_mapping := vo_mapping x |}.
Definition set_vo_modification_date (v : Z) (x : afp_volume) : afp_volume :=
    {| vo_volid := vo_volid x; vo_flags := vo_flags x; vo_attributes := vo_attributes x;
     vo_signature := vo_signature x; vo_creation_date := vo_creation_date x;
     vo_modification_date := v; vo_backup_date := vo_backup_date x; vo_f_bfree := vo_f_bfree x;
     vo_f_blocks := vo_f_blocks x; vo_f_bsize := vo_f_bsize x; vo_volume_name := vo_volume_name
     x; vo_volume_name_printable := vo_volume_name_printable x; vo_dtrefnum := vo_dtrefnum x;
     vo_extra_flags := vo_extra_flags x; vo_mapping := vo_mapping x |}.
Definition set_vo_backup_date (v : Z) (x : afp_volume) : afp_volume :=
    {| vo_volid := vo_volid x; vo_flags := vo_flags x; vo_attributes := vo_attributes x;
     vo_signature := vo_signature x; vo_creation_date := vo_creation_date x;
     vo_modification_date := vo_modification_date x; vo_backup_date := v; vo_f_bfree :=
     vo_f_bfree x; vo_f_blocks := vo_f_blocks x; vo_f_bsize := vo_f_bsize x; vo_volume_name :=
     vo_volume_name x; vo_volume_name_printable := vo_volume_name_printable x; vo_dtrefnum :=
     vo_dtrefnum x; vo_extra_flags := vo_extra_flags x; vo_mapping := vo_mapping x |}.
Definition set_vo_f_bfree (v : Z) (x : afp_volume) : afp_volume :=
    {| vo_volid := vo_volid x; vo_flags := vo_flags x; vo_attributes := vo_attributes x;
     vo_signature := vo_signature x; vo_creation_date := vo_creation_date x;
     vo_modification_date := vo_modification_date x; vo_backup_date := vo_backup_date x;
     vo_f_bfree := v; vo_f_blocks := vo_f_blocks x; vo_f_bsize := vo_f_bsize x; vo_volume_name
     := vo_volume_name x; vo_volume_name_printable := vo_volume_name_printable x; vo_dtrefnum :=
     vo_dtrefnum x; vo_extra_flags := vo_extra_flags x; vo_mapping := vo_mapping x |}.
Definition set_vo_f_blocks (v : Z) (x : afp_volume) : afp_volume :=
    {| vo_volid := vo_volid x; vo_flags := vo_flags x; vo_attributes := vo_attributes x;
     vo_signature := vo_signature x; vo_creation_date := vo_creation_date x;
     vo_modification_date := vo_modification_date x; vo_backup_date := vo_backup_date x;
     vo_f_bfree := vo_f_bfree x; vo_f_blocks := v; vo_f_bsize := vo_f_bsize x; vo_volume_name :=
     vo_volume_name x; vo_volume_name_printable := vo_volume_name_printable x; vo_dtrefnum :=
     vo_dtrefnum x; vo_extra_flags := vo_extra_flags x; vo_mapping := vo_mapping x |}.
Definition set_vo_f_bsize (v : Z) (x : afp_volume) : afp_volume :=
    {| vo_volid := vo_volid x; vo_flags := vo_flags x; vo_attributes := vo_attributes x;
     vo_signature := vo_signature x; vo_creation_date := vo_creation_date x;
     vo_modification_date := vo_modification_date x; vo_backup_date := vo_backup_date x;
     vo_f_bfree := vo_f_bfree x; vo_f_blocks := vo_f_blocks x; vo_f_bsize := v; vo_volume_name
     := vo_volume_name x; vo_volume_name_printable := vo_volume_name_printable x; vo_dtrefnum :=
     vo_dtrefnum x; vo_extra_flags := vo_extra_flags x; vo_mapping := vo_mapping x |}.
Definition set_vo_volume_name (v : list Z) (x : afp_volume) : afp_volume :=
    {| vo_volid := vo_volid x; vo_flags := vo_flags x; vo_attributes := vo_attributes x;
     vo_signature := vo_signature x; vo_creation_date := vo_creation_date x;
     vo_modification_date := vo_modification_date x; vo_backup_date := vo_backup_date x;
     vo_f_bfree := vo_f_bfree x; vo_f_blocks := vo_f_blocks x; vo_f_bsize := vo_f_bsize x;
     vo_volume_name := v; vo_volume_name_printable := vo_volume_name_printable x; vo_dtrefnum :=
     vo_dtrefnum x; vo_extra_flags := vo_extra_flags x; vo_mapping := vo_mapping x |}.
Definition set_vo_volume_name_printable (v : list Z) (x : afp_volume) : afp_volume :=
    {| vo_volid := vo_volid x; vo_flags := vo_flags x; vo_attributes := vo_attributes x;
     vo_signature := vo_signature x; vo_creation_date := vo_creation_date x;
     vo_modification_date := vo_modification_date x; vo_backup_date := vo_backup_date x;
     vo_f_bfree := vo_f_bfree x; vo_f_blocks := vo_f_blocks x; vo_f_bsize := vo_f_bsize x;
     vo_volume_name := vo_volume_name x; vo_volume_name_printable := v; vo_dtrefnum :=
     vo_dtrefnum x; vo_extra_flags := vo_extra_flags x; vo_mapping := vo_mapping x |}.
Definition set_vo_dtrefnum (v : Z) (x : afp_volume) : afp_volume :=
    {| vo_volid := vo_volid x; vo_flags := vo_flags x; vo_attributes := vo_attributes x;
     vo_signature := vo_signature x; vo_creation_date := vo_creation_date x;
     vo_modification_date := vo_modification_date x; vo_backup_date := vo_backup_date x;
     vo_f_bfree := vo_f_bfree x; vo_f_blocks := vo_f_blocks x; vo_f_bsize := vo_f_bsize x;
     vo_volume_name := vo_volume_name x; vo_volume_name_printable := vo_volume_name_printable x;
     vo_dtrefnum := v; vo_extra_flags := vo_extra_flags x; vo_mapping := vo_mapping x |}.
Definition set_vo_extra_flags (v : Z) (x : afp_volume) : afp_volume :=
    {| vo_volid := vo_volid x; vo_flags := vo_flags x; vo_attributes := vo_attributes x;
     vo_signature := vo_signature x; vo_creation_date := vo_creation_date x;
     vo_modification_date := vo_modification_date x; vo_backup_date := vo_backup_date x;
     vo_f_bfree := vo_f_bfree x; vo_f_blocks := vo_f_blocks x; vo_f_bsize := vo_f_bsize x;
     vo_volume_name := vo_volume_name x; vo_volume_name_printable := vo_volume_name_printable x;
     vo_dtrefnum := vo_dtrefnum x; vo_extra_flags := v; vo_mapping := vo_mapping x |}.
Definition set_vo_mapping (v : Z) (x : afp_volume) : afp_volume :=
    {| vo_volid := vo_volid x; vo_flags := vo_flags x; vo_attributes := vo_attributes x;
     vo_signature := vo_signature x; vo_creation_date := vo_creation_date x;
     vo_modification_date := vo_modification_date x; vo_backup_date := vo_backup_date x;
     vo_f_bfree := vo_f_bfree x; vo_f_blocks := vo_f_blocks x; vo_f_bsize := vo_f_bsize x;
     vo_volume_name := vo_volume_name x; vo_volume_name_printable := vo_volume_name_printable x;
     vo_dtrefnum := vo_dtrefnum x; vo_extra_flags := vo_extra_flags x; vo_mapping := v |}.

(** [memset(fp,0,sizeof(struct afp_file_info))] *)
Definition zero_unixprivs : afp_unixprivs := mk_afp_unixprivs 0 0 0 0.

Definition zero_file_info : afp_file_info :=
  {| fi_attributes := 0; fi_did := 0; fi_creation_date := 0;
     fi_modification_date := 0; fi_backup_date := 0; fi_fileid := 0;
     fi_offspring := 0; fi_sync := 0; fi_finderinfo := replicate 32 0;
     fi_name := replicate 768 0; fi_basename := replicate 768 0;
     fi_unixprivs := zero_unixprivs; fi_accessrights := 0; fi_isdir := 0;
     fi_size := 0; fi_resourcesize := 0; fi_resource := 0; fi_forkid := 0;
     fi_eof := 0 |}.
