(* ===== verification/Unicode.v ===== *)
(** * UTF-8, UCS-2 and canonical composition: lib/unicode.c *)

From S2P Require Import Prelude UnicodeTable.

Module Unicode.

(** ** Canonical composition of two UCS-2 characters *)

Definition delta : list Z := [499; 249; 125; 62; 31; 16; 8; 4; 2; 1; 0].

(** The entry [table[i]]; an index outside the array is undefined. *)
Definition table_at (i : Z) : option (Z * Z) :=
  if i <? 0 then None else table !! Z.to_nat i.

(** The loop [while (delta[j++])]: [ds] is [delta] from index [j]. *)
Fixpoint search (ds : list Z) (i needle : Z) : option Z :=
  match ds with
  | [] => None
  | d :: ds =>
    if d =? 0 then Some (-1)
    else
      '(precomposed, pattern) ← table_at i;
      d' ← head ds;
      if needle <? pattern then search ds (i - d') needle
      else if pattern <? needle then search ds (i + d') needle
      else Some precomposed
  end.

Definition UCS2precompose (first second : Z) : option Z :=
  let needle := Z.lor (Z.shiftl first 16) second in
  search delta 499 needle.

(** Reference definition: the first entry with the pattern, or -1. *)
Fixpoint table_find (t : list (Z * Z)) (needle : Z) : Z :=
  match t with
  | [] => -1
  | (precomposed, pattern) :: t =>
    if pattern =? needle then precomposed else table_find t needle
  end.

(** ** Strings of 16-bit characters *)

(** [str16len] reads up to the terminator. *)
Definition str16len (str16 : list Z) : option nat := length <$> cstr str16.

(** [str16chr] compares the two bytes of each character in memory order: the
    first with 0 and the second with [ch]. *)
Fixpoint str16chr (str16 : list Z) (ch : Z) : option (option nat) :=
  match str16 with
  | [] => None
  | c :: str16 =>
    if c =? 0 then Some None
    else if (u8 c =? 0) && (c / 256 =? ch) then Some (Some O)
    else option_map S <$> str16chr str16 ch
  end.

Definition str16cpy (dest src : list Z) : option (list Z) :=
  s ← cstr src; blit 0 (s ++ [0]) dest.

(** [while ((n > 0) && *src)]: at most [n] characters are read. *)
Fixpoint str16_upto (n : nat) (src : list Z) : option (list Z) :=
  match n with
  | O => Some []
  | S n => match src with
           | [] => None
           | c :: src => if c =? 0 then Some [] else (c ::.) <$> str16_upto n src
           end
  end.

Definition str16ncpy (dest src : list Z) (n : nat) : option (list Z) :=
  s ← str16_upto n src; blit 0 (s ++ [0]) dest.

Definition str16cat (dest src : list Z) : option (list Z) :=
  d ← cstr dest; s ← cstr src; blit (length d) (s ++ [0]) dest.

(** ** UTF-8

    A [char *] into a string is the suffix of the memory it points at. *)

(** The loop [while (c & mask) { count++; mask >>= 1; }]: [mask] is 0 after
    eight shifts, so [fuel] 9 is never exhausted. *)
Fixpoint leading_ones (fuel : nat) (c mask count : Z) : Z :=
  match fuel with
  | O => count
  | S fuel =>
    if has c mask then leading_ones fuel c (Z.shiftr mask 1) (count + 1) else count
  end.

Definition mbCharLen (p : list Z) : option Z :=
  c ← head p;
  if c =? 0 then Some 0
  else
    let count := leading_ones 9 c 0x80 0 in
    Some (if count =? 0 then 1 else if count =? 1 then 0 else count).

Fixpoint mbStrLen_loop (fuel : nat) (p : list Z) : option nat :=
  match fuel with
  | O => None
  | S fuel =>
    clen ← mbCharLen p;
    if 0 <? clen then S <$> mbStrLen_loop fuel (drop (Z.to_nat clen) p)
    else Some O
  end.

Definition mbStrLen (str : list Z) : option nat :=
  mbStrLen_loop (S (length str)) str.

(** The [switch (clen)] of [UTF8toUCS2]: one decoded character. *)
Definition decode_char (clen : Z) (p : list Z) : option Z :=
  p0 ← p !! 0%nat;
  if clen =? 1 then Some p0
  else if clen =? 2 then
    p1 ← p !! 1%nat;
    let c16 := u16 (Z.land p1 0x3f + Z.shiftl (Z.land p0 0x1f) 6) in
    Some (if (0x7f <? c16) && (Z.land p1 0xC0 =? 0x80) then c16 else 42)
  else if clen =? 3 then
    p1 ← p !! 1%nat;
    p2 ← p !! 2%nat;
    let c16 := u16 (Z.land p2 0x3f + Z.shiftl (Z.land p1 0x3f) 6
                    + Z.shiftl (Z.land p0 0xf) 12) in
    Some (if (0x7ff <? c16) && (Z.land p1 0xC0 =? 0x80) && (Z.land p2 0xC0 =? 0x80)
          then c16 else 42)
  else Some 126.

Fixpoint UTF8toUCS2_loop (fuel : nat) (p : list Z) : option (list Z) :=
  match fuel with
  | O => None
  | S fuel =>
    clen ← mbCharLen p;
    if 0 <? clen then
      c ← decode_char clen p;
      (c ::.) <$> UTF8toUCS2_loop fuel (drop (Z.to_nat clen) p)
    else Some []
  end.

(** The result buffer has [mbStrLen(str)+1] characters; the byte swap is not
    done because [testINTEL] is 0. *)
Definition UTF8toUCS2 (str : list Z) : option (list Z) :=
  cInString ← mbStrLen str;
  str16 ← UTF8toUCS2_loop (S (length str)) str;
  blit 0 (str16 ++ [0]) (replicate (S cInString) 0).

(** The bytes [UCS2toUTF8] writes for one character; [lo] and [hi] are the two
    bytes of the character in memory. *)
Definition encode_char (c : Z) : list Z :=
  let lo := u8 c in
  let hi := c / 256 in
  if c <? 0x0080 then [lo]
  else if c <? 0x0800 then
    [ Z.lor (Z.lor 0xc0 (Z.shiftl (Z.land hi 0x7) 2)) (Z.shiftr (Z.land lo 0xc0) 6);
      Z.lor 0x80 (Z.land lo 0x3f) ]
  else
    [ Z.lor 0xe0 (Z.shiftr (Z.land hi 0xf0) 4);
      Z.lor (Z.lor 0x80 (Z.shiftl (Z.land hi 0xf) 2)) (Z.shiftr (Z.land lo 0xc0) 6);
      Z.lor 0x80 (Z.land lo 0x3f) ].

(** The result buffer has three bytes per character and the terminator. *)
Definition UCS2toUTF8 (str16 : list Z) : option (list Z) :=
  s ← cstr str16;
  blit 0 (concat (encode_char <$> s) ++ [0]) (replicate (length s * 3 + 1) 0).

(** ** The binary search *)

(** The shape of the search: [lo] and [hi] bound the entries not yet excluded,
    and every index probed lies in the array. *)
Fixpoint search_covers (n : Z) (ds : list Z) (lo i hi : Z) : bool :=
  match ds with
  | [] => false
  | d :: ds =>
    if d =? 0 then hi =? lo + 1
    else (0 <=? i) && (i <? n) &&
         match head ds with
         | None => false
         | Some d' =>
           (if lo <? i then search_covers n ds lo (i - d') (Z.min i hi) else true) &&
           (if i <? hi then search_covers n ds (Z.max i lo) (i + d') hi else true)
         end
  end.

Fixpoint patterns_increase (t : list (Z * Z)) : bool :=
  match t with
  | [] => true
  | (_, p) :: t => forallb (fun e => p <? e.2) t && patterns_increase t
  end.

Lemma patterns_increase_lt t i j p q :
  patterns_increase t = true -> (i < j)%nat ->
  t !! i = Some p -> t !! j = Some q -> p.2 < q.2.
Proof.
  revert i j; induction t as [|[a b] t IH]; intros i j Hs Hij Hi Hj; [done|].
  simpl in Hs. apply andb_prop in Hs as [Hall Hs].
  destruct j as [|j]; [lia|]. simpl in Hj. destruct i as [|i]; simpl in Hi.
  - injection Hi as <-. rewrite forallb_forall in Hall.
    specialize (Hall q). simpl. apply Z.ltb_lt, Hall.
    apply list_elem_of_In. by eapply list_elem_of_lookup_2.
  - apply (IH i j); auto; lia.
Qed.

Lemma table_find_hit t i pre pat :
  patterns_increase t = true -> t !! i = Some (pre, pat) -> table_find t pat = pre.
Proof.
  revert i; induction t as [|[a b] t IH]; intros i Hs Hi; [done|].
  destruct i as [|i]; simpl in Hi |- *.
  - injection Hi as -> ->. by rewrite Z.eqb_refl.
  - pose proof (patterns_increase_lt _ 0 (S i) (a, b) (pre, pat) Hs ltac:(lia) eq_refl Hi).
    simpl in *. apply andb_prop in Hs as [_ Hs].
    destruct (Z.eqb_spec b pat); [lia|]. by eapply IH.
Qed.

Lemma table_find_miss t needle :
  (forall i e, t !! i = Some e -> e.2 <> needle) -> table_find t needle = -1.
Proof.
  induction t as [|[a b] t IH]; intros H; [done|]. simpl.
  destruct (Z.eqb_spec b needle) as [->|]; [by destruct (H 0%nat (a, needle))|].
  apply IH. intros i e Hi. by apply (H (S i)).
Qed.

Lemma table_at_nat i e : table_at i = Some e -> 0 <= i /\ table !! Z.to_nat i = Some e.
Proof. unfold table_at. destruct (Z.ltb_spec i 0); [done|]. auto. Qed.

#[local] Opaque table.

(** A covered search agrees with the linear one. *)
Lemma search_correct needle :
  patterns_increase table = true ->
  forall ds lo i hi,
  search_covers (Z.of_nat (length table)) ds lo i hi = true ->
  (forall k e, table !! k = Some e -> Z.of_nat k <= lo -> e.2 < needle) ->
  (forall k e, table !! k = Some e -> hi <= Z.of_nat k -> needle < e.2) ->
  search ds i needle = Some (table_find table needle).
Proof.
  intros Hs ds. induction ds as [|d ds IH]; intros lo i hi Hc Hlo Hhi; [done|].
  cbn [search search_covers] in *. destruct (Z.eqb_spec d 0) as [->|].
  - apply Z.eqb_eq in Hc. symmetry. f_equal. apply table_find_miss.
    intros k e Hk. destruct (decide (Z.of_nat k <= lo)) as [Hl|Hl].
    + pose proof (Hlo _ _ Hk Hl). lia.
    + assert (needle < e.2) by (eapply Hhi; eauto; lia). lia.
  - apply andb_prop in Hc as [[H0 Hn]%andb_prop Hc].
    apply Z.leb_le in H0. apply Z.ltb_lt in Hn.
    destruct (head ds) as [d'|] eqn:Hd; [|done].
    apply andb_prop in Hc as [Hl Hr].
    destruct (lookup_lt_is_Some_2 table (Z.to_nat i)) as [[pre pat] Hi]; [lia|].
    unfold table_at. rewrite (proj2 (Z.ltb_ge i 0)) by lia. rewrite Hi.
    cbn [mbind option_bind].
    destruct (Z.ltb_spec needle pat) as [Hlt|Hge].
    + destruct (Z.ltb_spec lo i) as [|Hli].
      * apply (IH lo _ (Z.min i hi)); auto. intros k e Hk Hki.
        destruct (decide (hi <= Z.of_nat k)); [by eapply Hhi|].
        destruct (decide (k = Z.to_nat i)) as [->|]; [rewrite Hi in Hk; injection Hk as <-; exact Hlt|].
        pose proof (patterns_increase_lt table (Z.to_nat i) k _ _ Hs ltac:(lia) Hi Hk).
        cbn [snd] in *. lia.
      * exfalso. pose proof (Hlo _ _ Hi ltac:(lia)) as Hx. cbn [snd] in Hx. lia.
    + destruct (Z.ltb_spec pat needle) as [Hgt|Hle].
      * destruct (Z.ltb_spec i hi) as [|Hih].
        -- apply (IH (Z.max i lo) _ hi); auto. intros k e Hk Hki.
           destruct (decide (Z.of_nat k <= lo)); [by eapply Hlo|].
           destruct (decide (k = Z.to_nat i)) as [->|]; [rewrite Hi in Hk; injection Hk as <-; exact Hgt|].
           pose proof (patterns_increase_lt table k (Z.to_nat i) _ _ Hs ltac:(lia) Hk Hi).
           cbn [snd] in *. lia.
        -- exfalso. pose proof (Hhi _ _ Hi ltac:(lia)) as Hx. cbn [snd] in Hx. lia.
      * assert (pat = needle) as -> by lia. f_equal. symmetry.
        by eapply table_find_hit.
Qed.

Lemma table_sorted : patterns_increase table = true.
Proof. vm_compute. reflexivity. Qed.

Lemma delta_covers : search_covers (Z.of_nat (length table)) delta 0 499 998 = true.
Proof. vm_compute. reflexivity. Qed.

Lemma length_table : length table = 998%nat.
Proof. vm_compute. reflexivity. Qed.

Lemma needle_value first second :
  0 <= second < 65536 ->
  Z.lor (Z.shiftl first 16) second = first * 65536 + second.
Proof.
  intros H. rewrite Z.shiftl_mul_pow2 by lia. change 65536 with (2 ^ 16).
  by apply lor_shift_add.
Qed.

(** ** Encoding and decoding *)

Lemma land_3f b : Z.land b 0x3f = b mod 64.
Proof. apply (Z.land_ones b 6). lia. Qed.
Lemma land_f b : Z.land b 0xf = b mod 16.
Proof. apply (Z.land_ones b 4). lia. Qed.
Lemma land_7 b : Z.land b 0x7 = b mod 8.
Proof. apply (Z.land_ones b 3). lia. Qed.
Lemma land_1f b : Z.land b 0x1f = b mod 32.
Proof. apply (Z.land_ones b 5). lia. Qed.

Lemma shr_land_c0 b : byte_ok b -> Z.shiftr (Z.land b 0xc0) 6 = b / 64.
Proof.
  intros H. apply Z.eqb_eq.
  apply (byte_forall (fun b => Z.shiftr (Z.land b 0xc0) 6 =? b / 64)); [|done].
  vm_compute. reflexivity.
Qed.

Lemma shr_land_f0 b : byte_ok b -> Z.shiftr (Z.land b 0xf0) 4 = b / 16.
Proof.
  intros H. apply Z.eqb_eq.
  apply (byte_forall (fun b => Z.shiftr (Z.land b 0xf0) 4 =? b / 16)); [|done].
  vm_compute. reflexivity.
Qed.

(** The encoding in arithmetic form. *)
Lemma encode_char_spec c :
  0 <= c < 65536 ->
  encode_char c =
    if c <? 0x80 then [c]
    else if c <? 0x800 then [192 + c / 64; 128 + c mod 64]
    else [224 + c / 4096; 128 + c / 64 mod 64; 128 + c mod 64].
Proof.
  intros H. unfold encode_char, u8.
  assert (byte_ok (c mod 256)) by (apply Z.mod_pos_bound; dlia).
  assert (byte_ok (c / 256)) by (unfold byte_ok; dlia).
  rewrite !land_3f, land_7, land_f, shr_land_c0, shr_land_f0 by done.
  rewrite !Z.shiftl_mul_pow2 by dlia. change (2 ^ 2) with 4.
  destruct (Z.ltb_spec c 0x80); [f_equal; dlia|].
  assert (Z.lor 0x80 ((c mod 256) mod 64) = 128 + c mod 64) as ->.
  { rewrite (lor_shift_add 7 1) by dlia. dlia. }
  destruct (Z.ltb_spec c 0x800).
  - assert (Z.lor 0xc0 (c / 256 mod 8 * 4) = (48 + c / 256) * 2 ^ 2) as ->.
    { rewrite (lor_shift_add 6 3) by dlia. dlia. }
    rewrite lor_shift_add by dlia. f_equal. dlia.
  - assert (Z.lor 0xe0 (c / 256 / 16) = 224 + c / 4096) as ->.
    { rewrite (lor_shift_add 5 7) by dlia. dlia. }
    assert (Z.lor 0x80 (c / 256 mod 16 * 4) = (32 + c / 256 mod 16) * 2 ^ 2) as ->.
    { rewrite (lor_shift_add 7 1) by dlia. dlia. }
    rewrite lor_shift_add by dlia. do 2 f_equal. dlia.
Qed.

(** The length announced by a lead byte. *)
Definition lead_length (b : Z) : Z :=
  if b =? 0 then 0 else if b <? 0x80 then 1 else if b <? 0xc0 then 0
  else if b <? 0xe0 then 2 else if b <? 0xf0 then 3 else if b <? 0xf8 then 4
  else if b <? 0xfc then 5 else if b <? 0xfe then 6 else if b <? 0xff then 7 else 8.

Lemma mbCharLen_lead b p : byte_ok b -> mbCharLen (b :: p) = Some (lead_length b).
Proof.
  intros H. unfold mbCharLen. cbn [head mbind option_bind].
  pose (P := fun b => (if b =? 0 then 0 else
    let count := leading_ones 9 b 0x80 0 in
    if count =? 0 then 1 else if count =? 1 then 0 else count) =? lead_length b).
  assert (P b = true) as Hb by (apply byte_forall; [vm_compute; reflexivity|done]).
  unfold P in Hb. apply Z.eqb_eq in Hb. rewrite <- Hb. by case_match.
Qed.

Lemma cont_marker x : 0 <= x < 64 -> Z.land (128 + x) 0xC0 = 0x80.
Proof.
  intros H. apply Z.eqb_eq.
  assert (byte_ok x) as Hx by (unfold byte_ok; dlia).
  pose proof (byte_forall (fun x => (64 <=? x) || (Z.land (128 + x) 0xC0 =? 0x80))
    eq_refl x Hx) as Hc.
  apply orb_prop in Hc as [Hc|Hc]; [apply Z.leb_le in Hc; dlia|done].
Qed.

(** Decoding what [encode_char] wrote gives the character back. *)
Lemma decode_encode_char c rest :
  1 <= c < 65536 ->
  mbCharLen (encode_char c ++ rest) = Some (Z.of_nat (length (encode_char c))) /\
  decode_char (Z.of_nat (length (encode_char c))) (encode_char c ++ rest) = Some c.
Proof.
  intros H. rewrite encode_char_spec by dlia.
  destruct (Z.ltb_spec c 0x80) as [H1|H1]; [|destruct (Z.ltb_spec c 0x800) as [H2|H2]];
    cbn [app]; rewrite mbCharLen_lead by (unfold byte_ok; dlia); unfold lead_length.
  - split; [f_equal; repeat case_match; simpl; dlia|done].
  - split; [f_equal; repeat case_match; simpl; dlia|].
    unfold decode_char. cbn [length lookup list_lookup mbind option_bind].
    change (Z.of_nat 2) with 2. cbn [Z.eqb Pos.eqb].
    rewrite land_3f, land_1f, cont_marker, Z.shiftl_mul_pow2, Z.eqb_refl by dlia.
    rewrite u16_small by dlia. f_equal. case_match; dlia.
  - split; [f_equal; repeat case_match; simpl; dlia|].
    unfold decode_char. cbn [length lookup list_lookup mbind option_bind].
    change (Z.of_nat 3) with 3. cbn [Z.eqb Pos.eqb].
    rewrite !land_3f, land_f, !cont_marker, !Z.shiftl_mul_pow2, !Z.eqb_refl by dlia.
    rewrite u16_small by dlia. f_equal. case_match; dlia.
Qed.

(** ** The loops *)

(** More fuel than the string is long changes nothing. *)
Lemma UTF8toUCS2_encode s tail fuel :
  Forall (fun c => 1 <= c < 65536) s ->
  (length (concat (encode_char <$> s)) < fuel)%nat ->
  UTF8toUCS2_loop fuel (concat (encode_char <$> s) ++ 0 :: tail) = Some s.
Proof.
  intros Hs. revert fuel. induction Hs as [|c s Hc Hs IH]; intros fuel Hf.
  - destruct fuel as [|fuel]; [simpl in Hf; lia|]. done.
  - cbn [fmap list_fmap concat] in *. rewrite <- app_assoc.
    destruct (decode_encode_char c (concat (encode_char <$> s) ++ 0 :: tail) Hc) as [Hl Hd].
    assert (0 < length (encode_char c))%nat as Hpos.
    { rewrite encode_char_spec by lia. repeat case_match; simpl; lia. }
    rewrite length_app in Hf. destruct fuel as [|fuel]; [lia|].
    cbn [UTF8toUCS2_loop]. rewrite Hl. cbn [mbind option_bind].
    rewrite (proj2 (Z.ltb_lt 0 _)) by lia. rewrite Hd. cbn [mbind option_bind].
    rewrite Nat2Z.id, drop_app_length. rewrite IH by lia. done.
Qed.

(** The first pass counts exactly the characters of the second one. *)
Lemma mbStrLen_loop_length fuel p r :
  UTF8toUCS2_loop fuel p = Some r -> mbStrLen_loop fuel p = Some (length r).
Proof.
  revert p r; induction fuel as [|fuel IH]; intros p r H; [done|].
  cbn [UTF8toUCS2_loop mbStrLen_loop] in *.
  destruct (mbCharLen p) as [clen|]; [|done]. cbn [mbind option_bind] in *.
  destruct (0 <? clen); [|by injection H as <-].
  destruct (decode_char clen p) as [c|]; [|done]. cbn [mbind option_bind] in *.
  destruct (UTF8toUCS2_loop fuel _) as [r'|] eqn:E; [|done]. injection H as <-.
  by rewrite (IH _ _ E).
Qed.

Lemma length_encode_char c : 0 <= c < 65536 -> (length (encode_char c) <= 3)%nat.
Proof. intros H. rewrite encode_char_spec by lia. repeat case_match; simpl; lia. Qed.

Lemma length_encode s :
  Forall (fun c => 1 <= c < 65536) s ->
  (length (concat (encode_char <$> s)) <= length s * 3)%nat.
Proof.
  induction 1 as [|c s Hc Hs IH]; cbn [fmap list_fmap concat length]; [lia|].
  rewrite length_app. pose proof (length_encode_char c ltac:(lia)). lia.
Qed.

Lemma UTF8toUCS2_loop_result p r :
  UTF8toUCS2_loop (S (length p)) p = Some r -> UTF8toUCS2 p = Some (r ++ [0]).
Proof.
  intros H. unfold UTF8toUCS2, mbStrLen. rewrite (mbStrLen_loop_length _ _ _ H), H.
  cbn [mbind option_bind]. rewrite blit_in_range by solve_len.
  rewrite take_0, drop_ge, app_nil_r by solve_len. done.
Qed.

Lemma UCS2toUTF8_result s t :
  Forall (fun c => 1 <= c < 65536) s ->
  exists pad, UCS2toUTF8 (s ++ 0 :: t) = Some (concat (encode_char <$> s) ++ 0 :: pad).
Proof.
  intros Hs. unfold UCS2toUTF8. rewrite cstr_app.
  2: { eapply Forall_impl; [exact Hs|]. simpl. lia. }
  cbn [mbind option_bind]. pose proof (length_encode s Hs).
  rewrite blit_in_range by solve_len. rewrite take_0, <- app_assoc. eauto.
Qed.

Lemma precompose_search needle :
  0 < needle -> search delta 499 needle = Some (table_find table needle).
Proof.
  intros Hp. apply (search_correct _ table_sorted delta 0 499 998 delta_covers).
  - intros k e Hk Hk0. assert (k = 0%nat) as -> by lia.
    assert (table !! 0%nat = Some (0, 0)) as H0 by (vm_compute; reflexivity).
    rewrite H0 in Hk. injection Hk as <-. exact Hp.
  - intros k e Hk Hk0. apply lookup_lt_Some in Hk. rewrite length_table in Hk. lia.
Qed.

(** C37: the uniform binary search of [UCS2precompose] never leaves the table,
    and for every pair of characters but (0,0) it returns what a linear search
    of the table returns: the precomposed character, or -1 when the table has
    no such pair. *)
Theorem UCS2precompose_correct first second :
  0 <= first -> 0 <= second < 65536 -> 0 < first * 65536 + second ->
  UCS2precompose first second = Some (table_find table (first * 65536 + second)).
Proof.
  intros Hf Hs Hp. unfold UCS2precompose. cbv zeta. rewrite needle_value by done.
  by apply precompose_search.
Qed.

Lemma UCS2precompose_witness :
  UCS2precompose 0x61 0x308 = Some 0xe4 /\ UCS2precompose 0x61 0x62 = Some (-1).
Proof.
  split; (etransitivity; [apply UCS2precompose_correct; lia|vm_compute; reflexivity]).
Defined.

(** @@[UTF8toUCS2] inverts [UCS2toUTF8] on every string of non-zero 16-bit
    characters (surrogates included), and neither conversion leaves the buffer
    it allocates. *)
Theorem utf8_ucs2_roundtrip s :
  Forall (fun c => 1 <= c < 65536) s ->
  exists str, UCS2toUTF8 (s ++ [0]) = Some str /\ UTF8toUCS2 str = Some (s ++ [0]).
Proof.
  intros Hs. destruct (UCS2toUTF8_result s [] Hs) as [pad Hu].
  eexists; split; [exact Hu|]. apply UTF8toUCS2_loop_result.
  apply UTF8toUCS2_encode; [done|]. solve_len.
Qed.

Lemma utf8_ucs2_roundtrip_witness :
  exists str, UCS2toUTF8 ([0x61; 0xe4; 0x20ac; 0xd800] ++ [0]) = Some str /\
              UTF8toUCS2 str = Some ([0x61; 0xe4; 0x20ac; 0xd800] ++ [0]).
Proof. apply utf8_ucs2_roundtrip. repeat constructor; lia. Defined.

(** A multibyte character cut off by the terminator makes [UTF8toUCS2] read
    past the end of the string. *)
Lemma UTF8toUCS2_truncated : UTF8toUCS2 [0x61; 0xe2; 0] = None.
Proof. vm_compute. reflexivity. Qed.

End Unicode.
