(* ===== verification/Utils.v ===== *)
(** * Pascal strings and AFP path names: lib/utils.c *)

From S2P Require Import Prelude Constants Types.

Module Utils.

Definition slash : Z := 47.

(** The result and [outgoing], which stays as it is. *)
Definition translate_path (incoming outgoing : list Z) : Z * list Z := (0, outgoing).

(** ** Pascal strings

    [dest] is the destination buffer; the source pointer is the memory it
    points at, [None] for NULL. *)

Definition copy_from_pascal (dest : list Z) (pascal : option (list Z)) (max_len : Z)
    : option (list Z * Z) :=
  match pascal with
  | None => Some (dest, 0)
  | Some p =>
    len ← ld8 0 p;
    let len := if max_len <? len then u8 max_len else len in
    dest ← zero_fill 0 (Z.to_nat max_len) dest;
    src ← slice 1 (Z.to_nat len) p;
    dest ← blit 0 src dest;
    Some (dest, len)
  end.

Definition copy_from_pascal_two (dest pascal : list Z) (max_len : Z)
    : option (list Z * Z) :=
  len ← ntohs <$> ld16 0 pascal;
  let len := if max_len <? len then u16 max_len else len in
  if len =? 0 then Some (dest, 0)
  else
    dest ← zero_fill 0 (Z.to_nat max_len) dest;
    src ← slice 2 (Z.to_nat len) pascal;
    dest ← blit 0 src dest;
    Some (dest, len).

Definition copy_to_pascal (dest src : list Z) : option (list Z * Z) :=
  let len := u8 (Z.of_nat (length src)) in
  dest ← blit 0 [len] dest;
  dest ← blit 1 (take (Z.to_nat len) src) dest;
  Some (dest, len).

Definition copy_to_pascal_two (dest : list Z) (src : option (list Z))
    : option (list Z * Z) :=
  match src with
  | None => dest ← blit 0 [0; 0] dest; Some (dest, 2)
  | Some src =>
    let len := u16 (Z.of_nat (length src)) in
    dest ← blit 0 (st16 (htons len)) dest;
    dest ← blit 2 (take (Z.to_nat len) src) dest;
    Some (dest, len)
  end.

(** [utf8_to_string]: a hint word and a two-byte Pascal string. *)
Definition utf8_to_string (dest buf : list Z) (maxlen : Z) : option (list Z * Z) :=
  copy_from_pascal_two dest (drop 4 buf) maxlen.

(** ** Path names *)

Definition sizeof_path_header (server : afp_server) : Z :=
  if sv_path_encoding server =? kFPUTF8Name then 7
  else if sv_path_encoding server =? kFPLongName then 2
  else 0.

(** [copy_path]: the name goes through the 255-byte array [tmppathname], whose
    bytes past the ones just written are never copied out. *)
Definition copy_path (server : afp_server) (dest pathname : list Z) : option (list Z) :=
  let encoding := u8 (sv_path_encoding server) in
  let tmppathname := replicate 255 0 in
  if encoding =? kFPUTF8Name then
    dest ← blit 0 [encoding] dest;
    dest ← blit 1 (st32 (htonl 0x08000103)) dest;
    '(tmppathname, namelen) ← copy_to_pascal_two tmppathname (Some pathname);
    let namelen := u8 namelen in
    src ← slice 0 (Z.to_nat (namelen + 2)) tmppathname;
    blit 5 src dest
  else if encoding =? kFPLongName then
    dest ← blit 0 [encoding] dest;
    '(tmppathname, namelen) ← copy_to_pascal tmppathname pathname;
    let namelen := u8 namelen in
    src ← slice 0 (Z.to_nat (namelen + 1)) tmppathname;
    blit 1 src dest
  else Some dest.

Definition slash_to_nul (c : Z) : Z := if c =? slash then 0 else c.

(** The loop of [unixpath_to_afppath] over [p .. p+len-1]. *)
Definition replace_slashes (p len : nat) (buf : list Z) : option (list Z) :=
  r ← slice p len buf; blit p (slash_to_nul <$> r) buf.

Definition unixpath_to_afppath (server : afp_server) (buf : list Z) : option (list Z) :=
  let encoding := u8 (sv_path_encoding server) in
  if encoding =? kFPUTF8Name then
    len ← ntohs <$> ld16 5 buf; replace_slashes 7 (Z.to_nat len) buf
  else if encoding =? kFPLongName then
    len ← ld8 1 buf; replace_slashes 2 (Z.to_nat len) buf
  else Some buf.

(** ** File name lengths *)

Definition name_maxlen (server : afp_server) : nat :=
  if sv_av_number server <? 30 then 31
  else if sv_path_encoding server =? kFPUTF8Name then 1024
  else 255.

(** The [while ((q=strchr(p,'/')))] loop: [s] is the string from [p] on, [off]
    is [p-filename] and [len] is [strlen(filename)]. *)
Fixpoint invalid_filename_loop (fuel maxlen len off : nat) (s : list Z) : bool :=
  match fuel with
  | O => false
  | S fuel =>
    match index_of slash s with
    | Some q =>
      if decide (maxlen < q)%nat then true
      else if decide (len < off + S q)%nat then false
      else invalid_filename_loop fuel maxlen len (off + S q) (drop (S q) s)
    | None => bool_decide (maxlen < len - off)%nat
    end
  end.

(** [p] starts at [filename+1]: on the empty string the search starts past the
    terminator. *)
Definition invalid_filename (server : afp_server) (filename : list Z) : option bool :=
  if bytes_eqb filename [slash] then Some false
  else
    match filename with
    | [] => None
    | _ :: s => Some (invalid_filename_loop (length filename) (name_maxlen server)
                                            (length filename) 1 s)
    end.

(** [afp_unixpriv_to_stat]: the mode, owner and group of the zeroed [stat]. *)
Definition afp_unixpriv_to_stat (fp : afp_file_info) : Z * Z * Z :=
  let u := fi_unixprivs fp in
  ((if up_permissions u =? 0 then up_ua_permissions u else up_permissions u),
   up_uid u, up_gid u).

(** ** Specifications *)

(** The pieces of [s] between occurrences of [c]. *)
Fixpoint split_on (c : Z) (s : list Z) : list (list Z) :=
  match s with
  | [] => [[]]
  | x :: s =>
    if x =? c then [] :: split_on c s
    else match split_on c s with
         | [] => [[x]]
         | h :: t => (x :: h) :: t
         end
  end.

(** The path field of a request: type, text encoding hint and length, then the
    components separated by NUL bytes. *)
Definition path_field (server : afp_server) (s : list Z) : list Z :=
  if sv_path_encoding server =? kFPUTF8Name
  then [kFPUTF8Name] ++ be_bytes 4 0x08000103 ++ be_bytes 2 (Z.of_nat (length s))
       ++ (slash_to_nul <$> s)
  else [kFPLongName] ++ [Z.of_nat (length s)] ++ (slash_to_nul <$> s).

(** The longest name that fits in [tmppathname] behind its length. *)
Definition path_limit (server : afp_server) : nat :=
  if sv_path_encoding server =? kFPUTF8Name then 253 else 254.

Definition known_encoding (server : afp_server) : Prop :=
  sv_path_encoding server = kFPUTF8Name \/ sv_path_encoding server = kFPLongName.

(** ** Pascal strings: what the copies do *)

Lemma copy_to_pascal_spec dest s :
  (length s < 256)%nat -> (S (length s) <= length dest)%nat ->
  copy_to_pascal dest s =
    Some (Z.of_nat (length s) :: s ++ drop (S (length s)) dest, Z.of_nat (length s)).
Proof.
  intros Hs Hd. unfold copy_to_pascal. rewrite u8_small by lia. rewrite Nat2Z.id.
  rewrite take_ge by lia. rewrite blit_0 by (simpl; lia). cbn [mbind option_bind].
  rewrite (blit_app [_] s) by solve_len.
  cbn [mbind option_bind]. rewrite drop_drop. done.
Qed.

Lemma copy_to_pascal_two_spec dest s :
  Z.of_nat (length s) < 65536 -> (length s + 2 <= length dest)%nat ->
  copy_to_pascal_two dest (Some s) =
    Some (be_bytes 2 (Z.of_nat (length s)) ++ s ++ drop (length s + 2) dest,
          Z.of_nat (length s)).
Proof.
  intros Hs Hd. unfold copy_to_pascal_two. rewrite u16_small by lia.
  rewrite Nat2Z.id, st16_htons. rewrite take_ge by lia.
  rewrite blit_0 by solve_len. cbn [mbind option_bind].
  rewrite blit_app by solve_len. cbn [mbind option_bind].
  by rewrite drop_drop, length_be_bytes, (Nat.add_comm 2).
Qed.

Lemma copy_from_pascal_spec dest s rest max_len :
  (length s < 256)%nat -> (length s <= max_len <= length dest)%nat ->
  copy_from_pascal dest (Some (Z.of_nat (length s) :: s ++ rest)) (Z.of_nat max_len) =
    Some (s ++ replicate (max_len - length s) 0 ++ drop max_len dest,
          Z.of_nat (length s)).
Proof.
  intros Hs Hm. unfold copy_from_pascal. rewrite ld8_cons. cbn [mbind option_bind].
  rewrite (proj2 (Z.ltb_ge _ _)) by lia. rewrite !Nat2Z.id.
  unfold zero_fill. rewrite blit_0 by solve_len. cbn [mbind option_bind].
  rewrite (slice_at [_] s rest 1 _ eq_refl eq_refl : slice 1 _ (_ :: s ++ rest) = _). cbn [mbind option_bind].
  rewrite blit_0 by solve_len. cbn [mbind option_bind].
  rewrite length_replicate, drop_app_le by solve_len. by rewrite drop_replicate.
Qed.

Lemma copy_from_pascal_two_spec dest s rest max_len :
  0 < Z.of_nat (length s) < 65536 -> (length s <= max_len <= length dest)%nat ->
  copy_from_pascal_two dest (be_bytes 2 (Z.of_nat (length s)) ++ s ++ rest)
    (Z.of_nat max_len) =
    Some (s ++ replicate (max_len - length s) 0 ++ drop max_len dest,
          Z.of_nat (length s)).
Proof.
  intros Hs Hm. unfold copy_from_pascal_two.
  rewrite ntohs_ld16_0 by lia.
  cbn [mbind option_bind].
  rewrite (proj2 (Z.ltb_ge _ _)) by lia. rewrite (proj2 (Z.eqb_neq _ _)) by lia.
  rewrite !Nat2Z.id. unfold zero_fill. rewrite blit_0 by solve_len.
  cbn [mbind option_bind].
  rewrite (slice_at (be_bytes 2 (Z.of_nat (length s))) s rest) by solve_len.
  cbn [mbind option_bind]. rewrite blit_0 by solve_len. cbn [mbind option_bind].
  rewrite length_replicate, drop_app_le by solve_len. by rewrite drop_replicate.
Qed.

(** ** Path names: what is put on the wire *)

Lemma copy_path_spec server dest s :
  known_encoding server -> (length s <= path_limit server)%nat ->
  (Z.to_nat (sizeof_path_header server) + length s <= length dest)%nat ->
  copy_path server dest s =
    Some ((if sv_path_encoding server =? kFPUTF8Name
           then [kFPUTF8Name] ++ be_bytes 4 0x08000103 ++ be_bytes 2 (Z.of_nat (length s))
           else [kFPLongName] ++ [Z.of_nat (length s)])
          ++ s ++ drop (Z.to_nat (sizeof_path_header server) + length s) dest).
Proof.
  unfold known_encoding, path_limit, sizeof_path_header, copy_path.
  intros [-> | ->]; intros Hs Hd.
  - change (u8 kFPUTF8Name) with kFPUTF8Name. change (kFPUTF8Name =? kFPUTF8Name) with true in *. cbv iota in *. rewrite blit_0 by solve_len.
    cbn [mbind option_bind]. rewrite st32_htonl.
    rewrite (blit_app [_]) by solve_len. cbn [mbind option_bind].
    rewrite copy_to_pascal_two_spec by solve_len. cbn [mbind option_bind].
    rewrite (u8_small (Z.of_nat (length s))) by lia. 
    rewrite (app_assoc (be_bytes 2 _) s),
      (slice_0 (be_bytes 2 (Z.of_nat (length s)) ++ s)) by solve_len.
    cbn [mbind option_bind].
    rewrite (app_assoc [_] (be_bytes 4 _)), blit_app by solve_len.
    by rewrite !drop_drop, <- !app_assoc, length_be_bytes.
  - change (u8 kFPLongName) with kFPLongName. change (kFPLongName =? kFPUTF8Name) with false in *.
    change (kFPLongName =? kFPLongName) with true in *. cbv iota in *.
    rewrite blit_0 by solve_len. cbn [mbind option_bind].
    rewrite copy_to_pascal_spec by solve_len. cbn [mbind option_bind].
    rewrite (u8_small (Z.of_nat (length s))) by lia.
    rewrite (slice_0 (Z.of_nat (length s) :: s)
               (drop (S (length s)) (replicate 255 0))) by solve_len.
    cbn [mbind option_bind]. rewrite blit_app by solve_len.
    by rewrite !drop_drop.
Qed.

Lemma replace_slashes_spec pre s rest p len :
  p = length pre -> len = length s ->
  replace_slashes p len (pre ++ s ++ rest) = Some (pre ++ (slash_to_nul <$> s) ++ rest).
Proof.
  intros -> ->. unfold replace_slashes. rewrite slice_at by done.
  cbn [mbind option_bind]. apply blit_at; [done|]. by rewrite length_fmap.
Qed.

Lemma split_on_nul s :
  nul_free s -> split_on 0 (slash_to_nul <$> s) = split_on slash s.
Proof.
  induction 1 as [|c s Hc _ IH]; [done|]. rewrite fmap_cons.
  destruct (decide (c = slash)) as [->|Hn].
  - change (slash_to_nul slash) with 0. simpl. by rewrite IH.
  - assert (slash_to_nul c = c) as ->.
    { unfold slash_to_nul. by rewrite (proj2 (Z.eqb_neq c slash) Hn). }
    simpl. rewrite (proj2 (Z.eqb_neq c 0) Hc), (proj2 (Z.eqb_neq c slash) Hn).
    by rewrite IH.
Qed.

Lemma split_on_first c pre post :
  c ∉ pre -> split_on c (pre ++ c :: post) = pre :: split_on c post.
Proof.
  induction pre as [|x pre IH]; intros Hn; simpl; [by rewrite Z.eqb_refl|].
  apply not_elem_of_cons in Hn as [Hx Hn].
  rewrite (proj2 (Z.eqb_neq x c)) by congruence. by rewrite IH.
Qed.

Lemma split_on_ne c s : split_on c s <> [].
Proof.
  destruct s as [|x s]; simpl; [done|]. destruct (x =? c); [done|]. by destruct (split_on c s).
Qed.

Lemma split_on_app c a b : split_on c (a ++ c :: b) = split_on c a ++ split_on c b.
Proof.
  induction a as [|x a IH]; simpl; [by rewrite Z.eqb_refl|].
  destruct (x =? c); [by rewrite IH|]. rewrite IH. pose proof (split_on_ne c a).
  by destruct (split_on c a).
Qed.

Lemma split_on_none c s : c ∉ s -> split_on c s = [s].
Proof.
  induction s as [|x s IH]; intros Hn; simpl; [done|].
  apply not_elem_of_cons in Hn as [Hx Hn].
  rewrite (proj2 (Z.eqb_neq x c)) by congruence. by rewrite IH.
Qed.

Lemma invalid_filename_loop_spec fuel maxlen len off s :
  (length s < fuel)%nat -> len = (off + length s)%nat ->
  invalid_filename_loop fuel maxlen len off s =
    existsb (fun comp => bool_decide (maxlen < length comp)%nat) (split_on slash s).
Proof.
  revert off s; induction fuel as [|fuel IH]; intros off s Hf ->; [lia|].
  cbn [invalid_filename_loop]. destruct (index_of slash s) as [q|] eqn:E.
  - apply index_of_Some in E as (pre & post & -> & <- & Hn).
    rewrite split_on_first by done. cbn [existsb].
    case_decide; [by rewrite bool_decide_eq_true_2|].
    rewrite bool_decide_eq_false_2, orb_false_l by done.
    rewrite length_app in *. cbn [length] in *. case_decide; [lia|].
    replace (drop (S (length pre)) (pre ++ slash :: post)) with post.
    { apply IH; lia. }
    by rewrite drop_app_ge, Nat.sub_succ_l, Nat.sub_diag by lia.
  - apply index_of_None in E. rewrite split_on_none by done. cbn [existsb].
    rewrite orb_false_r. apply bool_decide_ext. lia.
Qed.

Lemma afp_path_spec server dest s :
  known_encoding server -> (length s <= path_limit server)%nat ->
  (Z.to_nat (sizeof_path_header server) + length s <= length dest)%nat ->
  (d ← copy_path server dest s; unixpath_to_afppath server d) =
    Some (path_field server s ++
          drop (Z.to_nat (sizeof_path_header server) + length s) dest).
Proof.
  intros Hk Hs Hd. rewrite copy_path_spec by done. cbn [mbind option_bind].
  unfold unixpath_to_afppath, path_field, path_limit in *.
  destruct Hk as [E | E]; rewrite E in *.
  - change (u8 kFPUTF8Name =? kFPUTF8Name) with true.
    change (kFPUTF8Name =? kFPUTF8Name) with true in *. cbv iota in *.
    rewrite <- !app_assoc, (app_assoc [_] (be_bytes 4 _)).
    rewrite ntohs_ld16 by solve_len. cbn [mbind option_bind].
    rewrite (app_assoc ([_] ++ be_bytes 4 _)), replace_slashes_spec by solve_len.
    by rewrite <- !app_assoc.
  - change (u8 kFPLongName =? kFPUTF8Name) with false.
    change (u8 kFPLongName =? kFPLongName) with true.
    change (kFPLongName =? kFPUTF8Name) with false in *. cbv iota in *.
    unfold ld8. rewrite <- !app_assoc, (slice_at [_] [_]) by done.
    cbn [fmap option_fmap option_map le_val mbind option_bind].
    rewrite (app_assoc [_] [_]), replace_slashes_spec by solve_len.
    by rewrite <- !app_assoc.
Qed.

(** For a name of at most 253 bytes (254 with long names), [copy_path]
    followed by [unixpath_to_afppath] writes exactly the path field of the
    protocol in front of the buffer and leaves the rest of it alone; a receiver
    that splits the field's name at the NUL bytes finds the components of the
    Unix path. *)
Theorem afp_path_wire server dest s :
  known_encoding server -> nul_free s -> (length s <= path_limit server)%nat ->
  (Z.to_nat (sizeof_path_header server) + length s <= length dest)%nat ->
  (d ← copy_path server dest s; unixpath_to_afppath server d) =
    Some (path_field server s ++
          drop (Z.to_nat (sizeof_path_header server) + length s) dest) /\
  split_on 0 (drop (Z.to_nat (sizeof_path_header server)) (path_field server s)) =
    split_on slash s.
Proof.
  intros Hk Hn Hs Hd. split; [by apply afp_path_spec|].
  rewrite <- (split_on_nul s Hn). f_equal. unfold path_field, sizeof_path_header.
  destruct Hk as [-> | ->]; simpl; by rewrite ?drop_0.
Qed.

Definition utf8_server : afp_server :=
  mk_afp_server kFPUTF8Name 32 131072 262144 AFPFS_SERVER_TYPE_UNKNOWN 0 0 0 0 0 0.

Lemma afp_path_wire_witness :
  (d ← copy_path utf8_server (replicate 12 7) [47; 97; 47; 98];
   unixpath_to_afppath utf8_server d) =
    Some ([3; 8; 0; 1; 3; 0; 4; 0; 97; 0; 98] ++ [7]) /\
  split_on 0 (drop 7 (path_field utf8_server [47; 97; 47; 98])) = [[]; [97]; [98]].
Proof.
  apply (afp_path_wire utf8_server (replicate 12 7) [47; 97; 47; 98]).
  - by left.
  - repeat constructor; discriminate.
  - vm_compute; lia.
  - vm_compute; lia.
Defined.

(** With UTF-8 names, a name longer than 253 bytes overruns the array
    [tmppathname] of [copy_path], whatever the destination, although
    [invalid_filename] accepts components of up to 1024 bytes. *)
Theorem copy_path_overrun server dest s :
  sv_path_encoding server = kFPUTF8Name -> 253 < Z.of_nat (length s) < 65536 ->
  copy_path server dest s = None.
Proof.
  intros E Hs. unfold copy_path. rewrite E.
  change (u8 kFPUTF8Name =? kFPUTF8Name) with true. cbv iota.
  destruct (blit 0 _ dest) as [d1|]; [|done]. cbn [mbind option_bind].
  destruct (blit 1 _ d1) as [d2|]; [|done]. cbn [mbind option_bind].
  unfold copy_to_pascal_two. rewrite u16_small by lia. rewrite Nat2Z.id, take_ge by lia.
  destruct (blit 0 _ (replicate 255 0)) as [t|] eqn:E1; [|done].
  apply blit_length in E1. cbn [mbind option_bind].
  destruct (blit 2 s t) as [t'|] eqn:E2; [|done].
  apply blit_Some in E2 as [E2 _]. rewrite E1, length_replicate in E2. lia.
Qed.

Lemma copy_path_overrun_witness :
  invalid_filename utf8_server (47 :: replicate 254 97) = Some false /\
  copy_path utf8_server (replicate 400 0) (replicate 254 97) = None.
Proof. split; [vm_compute; reflexivity|]. apply copy_path_overrun; simpl; lia. Defined.

(** @@[invalid_filename] on a path other than the root answers whether some
    component after the first character is longer than the version's limit. *)
Theorem invalid_filename_spec server c s :
  c :: s <> [slash] ->
  invalid_filename server (c :: s) =
    Some (existsb (fun comp => bool_decide (name_maxlen server < length comp)%nat)
                  (split_on slash s)).
Proof.
  intros H. unfold invalid_filename, bytes_eqb. rewrite bool_decide_eq_false_2 by done.
  f_equal. apply invalid_filename_loop_spec; simpl; lia.
Qed.

Lemma invalid_filename_spec_witness :
  invalid_filename utf8_server ([47] ++ replicate 1025 97) = Some true /\
  invalid_filename utf8_server [47; 97; 47; 98] = Some false.
Proof.
  split; (etransitivity; [apply invalid_filename_spec; discriminate|vm_compute; reflexivity]).
Defined.

End Utils.
