(* ===== verification/Codepage.v ===== *)
(** * Code page conversions: lib/codepage.c

    Path names are precomposed UTF-8 on the Unix side and decomposed UTF-8 on
    the AFP side. *)

From S2P Require Import Prelude Constants UnicodeTable Unicode.
Import Unicode.

Module Codepage.

(** ** Decomposed to precomposed *)

(** The loop over [p16dec]: the characters it appends to [path16pre].
    [prev] is the pending character, 0 before the first one. *)
Fixpoint compose_loop (prev : Z) (p16dec : list Z) : option (list Z) :=
  match p16dec with
  | [] => Some []
  | c :: p16dec =>
    '(out, prev) ←
      (if 0 <? prev then
         comp ← UCS2precompose prev c;
         Some (if comp =? -1 then ([prev], c) else ([], u16 comp))
       else Some ([], c));
    rest ← (match p16dec with [] => Some [prev] | _ => compose_loop prev p16dec end);
    Some (out ++ rest)
  end.

(** [path16pre] has 384 characters; the result is copied to [dest] with its
    terminator. [src_len] and [dest_len] are not used by the code. *)
Definition convert_utf8dec_to_utf8pre (src dest : list Z) : option (list Z) :=
  path16dec ← UTF8toUCS2 src;
  s16 ← cstr path16dec;
  composed ← compose_loop 0 s16;
  path16pre ← blit 0 (composed ++ [0]) (replicate 384 0);
  pathUTF8pre ← UCS2toUTF8 path16pre;
  s8 ← cstr pathUTF8pre;
  blit 0 (s8 ++ [0]) dest.

(** ** Precomposed to decomposed *)

(** The [for] loop, with the pointers advanced: [n] is [src_len-i], [src] is
    [src+i], [room] is [dest_len-j] and [dest] is [dest+j]; the result is the
    buffer from [dest+j] on and the number of bytes written to it. *)
Fixpoint pre_to_dec_loop (n : nat) (src : list Z) (room : nat) (dest : list Z)
    : option (list Z * nat) :=
  match n, room with
  | S n, S _ =>
    c ← head src;
    is_ae ← (if c =? 0xc3 then c' ← src !! 1%nat; Some (c' =? 0xa4) else Some false);
    if (is_ae : bool) then
      match dest with
      | _ :: _ :: _ :: dest =>
        '(d, k) ← (match n with
                   | O => Some (dest, O)
                   | S n => pre_to_dec_loop n (drop 2 src) (room - 3) dest
                   end);
        Some (0x61 :: 0xcc :: 0x88 :: d, S (S (S k)))
      | _ => None
      end
    else
      match dest with
      | _ :: dest =>
        '(d, k) ← pre_to_dec_loop n (drop 1 src) (room - 1) dest;
        Some (c :: d, S k)
      | [] => None
      end
  | _, _ => Some (dest, O)
  end.

Definition convert_utf8pre_to_utf8dec (src : list Z) (src_len : nat) (dest : list Z)
    (dest_len : nat) : option (list Z * nat) :=
  pre_to_dec_loop src_len src dest_len dest.

(** ** Paths

    [src] is the memory the source pointer points at. The result is the
    destination buffer and the return value. *)

Definition convert_path_to_unix (encoding : Z) (dest src : list Z) (dest_len : nat)
    : option (list Z * Z) :=
  dest ← zero_fill 0 dest_len dest;
  if encoding =? kFPUTF8Name then
    dest ← convert_utf8dec_to_utf8pre src dest; Some (dest, 0)
  else if encoding =? kFPLongName then
    bytes ← slice 0 dest_len src; dest ← blit 0 bytes dest; Some (dest, 0)
  else Some (dest, -1).

Definition convert_path_to_afp (encoding : Z) (dest src : list Z) (dest_len : nat)
    : option (list Z * Z) :=
  dest ← zero_fill 0 dest_len dest;
  if encoding =? kFPUTF8Name then
    s ← cstr src;
    '(dest, _) ← convert_utf8pre_to_utf8dec src (length s) dest dest_len;
    Some (dest, 0)
  else if encoding =? kFPLongName then
    bytes ← slice 0 dest_len src; dest ← blit 0 bytes dest; Some (dest, 0)
  else Some (dest, -1).

(** ** Specifications *)

(** Decomposition of the one sequence the code knows. *)
Fixpoint decompose (s : list Z) : list Z :=
  match s with
  | [] => []
  | c :: s' =>
    match s' with
    | c' :: s'' =>
      if (c =? 0xc3) && (c' =? 0xa4) then [0x61; 0xcc; 0x88] ++ decompose s''
      else c :: decompose s'
    | [] => [c]
    end
  end.

(** The same on characters: U+00E4 is "a" and U+0308. *)
Definition decompose16 (u : list Z) : list Z :=
  concat ((fun c => if c =? 0xe4 then [0x61; 0x308] else [c]) <$> u).

(** No two adjacent characters have a composition. *)
Fixpoint precomposed (u : list Z) : Prop :=
  match u with
  | x :: ((y :: _) as u') => table_find table (x * 65536 + y) = -1 /\ precomposed u'
  | _ => True
  end.

Definition utf8 (u : list Z) : list Z := concat (encode_char <$> u).

Definition ucs2 (u : list Z) : Prop := Forall (fun c => 1 <= c < 65536) u.

(** ** Decomposition *)

Lemma pre_to_dec_loop_spec s tail room dest :
  (length (decompose s) <= room <= length dest)%nat ->
  pre_to_dec_loop (length s) (s ++ 0 :: tail) room dest =
    Some (decompose s ++ drop (length (decompose s)) dest, length (decompose s)).
Proof.
  remember (length s) as n eqn:Hn. revert s Hn room dest.
  induction (lt_wf n) as [n _ IH]. intros s -> room dest Hl.
  destruct s as [|c s]; [done|]. cbn [length pre_to_dec_loop].
  destruct room as [|room]; [simpl in Hl; repeat case_match; simpl in Hl; lia|].
  cbn [app head mbind option_bind lookup list_lookup].
  destruct s as [|c' s].
  - assert ((if c =? 0xc3 then Some (0 =? 0xa4) else Some false) = Some false) as Hae
      by by case_match.
    simpl in Hae |- *. rewrite Hae. destruct dest; [simpl in Hl; lia|done].
  - assert ((if c =? 0xc3 then Some (c' =? 0xa4) else Some false)
            = Some ((c =? 0xc3) && (c' =? 0xa4))) as Hae by by case_match.
    cbn [app lookup list_lookup mbind option_bind] in *. rewrite Hae.
    cbn [mbind option_bind decompose] in *.
    destruct ((c =? 0xc3) && (c' =? 0xa4)) eqn:E.
    + do 3 (destruct dest as [|? dest]; [simpl in Hl; lia|]).
      cbn [length drop app]. simpl in Hl.
      rewrite drop_0, (IH (length s)) by (simpl; lia). done.
    + destruct dest as [|? dest]; [simpl in Hl; lia|]. cbn [length drop app].
      rewrite (IH (length (c' :: s)) ltac:(simpl; lia) (c' :: s) eq_refl)
        by (simpl in Hl |- *; lia).
      done.
Qed.

(** Decomposing the bytes is decomposing the characters. *)
Lemma decompose_encode_char c rest :
  1 <= c < 65536 ->
  decompose (encode_char c ++ rest) =
    (if c =? 0xe4 then utf8 [0x61; 0x308] else encode_char c) ++ decompose rest.
Proof.
  intros H. rewrite encode_char_spec by lia.
  assert (forall a r, a <> 0xc3 -> decompose (a :: r) = a :: decompose r) as Hskip.
  { intros a [|b r] Ha; [done|]. cbn [decompose].
    by rewrite (proj2 (Z.eqb_neq a 0xc3) Ha). }
  destruct (Z.ltb_spec c 0x80) as [H1|H1]; [|destruct (Z.ltb_spec c 0x800) as [H2|H2]].
  - rewrite (proj2 (Z.eqb_neq c 0xe4)) by lia. cbn [app]. apply Hskip. lia.
  - cbn [app]. destruct (Z.eqb_spec c 0xe4) as [->|Hne]; [done|].
    transitivity (192 + c / 64 :: decompose (128 + c mod 64 :: rest)).
    { change (decompose (192 + c / 64 :: 128 + c mod 64 :: rest)) with
        (if (192 + c / 64 =? 0xc3) && (128 + c mod 64 =? 0xa4)
         then [0x61; 0xcc; 0x88] ++ decompose rest
         else 192 + c / 64 :: decompose (128 + c mod 64 :: rest)).
      replace ((192 + c / 64 =? 0xc3) && (128 + c mod 64 =? 0xa4)) with false; [done|].
      symmetry. apply andb_false_iff. rewrite !Z.eqb_neq. dlia. }
    cbn [app]. f_equal. apply Hskip. dlia.
  - rewrite (proj2 (Z.eqb_neq c 0xe4)) by lia. cbn [app].
    rewrite Hskip by dlia. f_equal. rewrite Hskip by dlia. f_equal. apply Hskip. dlia.
Qed.

Lemma utf8_cons c u : utf8 (c :: u) = encode_char c ++ utf8 u.
Proof. done. Qed.

Lemma utf8_app u v : utf8 (u ++ v) = utf8 u ++ utf8 v.
Proof. unfold utf8. by rewrite fmap_app, concat_app. Qed.

Lemma decompose_utf8 u : ucs2 u -> decompose (utf8 u) = utf8 (decompose16 u).
Proof.
  induction 1 as [|c u Hc Hu IH]; [done|].
  rewrite utf8_cons, decompose_encode_char, IH by done.
  unfold decompose16. cbn [fmap list_fmap concat]. rewrite utf8_app. f_equal.
  case_match; [done|]. unfold utf8. simpl. by rewrite app_nil_r.
Qed.

Lemma decompose_nul_free s : nul_free s -> nul_free (decompose s).
Proof.
  remember (length s) as n eqn:Hn. revert s Hn. induction (lt_wf n) as [n _ IH].
  intros [|c [|c' s]] -> Hs; [constructor|by inversion Hs; repeat constructor|].
  inversion Hs as [|? ? Hc Hs']; subst. inversion Hs' as [|? ? Hc' Hs'']; subst.
  change (decompose (c :: c' :: s)) with
    (if (c =? 0xc3) && (c' =? 0xa4) then [0x61; 0xcc; 0x88] ++ decompose s
     else c :: decompose (c' :: s)).
  destruct ((c =? 0xc3) && (c' =? 0xa4)).
  - repeat (constructor; [done|]). apply (IH (length s)); simpl; [lia|done|done].
  - constructor; [done|]. apply (IH (length (c' :: s))); simpl; [lia|done|done].
Qed.

Lemma decompose16_ucs2 u : ucs2 u -> ucs2 (decompose16 u).
Proof.
  induction 1 as [|c u Hc Hu IH]; [constructor|].
  unfold decompose16 in *. cbn [fmap list_fmap concat].
  apply Forall_app_2; [|done]. case_match; repeat constructor; lia.
Qed.

Lemma ucs2_nul_free u : ucs2 u -> nul_free u.
Proof. intros H. eapply Forall_impl; [exact H|]. simpl. lia. Qed.

Lemma utf8_nul_free u : ucs2 u -> nul_free (utf8 u).
Proof.
  induction 1 as [|c u Hc Hu IH]; [constructor|]. rewrite utf8_cons.
  apply Forall_app_2; [|done]. rewrite encode_char_spec by lia.
  repeat case_match; repeat constructor; dlia.
Qed.

(** ** Composition *)

(** No character composes with a following ASCII character. *)
Lemma no_ascii_pattern :
  forallb (fun e => (e.2 =? 0) || (0x80 <=? e.2 mod 65536)) table = true.
Proof. vm_compute. reflexivity. Qed.

Lemma table_find_ascii x c :
  1 <= x -> 0 <= c < 0x80 -> table_find table (x * 65536 + c) = -1.
Proof.
  intros Hx Hc. apply table_find_miss. intros i e Hi He.
  pose proof no_ascii_pattern as H. rewrite forallb_forall in H. specialize (H e).
  rewrite He in H. assert (List.In e table) as Hin.
  { apply list_elem_of_In. by eapply list_elem_of_lookup_2. }
  apply H, orb_prop in Hin as [Hin|Hin].
  - apply Z.eqb_eq in Hin. lia.
  - apply Z.leb_le in Hin. dlia.
Qed.

Lemma precompose_find x c :
  1 <= x -> 0 <= c < 65536 -> table_find table (x * 65536 + c) = -1 ->
  UCS2precompose x c = Some (-1).
Proof.
  intros Hx Hc Hf. unfold UCS2precompose. cbv zeta. rewrite needle_value by lia.
  rewrite precompose_search by lia. by rewrite Hf.
Qed.

Lemma compose_loop_cons prev c s :
  0 < prev ->
  compose_loop prev (c :: s) =
    (comp ← UCS2precompose prev c;
     let '(out, prev) := if comp =? -1 then ([prev], c) else ([], u16 comp) in
     rest ← (match s with [] => Some [prev] | _ => compose_loop prev s end);
     Some (out ++ rest)).
Proof.
  intros H. cbn [compose_loop]. rewrite (proj2 (Z.ltb_lt 0 prev) H).
  destruct (UCS2precompose prev c) as [comp|]; [|done]. cbn [mbind option_bind].
  by destruct (comp =? -1).
Qed.

(** What the loop still appends with [prev] pending. *)
Definition compose_rest (prev : Z) (s : list Z) : option (list Z) :=
  match s with [] => Some [prev] | _ => compose_loop prev s end.

Lemma compose_rest_keep prev c s r :
  0 < prev -> UCS2precompose prev c = Some (-1) -> compose_rest c s = Some r ->
  compose_rest prev (c :: s) = Some (prev :: r).
Proof.
  intros Hp Hc Hr. unfold compose_rest. rewrite compose_loop_cons, Hc by done.
  cbn [mbind option_bind Z.eqb Pos.eqb]. fold (compose_rest c s). by rewrite Hr.
Qed.

Lemma compose_rest_merge prev c s comp r :
  0 < prev -> UCS2precompose prev c = Some comp -> 0 < comp < 65536 ->
  compose_rest comp s = Some r -> compose_rest prev (c :: s) = Some r.
Proof.
  intros Hp Hc Hn Hr. unfold compose_rest. rewrite compose_loop_cons, Hc by done.
  cbn [mbind option_bind]. rewrite (proj2 (Z.eqb_neq comp (-1))) by lia.
  rewrite u16_small by lia. fold (compose_rest comp s). by rewrite Hr.
Qed.

Lemma decompose16_cons c u :
  decompose16 (c :: u) = (if c =? 0xe4 then [0x61; 0x308] else [c]) ++ decompose16 u.
Proof. done. Qed.

Lemma compose_ae u r :
  compose_rest 0xe4 u = Some r -> compose_rest 0x61 (0x308 :: u) = Some r.
Proof.
  intros H. apply (compose_rest_merge _ _ _ 0xe4); [lia|vm_compute; reflexivity|lia|done].
Qed.

Lemma compose_decompose16 prev u :
  1 <= prev < 65536 -> ucs2 u -> precomposed (prev :: u) ->
  compose_rest prev (decompose16 u) = Some (prev :: u).
Proof.
  intros Hp Hu. revert prev Hp. induction Hu as [|c u Hc Hu IH]; intros prev Hp Hpre; [done|].
  rewrite decompose16_cons. destruct Hpre as [Hf Hpre].
  destruct (Z.eqb_spec c 0xe4) as [->|Hne]; cbn [app].
  - apply compose_rest_keep; [lia| |by apply compose_ae, IH].
    apply precompose_find; [lia..|]. apply table_find_ascii; lia.
  - apply compose_rest_keep; [lia| |by apply IH]. apply precompose_find; lia || done.
Qed.

Lemma compose_loop_0 u :
  ucs2 u -> precomposed u -> compose_loop 0 (decompose16 u) = Some u.
Proof.
  intros Hu Hpre. destruct Hu as [|c u Hc Hu]; [done|].
  assert (forall x s r, compose_rest x s = Some r -> compose_loop 0 (x :: s) = Some r) as H0.
  { intros x s r Hr. cbn [compose_loop Z.ltb Z.compare mbind option_bind].
    fold (compose_rest x s). by rewrite Hr. }
  rewrite decompose16_cons. destruct (Z.eqb_spec c 0xe4) as [->|Hne]; cbn [app].
  - by apply H0, compose_ae, compose_decompose16.
  - by apply H0, compose_decompose16.
Qed.

Lemma length_decompose s : (length s <= length (decompose s))%nat.
Proof.
  remember (length s) as n eqn:Hn. revert s Hn.
  induction (lt_wf n) as [n _ IH]. intros [|c [|c' s]] ->; [simpl; lia..|].
  cbn [decompose length] in *. pose proof (IH (length s) ltac:(lia) s eq_refl).
  pose proof (IH (S (length s)) ltac:(lia) (c' :: s) eq_refl).
  case_match; cbn [app length]; [lia|]. simpl in *. lia.
Qed.

(** ** The conversions *)

Lemma to_afp_utf8 u dest n t :
  ucs2 u -> length dest = n -> (length (decompose (utf8 u)) < n)%nat ->
  convert_path_to_afp kFPUTF8Name dest (utf8 u ++ 0 :: t) n =
    Some (utf8 (decompose16 u) ++ 0 :: replicate (n - S (length (decompose (utf8 u)))) 0, 0).
Proof.
  intros Hu Hd Hn. unfold convert_path_to_afp. rewrite zero_fill_all by done.
  cbn [mbind option_bind]. rewrite Z.eqb_refl, cstr_app by by apply utf8_nul_free.
  cbn [mbind option_bind]. unfold convert_utf8pre_to_utf8dec.
  rewrite pre_to_dec_loop_spec by solve_len. cbn [mbind option_bind].
  rewrite decompose_utf8 by done. do 3 f_equal.
  rewrite drop_replicate. rewrite decompose_utf8 in Hn by done.
  by replace (n - length (utf8 (decompose16 u)))%nat
    with (S (n - S (length (utf8 (decompose16 u)))))%nat by lia.
Qed.

Lemma dec_to_pre_utf8 u t dest :
  ucs2 u -> precomposed u -> (length u < 384)%nat -> (length (utf8 u) < length dest)%nat ->
  convert_utf8dec_to_utf8pre (utf8 (decompose16 u) ++ 0 :: t) dest =
    Some (utf8 u ++ 0 :: drop (S (length (utf8 u))) dest).
Proof.
  intros Hu Hpre Hl Hd. unfold convert_utf8dec_to_utf8pre.
  rewrite (UTF8toUCS2_loop_result _ (decompose16 u)).
  2: { apply UTF8toUCS2_encode; [by apply decompose16_ucs2|]. unfold utf8. solve_len. }
  cbn [mbind option_bind].
  rewrite cstr_app by by apply ucs2_nul_free, decompose16_ucs2. cbn [mbind option_bind].
  rewrite compose_loop_0 by done. cbn [mbind option_bind].
  rewrite blit_0 by solve_len. cbn [mbind option_bind]. rewrite <- app_assoc.
  destruct (UCS2toUTF8_result u (drop (length (u ++ [0])) (replicate 384 0)) Hu)
    as [pad Hpad]. cbn [app]. rewrite Hpad. cbn [mbind option_bind].
  fold (utf8 u). rewrite cstr_app by by apply utf8_nul_free. cbn [mbind option_bind].
  rewrite blit_0 by solve_len. rewrite <- app_assoc, length_app. cbn [app length].
  by rewrite Nat.add_1_r.
Qed.

(** C36: converting a path to its AFP form and back gives the path, for every
    path whose characters fit UCS-2, in which no two adjacent characters
    compose, and which has at most 383 characters and leaves room for the
    terminator once decomposed; no conversion leaves its buffers. *)
Theorem path_conversion_roundtrip u dest1 dest2 n t :
  ucs2 u -> precomposed u -> (length u < 384)%nat ->
  (length (decompose (utf8 u)) < n)%nat -> length dest1 = n -> length dest2 = n ->
  exists afp unix,
    convert_path_to_afp kFPUTF8Name dest1 (utf8 u ++ 0 :: t) n = Some (afp, 0) /\
    convert_path_to_unix kFPUTF8Name dest2 afp n = Some (unix, 0) /\
    cstr unix = Some (utf8 u).
Proof.
  intros Hu Hpre Hl Hn Hd1 Hd2. rewrite to_afp_utf8 by done.
  pose proof (length_decompose (utf8 u)).
  eexists _, _. split; [done|]. split; [|by apply cstr_app, utf8_nul_free].
  unfold convert_path_to_unix. rewrite zero_fill_all by done. cbn [mbind option_bind].
  rewrite Z.eqb_refl, dec_to_pre_utf8 by (done || solve_len). done.
Qed.

Lemma path_conversion_roundtrip_witness :
  exists afp unix,
    convert_path_to_afp kFPUTF8Name (replicate 768 1) (utf8 [47; 0xe4; 98; 0x20ac] ++ [0]) 768
      = Some (afp, 0) /\
    convert_path_to_unix kFPUTF8Name (replicate 768 1) afp 768 = Some (unix, 0) /\
    cstr unix = Some [47; 0xc3; 0xa4; 98; 0xe2; 0x82; 0xac].
Proof.
  apply (path_conversion_roundtrip [47; 0xe4; 98; 0x20ac]).
  - repeat constructor; lia.
  - repeat split; vm_compute; reflexivity.
  - simpl; lia.
  - vm_compute; lia.
  - reflexivity.
  - reflexivity.
Defined.

Lemma ascii_decompose16 u :
  Forall (fun c => 0x20 <= c < 0x80) u -> decompose16 u = u.
Proof.
  induction 1 as [|c u Hc Hu IH]; [done|]. rewrite decompose16_cons, IH.
  by rewrite (proj2 (Z.eqb_neq c 0xe4)) by lia.
Qed.

Lemma ascii_precomposed u : Forall (fun c => 0x20 <= c < 0x80) u -> precomposed u.
Proof.
  induction 1 as [|c u Hc Hu IH]; [done|]. destruct Hu as [|c' u Hc' Hu]; [done|].
  split; [|done]. apply table_find_ascii; lia.
Qed.

(** @@[convert_utf8dec_to_utf8pre] overruns [path16pre] on every string of
    384 or more ASCII characters, although AFP paths may have up to 767 bytes. *)
Theorem dec_to_pre_overrun u t dest :
  Forall (fun c => 0x20 <= c < 0x80) u -> (384 <= length u)%nat ->
  convert_utf8dec_to_utf8pre (utf8 u ++ 0 :: t) dest = None.
Proof.
  intros Hu Hl.
  assert (ucs2 u) as Hu16 by (eapply Forall_impl; [exact Hu|]; simpl; lia).
  assert (precomposed u) as Hpre by by apply ascii_precomposed.
  unfold convert_utf8dec_to_utf8pre.
  rewrite (UTF8toUCS2_loop_result _ u).
  2: { apply UTF8toUCS2_encode; [done|]. unfold utf8. solve_len. }
  cbn [mbind option_bind]. rewrite cstr_app by by apply ucs2_nul_free.
  cbn [mbind option_bind]. rewrite <- (ascii_decompose16 u Hu) at 1. rewrite compose_loop_0 by done.
  cbn [mbind option_bind].
  rewrite (proj2 (blit_None 0 (u ++ [0]) (replicate 384 0))) by solve_len. done.
Qed.

Lemma dec_to_pre_overrun_witness :
  convert_utf8dec_to_utf8pre (utf8 (replicate 384 97) ++ [0]) (replicate 768 0) = None.
Proof.
  apply dec_to_pre_overrun; [|rewrite length_replicate; lia].
  apply Forall_replicate. lia.
Defined.

(** A name that ends in U+00E4 at the end of the destination overruns it:
    [find_volume_by_name] converts into 33 bytes. *)
Lemma pre_to_dec_overrun :
  convert_utf8pre_to_utf8dec (replicate 32 97 ++ [0xc3; 0xa4; 0]) 34 (replicate 33 0) 33
    = None.
Proof. vm_compute. reflexivity. Qed.

(** With long names the conversion reads [dest_len] bytes of the source,
    whatever the length of the string there. *)
Lemma long_name_overread dest s n :
  (S (length s) < n)%nat -> convert_path_to_afp kFPLongName dest (s ++ [0]) n = None.
Proof.
  intros H. unfold convert_path_to_afp. destruct (zero_fill 0 n dest); [|done].
  cbn [mbind option_bind]. change (kFPLongName =? kFPUTF8Name) with false.
  change (kFPLongName =? kFPLongName) with true. cbv iota.
  rewrite (proj2 (slice_None 0 n (s ++ [0]))) by solve_len. done.
Qed.

End Codepage.
