(* ===== verification/Dsi.v ===== *)
(** * The DSI layer: lib/dsi.c

    Headers and request ids, the queue of outstanding requests, and the
    reassembly of incoming packets in [dsi_recv]. *)

From S2P Require Import Prelude Constants.

Module Dsi.

(** ** State *)

(** [struct afp_rx_buffer], the destination of an [afpRead]. *)
Record afp_rx_buffer := mk_rx {
  rx_size : Z; rx_maxsize : Z; rx_data : list Z; rx_errorcode : Z }.

(** [struct dsi_request]; [rq_ptr] is the identity of the allocation and
    [rq_other] the buffer of a read, [None] for NULL and for the other replies'
    destinations. *)
Record dsi_request := mk_request {
  rq_ptr : Z;
  rq_requestid : Z;
  rq_subcommand : Z;
  rq_wait : Z;
  rq_done_waiting : Z;
  rq_return_code : Z;
  rq_other : option afp_rx_buffer }.

(** The DSI part of [struct afp_server]. *)
Record dsi_server := mk_server {
  lastrequestid : Z;
  expectedrequestid : Z;
  command_requests : list dsi_request;
  requests_pending : Z;
  runt_packets : Z;
  rx_bytes : Z;
  tx_bytes : Z;
  incoming_buffer : list Z;
  data_read : Z;
  attention_buffer : list Z;
  attention_len : Z;
  tx_quantum : Z }.

Definition set_ids last expected s :=
  mk_server last expected (command_requests s) (requests_pending s) (runt_packets s)
    (rx_bytes s) (tx_bytes s) (incoming_buffer s) (data_read s) (attention_buffer s)
    (attention_len s) (tx_quantum s).
Definition set_queue q pending s :=
  mk_server (lastrequestid s) (expectedrequestid s) q pending (runt_packets s)
    (rx_bytes s) (tx_bytes s) (incoming_buffer s) (data_read s) (attention_buffer s)
    (attention_len s) (tx_quantum s).
Definition set_runt n s :=
  mk_server (lastrequestid s) (expectedrequestid s) (command_requests s)
    (requests_pending s) n (rx_bytes s) (tx_bytes s) (incoming_buffer s) (data_read s)
    (attention_buffer s) (attention_len s) (tx_quantum s).
Definition set_input buf n rx s :=
  mk_server (lastrequestid s) (expectedrequestid s) (command_requests s)
    (requests_pending s) (runt_packets s) rx (tx_bytes s) buf n
    (attention_buffer s) (attention_len s) (tx_quantum s).
Definition set_tx n s :=
  mk_server (lastrequestid s) (expectedrequestid s) (command_requests s)
    (requests_pending s) (runt_packets s) (rx_bytes s) n (incoming_buffer s) (data_read s)
    (attention_buffer s) (attention_len s) (tx_quantum s).
Definition set_attention buf n s :=
  mk_server (lastrequestid s) (expectedrequestid s) (command_requests s)
    (requests_pending s) (runt_packets s) (rx_bytes s) (tx_bytes s) (incoming_buffer s)
    (data_read s) buf n (tx_quantum s).
Definition set_tx_quantum n s :=
  mk_server (lastrequestid s) (expectedrequestid s) (command_requests s)
    (requests_pending s) (runt_packets s) (rx_bytes s) (tx_bytes s) (incoming_buffer s)
    (data_read s) (attention_buffer s) (attention_len s) n.

(** ** Headers *)

Definition dsi_header_size : nat := 16.

(** [struct dsi_header] as it lies in memory: [requestid], [return_code] and
    [len] are the values stored natively. *)
Definition dsi_header (flags command requestid return_code len : Z) : list Z :=
  st8 flags ++ st8 command ++ st16 requestid ++ st32 return_code ++ st32 len ++ st32 0.

Definition dsi_setup_header (s : dsi_server) (command : Z) : dsi_server * list Z :=
  let last := if lastrequestid s =? 65535 then 0 else u16 (lastrequestid s + 1) in
  (set_ids last last s, dsi_header 0 command (htons last) 0 0).

(** The length [dsi_send] writes into the header of the message. *)
Definition dsi_set_length (msg : list Z) : option (list Z) :=
  blit 8 (st32 (htonl (Z.of_nat (length msg) - 16))) msg.

(** The fields of the header at the start of a buffer. *)
Definition hd_flags (b : list Z) : option Z := ld8 0 b.
Definition hd_command (b : list Z) : option Z := ld8 1 b.
Definition hd_requestid (b : list Z) : option Z := ntohs <$> ld16 2 b.
Definition hd_error_code (b : list Z) : option Z := i32 ∘ ntohl <$> ld32 4 b.
Definition hd_length (b : list Z) : option Z := ntohl <$> ld32 8 b.

(** ** The request queue *)

(** The append of [dsi_send]. *)
Definition enqueue_request (r : dsi_request) (s : dsi_server) : dsi_server :=
  set_queue (command_requests s ++ [r]) (u64 (requests_pending s + 1)) s.

(** The request [dsi_send] allocates: its id is the last one handed out, not the
    one in the header of the message. *)
Definition new_request (ptr wait subcommand : Z) (other : option afp_rx_buffer)
    (s : dsi_server) : dsi_request :=
  mk_request ptr (lastrequestid s) (u8 subcommand) wait 0 0 other.

Fixpoint find_request (q : list dsi_request) (request_id : Z) : option dsi_request :=
  match q with
  | [] => None
  | r :: q => if request_id =? rq_requestid r then Some r else find_request q request_id
  end.

Definition dsi_find_request (s : dsi_server) (request_id : Z) : option dsi_request :=
  find_request (command_requests s) request_id.

(** Unlinks the request with the given address. *)
Fixpoint unlink_request (ptr : Z) (q : list dsi_request) : option (list dsi_request) :=
  match q with
  | [] => None
  | r :: q => if rq_ptr r =? ptr then Some q else (r ::.) <$> unlink_request ptr q
  end.

(** [valid] is [server_still_valid(server)]. *)
Definition dsi_remove_from_request_queue (valid : bool) (ptr : Z) (s : dsi_server)
    : Z * dsi_server :=
  if valid then
    match unlink_request ptr (command_requests s) with
    | Some q => (0, set_queue q (u64 (requests_pending s - 1)) s)
    | None => (-1, s)
    end
  else (-1, s).

(** A store through a pointer to a queued request. *)
Definition update_request (ptr : Z) (f : dsi_request -> dsi_request) (s : dsi_server)
    : dsi_server :=
  set_queue ((fun r => if rq_ptr r =? ptr then f r else r) <$> command_requests s)
            (requests_pending s) s.

Definition set_return_code (rc : Z) (r : dsi_request) : dsi_request :=
  mk_request (rq_ptr r) (rq_requestid r) (rq_subcommand r) (rq_wait r)
    (rq_done_waiting r) rc (rq_other r).
Definition set_other (o : option afp_rx_buffer) (r : dsi_request) : dsi_request :=
  mk_request (rq_ptr r) (rq_requestid r) (rq_subcommand r) (rq_wait r)
    (rq_done_waiting r) (rq_return_code r) o.
Definition signal_request (r : dsi_request) : dsi_request :=
  mk_request (rq_ptr r) (rq_requestid r) (rq_subcommand r) 0 1
    (rq_return_code r) (rq_other r).

(** ** Sending *)

(** [write] succeeded, failed with EPIPE or EBADF, or failed otherwise. *)
Inductive write_result := Written | WriteClosed | WriteFailed.

(** What [dsi_send] finds around it: whether the server is still valid, its
    [fd], whether its state is SERVER_STATE_DISCONNECTED, the result of [write],
    and whether the timed wait ended with ETIMEDOUT. *)
Record send_env := mk_env {
  en_valid : bool; en_fd : Z; en_disconnected : bool;
  en_write : write_result; en_timed_out : bool }.

(** The return value, the server, what went to the socket, the destination of
    the reply, whether [send_mutex] is still held and whether the server is now
    SERVER_STATE_DISCONNECTED. *)
Record send_result := mk_result {
  sr_rc : Z; sr_server : dsi_server; sr_sent : list (list Z);
  sr_other : option afp_rx_buffer; sr_mutex_held : bool; sr_disconnected : bool }.

Fixpoint find_ptr (ptr : Z) (q : list dsi_request) : option dsi_request :=
  match q with
  | [] => None
  | r :: q => if rq_ptr r =? ptr then Some r else find_ptr ptr q
  end.

(** [reconnect] is [afp_server_reconnect], with the state it leaves; [meanwhile] is what the thread of the
    main loop does to the server between the [write] and the end of the wait.
    [None] is an access to memory that is not there, among them the load of the
    return code from a request the other thread has freed. *)
Definition dsi_send (reconnect : dsi_server -> dsi_server * bool)
    (meanwhile : dsi_server -> option dsi_server) (en : send_env) (ptr : Z)
    (s : dsi_server) (msg : list Z) (wait subcommand : Z) (other : option afp_rx_buffer)
    : option send_result :=
  msg ← dsi_set_length msg;
  if negb (en_valid en) || (en_fd en =? 0) then
    Some (mk_result (-1) s [] other false (en_disconnected en))
  else
    let s := enqueue_request (new_request ptr wait subcommand other s) s in
    let '(s, disconnected) := if en_disconnected en then reconnect s else (s, false) in
    match en_write en with
    | WriteClosed => Some (mk_result (-1) s [] other true true)
    | WriteFailed =>
      Some (mk_result (-1) (dsi_remove_from_request_queue true ptr s).2 [] other false disconnected)
    | Written =>
      let s := set_tx (u64 (tx_bytes s + Z.of_nat (length msg))) s in
      s ← meanwhile s;
      r ← find_ptr ptr (command_requests s);
      let rc := if (0 <? wait) && en_timed_out en then ETIMEDOUT else rq_return_code r in
      Some (mk_result rc (dsi_remove_from_request_queue true ptr s).2 [msg] (rq_other r)
              false disconnected)
    end.

(** The tickle of the client, with the same arguments as [dsi_opensession]: it waits for a
    second. *)
Definition dsi_sendtickle (reconnect : dsi_server -> dsi_server * bool)
    (meanwhile : dsi_server -> option dsi_server) (en : send_env) (ptr : Z) (s : dsi_server)
    : option (Z * send_result) :=
  let '(s, header) := dsi_setup_header s DSI_DSITickle in
  result ← dsi_send reconnect meanwhile en ptr s header 1 DSI_DONT_WAIT None;
  Some (0, result).

(** ** Receiving

    The socket is the list of segments the next calls of [read] deliver: a
    [read] returns at most what is left of the first one; no segment, or an
    empty one, is the end of the stream. *)

Definition sock_read (n : Z) (sock : list (list Z)) : list Z * list (list Z) :=
  match sock with
  | [] => ([], [])
  | seg :: sock =>
    let k := if n <? 0 then length seg else Z.to_nat n in
    let rest := drop k seg in
    (take k seg, match rest with [] => sock | _ => rest :: sock end)
  end.

(** What [dsi_recv] hands to the rest of the library. *)
Inductive event :=
| EvCloseSession
| EvGetStatus (packet : list Z)
| EvOpenSession (packet : list Z)
| EvTickle (reply : list Z)
| EvCommand (subcommand : Z) (packet : list Z)
| EvAttention (packet : list Z)
| EvSignal (ptr : Z).

(** Return value, server, socket and events. *)
Definition outcome : Type := Z * dsi_server * list (list Z) * list event.

(** [dsi_opensession_reply] *)
Definition dsi_opensession_reply (s : dsi_server) : option dsi_server :=
  q ← ntohl <$> ld32 18 (incoming_buffer s); Some (set_tx_quantum q s).

(** [dsi_incoming_tickle]: a header and a [dsi_send] that does not wait, so the
    request it queues is unlinked again before it returns.  The server it came from is
    connected and the write succeeds; for the other cases see [dsi_send]. *)
Definition dsi_incoming_tickle (s : dsi_server) : option (dsi_server * list Z) :=
  let '(s, header) := dsi_setup_header s DSI_DSITickle in
  msg ← dsi_set_length header;
  Some (set_tx (u64 (tx_bytes s + 16)) s, msg).

(** [dsi_command_reply]: an [afpRead] reply that comes this way is read on into
    its buffer; then [afp_reply] gets the packet. *)
Definition dsi_command_reply (request : dsi_request) (s : dsi_server)
    (sock : list (list Z)) : option (dsi_server * list (list Z) * list event) :=
  if (data_read s <? 16) || (rq_subcommand request =? 0) then Some (s, sock, [])
  else if (rq_subcommand request =? afpRead) || (rq_subcommand request =? afpReadExt) then
    buf ← rq_other request;
    let '(bytes, sock) := sock_read (rx_maxsize buf - rx_size buf) sock in
    data ← blit (Z.to_nat (rx_size buf)) bytes (rx_data buf);
    let n := Z.of_nat (length bytes) in
    if n =? 0 then Some (s, sock, [])
    else
      let s := update_request (rq_ptr request)
                 (set_other (Some (mk_rx (rx_size buf) (rx_maxsize buf) data
                                         (rx_errorcode buf)))) s in
      let s := set_input (incoming_buffer s) (data_read s + n) (u64 (rx_bytes s + n)) s in
      Some (s, sock,
            [EvCommand (rq_subcommand request)
                       (take (Z.to_nat (data_read s)) (incoming_buffer s))])
  else Some (s, sock,
             [EvCommand (rq_subcommand request)
                        (take (Z.to_nat (data_read s)) (incoming_buffer s))]).

(** Label [out]: wake the waiting thread, or drop the request nobody waits for. *)
Definition recv_out (request : option dsi_request) (s : dsi_server)
    (sock : list (list Z)) (ev : list event) : outcome :=
  match request with
  | None => (0, s, sock, ev)
  | Some r =>
    if rq_wait r =? 0
    then (0, (dsi_remove_from_request_queue true (rq_ptr r) s).2, sock, ev)
    else (0, update_request (rq_ptr r) signal_request s, sock, ev ++ [EvSignal (rq_ptr r)])
  end.

(** Label [after_processing]: drop the packet from the buffer, or shift what
    was read past it. *)
Definition after_processing (request : option dsi_request) (s : dsi_server)
    (sock : list (list Z)) (ev : list event) : option outcome :=
  len ← hd_length (incoming_buffer s);
  if data_read s =? len + 16 then
    Some (recv_out request (set_input (incoming_buffer s) 0 (rx_bytes s) s) sock ev)
  else
    let size_to_copy := u32 (data_read s - (len + 16)) in
    bytes ← slice (Z.to_nat len) (Z.to_nat size_to_copy) (incoming_buffer s);
    buffer ← blit 0 bytes (incoming_buffer s);
    Some (recv_out request
            (set_input buffer (i32 (data_read s - size_to_copy)) (rx_bytes s) s) sock ev).

(** Label [process_packet] *)
Definition process_packet (request : option dsi_request) (runt : bool) (s : dsi_server)
    (sock : list (list Z)) : option outcome :=
  command ← hd_command (incoming_buffer s);
  let packet := take (Z.to_nat (data_read s)) (incoming_buffer s) in
  if command =? DSI_DSICloseSession then
    after_processing request s sock [EvCloseSession]
  else if command =? DSI_DSIGetStatus then
    after_processing request s sock [EvGetStatus packet]
  else if command =? DSI_DSIOpenSession then
    s ← dsi_opensession_reply s;
    after_processing request s sock [EvOpenSession packet]
  else if command =? DSI_DSITickle then
    '(s, msg) ← dsi_incoming_tickle s;
    after_processing request s sock [EvTickle msg]
  else if (command =? DSI_DSIWrite) || (command =? DSI_DSICommand) then
    if runt then after_processing request s sock []
    else
      r ← request;
      '(s, sock, ev) ← dsi_command_reply r s sock;
      after_processing request s sock ev
  else if command =? DSI_DSIAttention then
    attention ← blit 0 packet (attention_buffer s);
    after_processing request (set_attention attention (data_read s) s) sock
      [EvAttention packet]
  else Some (-1, s, sock, []).

(** The branch of [dsi_recv] for a reply to [afpRead] or [afpReadExt]: the data
    goes straight to the buffer of the request. *)
Definition recv_read (r : dsi_request) (len : Z) (s : dsi_server)
    (sock : list (list Z)) : option outcome :=
  buf ← rq_other r;
  if (data_read s =? 16) && (len =? 0) then
    Some (recv_out (Some r) (set_input (incoming_buffer s) 0 (rx_bytes s) s) sock [])
  else if rx_maxsize buf =? 0 then Some (-1, s, sock, [])
  else
    let newmax := i32 (rx_maxsize buf - rx_size buf) in
    let newmax := if u32 (len - rx_size buf) <? u32 newmax
                  then i32 (len - rx_size buf) else newmax in
    let '(bytes, sock) := sock_read newmax sock in
    let n := Z.of_nat (length bytes) in
    if n =? 0 then Some (-1, s, sock, [])
    else
      data ← blit (Z.to_nat (rx_size buf)) bytes (rx_data buf);
      let size := rx_size buf + n in
      let s := update_request (rq_ptr r)
                 (set_other (Some (mk_rx size (rx_maxsize buf) data (rx_errorcode buf)))) s in
      let s := set_input (incoming_buffer s) (data_read s) (u64 (rx_bytes s + n)) s in
      if len =? size then
        let size_to_copy := data_read s - 16 in
        if size_to_copy =? 0 then
          Some (recv_out (Some r) (set_input (incoming_buffer s) 0 (rx_bytes s) s) sock [])
        else if size_to_copy <? 0 then Some (-1, s, sock, [])
        else
          shifted ← slice 16 (Z.to_nat size_to_copy) (incoming_buffer s);
          buffer ← blit 0 shifted (incoming_buffer s);
          process_packet (Some r) false
            (set_input buffer size_to_copy (rx_bytes s) s) sock
      else Some (0, s, sock, []).

(** The branch of [dsi_recv] for every other packet. *)
Definition recv_other (request : option dsi_request) (runt : bool) (len : Z)
    (s : dsi_server) (sock : list (list Z)) : option outcome :=
  if (data_read s =? 16) && (len =? 0) then process_packet request runt s sock
  else
    let amount_to_read := i32 (Z.min len (Z.of_nat (length (incoming_buffer s)))) in
    let '(bytes, sock) := sock_read amount_to_read sock in
    let n := Z.of_nat (length bytes) in
    if n =? 0 then Some (-1, s, sock, [])
    else
      buffer ← blit (Z.to_nat (data_read s)) bytes (incoming_buffer s);
      let s := set_input buffer (data_read s + n) (u64 (rx_bytes s + n)) s in
      if data_read s <? len + 16 then Some (0, s, sock, [])
      else if runt then after_processing request s sock []
      else process_packet request runt s sock.

(** Label [gotenough]: the header is complete. *)
Definition recv_gotenough (s : dsi_server) (sock : list (list Z)) : option outcome :=
  id ← hd_requestid (incoming_buffer s);
  flags ← hd_flags (incoming_buffer s);
  rc ← hd_error_code (incoming_buffer s);
  len ← hd_length (incoming_buffer s);
  match dsi_find_request s id with
  | None =>
    let runt := flags =? DSI_REPLY in
    let s := if runt then set_runt (u64 (runt_packets s + 1)) s else s in
    recv_other None runt len s sock
  | Some r =>
    let s := update_request (rq_ptr r) (set_return_code rc) s in
    let r := set_return_code rc r in
    if (rq_subcommand r =? afpRead) || (rq_subcommand r =? afpReadExt)
    then recv_read r len s sock
    else recv_other (Some r) false len s sock
  end.

Definition dsi_recv (s : dsi_server) (sock : list (list Z)) : option outcome :=
  let amount_to_read := 16 - data_read s in
  if 0 <? amount_to_read then
    let '(bytes, sock) := sock_read amount_to_read sock in
    let n := Z.of_nat (length bytes) in
    if n =? 0 then Some (-1, s, sock, [])
    else
      buffer ← blit (Z.to_nat (data_read s)) bytes (incoming_buffer s);
      let s := set_input buffer (data_read s + n) (u64 (rx_bytes s + n)) s in
      if data_read s =? 16 then
        len ← hd_length buffer;
        if len =? 0 then recv_gotenough s sock else Some (0, s, sock, [])
      else Some (0, s, sock, [])
  else recv_gotenough s sock.

(** The main loop calls [dsi_recv] while there is something to read.  When it returns an
    error the server is disconnected and not read from any more. *)
Fixpoint recv_loop (fuel : nat) (s : dsi_server) (sock : list (list Z))
    : option (dsi_server * list event) :=
  match fuel, sock with
  | S fuel, _ :: _ =>
    '(rc, s, sock, ev) ← dsi_recv s sock;
    if rc =? 0 then
      '(s, ev') ← recv_loop fuel s sock; Some (s, ev ++ ev')
    else Some (s, ev)
  | _, _ => Some (s, [])
  end.

(** ** Headers on the wire *)

Definition wire_header (flags command id rc len : Z) : list Z :=
  [flags; command] ++ be_bytes 2 id ++ be_bytes 4 rc ++ be_bytes 4 len ++ be_bytes 4 0.

Lemma length_wire_header f c id rc len : length (wire_header f c id rc len) = 16%nat.
Proof. unfold wire_header. solve_len. Qed.

#[local] Hint Rewrite length_wire_header : afp_len.

Lemma hd_flags_wire f c id rc len t : hd_flags (wire_header f c id rc len ++ t) = Some f.
Proof. apply ld8_cons. Qed.

Lemma hd_command_wire f c id rc len t :
  hd_command (wire_header f c id rc len ++ t) = Some c.
Proof.
  unfold hd_command, wire_header, ld8. rewrite <- !app_assoc.
  rewrite (slice_at [f] [c] _ 1 1 eq_refl eq_refl : slice 1 1 ([f; c] ++ _) = _).
  cbn [fmap option_fmap option_map le_val]. f_equal. lia.
Qed.

Lemma hd_requestid_wire f c id rc len t :
  0 <= id < 65536 -> hd_requestid (wire_header f c id rc len ++ t) = Some id.
Proof.
  intros H. unfold hd_requestid, wire_header. rewrite <- !app_assoc.
  by apply (ntohs_ld16 [f; c]).
Qed.

Lemma hd_length_wire f c id rc len t :
  0 <= len < 4294967296 -> hd_length (wire_header f c id rc len ++ t) = Some len.
Proof.
  intros H. unfold hd_length, wire_header. rewrite <- !app_assoc.
  rewrite (app_assoc (be_bytes 2 id)), (app_assoc [f; c]).
  apply ntohl_ld32; [solve_len|done].
Qed.

Lemma i32_wrap rc : -2147483648 <= rc < 2147483648 -> i32 (rc mod 4294967296) = rc.
Proof.
  intros H. unfold i32, u32. rewrite Z.mod_mod by lia.
  destruct (Z.ltb_spec (rc mod 4294967296) 2147483648); dlia.
Qed.

Lemma hd_error_code_wire f c id rc len t :
  -2147483648 <= rc < 2147483648 ->
  hd_error_code (wire_header f c id rc len ++ t) = Some rc.
Proof.
  intros H. unfold hd_error_code, wire_header, ld32. rewrite <- !app_assoc.
  rewrite (app_assoc [f; c]), (slice_at _ (be_bytes 4 rc)) by solve_len.
  cbn [fmap option_fmap option_map compose]. f_equal. unfold ntohl.
  rewrite bswap_be_bytes. by apply i32_wrap.
Qed.

(** [dsi_setup_header] and [dsi_set_length] build a request header. *)
Lemma dsi_header_wire command id body :
  0 <= command < 256 -> 0 <= id < 65536 ->
  dsi_set_length (dsi_header 0 command (htons id) 0 0 ++ body) =
    Some (wire_header 0 command id 0 (Z.of_nat (length body)) ++ body).
Proof.
  intros Hc Hid. unfold dsi_set_length, dsi_header. rewrite st32_htonl, st16_htons.
  replace (Z.of_nat (length _) - 16) with (Z.of_nat (length body)) by solve_len.
  assert (st8 0 = [0]) as -> by done.
  assert (st8 command = [command]) as ->.
  { unfold st8. simpl. by rewrite Z.mod_small. }
  change (st32 0) with (be_bytes 4 0).
  rewrite <- !app_assoc.
  rewrite (app_assoc (be_bytes 2 id)), (app_assoc [command]), (app_assoc [0]).
  rewrite blit_at by solve_len. unfold wire_header. by rewrite <- !app_assoc.
Qed.

(** ** The queue *)

(** The queue holds [x] after the requests [q1] and before [q2]. *)
Definition at_queue (q1 q2 : list dsi_request) (p : Z) (x : dsi_request) (s : dsi_server)
    : Prop := command_requests s = q1 ++ x :: q2 /\ requests_pending s = p.

(** No other request has its address, none before it has its id. *)
Definition alone (q1 q2 : list dsi_request) (x : dsi_request) : Prop :=
  Forall (fun y => rq_ptr y <> rq_ptr x) q1 /\ Forall (fun y => rq_ptr y <> rq_ptr x) q2 /\
  Forall (fun y => rq_requestid y <> rq_requestid x) q1.

#[export] Instance alone_dec q1 q2 x : Decision (alone q1 q2 x).
Proof. unfold alone. apply _. Defined.

Lemma at_queue_find q1 q2 p x s :
  alone q1 q2 x -> at_queue q1 q2 p x s ->
  dsi_find_request s (rq_requestid x) = Some x.
Proof.
  intros (_ & _ & Hid) [Hq _]. unfold dsi_find_request. rewrite Hq. clear Hq.
  induction Hid as [|y q1 Hy _ IH]; cbn [app find_request].
  - by rewrite Z.eqb_refl.
  - by rewrite (proj2 (Z.eqb_neq _ _)) by auto.
Qed.

Lemma update_others ptr f q :
  Forall (fun y => rq_ptr y <> ptr) q ->
  (fun y => if rq_ptr y =? ptr then f y else y) <$> q = q.
Proof.
  induction 1 as [|y q Hy _ IH]; [done|]. cbn [fmap list_fmap].
  by rewrite IH, (proj2 (Z.eqb_neq _ _)).
Qed.

Lemma at_queue_update q1 q2 p x f s :
  alone q1 q2 x -> at_queue q1 q2 p x s ->
  at_queue q1 q2 p (f x) (update_request (rq_ptr x) f s).
Proof.
  intros (H1 & H2 & _) [Hq Hp]. split; [|done]. cbn. rewrite Hq, fmap_app, fmap_cons.
  by rewrite !update_others, Z.eqb_refl.
Qed.

Lemma at_queue_remove q1 q2 p x s :
  alone q1 q2 x -> at_queue q1 q2 p x s ->
  dsi_remove_from_request_queue true (rq_ptr x) s =
    (0, set_queue (q1 ++ q2) (u64 (p - 1)) s).
Proof.
  intros (H1 & _) [Hq Hp]. unfold dsi_remove_from_request_queue. rewrite Hq, Hp.
  replace (unlink_request (rq_ptr x) (q1 ++ x :: q2)) with (Some (q1 ++ q2)); [done|].
  clear Hq. induction H1 as [|y q1 Hy _ IH]; cbn [app unlink_request].
  - by rewrite Z.eqb_refl.
  - rewrite (proj2 (Z.eqb_neq _ _)) by done. by rewrite <- IH.
Qed.

(** ** The socket *)

Definition segments (sock : list (list Z)) : Prop := Forall (fun seg => seg <> []) sock.

Lemma sock_read_spec n sock :
  0 < n -> segments sock -> concat sock <> [] ->
  exists bytes sock',
    sock_read n sock = (bytes, sock') /\ segments sock' /\
    concat sock = bytes ++ concat sock' /\ 0 < Z.of_nat (length bytes) <= n.
Proof.
  intros Hn Hs Hne. destruct Hs as [|seg sock Hseg Hs]; [done|].
  unfold sock_read. rewrite (proj2 (Z.ltb_ge n 0)) by lia. eexists _, _.
  split; [done|]. assert (0 < length seg)%nat by (destruct seg; simpl; [done|lia]).
  cbn [concat]. destruct (drop (Z.to_nat n) seg) as [|x rest] eqn:E.
  - split; [done|]. rewrite take_ge; [split; [done|]|].
    + apply (f_equal length) in E. rewrite length_drop in E. simpl in E. lia.
    + apply (f_equal length) in E. rewrite length_drop in E. simpl in E. lia.
  - split; [by constructor|]. split.
    + cbn [concat]. by rewrite <- E, app_assoc, take_drop.
    + rewrite length_take. lia.
Qed.

(** What a read leaves, when the stream still owes [drop k pkt]. *)
Lemma read_chunk n k (pkt : list Z) sock :
  0 < n -> segments sock -> concat sock = drop k pkt -> (k < length pkt)%nat ->
  exists j sock',
    sock_read n sock = (take j (drop k pkt), sock') /\ segments sock' /\
    concat sock' = drop (k + j) pkt /\ (0 < j)%nat /\ Z.of_nat j <= n /\
    (k + j <= length pkt)%nat.
Proof.
  intros Hn Hs Hc Hk.
  assert (concat sock <> []) as Hne.
  { rewrite Hc. intros E. apply (f_equal length) in E. revert E. solve_len. }
  destruct (sock_read_spec n sock Hn Hs Hne) as (bytes & sock' & Hr & Hs' & Heq & Hb).
  rewrite Hc in Heq. exists (length bytes), sock'. rewrite Heq.
  rewrite take_app_length. split; [done|]. split; [done|]. split.
  { rewrite <- drop_drop, Heq. by rewrite drop_app_length. }
  apply (f_equal length) in Heq. autorewrite with afp_len in Heq. lia.
Qed.

(** Appending a chunk to the part of the packet already in the buffer. *)
Lemma blit_chunk k j (pkt buf rest : list Z) :
  (0 < j)%nat -> (k + j <= length pkt)%nat -> (k + j <= length buf)%nat ->
  buf = take k pkt ++ rest ->
  exists rest', blit k (take j (drop k pkt)) buf = Some (take (k + j) pkt ++ rest') /\
    length (take (k + j) pkt ++ rest') = length buf.
Proof.
  intros Hj Hl Hb ->. autorewrite with afp_len in Hb.
  rewrite blit_app by solve_len. eexists. split.
  - rewrite app_assoc, <- (take_take_drop pkt k j). done.
  - solve_len.
Qed.

(** ** Reassembly of a reply *)

Section reply.
Context (cap : nat) (cmd id rc : Z) (payload : list Z).
Context (q1 q2 : list dsi_request) (p : Z) (r : dsi_request).
Let len := Z.of_nat (length payload).
Let pkt := wire_header DSI_REPLY cmd id rc len ++ payload.

Hypothesis id_ok : 0 <= id < 65536.
Hypothesis rc_ok : -2147483648 <= rc < 2147483648.
Hypothesis len_ok : len < 2147483648.
Hypothesis r_id : rq_requestid r = id.
Hypothesis r_alone : alone q1 q2 r.

(** [k] bytes of the packet are in the buffer, which has room for [cap]. *)
Definition receiving (k : nat) (s : dsi_server) : Prop :=
  data_read s = Z.of_nat k /\
  (exists rest, incoming_buffer s = take k pkt ++ rest) /\
  (cap <= length (incoming_buffer s))%nat /\
  Z.of_nat (length (incoming_buffer s)) < 2147483648.

Lemma length_pkt : length pkt = (16 + length payload)%nat.
Proof using. unfold pkt. solve_len. Qed.

Lemma header_prefix k rest :
  (16 <= k)%nat -> exists rest',
    take k pkt ++ rest = wire_header DSI_REPLY cmd id rc len ++ rest'.
Proof using.
  intros Hk. unfold pkt. rewrite take_app_ge by solve_len.
  rewrite <- app_assoc. by eexists.
Qed.

Lemma receiving_append k j s :
  receiving k s -> (0 < j)%nat -> (k + j <= length pkt)%nat -> (k + j <= cap)%nat ->
  exists buf, blit (Z.to_nat (data_read s)) (take j (drop k pkt)) (incoming_buffer s)
                = Some buf /\
    Z.of_nat (length (take j (drop k pkt))) = Z.of_nat j /\
    forall q n u, receiving (k + j)
      (set_input buf (data_read s + Z.of_nat j) u (set_queue q n s)) /\
      receiving (k + j) (set_input buf (data_read s + Z.of_nat j) u s).
Proof using.
  intros (Hd & [rest Hr] & Hl & Hm) Hj Hk Hcap.
  destruct (blit_chunk k j pkt (incoming_buffer s) rest Hj Hk) as (rest' & Hb & Hlen);
    [lia|done|].
  exists (take (k + j) pkt ++ rest'). rewrite Hd, Nat2Z.id.
  split; [done|]. split; [solve_len|]. intros q n u.
  assert (receiving (k + j)
    (set_input (take (k + j) pkt ++ rest') (Z.of_nat k + Z.of_nat j) u s)) as H.
  { split_and!; cbn [set_input data_read incoming_buffer]; [lia|by eexists| |];
      rewrite Hlen; done. }
  split; [|done]. exact H.
Qed.

Lemma receiving_header k s :
  receiving k s -> (16 <= k)%nat ->
  hd_flags (incoming_buffer s) = Some DSI_REPLY /\
  hd_command (incoming_buffer s) = Some cmd /\
  hd_requestid (incoming_buffer s) = Some id /\
  hd_error_code (incoming_buffer s) = Some rc /\
  hd_length (incoming_buffer s) = Some len.
Proof using id_ok rc_ok len_ok.
  intros (_ & [rest Hr] & _) Hk. destruct (header_prefix k rest Hk) as [rest' He].
  rewrite Hr, He.
  split_and!; [apply hd_flags_wire|apply hd_command_wire|by apply hd_requestid_wire
    |by apply hd_error_code_wire|apply hd_length_wire; unfold len in *; lia].
Qed.

Lemma receiving_full s :
  receiving (length pkt) s ->
  take (Z.to_nat (data_read s)) (incoming_buffer s) = pkt.
Proof using.
  intros (Hd & [rest Hr] & _). rewrite Hd, Nat2Z.id, Hr.
  rewrite (take_ge pkt) by lia. apply take_app_length.
Qed.

(** The request is in the queue, up to the return code stored so far. *)
Definition queued (s : dsi_server) : Prop :=
  exists c, at_queue q1 q2 p (set_return_code c r) s.

Definition signalled (s : dsi_server) : Prop :=
  data_read s = 0 /\ at_queue q1 q2 p (signal_request (set_return_code rc r)) s.

Lemma queued_update s :
  queued s ->
  exists c, dsi_find_request s id = Some (set_return_code c r) /\
  at_queue q1 q2 p (set_return_code rc r)
    (update_request (rq_ptr r) (set_return_code rc) s).
Proof using r_id r_alone.
  intros [c Hc]. exists c. split.
  - rewrite <- r_id. by apply (at_queue_find q1 q2 p (set_return_code c r)).
  - by apply (at_queue_update q1 q2 p (set_return_code c r) (set_return_code rc)).
Qed.

Lemma recv_out_signals s sock ev :
  rq_wait r <> 0 -> data_read s = 0 -> at_queue q1 q2 p (set_return_code rc r) s ->
  exists s', recv_out (Some (set_return_code rc r)) s sock ev =
    (0, s', sock, ev ++ [EvSignal (rq_ptr r)]) /\ signalled s'.
Proof using r_alone.
  intros Hw Hd Hf. unfold recv_out. cbn [set_return_code rq_wait rq_ptr].
  rewrite (proj2 (Z.eqb_neq _ 0)) by done. eexists. split; [done|]. split; [done|].
  by apply (at_queue_update q1 q2 p (set_return_code rc r) signal_request).
Qed.

Lemma after_processing_full s sock ev :
  rq_wait r <> 0 -> receiving (length pkt) s ->
  at_queue q1 q2 p (set_return_code rc r) s ->
  exists s', after_processing (Some (set_return_code rc r)) s sock ev =
    Some (0, s', sock, ev ++ [EvSignal (rq_ptr r)]) /\ signalled s'.
Proof using id_ok rc_ok len_ok r_id r_alone.
  intros Hw Hr Hf. unfold after_processing.
  destruct (receiving_header _ _ Hr) as (_ & _ & _ & _ & ->).
  { rewrite length_pkt. lia. }
  cbn [mbind option_bind].
  destruct Hr as (Hd & _). rewrite length_pkt in Hd.
  rewrite (proj2 (Z.eqb_eq (data_read s) (len + 16))) by (unfold len; lia).
  destruct (recv_out_signals (set_input (incoming_buffer s) 0 (rx_bytes s) s) sock ev)
    as (s' & -> & Hs'); [done..|]. by exists s'.
Qed.

Lemma recv_loop_one s sock s1 sock' s' ev ev' (n : nat) :
  dsi_recv s sock = Some (0, s1, sock', ev) -> sock <> [] ->
  recv_loop n s1 sock' = Some (s', ev') ->
  recv_loop (S n) s sock = Some (s', ev ++ ev').
Proof using.
  intros H Hne Hl. destruct sock as [|seg sock]; [done|]. cbn [recv_loop].
  rewrite H. cbn [mbind option_bind]. cbn. by rewrite Hl.
Qed.

(** A step of [dsi_recv] reads on, or finishes the packet. *)
Definition recv_step (fin : dsi_server -> Prop) (evs : list event)
    (inv : nat -> dsi_server -> Prop) : Prop :=
  forall k s sock, inv k s -> (k < length pkt)%nat -> segments sock ->
    concat sock = drop k pkt ->
    exists j s' sock' ev,
      dsi_recv s sock = Some (0, s', sock', ev) /\ segments sock' /\ (0 < j)%nat /\
      concat sock' = drop (k + j) pkt /\
      ((k + j < length pkt)%nat /\ ev = [] /\ inv (k + j)%nat s' \/
       (k + j = length pkt)%nat /\ ev = evs /\ fin s').

Lemma segments_nil sock : segments sock -> concat sock = [] -> sock = [].
Proof using. destruct 1 as [|[|x seg] sock]; [done|done|]. discriminate. Qed.

(** Enough fuel, and every segmentation of the packet is reassembled. *)
Lemma recv_loop_complete fin evs inv :
  recv_step fin evs inv ->
  forall n k s sock, (length pkt - k <= n)%nat -> inv k s -> (k < length pkt)%nat ->
    segments sock -> concat sock = drop k pkt ->
    exists s', recv_loop n s sock = Some (s', evs) /\ fin s'.
Proof using.
  intros Hstep n. induction n as [|n IH]; intros k s sock Hn Hi Hk Hs Hc; [lia|].
  destruct (Hstep k s sock Hi Hk Hs Hc)
    as (j & s1 & sock' & ev & Hr & Hs' & Hj & Hc' & Hor).
  assert (sock <> []) as Hne.
  { intros ->. apply (f_equal length) in Hc. revert Hc. solve_len. }
  destruct Hor as [(Hlt & -> & Hi') | (Heq & -> & Hf)].
  - destruct (IH (k + j)%nat s1 sock') as (s' & Hl & Hf); [lia|done..|].
    exists s'. split; [|done]. exact (recv_loop_one _ _ _ _ _ [] _ _ Hr Hne Hl).
  - exists s1. split; [|done]. rewrite <- (app_nil_r evs).
    apply (recv_loop_one _ _ _ _ _ evs [] _ Hr Hne).
    rewrite Heq, drop_all in Hc'. rewrite (segments_nil sock' Hs' Hc').
    by destruct n.
Qed.

(** *** The header *)

Lemma recv_header k s sock :
  receiving k s -> (16 <= cap)%nat -> (k < 16)%nat -> segments sock -> concat sock = drop k pkt ->
  exists j buf sock', (0 < j)%nat /\ (k + j <= 16)%nat /\ segments sock' /\
    concat sock' = drop (k + j) pkt /\
    let s' := set_input buf (data_read s + Z.of_nat j) (u64 (rx_bytes s + Z.of_nat j)) s in
    receiving (k + j) s' /\
    dsi_recv s sock =
      if (k + j =? 16)%nat && (len =? 0) then recv_gotenough s' sock'
      else Some (0, s', sock', []).
Proof using id_ok rc_ok len_ok.
  intros Hr Hcap Hk Hs Hc. pose proof length_pkt as Hpl.
  pose proof Hr as (Hd & _ & _ & _).
  destruct (read_chunk (16 - Z.of_nat k) k pkt sock) as
    (j & sock' & Hrd & Hs' & Hc' & Hj & Hjn & Hjl); [lia|done|done|lia|].
  destruct (receiving_append k j s Hr Hj Hjl) as (buf & Hb & Hlen & Hri); [lia|].
  exists j, buf, sock'. split; [done|]. split; [lia|]. split; [done|]. split; [done|].
  cbn zeta.
  destruct (Hri [] 0 (u64 (rx_bytes s + Z.of_nat j))) as [_ Hri']. split; [done|].
  unfold dsi_recv. rewrite Hd, (proj2 (Z.ltb_lt 0 _)) by lia.
  rewrite Hrd, Hlen, (proj2 (Z.eqb_neq _ 0)) by lia.
  rewrite <- Hd, Hb. cbn [mbind option_bind].
  cbn [set_input data_read incoming_buffer].
  destruct (Nat.eqb_spec (k + j) 16) as [E|E].
  - rewrite (proj2 (Z.eqb_eq _ 16)) by lia.
    destruct (receiving_header _ _ Hri') as (_ & _ & _ & _ & Hl); [lia|].
    cbn [set_input incoming_buffer] in Hl. rewrite Hl. done.
  - rewrite (proj2 (Z.eqb_neq _ 16)) by lia. done.
Qed.

(** The packet found its request, and the return code is stored in it. *)
Lemma gotenough_found k s sock :
  receiving k s -> (16 <= k)%nat -> queued s ->
  exists s1, s1 = update_request (rq_ptr r) (set_return_code rc) s /\
    receiving k s1 /\ at_queue q1 q2 p (set_return_code rc r) s1 /\
    recv_gotenough s sock =
      if (rq_subcommand r =? afpRead) || (rq_subcommand r =? afpReadExt)
      then recv_read (set_return_code rc r) len s1 sock
      else recv_other (Some (set_return_code rc r)) false len s1 sock.
Proof using id_ok rc_ok len_ok r_id r_alone.
  intros Hr Hk Hq. destruct (receiving_header _ _ Hr Hk) as (Hfl & _ & Hid & Hrc & Hl).
  destruct (queued_update s Hq) as (c & Hf & Hf'). eexists.
  split; [done|]. split; [exact Hr|]. split; [done|].
  unfold recv_gotenough. rewrite Hid, Hfl, Hrc, Hl. cbn [mbind option_bind].
  by rewrite Hf.
Qed.

(** *** Replies to commands other than reads *)

Section command.
Hypothesis cap_ok : cap = length pkt.
Hypothesis cmd_ok : cmd = DSI_DSICommand \/ cmd = DSI_DSIWrite.
Hypothesis sub_ok : rq_subcommand r <> 0.
Hypothesis sub_read : rq_subcommand r <> afpRead /\ rq_subcommand r <> afpReadExt.
Hypothesis wait_ok : rq_wait r <> 0.

Lemma not_read :
  (rq_subcommand r =? afpRead) || (rq_subcommand r =? afpReadExt) = false.
Proof using sub_read.
  by rewrite (proj2 (Z.eqb_neq _ afpRead)), (proj2 (Z.eqb_neq _ afpReadExt))
    by apply sub_read.
Qed.

Lemma process_command s sock :
  receiving (length pkt) s ->
  at_queue q1 q2 p (set_return_code rc r) s ->
  exists s', process_packet (Some (set_return_code rc r)) false s sock =
    Some (0, s', sock, [EvCommand (rq_subcommand r) pkt; EvSignal (rq_ptr r)]) /\
    signalled s'.
Proof using id_ok rc_ok len_ok r_id r_alone cap_ok cmd_ok sub_ok sub_read wait_ok.
  intros Hr Hf. unfold process_packet. pose proof length_pkt as Hpl.
  destruct (receiving_header _ _ Hr) as (_ & -> & _); [lia|].
  cbn [mbind option_bind].
  replace (cmd =? DSI_DSICloseSession) with false by (destruct cmd_ok as [E|E]; by rewrite E).
  replace (cmd =? DSI_DSIGetStatus) with false by (destruct cmd_ok as [E|E]; by rewrite E).
  replace (cmd =? DSI_DSIOpenSession) with false by (destruct cmd_ok as [E|E]; by rewrite E).
  replace (cmd =? DSI_DSITickle) with false by (destruct cmd_ok as [E|E]; by rewrite E).
  replace ((cmd =? DSI_DSIWrite) || (cmd =? DSI_DSICommand)) with true
    by (destruct cmd_ok as [E|E]; by rewrite E).
  unfold dsi_command_reply. cbn [set_return_code rq_subcommand].
  pose proof Hr as (Hd & _). rewrite (proj2 (Z.ltb_ge (data_read s) 16)) by lia.
  rewrite (proj2 (Z.eqb_neq _ 0)) by done. rewrite not_read. cbn [orb].
  rewrite (receiving_full s Hr). cbn [mbind option_bind].
  apply (after_processing_full s sock [EvCommand (rq_subcommand r) pkt] wait_ok Hr Hf).
Qed.

Definition command_inv (k : nat) (s : dsi_server) : Prop := receiving k s /\ queued s.

(** The rest of the packet, once the header is there. *)
Lemma command_body k s sock :
  command_inv k s -> (16 <= k < length pkt)%nat -> segments sock ->
  concat sock = drop k pkt ->
  exists j s' sock' ev,
    recv_gotenough s sock = Some (0, s', sock', ev) /\ segments sock' /\ (0 < j)%nat /\
    concat sock' = drop (k + j) pkt /\
    ((k + j < length pkt)%nat /\ ev = [] /\ command_inv (k + j)%nat s' \/
     (k + j = length pkt)%nat /\
     ev = [EvCommand (rq_subcommand r) pkt; EvSignal (rq_ptr r)] /\ signalled s').
Proof using id_ok rc_ok len_ok r_id r_alone cap_ok cmd_ok sub_ok sub_read wait_ok.
  intros [Hr Hq] Hk Hs Hc. pose proof length_pkt as Hpl.
  destruct (gotenough_found k s sock Hr) as (s1 & _ & Hr1 & Hf1 & ->); [lia|done|].
  rewrite not_read. unfold recv_other. pose proof Hr1 as (Hd1 & _ & Hl1 & Hm1).
  replace ((data_read s1 =? 16) && (len =? 0)) with false
    by (symmetry; apply andb_false_iff; right; apply Z.eqb_neq; unfold len; lia).
  assert (i32 (Z.min len (Z.of_nat (length (incoming_buffer s1)))) = len) as ->.
  { rewrite Z.min_l by (unfold len; lia).
    rewrite <- (Z.mod_small len 4294967296) at 1 by (unfold len in *; lia).
    apply i32_wrap. unfold len in *; lia. }
  destruct (read_chunk len k pkt sock) as
    (j & sock' & Hrd & Hs' & Hc' & Hj & Hjn & Hjl); [unfold len; lia|done|done|lia|].
  destruct (receiving_append k j s1 Hr1 Hj Hjl) as (buf & Hb & Hlen & Hri); [lia|].
  rewrite Hrd, Hlen, (proj2 (Z.eqb_neq _ 0)) by lia. rewrite Hb. cbn [mbind option_bind].
  set (s2 := set_input _ _ _ s1). exists j.
  assert (receiving (k + j) s2) as Hr2 by apply (Hri [] 0).
  destruct (Z.ltb_spec (data_read s2) (len + 16)) as [Hlt|Hge];
    pose proof Hr2 as (Hd2 & _).
  - exists s2, sock', []. split_and!; [done..|]. left. split; [unfold len in *; lia|].
    split; [done|]. split; [done|]. by exists rc.
  - assert ((k + j)%nat = length pkt) as Hfull by (unfold len in *; lia).
    rewrite Hfull in Hr2.
    destruct (process_command s2 sock' Hr2 Hf1) as (s' & -> & Hs2).
    exists s', sock', [EvCommand (rq_subcommand r) pkt; EvSignal (rq_ptr r)].
    split_and!; [done..|]. right. done.
Qed.

Lemma command_step :
  recv_step signalled [EvCommand (rq_subcommand r) pkt; EvSignal (rq_ptr r)] command_inv.
Proof using id_ok rc_ok len_ok r_id r_alone cap_ok cmd_ok sub_ok sub_read wait_ok.
  intros k s sock Hi Hk Hs Hc. destruct (decide (16 <= k)%nat) as [Hge|Hlt].
  { destruct (command_body k s sock Hi (conj Hge Hk) Hs Hc)
      as (j & s' & sock' & ev & Hg & Hrest).
    exists j, s', sock', ev. rewrite <- Hg. split; [|done].
    unfold dsi_recv. destruct Hi as [(Hd & _) _].
    by rewrite (proj2 (Z.ltb_ge 0 _)) by lia. }
  destruct Hi as [Hr Hq]. pose proof length_pkt as Hpl.
  destruct (recv_header k s sock Hr) as
    (j & buf & sock' & Hj & Hkj & Hs' & Hc' & Hr' & ->); [lia|lia|done|done|].
  destruct (Nat.eqb_spec (k + j) 16) as [E|E], (Z.eqb_spec len 0) as [El|El]; cbn [andb];
    try (eexists j, _, sock', []; split_and!; [done..|]; left;
         split; [unfold len in *; lia|]; by split).
  set (s2 := set_input _ _ _ s) in *.
  assert ((k + j)%nat = length pkt) as Hfull by (unfold len in *; lia).
  destruct (gotenough_found (k + j) s2 sock' Hr') as (s1 & _ & Hr1 & Hf1 & ->); [lia|done|].
  rewrite not_read. unfold recv_other. pose proof Hr1 as (Hd1 & _).
  rewrite (proj2 (Z.eqb_eq _ 16)), (proj2 (Z.eqb_eq _ 0)) by lia. cbn [andb].
  rewrite Hfull in Hr1. destruct (process_command s1 sock' Hr1 Hf1) as (s' & -> & Hsg).
  eexists j, s', sock', _. split_and!; [done..|]. right. done.
Qed.
End command.

End reply.

(** *** Replies to reads *)

Section read_reply.
Context (cmd id rc : Z) (payload : list Z).
Context (q1 q2 : list dsi_request) (p : Z) (r : dsi_request) (m e : Z) (data : list Z).
Let len := Z.of_nat (length payload).
Let pkt := wire_header DSI_REPLY cmd id rc len ++ payload.

Hypothesis id_ok : 0 <= id < 65536.
Hypothesis rc_ok : -2147483648 <= rc < 2147483648.
Hypothesis len_ok : len <= m < 2147483648.
Hypothesis r_id : rq_requestid r = id.
Hypothesis r_alone : alone q1 q2 r.
Hypothesis data_ok : m <= Z.of_nat (length data).
Hypothesis sub_ok : rq_subcommand r = afpRead \/ rq_subcommand r = afpReadExt.
Hypothesis wait_ok : rq_wait r <> 0.

(** The request when [n] bytes of the data are in its buffer. *)
Definition filled (n : nat) (r' : dsi_request) : Prop :=
  r' = set_other (Some (mk_rx (Z.of_nat n) m (take n payload ++ drop n data) e)) r.

Definition read_inv (k : nat) (s : dsi_server) : Prop :=
  receiving 16 cmd id rc payload (Nat.min k 16) s /\
  exists r', filled (k - 16) r' /\ queued q1 q2 p r' s.

Definition read_done (s : dsi_server) : Prop :=
  exists r', filled (length payload) r' /\ signalled rc q1 q2 p r' s.

Lemma filled_fields n r' :
  filled n r' ->
  rq_wait r' = rq_wait r /\ rq_ptr r' = rq_ptr r /\
  (rq_subcommand r' =? afpRead) || (rq_subcommand r' =? afpReadExt) = true.
Proof using sub_ok.
  intros ->. cbn. split; [done|]. split; [done|].
  destruct sub_ok as [E|E]; by rewrite E.
Qed.

Lemma filled_alone n r' : filled n r' -> alone q1 q2 r' /\ rq_requestid r' = id.
Proof using r_id r_alone. by intros ->. Qed.

Lemma header_done s sock r' :
  filled (length payload) r' -> at_queue q1 q2 p (set_return_code rc r') s ->
  exists s', Some (recv_out (Some (set_return_code rc r'))
                   (set_input (incoming_buffer s) 0 (rx_bytes s) s) sock [])
     = Some (0, s', sock, [EvSignal (rq_ptr r)]) /\ read_done s'.
Proof using r_id r_alone wait_ok sub_ok.
  intros Hfl Hf. destruct (filled_fields _ _ Hfl) as (Hw & Hp & _).
  destruct (recv_out_signals rc q1 q2 p r' (proj1 (filled_alone _ _ Hfl))
    (set_input (incoming_buffer s) 0 (rx_bytes s) s) sock []) as (s' & -> & Hs');
    [by rewrite Hw|done|done|].
  exists s'. rewrite <- Hp. split; [done|]. by exists r'.
Qed.

(** A chunk of data goes to the buffer of the request. *)
Lemma filled_append n j r' :
  filled n r' -> (n + j <= length payload)%nat ->
  exists buf d, rq_other r' = Some buf /\ rx_size buf = Z.of_nat n /\ rx_maxsize buf = m /\
    blit (Z.to_nat (rx_size buf)) (take j (drop n payload)) (rx_data buf) = Some d /\
    filled (n + j)
      (set_other (Some (mk_rx (rx_size buf + Z.of_nat j) (rx_maxsize buf) d
                              (rx_errorcode buf))) r').
Proof using len_ok data_ok.
  intros -> Hj. eexists _, _. split; [done|]. cbn.
  split; [done|]. split; [done|]. rewrite Nat2Z.id.
  rewrite blit_app; [|solve_len|unfold len in *; solve_len]. split; [done|].
  unfold filled, set_other; cbn. rewrite app_assoc, take_take_drop, drop_drop, Nat2Z.inj_add.
  do 5 f_equal. solve_len.
Qed.

Lemma recv_out_same a b s sock ev :
  rq_ptr a = rq_ptr b -> rq_wait a = rq_wait b ->
  recv_out (Some a) s sock ev = recv_out (Some b) s sock ev.
Proof using. intros Hp Hw. unfold recv_out. by rewrite Hp, Hw. Qed.

Lemma wire_drop n : drop (16 + n) pkt = drop n payload.
Proof using.
  unfold pkt. rewrite <- (length_wire_header DSI_REPLY cmd id rc len).
  apply drop_app_add.
Qed.

(** How much [dsi_recv] asks for: what is left of the data. *)
Lemma newmax_rest n :
  (n < length payload)%nat ->
  (if u32 (len - Z.of_nat n) <? u32 (i32 (m - Z.of_nat n))
   then i32 (len - Z.of_nat n) else i32 (m - Z.of_nat n)) = len - Z.of_nat n.
Proof using len_ok data_ok.
  intros Hn. assert (forall x, 0 <= x < 2147483648 -> i32 x = x /\ u32 x = x) as Hi.
  { intros x Hx. split; [|apply u32_small; lia].
    rewrite <- (Z.mod_small x 4294967296) at 1 by lia. apply i32_wrap. lia. }
  destruct (Hi (len - Z.of_nat n)) as [Hi1 Hu1]; [unfold len in *; lia|].
  destruct (Hi (m - Z.of_nat n)) as [Hi2 Hu2]; [unfold len in *; lia|].
  rewrite Hi2, Hi1, Hu1, Hu2. destruct (Z.ltb_spec (len - Z.of_nat n) (m - Z.of_nat n)); lia.
Qed.

Lemma read_body n s sock r' :
  receiving 16 cmd id rc payload 16 s -> filled n r' ->
  at_queue q1 q2 p (set_return_code rc r') s ->
  (n < length payload)%nat -> segments sock -> concat sock = drop n payload ->
  exists j s' sock' ev,
    recv_read (set_return_code rc r') len s sock = Some (0, s', sock', ev) /\
    segments sock' /\ (0 < j)%nat /\ concat sock' = drop (n + j) payload /\
    ((n + j < length payload)%nat /\ ev = [] /\ read_inv (16 + (n + j)) s' \/
     (n + j = length payload)%nat /\ ev = [EvSignal (rq_ptr r)] /\ read_done s').
Proof using len_ok data_ok r_id r_alone sub_ok wait_ok.
  intros Hr Hfl Hf Hn Hs Hc.
  destruct (read_chunk (len - Z.of_nat n) n payload sock) as
    (j & sock' & Hrd & Hs' & Hc' & Hj & _ & Hjl); [unfold len; lia|done|done|lia|].
  destruct (filled_append n j r' Hfl Hjl) as (buf & d & Ho & Hz & Hm & Hb & Hfl').
  pose proof Hr as (Hd & _). unfold recv_read. cbn [set_return_code rq_other].
  rewrite Ho. cbn [mbind option_bind]. rewrite Hd, Hm, Hz.
  rewrite (proj2 (Z.eqb_neq len 0)) by (unfold len; lia). rewrite andb_false_r.
  rewrite (proj2 (Z.eqb_neq m 0)) by (unfold len in *; lia).
  rewrite newmax_rest by done. rewrite Hrd. rewrite Hz, Hm in *.
  assert (Z.of_nat (length (take j (drop n payload))) = Z.of_nat j) as -> by solve_len.
  rewrite (proj2 (Z.eqb_neq (Z.of_nat j) 0)) by lia. rewrite Hb. cbn [mbind option_bind].
  set (nb := mk_rx _ _ _ _) in *. set (s1 := set_input _ _ _ _).
  assert (at_queue q1 q2 p (set_return_code rc (set_other (Some nb) r')) s1)
    as Hf1 by (by apply (at_queue_update q1 q2 p (set_return_code rc r') (set_other (Some nb)) s
                    (proj1 (filled_alone _ _ Hfl)))).
  assert (receiving 16 cmd id rc payload 16 s1) as Hr1.
  { destruct Hr as (? & ? & ? & ?). split_and!; simpl; auto. }
  exists j. destruct (Z.eqb_spec len (Z.of_nat n + Z.of_nat j)) as [El|El].
  - assert (data_read s1 - 16 = 0) as E16 by (destruct Hr1 as [-> _]; done).
    rewrite E16, Z.eqb_refl.
    assert ((n + j)%nat = length payload) as Hfull by (unfold len in *; lia).
    rewrite Hfull in Hfl'.
    destruct (header_done s1 sock' _ Hfl' Hf1) as (s' & Heq & Hd').
    exists s', sock', [EvSignal (rq_ptr r)].
    rewrite (recv_out_same _ (set_return_code rc (set_other (Some nb) r'))) by done.
    split; [exact Heq|]. split; [done|]. split; [done|]. split; [done|]. by right.
  - exists s1, sock', []. split_and!; [done..|]. left. split; [unfold len in *; lia|].
    split; [done|]. unfold read_inv.
    replace (Nat.min (16 + (n + j)) 16) with 16%nat by lia.
    replace (16 + (n + j) - 16)%nat with (n + j)%nat by lia.
    split; [done|]. eexists. split; [exact Hfl'|]. by exists rc.
Qed.

Lemma gotenough_read s sock r' n :
  receiving 16 cmd id rc payload 16 s -> filled n r' -> queued q1 q2 p r' s ->
  exists s1, receiving 16 cmd id rc payload 16 s1 /\
    at_queue q1 q2 p (set_return_code rc r') s1 /\
    recv_gotenough s sock = recv_read (set_return_code rc r') len s1 sock.
Proof using id_ok rc_ok len_ok r_id r_alone data_ok sub_ok.
  intros Hr Hfl Hq.
  destruct (gotenough_found 16 cmd id rc payload q1 q2 p r' id_ok rc_ok) with 16%nat s sock
    as (s1 & _ & Hr1 & Hf1 & Hg);
    [unfold len in *; lia|apply (filled_alone _ _ Hfl)..|done|lia|done|].
  destruct (filled_fields _ _ Hfl) as (_ & _ & Hsub). rewrite Hsub in Hg. by exists s1.
Qed.

Lemma read_step :
  recv_step cmd id rc payload read_done [EvSignal (rq_ptr r)] read_inv.
Proof using id_ok rc_ok len_ok r_id r_alone data_ok sub_ok wait_ok.
  intros k s sock (Hr & r' & Hfl & Hq) Hk Hs Hc. fold len in Hk, Hc |- *. fold pkt in Hk, Hc |- *.
  assert (length pkt = 16 + length payload)%nat as Hpl by apply length_pkt.
  destruct (decide (16 <= k)%nat) as [Hge|Hlt].
  - rewrite Nat.min_r in Hr by lia.
    replace k with (16 + (k - 16))%nat in Hc by lia. rewrite wire_drop in Hc.
    destruct (gotenough_read s sock r' _ Hr Hfl Hq) as (s1 & Hr1 & Hf1 & Hg).
    destruct (read_body (k - 16) s1 sock r' Hr1 Hfl Hf1) as
      (j & s' & sock' & ev & Hb & Hs' & Hj & Hc' & Hor); [lia|done|done|].
    exists j, s', sock', ev. split.
    { unfold dsi_recv. destruct Hr as (Hd & _).
      rewrite (proj2 (Z.ltb_ge 0 _)) by lia. by rewrite Hg. }
    replace (k + j)%nat with (16 + (k - 16 + j))%nat by lia. rewrite wire_drop.
    split_and!; [done..|].
    destruct Hor as [(? & ? & ?)|(? & ? & ?)]; [left|right]; (split; [lia|done]).
  - rewrite Nat.min_l in Hr by lia.
    destruct (recv_header 16 cmd id rc payload id_ok rc_ok) with k s sock as
      (j & buf & sock' & Hj & Hkj & Hs' & Hc' & Hr' & ->);
      [unfold len in *; lia|done|lia|lia|done|done|].
    fold len in Hc' |- *. fold pkt in Hc' |- *. set (s2 := set_input _ _ _ s) in *.
    replace (k - 16)%nat with 0%nat in Hfl by lia.
    destruct (Nat.eqb_spec (k + j) 16) as [E|E], (Z.eqb_spec len 0) as [El|El];
      cbn [andb];
      try (eexists j, _, sock', []; split_and!; [done..|]; left;
           split; [unfold len in *; lia|]; split; [done|];
           unfold read_inv; rewrite Nat.min_l by lia; split; [done|];
           exists r'; replace (k + j - 16)%nat with 0%nat by lia; by split).
    rewrite E in Hr'. destruct (gotenough_read s2 sock' r' _ Hr' Hfl Hq) as (s1 & Hr1 & Hf1 & ->).
    replace 0%nat with (length payload) in Hfl by (unfold len in *; lia).
    destruct (header_done s1 sock' r' Hfl Hf1) as (s' & Heq & Hd').
    unfold recv_read. destruct Hr1 as (Hd1 & _). cbn [set_return_code rq_other].
    destruct (filled_append (length payload) 0 r' Hfl) as (b0 & d0 & -> & _); [lia|].
    cbn [mbind option_bind].
    rewrite (proj2 (Z.eqb_eq _ 16)), (proj2 (Z.eqb_eq _ 0)) by lia. cbn [andb].
    eexists j, s', sock', _. split; [exact Heq|]. split_and!; [done..|]. right.
    split; [unfold len in *; lia|done].
Qed.

End read_reply.

(** ** A request and its reply *)

Lemma at_queue_find_ptr q1 q2 p x s :
  alone q1 q2 x -> at_queue q1 q2 p x s -> find_ptr (rq_ptr x) (command_requests s) = Some x.
Proof.
  intros (H1 & _) [-> _]. induction H1 as [|y q1 Hy _ IH]; cbn [app find_ptr].
  - by rewrite Z.eqb_refl.
  - by rewrite (proj2 (Z.eqb_neq _ _)).
Qed.

Definition connected : send_env := mk_env true 3 false Written false.

(** The header [dsi_setup_header] makes and the id it stands for. *)
Lemma setup_header_id s cmd :
  0 <= lastrequestid s < 65536 ->
  exists id, 0 <= id < 65536 /\ id = (lastrequestid s + 1) mod 65536 /\
    dsi_setup_header s cmd = (set_ids id id s, dsi_header 0 cmd (htons id) 0 0).
Proof.
  intros Hl. unfold dsi_setup_header. eexists. split; [|split; [|done]].
  - destruct (Z.eqb_spec (lastrequestid s) 65535); [lia|apply u16_range].
  - destruct (Z.eqb_spec (lastrequestid s) 65535) as [->|]; done.
Qed.

(** [dsi_send] on a live connection: the request it queues is at the end of the
    queue while the reply is awaited; when the main loop leaves it there with its
    return code, that code is the result and the queue is as before. *)
Lemma dsi_send_waits reconnect meanwhile ptr s cmd body wait sub other :
  0 <= cmd < 256 -> 0 <= lastrequestid s < 65536 -> 0 <= requests_pending s < 2 ^ 64 ->
  let id := (lastrequestid s + 1) mod 65536 in
  let r := mk_request ptr id (u8 sub) wait 0 0 other in
  let s1 := (dsi_setup_header s cmd).1 in
  let msg := wire_header 0 cmd id 0 (Z.of_nat (length body)) ++ body in
  alone (command_requests s) [] r ->
  forall P : dsi_request -> dsi_server -> Prop,
  (forall s', at_queue (command_requests s) [] (u64 (requests_pending s + 1)) r s' ->
     incoming_buffer s' = incoming_buffer s -> data_read s' = data_read s ->
     exists x s2, meanwhile s' = Some s2 /\ P x s2 /\ rq_ptr x = ptr /\ rq_requestid x = id /\
       at_queue (command_requests s) [] (u64 (requests_pending s + 1)) x s2) ->
  exists x s2 s3, P x s2 /\
    dsi_send reconnect meanwhile connected ptr s1
      ((dsi_setup_header s cmd).2 ++ body) wait sub other =
      Some (mk_result (rq_return_code x) s3 [msg] (rq_other x) false false) /\
    command_requests s3 = command_requests s /\ requests_pending s3 = requests_pending s /\
    data_read s3 = data_read s2 /\ incoming_buffer s3 = incoming_buffer s2.
Proof.
  intros Hc Hl Hp id r s1 msg Ha P Hm.
  destruct (setup_header_id s cmd Hl) as (id' & Hid & He & Hset).
  fold id in He. subst id'. subst s1. rewrite Hset. cbn [fst snd].
  unfold dsi_send. rewrite dsi_header_wire by done. cbn [mbind option_bind].
  cbn [connected en_valid en_fd en_disconnected en_write en_timed_out negb orb].
  change (3 =? 0) with false. cbn match.
  match goal with |- context [meanwhile ?t] =>
    destruct (Hm t (conj eq_refl eq_refl) eq_refl eq_refl)
      as (x & s2 & -> & HP & Hpx & Hidx & Hx) end.
  assert (alone (command_requests s) [] x) as Hax
    by (unfold alone in *; by rewrite Hpx, Hidx).
  exists x, s2. cbn [mbind option_bind].
  pose proof (at_queue_find_ptr _ _ _ _ _ Hax Hx) as Hfp. rewrite Hpx in Hfp. rewrite Hfp.
  cbn [mbind option_bind]. rewrite andb_false_r.
  pose proof (at_queue_remove _ _ _ _ _ Hax Hx) as Hrm. rewrite Hpx in Hrm. rewrite Hrm.
  eexists. split; [done|]. split; [done|]. cbn. rewrite app_nil_r. split; [done|].
  split; [|done]. unfold u64. rewrite Zminus_mod_idemp_l.
  replace (requests_pending s + 1 - 1) with (requests_pending s) by lia.
  apply Z.mod_small. lia.
Qed.

(** A tickle is a header with the next id and no body; without an answer, and a server does
    not answer it, the queue is as it was. *)
Lemma tickle_sent reconnect ptr s :
  0 <= lastrequestid s < 65536 -> 0 <= requests_pending s < 2 ^ 64 ->
  let id := (lastrequestid s + 1) mod 65536 in
  Forall (fun y => rq_ptr y <> ptr /\ rq_requestid y <> id) (command_requests s) ->
  exists s', dsi_sendtickle reconnect Some connected ptr s =
      Some (0, mk_result 0 s' [wire_header 0 DSI_DSITickle id 0 0] None false false) /\
    command_requests s' = command_requests s /\ requests_pending s' = requests_pending s.
Proof.
  intros Hl Hp id Hfr. unfold dsi_sendtickle.
  set (r := mk_request ptr id (u8 DSI_DONT_WAIT) 1 0 0 None).
  assert (alone (command_requests s) [] r) as Ha.
  { split_and!; [..|constructor|]; (eapply Forall_impl; [exact Hfr|]; cbn; tauto). }
  destruct (dsi_send_waits reconnect Some ptr s DSI_DSITickle [] 1 DSI_DONT_WAIT None)
    with (P := fun x (_ : dsi_server) => x = r) as (x & s2 & s3 & -> & Hsend & Hq & Hpend & _); try done.
  - intros s' Hat _ _. by exists r, s'.
  - rewrite app_nil_r in Hsend. rewrite app_nil_r in Hsend.
    destruct (dsi_setup_header s DSI_DSITickle) as [s1 header]. cbn [fst snd] in Hsend.
    rewrite Hsend. by exists s3.
Qed.

(** The hypotheses on a server that is about to receive [n] bytes. *)
Definition ready (n : Z) (s : dsi_server) : Prop :=
  data_read s = 0 /\ n <= Z.of_nat (length (incoming_buffer s)) < 2147483648.

#[export] Instance ready_dec n s : Decision (ready n s).
Proof. unfold ready. apply _. Defined.

Lemma ready_receiving cap cmd id rc payload s :
  ready (Z.of_nat cap) s -> receiving cap cmd id rc payload 0 s.
Proof.
  intros (Hd & Hb). split_and!; [done|by exists (incoming_buffer s)|lia|lia].
Qed.

Lemma set_return_code_same r : set_return_code (rq_return_code r) r = r.
Proof. by destruct r. Qed.

Lemma command_received cmd rc payload q1 q2 p r s sock fuel :
  let pkt := wire_header DSI_REPLY cmd (rq_requestid r) rc (Z.of_nat (length payload))
               ++ payload in
  cmd = DSI_DSICommand \/ cmd = DSI_DSIWrite ->
  0 <= rq_requestid r < 65536 -> -2147483648 <= rc < 2147483648 ->
  ready (16 + Z.of_nat (length payload)) s -> at_queue q1 q2 p r s -> alone q1 q2 r ->
  rq_subcommand r <> 0 -> rq_subcommand r <> afpRead -> rq_subcommand r <> afpReadExt ->
  rq_wait r <> 0 -> segments sock -> concat sock = pkt -> (length pkt <= fuel)%nat ->
  exists s', recv_loop fuel s sock =
      Some (s', [EvCommand (rq_subcommand r) pkt; EvSignal (rq_ptr r)]) /\
    signalled rc q1 q2 p r s'.
Proof.
  intros pkt Hcmd Hid Hrc Hrd Hq Ha Hsub Hs1 Hs2 Hw Hs Hc Hf.
  assert (length pkt = 16 + length payload)%nat as Hpl by (subst pkt; apply length_pkt).
  apply (recv_loop_complete cmd (rq_requestid r) rc payload _ _
    (command_inv (length pkt) cmd (rq_requestid r) rc payload q1 q2 p r)) with 0%nat;
    try done.
  - apply command_step; try done. destruct Hrd as [_ ?]. lia.
  - split; [apply ready_receiving; by rewrite Hpl, Nat2Z.inj_add|]. exists (rq_return_code r).
    by rewrite set_return_code_same.
  - fold pkt. lia.
Qed.

(** However the network cuts the reply to a command into segments, the main
    loop reassembles it: the whole packet goes once to the handler of its request,
    the request is signalled with the return code of the packet, the other
    requests are untouched, and the buffer is ready for the next packet.  Fuel as
    large as the packet suffices, since every call of [dsi_recv] reads a byte. *)
Theorem command_reply_reassembled cmd rc payload q1 q2 r s sock fuel :
  let pkt := wire_header DSI_REPLY cmd (rq_requestid r) rc (Z.of_nat (length payload))
               ++ payload in
  cmd = DSI_DSICommand \/ cmd = DSI_DSIWrite ->
  0 <= rq_requestid r < 65536 -> -2147483648 <= rc < 2147483648 ->
  ready (16 + Z.of_nat (length payload)) s ->
  command_requests s = q1 ++ r :: q2 -> alone q1 q2 r ->
  rq_subcommand r <> 0 -> rq_subcommand r <> afpRead -> rq_subcommand r <> afpReadExt ->
  rq_wait r <> 0 ->
  segments sock -> concat sock = pkt -> (length pkt <= fuel)%nat ->
  exists s', recv_loop fuel s sock =
      Some (s', [EvCommand (rq_subcommand r) pkt; EvSignal (rq_ptr r)]) /\
    data_read s' = 0 /\
    command_requests s' = q1 ++ signal_request (set_return_code rc r) :: q2.
Proof.
  intros pkt Hcmd Hid Hrc Hrd Hq Ha Hsub Hs1 Hs2 Hw Hs Hc Hf.
  destruct (command_received cmd rc payload q1 q2 (requests_pending s) r s sock fuel)
    as (s' & Hl & Hd & Hq' & _); try done.
  by exists s'.
Qed.

(** C1: a request and its reply, end to end.  With the header [dsi_setup_header]
    makes, [dsi_send] puts one message on the wire, with the next request id and
    the length of the body; when the reply to that id arrives, in any
    segmentation, it returns the code of the reply, and the queue of requests is
    as it was. *)
Theorem command_exchange reconnect ptr s cmd body wait sub payload rc sock fuel :
  let id := (lastrequestid s + 1) mod 65536 in
  let reply := wire_header DSI_REPLY cmd id rc (Z.of_nat (length payload)) ++ payload in
  cmd = DSI_DSICommand \/ cmd = DSI_DSIWrite ->
  0 <= lastrequestid s < 65536 -> 0 <= requests_pending s < 2 ^ 64 ->
  -2147483648 <= rc < 2147483648 ->
  ready (16 + Z.of_nat (length payload)) s ->
  Forall (fun y => rq_ptr y <> ptr /\ rq_requestid y <> id) (command_requests s) ->
  0 < sub < 256 -> sub <> afpRead -> sub <> afpReadExt -> wait <> 0 ->
  segments sock -> concat sock = reply -> (length reply <= fuel)%nat ->
  exists s', dsi_send reconnect (fun s => fst <$> recv_loop fuel s sock) connected ptr
      (dsi_setup_header s cmd).1 ((dsi_setup_header s cmd).2 ++ body) wait sub None =
      Some (mk_result rc s'
              [wire_header 0 cmd id 0 (Z.of_nat (length body)) ++ body] None false false) /\
    command_requests s' = command_requests s /\
    requests_pending s' = requests_pending s /\ data_read s' = 0.
Proof.
  intros id reply Hcmd Hl Hp Hrc Hrd Hfr Hsub Hs1 Hs2 Hw Hs Hc Hf.
  assert (0 <= id < 65536) as Hid by (apply Z.mod_pos_bound; lia).
  set (r := mk_request ptr id (u8 sub) wait 0 0 None).
  assert (alone (command_requests s) [] r) as Ha.
  { split_and!; [..|constructor|]; (eapply Forall_impl; [exact Hfr|]; cbn; tauto). }
  destruct (dsi_send_waits reconnect (fun s => fst <$> recv_loop fuel s sock) ptr s cmd
    body wait sub None) with (P := fun x s2 => x = signal_request (set_return_code rc r) /\
      data_read s2 = 0) as (x & s2 & s' & (-> & Hd2) & Hsend & Hq' & Hp' & Hd' & _).
  - destruct Hcmd as [-> | ->]; done.
  - done.
  - done.
  - exact Ha.
  - intros s0 Hat Hib Hdr. assert (u8 sub = sub) as Hu by (apply u8_small; lia).
    destruct (command_received cmd rc payload (command_requests s) []
      (u64 (requests_pending s + 1)) r s0 sock fuel) as (s2 & Hlp & Hsd & Hat2);
      cbn [r rq_subcommand rq_wait rq_requestid]; rewrite ?Hu; try done; [|lia|].
    + unfold ready. by rewrite Hdr, Hib.
    + eexists _, s2. rewrite Hlp. split_and!; [done..|apply Hat2].
  - exists s'. rewrite Hd'. done.
Qed.

Lemma read_received cmd rc payload q1 q2 p r m e data s sock fuel :
  let pkt := wire_header DSI_REPLY cmd (rq_requestid r) rc (Z.of_nat (length payload))
               ++ payload in
  0 <= rq_requestid r < 65536 -> -2147483648 <= rc < 2147483648 ->
  Z.of_nat (length payload) <= m < 2147483648 -> m <= Z.of_nat (length data) ->
  ready 16 s -> at_queue q1 q2 p r s -> alone q1 q2 r ->
  rq_subcommand r = afpRead \/ rq_subcommand r = afpReadExt -> rq_wait r <> 0 ->
  rq_other r = Some (mk_rx 0 m data e) ->
  segments sock -> concat sock = pkt -> (length pkt <= fuel)%nat ->
  exists s', recv_loop fuel s sock = Some (s', [EvSignal (rq_ptr r)]) /\
    read_done rc payload q1 q2 p r m e data s'.
Proof.
  intros pkt Hid Hrc Hm Hd Hrd Hq Ha Hsub Hw Ho Hs Hc Hf.
  assert (length pkt = 16 + length payload)%nat as Hpl by (subst pkt; apply length_pkt).
  apply (recv_loop_complete cmd (rq_requestid r) rc payload _ _
    (read_inv cmd (rq_requestid r) rc payload q1 q2 p r m e data)) with 0%nat; try done.
  - by apply read_step.
  - split; [by apply ready_receiving|]. exists r. split.
    + unfold filled. cbn. rewrite drop_0. destruct r; cbn in *. by rewrite Ho.
    + exists (rq_return_code r). by rewrite set_return_code_same.
  - fold pkt. lia.
Qed.

(** C2: a read, end to end.  The data of the reply to an [afpRead] or
    [afpReadExt], in any segmentation, ends up at the start of the caller's
    buffer, with its size recorded, when it fits there; [dsi_send] returns the code
    of the reply, and the queue of requests is as it was.  The data never passes
    through the receive buffer. *)
Theorem read_exchange reconnect ptr s body wait sub payload rc m e data sock fuel :
  let id := (lastrequestid s + 1) mod 65536 in
  let reply := wire_header DSI_REPLY DSI_DSICommand id rc (Z.of_nat (length payload))
                 ++ payload in
  0 <= lastrequestid s < 65536 -> 0 <= requests_pending s < 2 ^ 64 ->
  -2147483648 <= rc < 2147483648 ->
  Z.of_nat (length payload) <= m < 2147483648 -> m <= Z.of_nat (length data) ->
  ready 16 s ->
  Forall (fun y => rq_ptr y <> ptr /\ rq_requestid y <> id) (command_requests s) ->
  sub = afpRead \/ sub = afpReadExt -> wait <> 0 ->
  segments sock -> concat sock = reply -> (length reply <= fuel)%nat ->
  exists s', dsi_send reconnect (fun s => fst <$> recv_loop fuel s sock) connected ptr
      (dsi_setup_header s DSI_DSICommand).1 ((dsi_setup_header s DSI_DSICommand).2 ++ body)
      wait sub (Some (mk_rx 0 m data e)) =
      Some (mk_result rc s'
              [wire_header 0 DSI_DSICommand id 0 (Z.of_nat (length body)) ++ body]
              (Some (mk_rx (Z.of_nat (length payload)) m
                           (payload ++ drop (length payload) data) e)) false false) /\
    command_requests s' = command_requests s /\
    requests_pending s' = requests_pending s /\ data_read s' = 0.
Proof.
  intros id reply Hl Hp Hrc Hm Hdt Hrd Hfr Hsub Hw Hs Hc Hf.
  assert (0 <= id < 65536) as Hid by (apply Z.mod_pos_bound; lia).
  assert (u8 sub = sub) as Hu by (destruct Hsub as [-> | ->]; done).
  set (r := mk_request ptr id (u8 sub) wait 0 0 (Some (mk_rx 0 m data e))).
  assert (alone (command_requests s) [] r) as Ha.
  { split_and!; [..|constructor|]; (eapply Forall_impl; [exact Hfr|]; cbn; tauto). }
  destruct (dsi_send_waits reconnect (fun s => fst <$> recv_loop fuel s sock) ptr s
    DSI_DSICommand body wait sub (Some (mk_rx 0 m data e))) with
    (P := fun x s2 => rq_return_code x = rc /\
       rq_other x = Some (mk_rx (Z.of_nat (length payload)) m
                           (payload ++ drop (length payload) data) e) /\
       data_read s2 = 0)
    as (x & s2 & s' & (Hx1 & Hx2 & Hd2) & Hsend & Hq' & Hp' & Hd' & _); try done.
  - intros s0 Hat Hib Hdr.
    destruct (read_received DSI_DSICommand rc payload (command_requests s) []
      (u64 (requests_pending s + 1)) r m e data s0 sock fuel)
      as (s2 & Hlp & r' & Hfl & Hsd & Hat2); cbn [r rq_subcommand]; rewrite ?Hu; try done.
    + unfold ready. by rewrite Hdr, Hib.
    + unfold filled in Hfl. rewrite take_ge in Hfl by lia. subst r'.
      eexists _, s2. rewrite Hlp. split; [done|]. split; [|split; [|split; [|exact Hat2]]]; done.
  - exists s'. rewrite Hx1, Hx2 in Hsend. rewrite Hd'. done.
Qed.

(** A server after its last request id was handed out, with one other request
    outstanding, and a reply in three segments. *)
Definition sample_request : dsi_request := mk_request 100 65535 afpGetVolParms 30 0 0 None.
Definition sample_server : dsi_server :=
  mk_server 65535 65535 [sample_request] 1 0 0 0 (replicate 64 0) 0 (replicate 64 0) 0 0.
Definition sample_socket (cmd id rc : Z) : list (list Z) :=
  [[1; cmd; 0]; [id; 255; 255; 255; 256 + rc; 0; 0; 0; 3; 0; 0; 0; 0; 10]; [20; 30]].

Ltac witness_goal :=
  repeat match goal with
  | |- _ \/ _ => first [by left|by right]
  | |- segments _ => repeat constructor; discriminate
  | |- Forall _ _ => repeat constructor; done
  | |- (_ <= _)%nat => vm_compute; lia
  | |- _ => by vm_compute
  | |- _ => by apply (bool_decide_unpack _); vm_compute
  end.

Lemma command_reply_reassembled_witness :
  exists s', recv_loop 19 (set_queue [mk_request 7 5 afpGetVolParms 30 0 0 None;
                                      sample_request] 2 sample_server)
               (sample_socket DSI_DSICommand 5 (-5)) =
      Some (s', [EvCommand afpGetVolParms
                   (concat (sample_socket DSI_DSICommand 5 (-5))); EvSignal 7]) /\
    data_read s' = 0 /\
    command_requests s' = [mk_request 7 5 afpGetVolParms 0 1 (-5) None; sample_request].
Proof.
  apply (command_reply_reassembled DSI_DSICommand (-5) [10; 20; 30] [] [sample_request]
    (mk_request 7 5 afpGetVolParms 30 0 0 None)); witness_goal.
Defined.

Lemma command_exchange_witness :
  exists s', dsi_send (fun s => (s, false))
      (fun s => fst <$> recv_loop 19 s (sample_socket DSI_DSIWrite 0 (-5))) connected 7
      (dsi_setup_header sample_server DSI_DSIWrite).1
      ((dsi_setup_header sample_server DSI_DSIWrite).2 ++ [1; 2; 3]) 30 afpWrite None =
      Some (mk_result (-5) s'
              [[0; 6; 0; 0; 0; 0; 0; 0; 0; 0; 0; 3; 0; 0; 0; 0; 1; 2; 3]] None false false) /\
    command_requests s' = [sample_request] /\ requests_pending s' = 1 /\ data_read s' = 0.
Proof.
  apply (command_exchange (fun s => (s, false)) 7 sample_server DSI_DSIWrite [1; 2; 3] 30
    afpWrite [10; 20; 30] (-5)); witness_goal.
Defined.

Lemma read_exchange_witness :
  exists s', dsi_send (fun s => (s, false))
      (fun s => fst <$> recv_loop 19 s (sample_socket DSI_DSICommand 0 (-5))) connected 7
      (dsi_setup_header sample_server DSI_DSICommand).1
      ((dsi_setup_header sample_server DSI_DSICommand).2 ++ [1; 2; 3]) (-1) afpRead
      (Some (mk_rx 0 4 [9; 9; 9; 9] 0)) =
      Some (mk_result (-5) s'
              [[0; 2; 0; 0; 0; 0; 0; 0; 0; 0; 0; 3; 0; 0; 0; 0; 1; 2; 3]]
              (Some (mk_rx 3 4 [10; 20; 30; 9] 0)) false false) /\
    command_requests s' = [sample_request] /\ requests_pending s' = 1 /\ data_read s' = 0.
Proof.
  apply (read_exchange (fun s => (s, false)) 7 sample_server [1; 2; 3] (-1)
    afpRead [10; 20; 30] (-5) 4 0 [9; 9; 9; 9]); witness_goal.
Defined.

(** ** Request ids *)

(** The ids in the headers of [n] requests set up one after the other. *)
Fixpoint header_ids (n : nat) (s : dsi_server) (cmd : Z) : list (option Z) :=
  match n with
  | O => []
  | S n => let '(s, header) := dsi_setup_header s cmd in
           hd_requestid header :: header_ids n s cmd
  end.

Lemma hd_requestid_header cmd id :
  0 <= id < 65536 -> hd_requestid (dsi_header 0 cmd (htons id) 0 0) = Some id.
Proof.
  intros H. unfold hd_requestid, dsi_header. rewrite st16_htons, (app_assoc (st8 0)).
  by apply (ntohs_ld16 (st8 0 ++ st8 cmd)).
Qed.

Lemma header_ids_eq n s cmd :
  0 <= lastrequestid s < 65536 ->
  header_ids n s cmd =
    (fun i => Some ((lastrequestid s + 1 + i) mod 65536)) <$> seqZ 0 (Z.of_nat n).
Proof.
  revert s; induction n as [|n IH]; intros s Hs; [done|]. cbn [header_ids].
  destruct (setup_header_id s cmd Hs) as (id & Hid & He & ->).
  rewrite IH by done. rewrite hd_requestid_header by done.
  rewrite (seqZ_cons 0 (Z.of_nat (S n))) by lia. cbn [fmap list_fmap]. f_equal.
  - f_equal. rewrite He. f_equal. lia.
  - replace (Z.pred (Z.of_nat (S n))) with (Z.of_nat n) by lia.
    change (Z.succ 0) with (1 + 0). rewrite <- (fmap_add_seqZ 1 0 (Z.of_nat n)), <- list_fmap_compose.
    apply list_fmap_ext. intros i x _. cbn. f_equal. rewrite He.
    rewrite <- Z.add_assoc, Zplus_mod_idemp_l. f_equal.
Qed.

(** The ids of up to 65536 consecutive requests are pairwise distinct and
    valid, across the wrap of the 16-bit counter: as long as no request stays
    outstanding for 65536 others, an id names one request. *)
Theorem request_ids_distinct n s cmd :
  0 <= lastrequestid s < 65536 -> Z.of_nat n <= 65536 ->
  NoDup (header_ids n s cmd) /\
  Forall (fun o => exists id, o = Some id /\ 0 <= id < 65536) (header_ids n s cmd).
Proof.
  intros Hs Hn. rewrite header_ids_eq by done. split.
  - apply NoDup_fmap_2_strong; [|apply NoDup_seqZ].
    intros x y Hx%elem_of_seqZ Hy%elem_of_seqZ Heq.
    apply (inj Some) in Heq. dlia.
  - apply Forall_fmap, Forall_true. intros i. eexists. split; [done|].
    apply Z.mod_pos_bound. lia.
Qed.

Lemma request_ids_distinct_witness :
  NoDup (header_ids 4 sample_server DSI_DSICommand) /\
  Forall (fun o => exists id, o = Some id /\ 0 <= id < 65536)
         (header_ids 4 sample_server DSI_DSICommand).
Proof. apply (request_ids_distinct 4 sample_server DSI_DSICommand); vm_compute; done. Defined.

(** ** What goes wrong between packets *)

(** When [dsi_recv] has read [n] bytes of the next packet along with this
    one, the shift that should bring them to the front takes them from the wrong
    place, the last 16 bytes of this packet onwards, and the count of valid bytes
    becomes the length of this packet, not [n]. *)
Theorem leftover_misplaced request s sock ev len n :
  hd_length (incoming_buffer s) = Some len -> 0 <= len -> 0 < n ->
  data_read s = len + 16 + n ->
  data_read s <= Z.of_nat (length (incoming_buffer s)) < 2147483648 ->
  exists s', after_processing request s sock ev = Some (recv_out request s' sock ev) /\
    data_read s' = len + 16 /\
    take (Z.to_nat n) (incoming_buffer s') =
      take (Z.to_nat n) (drop (Z.to_nat len) (incoming_buffer s)).
Proof.
  intros Hl Hlen Hn Hd Hb. unfold after_processing. rewrite Hl. cbn [mbind option_bind].
  rewrite (proj2 (Z.eqb_neq _ _)) by lia.
  assert (u32 (data_read s - (len + 16)) = n) as -> by (rewrite u32_small; lia).
  rewrite slice_in_range by lia. cbn [mbind option_bind].
  rewrite blit_0 by solve_len. cbn [mbind option_bind]. eexists. split; [done|].
  cbn [set_input data_read incoming_buffer]. split.
  - rewrite <- (Z.mod_small (data_read s - n) 4294967296) by lia. rewrite i32_wrap; lia.
  - rewrite take_app_le by solve_len. apply take_ge. solve_len.
Qed.

Lemma leftover_misplaced_witness :
  exists s', after_processing None
      (set_input (wire_header DSI_REPLY DSI_DSICommand 5 0 2 ++ [10; 20] ++ [1; 2] ++
                  replicate 30 0) 20 0 sample_server) [] []
      = Some (recv_out None s' [] []) /\
    data_read s' = 18 /\ take 2 (incoming_buffer s') = take 2 (drop 2
      (wire_header DSI_REPLY DSI_DSICommand 5 0 2 ++ [10; 20] ++ [1; 2] ++ replicate 30 0)).
Proof.
  apply (leftover_misplaced None
    (set_input (wire_header DSI_REPLY DSI_DSICommand 5 0 2 ++ [10; 20] ++ [1; 2] ++
                replicate 30 0) 20 0 sample_server) [] [] 2 2); vm_compute; done.
Defined.

(** A reply whose body does not fit behind its header in the receive buffer
    is not refused: as soon as a segment as long as the read asks for arrives,
    [dsi_recv] writes past the end of the buffer. *)
Theorem oversized_reply_overruns s seg sock id rc cmd len t :
  incoming_buffer s = wire_header DSI_REPLY cmd id rc len ++ t -> data_read s = 16 ->
  0 <= id < 65536 -> -2147483648 <= rc < 2147483648 -> 0 <= len < 4294967296 ->
  Z.of_nat (length (incoming_buffer s)) < 2147483648 ->
  dsi_find_request s id = None ->
  Z.of_nat (length (incoming_buffer s)) < len + 16 ->
  Z.min len (Z.of_nat (length (incoming_buffer s))) <= Z.of_nat (length seg) ->
  dsi_recv s (seg :: sock) = None.
Proof.
  intros Hb Hd Hid Hrc Hlen Hbl Hf Hover Hseg. unfold dsi_recv. rewrite Hd.
  cbn [Z.sub]. change (0 <? 16 - 16) with false. cbn match.
  unfold recv_gotenough. rewrite Hb.
  rewrite hd_requestid_wire, hd_flags_wire, hd_error_code_wire, hd_length_wire by done.
  cbn [mbind option_bind]. rewrite Hf. change (DSI_REPLY =? DSI_REPLY) with true. cbn match.
  unfold recv_other. cbn [set_runt data_read incoming_buffer]. rewrite Hd.
  set (B := length (incoming_buffer s)) in *.
  assert (16 <= B)%nat as HB by (unfold B; rewrite Hb; solve_len).
  rewrite (proj2 (Z.eqb_neq len 0)) by lia. rewrite andb_false_r.
  assert (i32 (Z.min len (Z.of_nat B)) = Z.min len (Z.of_nat B)) as ->.
  { rewrite <- (Z.mod_small (Z.min len (Z.of_nat B)) 4294967296) at 1 by lia.
    apply i32_wrap. lia. }
  unfold sock_read. rewrite (proj2 (Z.ltb_ge _ 0)) by lia.
  rewrite (proj2 (Z.eqb_neq _ 0)) by solve_len.
  rewrite (proj2 (blit_None _ _ _)); [done|]. fold B. solve_len.
Qed.

Lemma oversized_reply_overruns_witness :
  dsi_recv (set_input (wire_header DSI_REPLY DSI_DSICommand 5 0 50 ++ replicate 48 0) 16 0
              sample_server) [replicate 50 7] = None.
Proof.
  apply (oversized_reply_overruns _ (replicate 50 7) [] 5 0 DSI_DSICommand 50
    (replicate 48 0));
    vm_compute; done.
Defined.

(** A packet that is no reply, with the command of one and an id that is not
    outstanding: [dsi_recv] follows the null pointer to its request. *)
Lemma unsolicited_command_crashes :
  dsi_recv sample_server [wire_header DSI_REQUEST DSI_DSICommand 9 0 0] = None.
Proof. by vm_compute. Qed.

(** The handler of a reply never gets less than a header. *)
Lemma command_packet_framed request s sock s' sock' ev sub packet :
  dsi_command_reply request s sock = Some (s', sock', ev) ->
  data_read s <= Z.of_nat (length (incoming_buffer s)) ->
  EvCommand sub packet ∈ ev -> (16 <= length packet)%nat.
Proof.
  unfold dsi_command_reply. intros H Hb Hin. destruct (Z.ltb_spec (data_read s) 16) as [|Hd];
    cbn [orb] in H; [simplify_eq; by apply not_elem_of_nil in Hin|].
  case_match; [simplify_eq; by apply not_elem_of_nil in Hin|]. case_match.
  - destruct (rq_other request) as [buf|]; [|done]. cbn [mbind option_bind] in H.
    destruct (sock_read _ sock) as [bytes sock1].
    destruct (blit _ bytes _); [|done]. cbn [mbind option_bind] in H.
    case_match; simplify_eq; [by apply not_elem_of_nil in Hin|].
    apply list_elem_of_singleton in Hin. simplify_eq. cbn. rewrite length_take. cbn. lia.
  - simplify_eq. apply list_elem_of_singleton in Hin. simplify_eq. rewrite length_take. lia.
Qed.

End Dsi.
