(* ===== verification/Senders.v ===== *)
(** * Threads that send on one connection: lib/dsi.c

    Every AFP call runs [dsi_setup_header] and later [dsi_send], on the thread of
    its caller.  The header carries the id [dsi_setup_header] hands out; the
    queued request gets [server->lastrequestid] as [dsi_send] finds it.  The step
    relation interleaves the two, with or without a lock held from one to the
    other. *)

From stdpp Require Import gmap relations.
From S2P Require Import Prelude Constants Dsi.

Module Senders.
Import Dsi.

(** Where a thread is: between calls, with a header whose id is [id], or waiting
    for the reply to [id] on the request at [ptr]. *)
Inductive sender := Idle | Prepared (id : Z) | Waiting (id ptr : Z).

Record world := mk_world {
  w_server : dsi_server;
  w_threads : gmap nat sender;
  w_next : Z }.  (* the next address [malloc] returns *)

Definition is_prepared (x : sender) : Prop := exists id, x = Prepared id.

(** One step of one thread, or of the main loop when the reply to a queued request
    has been received; the requests are those that wait for it.  [locked] forbids a second thread between its
    [dsi_setup_header] and its [dsi_send]. *)
Inductive step (locked : bool) : world -> world -> Prop :=
| step_setup s ts n t cmd :
    ts !! t = Some Idle ->
    (locked = true -> forall t' x, ts !! t' = Some x -> ~ is_prepared x) ->
    step locked (mk_world s ts n)
      (mk_world (dsi_setup_header s cmd).1
         (<[t := Prepared (lastrequestid (dsi_setup_header s cmd).1)]> ts) n)
| step_send s ts n t id wait sub other :
    ts !! t = Some (Prepared id) -> wait <> 0 ->
    step locked (mk_world s ts n)
      (mk_world (enqueue_request (new_request n wait sub other s) s)
         (<[t := Waiting id n]> ts) (n + 1))
| step_signal s ts n r rc :
    r ∈ command_requests s ->
    step locked (mk_world s ts n)
      (mk_world (update_request (rq_ptr r) signal_request
                   (update_request (rq_ptr r) (set_return_code rc) s)) ts n)
| step_finish s ts n t id ptr :
    ts !! t = Some (Waiting id ptr) ->
    step locked (mk_world s ts n)
      (mk_world (dsi_remove_from_request_queue true ptr s).2 (<[t := Idle]> ts) n).

Definition initial (s : dsi_server) (threads : gset nat) : world :=
  mk_world (set_queue [] 0 s) (gset_to_gmap Idle threads) 0.

(** Every address in the queue is below the next one. *)
Definition addresses (w : world) : Prop :=
  NoDup (rq_ptr <$> command_requests (w_server w)) /\
  Forall (fun r => rq_ptr r < w_next w) (command_requests (w_server w)).

(** The waiting threads have distinct requests, each in the queue. *)
Definition waiters (good : Z -> Z -> Prop) (w : world) : Prop :=
  (forall t id ptr, w_threads w !! t = Some (Waiting id ptr) ->
     ptr < w_next w /\
     exists r, find_ptr ptr (command_requests (w_server w)) = Some r /\
       good id (rq_requestid r)) /\
  (forall t t' id id' ptr, w_threads w !! t = Some (Waiting id ptr) ->
     w_threads w !! t' = Some (Waiting id' ptr) -> t = t').

(** Under the lock, at most one thread has a header, and with the last id. *)
Definition one_prepared (w : world) : Prop :=
  forall t id, w_threads w !! t = Some (Prepared id) ->
    id = lastrequestid (w_server w) /\
    forall t' id', w_threads w !! t' = Some (Prepared id') -> t = t'.

(** ** Lemmas on the queue *)

Lemma find_ptr_app ptr q r :
  find_ptr ptr (q ++ [r]) =
    match find_ptr ptr q with
    | Some x => Some x
    | None => if rq_ptr r =? ptr then Some r else None
    end.
Proof.
  induction q as [|x q IH]; cbn [app find_ptr]; [done|]. by destruct (rq_ptr x =? ptr).
Qed.

Lemma find_ptr_None ptr q : Forall (fun r => rq_ptr r < ptr) q -> find_ptr ptr q = None.
Proof.
  induction 1 as [|x q Hx _ IH]; cbn [find_ptr]; [done|].
  by rewrite (proj2 (Z.eqb_neq _ _)) by lia.
Qed.

Lemma find_ptr_update ptr p f q :
  (forall r, rq_ptr (f r) = rq_ptr r) ->
  find_ptr ptr ((fun r => if rq_ptr r =? p then f r else r) <$> q) =
    (fun r => if rq_ptr r =? p then f r else r) <$> find_ptr ptr q.
Proof.
  intros Hf. induction q as [|x q IH]; [done|]. cbn [fmap list_fmap find_ptr].
  replace (rq_ptr (if rq_ptr x =? p then f x else x)) with (rq_ptr x) by (by case_match).
  by destruct (rq_ptr x =? ptr).
Qed.

Lemma find_ptr_unlink ptr p q q' :
  unlink_request p q = Some q' -> ptr <> p -> find_ptr ptr q' = find_ptr ptr q.
Proof.
  intros H Hne. revert q' H; induction q as [|x q IH]; intros q' H; [done|].
  cbn [unlink_request find_ptr] in *. destruct (Z.eqb_spec (rq_ptr x) p) as [->|Hx].
  - injection H as <-. by rewrite (proj2 (Z.eqb_neq _ _)).
  - destruct (unlink_request p q) as [q''|]; [|done]. injection H as <-.
    cbn [find_ptr]. by rewrite (IH q'').
Qed.

Lemma unlink_sublist p q q' : unlink_request p q = Some q' -> q' `sublist_of` q.
Proof.
  revert q'; induction q as [|x q IH]; intros q' H; [done|]. cbn [unlink_request] in H.
  destruct (rq_ptr x =? p); [injection H as <-; by constructor|].
  destruct (unlink_request p q) as [q''|]; [|done]. injection H as <-.
  by apply sublist_skip, IH.
Qed.

Lemma update_ptrs p f (q : list dsi_request) :
  (forall r, rq_ptr (f r) = rq_ptr r) ->
  rq_ptr <$> ((fun r => if rq_ptr r =? p then f r else r) <$> q) = rq_ptr <$> q.
Proof.
  intros Hf. rewrite <- list_fmap_compose. apply list_fmap_ext. intros i x _. cbn.
  by case_match.
Qed.

(** ** Invariants *)

Lemma addresses_ptrs (w : world) :
  addresses w <->
  NoDup (rq_ptr <$> command_requests (w_server w)) /\
  Forall (fun p => p < w_next w) (rq_ptr <$> command_requests (w_server w)).
Proof. unfold addresses. by rewrite Forall_fmap. Qed.

Lemma step_addresses locked w w' : step locked w w' -> addresses w -> addresses w'.
Proof.
  rewrite !addresses_ptrs. intros Hs [Hn Hf]. destruct Hs; cbn in *.
  - done.
  - rewrite fmap_app. cbn. split.
    + apply NoDup_app. split; [done|]. split; [|apply NoDup_singleton].
      intros x Hx ->%list_elem_of_singleton.
      apply (proj1 (Forall_forall _ _) Hf) in Hx. lia.
    + apply Forall_app. split; [|repeat constructor; lia].
      eapply Forall_impl; [exact Hf|]. cbn. lia.
  - by rewrite !update_ptrs.
  - unfold dsi_remove_from_request_queue.
    destruct (unlink_request ptr (command_requests s)) as [q'|] eqn:E; cbn; [|done].
    apply unlink_sublist, (fmap_sublist rq_ptr) in E.
    split; [by eapply sublist_NoDup|].
    apply Forall_forall. intros x Hx. by eapply (proj1 (Forall_forall _ _) Hf), elem_of_sublist.
Qed.

Lemma update_requestid p f (x : dsi_request) :
  (forall r, rq_requestid (f r) = rq_requestid r) ->
  rq_requestid (if rq_ptr x =? p then f x else x) = rq_requestid x.
Proof. intros Hf. by case_match. Qed.

(** The requests of the waiting threads survive a step; [good] relates the id on
    the wire and the id in the queue when [dsi_send] runs. *)
Lemma step_waiters (good : Z -> Z -> Prop) locked w w' :
  (forall t id, w_threads w !! t = Some (Prepared id) ->
     good id (lastrequestid (w_server w))) ->
  step locked w w' -> addresses w -> waiters good w -> waiters good w'.
Proof.
  intros Hg Hs [_ Hf] [Hw Hu]. destruct Hs as [s ts n t cmd Ht _|s ts n t id wait sub other Ht _
    |s ts n r rc Hr|s ts n t id ptr Ht]; cbn [w_threads w_next w_server] in *.
  - split; cbn [w_threads w_next w_server].
    + intros t' id ptr H. rewrite lookup_insert_Some in H. destruct H as [[_ H]|[_ H]]; [done|].
      exact (Hw _ _ _ H).
    + intros t1 t2 id1 id2 ptr H1 H2. rewrite lookup_insert_Some in H1, H2.
      destruct H1 as [[_ H1]|[_ H1]], H2 as [[_ H2]|[_ H2]]; try done. by eapply Hu.
  - split; cbn [w_threads w_next w_server enqueue_request set_queue command_requests].
    + intros t' id' ptr H. rewrite lookup_insert_Some in H. rewrite find_ptr_app.
      destruct H as [[_ H]|[_ H]].
      * injection H as <- <-. split; [lia|]. rewrite find_ptr_None by done. cbn.
        rewrite Z.eqb_refl. eexists. split; [done|]. cbn. by apply (Hg t).
      * destruct (Hw _ _ _ H) as (Hlt & x & -> & Hx). split; [lia|]. by exists x.
    + intros t1 t2 id1 id2 ptr H1 H2. rewrite lookup_insert_Some in H1, H2.
      destruct H1 as [[<- H1]|[_ H1]], H2 as [[<- H2]|[_ H2]]; [done| | |by eapply Hu].
      * injection H1 as <- <-. apply Hw in H2 as [? _]. lia.
      * injection H2 as <- <-. apply Hw in H1 as [? _]. lia.
  - split; [|exact Hu]. intros t id ptr H.
    destruct (Hw _ _ _ H) as (Hlt & x & Hx & Hgx). split; [done|].
    cbn [w_server update_request set_queue command_requests].
    rewrite !find_ptr_update, Hx by done. eexists. split; [done|].
    by rewrite !update_requestid.
  - split; cbn [w_threads w_next w_server].
    + intros t' id' ptr' H. rewrite lookup_insert_Some in H. destruct H as [[_ H]|[Hne H]]; [done|].
      destruct (Hw _ _ _ H) as (Hlt & x & Hx & Hgx). split; [done|]. exists x.
      split; [|done]. unfold dsi_remove_from_request_queue.
      destruct (unlink_request ptr (command_requests s)) as [q'|] eqn:E; [|done]. cbn.
      rewrite (find_ptr_unlink ptr' ptr _ _ E); [done|]. intros ->. by apply Hne, (Hu _ _ _ _ _ Ht H).
    + intros t1 t2 id1 id2 ptr' H1 H2. rewrite lookup_insert_Some in H1, H2.
      destruct H1 as [[_ H1]|[_ H1]], H2 as [[_ H2]|[_ H2]]; try done. by eapply Hu.
Qed.

Lemma step_one_prepared w w' : step true w w' -> one_prepared w -> one_prepared w'.
Proof.
  intros Hs Ho. destruct Hs as [s ts n t cmd Ht Hl|s ts n t id wait sub other Ht _
    |s ts n r rc Hr|s ts n t id ptr Ht]; intros t1 id1 H1; cbn [w_threads w_server] in *.
  - assert (forall t2 id2, <[t := Prepared (lastrequestid (dsi_setup_header s cmd).1)]> ts
              !! t2 = Some (Prepared id2) ->
              t2 = t /\ id2 = lastrequestid (dsi_setup_header s cmd).1) as Hall.
    { intros t2 id2 H2. rewrite lookup_insert_Some in H2.
      destruct H2 as [[-> H2]|[_ H2]]; [by injection H2|].
      destruct (Hl eq_refl t2 _ H2). by exists id2. }
    destruct (Hall _ _ H1) as [-> ->]. split; [done|].
    intros t2 id2 H2. by destruct (Hall _ _ H2).
  - rewrite lookup_insert_Some in H1. destruct H1 as [[_ H1]|[_ H1]]; [done|].
    destruct (Ho t1 id1 H1) as [-> Hu]. split; [done|]. intros t2 id2 H2.
    rewrite lookup_insert_Some in H2. destruct H2 as [[_ H2]|[_ H2]]; [done|]. by eapply Hu.
  - exact (Ho t1 id1 H1).
  - rewrite lookup_insert_Some in H1. destruct H1 as [[_ H1]|[_ H1]]; [done|].
    destruct (Ho t1 id1 H1) as [-> Hu]. split.
    + unfold dsi_remove_from_request_queue. by case_match.
    + intros t2 id2 H2. rewrite lookup_insert_Some in H2.
      destruct H2 as [[_ H2]|[_ H2]]; [done|]. by eapply Hu.
Qed.

Lemma initial_idle s threads t x :
  w_threads (initial s threads) !! t = Some x -> x = Idle.
Proof. cbn. rewrite lookup_gset_to_gmap_Some. by intros [_ <-]. Qed.

Lemma initial_addresses s threads : addresses (initial s threads).
Proof. split; constructor. Qed.

Lemma initial_waiters good s threads : waiters good (initial s threads).
Proof. split; intros *; intros H%initial_idle; done. Qed.

Lemma reachable_waiters locked w w' :
  rtc (step locked) w w' -> addresses w -> waiters (fun _ _ => True) w ->
  addresses w' /\ waiters (fun _ _ => True) w'.
Proof.
  induction 1 as [|w w1 w2 Hs _ IH]; intros Ha Hw; [done|].
  apply IH; [by eapply step_addresses|]. by eapply step_waiters.
Qed.

Lemma reachable_locked w w' :
  rtc (step true) w w' -> addresses w -> one_prepared w -> waiters eq w ->
  addresses w' /\ one_prepared w' /\ waiters eq w'.
Proof.
  induction 1 as [|w w1 w2 Hs _ IH]; intros Ha Ho Hw; [done|].
  apply IH; [by eapply step_addresses|by eapply step_one_prepared|].
  eapply step_waiters; [|done..]. intros t id H. apply (Ho t id H).
Qed.

(** In every interleaving of the sending threads and the main loop, the
    request a thread waits on is in the queue until that thread removes it: the
    return code [dsi_send] loads at the end is not in freed memory. *)
Theorem waiting_request_queued locked s threads w t id ptr :
  rtc (step locked) (initial s threads) w ->
  w_threads w !! t = Some (Waiting id ptr) ->
  exists r, find_ptr ptr (command_requests (w_server w)) = Some r /\ rq_ptr r = ptr.
Proof.
  intros Hr Ht.
  destruct (reachable_waiters locked _ _ Hr) as [_ [Hw _]];
    [apply initial_addresses|apply initial_waiters|].
  destruct (Hw _ _ _ Ht) as (_ & r & Hf & _). exists r. split; [done|].
  clear -Hf. induction (command_requests (w_server w)) as [|x q IH]; [done|].
  cbn [find_ptr] in Hf. destruct (Z.eqb_spec (rq_ptr x) ptr); [congruence|auto].
Qed.

(** Were a lock held from [dsi_setup_header] to the append in [dsi_send], the
    queued request of every waiting thread would have the id of its message. *)
Theorem locked_ids_agree s threads w t id ptr :
  rtc (step true) (initial s threads) w ->
  w_threads w !! t = Some (Waiting id ptr) ->
  exists r, find_ptr ptr (command_requests (w_server w)) = Some r /\ rq_requestid r = id.
Proof.
  intros Hr Ht. destruct (reachable_locked _ _ Hr) as (_ & _ & Hw & _).
  - apply initial_addresses.
  - intros t' id' H%initial_idle; done.
  - apply initial_waiters.
  - destruct (Hw _ _ _ Ht) as (_ & r & Hf & ->). by exists r.
Qed.

(** Two threads, each past [dsi_setup_header] before the first calls [dsi_send]. *)
Definition raced : world :=
  let s1 := (dsi_setup_header (set_queue [] 0 sample_server) DSI_DSICommand).1 in
  let s2 := (dsi_setup_header s1 DSI_DSICommand).1 in
  let s3 := enqueue_request (new_request 0 30 afpGetVolParms None s2) s2 in
  mk_world (enqueue_request (new_request 1 30 afpGetVolParms None s3) s3)
    (<[1%nat := Waiting 1 1]> (<[0%nat := Waiting 0 0]>
      (<[1%nat := Prepared 1]> (<[0%nat := Prepared 0]>
        (gset_to_gmap Idle {[0%nat; 1%nat]}))))) 2.

Lemma raced_reachable : rtc (step false) (initial sample_server {[0%nat; 1%nat]}) raced.
Proof.
  eapply rtc_l; [by apply (step_setup false _ _ _ 0%nat DSI_DSICommand)|].
  eapply rtc_l; [by apply (step_setup false _ _ _ 1%nat DSI_DSICommand)|].
  eapply rtc_l; [by apply (step_send false _ _ _ 0%nat 0 30 afpGetVolParms None)|].
  eapply rtc_l; [by apply (step_send false _ _ _ 1%nat 1 30 afpGetVolParms None)|].
  apply rtc_refl.
Qed.

(** C34: without such a lock, which the code does not have, two threads can reach
    a state where the message of the first is on the wire with id 0 and no queued
    request has that id: its reply is counted as a runt packet and dropped, and
    both requests are queued under the id of the second. *)
Theorem unlocked_ids_race :
  exists w, rtc (step false) (initial sample_server {[0%nat; 1%nat]}) w /\
    w_threads w !! 0%nat = Some (Waiting 0 0) /\
    rq_requestid <$> command_requests (w_server w) = [1; 1] /\
    exists s, dsi_recv (w_server w) [wire_header DSI_REPLY DSI_DSICommand 0 0 0] =
      Some (0, s, [], []) /\
      runt_packets s = runt_packets (w_server w) + 1 /\
      command_requests s = command_requests (w_server w).
Proof.
  exists raced. split; [apply raced_reachable|]. split; [done|]. split; [done|].
  eexists. split; [by vm_compute|]. done.
Qed.

Lemma waiting_request_queued_witness :
  exists r, find_ptr 1 (command_requests (w_server raced)) = Some r /\ rq_ptr r = 1.
Proof.
  exact (waiting_request_queued false sample_server {[0%nat; 1%nat]} raced 1%nat 1 1
           raced_reachable eq_refl).
Defined.

(** One thread on its own. *)
Definition alone_world : world :=
  let s1 := (dsi_setup_header (set_queue [] 0 sample_server) DSI_DSICommand).1 in
  mk_world (enqueue_request (new_request 0 30 afpGetVolParms None s1) s1)
    (<[0%nat := Waiting 0 0]> (<[0%nat := Prepared 0]> (gset_to_gmap Idle {[0%nat]}))) 1.

Lemma alone_reachable : rtc (step true) (initial sample_server {[0%nat]}) alone_world.
Proof.
  eapply rtc_l; [apply (step_setup true _ _ _ 0%nat DSI_DSICommand); [done|]|].
  { intros _ t x H [id ->]. rewrite lookup_gset_to_gmap_Some in H. by destruct H. }
  eapply rtc_l; [by apply (step_send true _ _ _ 0%nat 0 30 afpGetVolParms None)|].
  apply rtc_refl.
Qed.

Lemma locked_ids_agree_witness :
  exists r, find_ptr 0 (command_requests (w_server alone_world)) = Some r /\
    rq_requestid r = 0.
Proof.
  exact (locked_ids_agree sample_server {[0%nat]} alone_world 0%nat 0 0
           alone_reachable eq_refl).
Defined.

End Senders.
