(* ===== verification/Wakeup.v ===== *)
(** * Waiting for a reply: dsi_send and dsi_recv of lib/dsi.c

    A call waits in [dsi_send] on the condition of its request until the main loop has
    handled the reply in [dsi_recv]; the request belongs to the call, which frees it, and the
    main loop goes on with a pointer to it.  [dsi_recv] stores [wait] and [done_waiting] with
    [waiting_mutex] held, but [dsi_send] looks at [wait] without it: each of these accesses is
    a step of its own here, in every interleaving.  [Senders] has the ids, [Dsi] what each
    side does alone. *)

From stdpp Require Import gmap relations.
From S2P Require Import Prelude Constants Dsi Senders.

Module Wakeup.
Import Dsi.

(** ** The state *)

(** A call of [dsi_send]: in front of the tests [wait<0] and [wait>0], and of the second look at
    [wait] behind [gettimeofday]; in front of [waiting_mutex]; in [pthread_cond_wait] or,
    [timed], in [pthread_cond_timedwait]; signalled, or at the end of its time, and waiting for
    the mutex; in front of the return code; in front of the removal of the request with the
    result [rc]; and at its end. *)
Inductive sending_phase :=
| Sent | Positive | Timing | Locking (timed : bool) | Asleep (timed : bool) | Waking | Expired
| Returning | Removing (rc : Z) | Ended (rc : Z).

Record sending := mk_sending { sd_ptr : Z; sd_phase : sending_phase }.

(** [dsi_recv]: outside; with the request it has found and the code of the header; with the
    code stored, while the packet is read and handled, up to the test of [wait]; in front of
    [waiting_mutex]; and with the mutex, in front of the store to [wait], in front of that to
    [done_waiting], of the signal and of the unlocking. *)
Inductive recv_phase :=
| Outside | Found (ptr rc : Z) | Handling (ptr : Z)
| Taking (ptr : Z) | Locked (ptr : Z) | Cleared (ptr : Z) | Marked (ptr : Z) | Signalled (ptr : Z).

(** [st_next] is the address that [malloc] returns next; none is used twice, so that an
    access to a request that was freed is one to an address that is not in the queue. *)
Record wait_state := mk_wait {
  st_server : dsi_server; st_sendings : list sending; st_main : recv_phase; st_next : Z }.

Definition requests (st : wait_state) : list dsi_request := command_requests (st_server st).

Definition quiet (s : dsi_server) : wait_state := mk_wait (set_queue [] 0 s) [] Outside 0.

(** The request whose [waiting_mutex] the main loop has. *)
Definition holds (m : recv_phase) : option Z :=
  match m with Locked p | Cleared p | Marked p | Signalled p => Some p | _ => None end.

(** ** The steps *)

(** The tests of [dsi_send] behind the [write], none of them with the mutex. *)
Definition test_negative (r : dsi_request) : sending_phase :=
  if rq_wait r <? 0 then Locking false else Positive.
Definition test_positive (r : dsi_request) : sending_phase :=
  if 0 <? rq_wait r then Timing else Returning.
Definition test_again (r : dsi_request) : sending_phase :=
  if rq_wait r =? 0 then Returning else Locking true.

(** Under [waiting_mutex]. *)
Definition test_done (timed : bool) (r : dsi_request) : sending_phase :=
  if rq_done_waiting r =? 0 then Asleep timed else Returning.

(** The phases in which a call looks at its request, and what it goes on with. *)
Definition look (ph : sending_phase) (r : dsi_request) : option sending_phase :=
  match ph with
  | Sent => Some (test_negative r)
  | Positive => Some (test_positive r)
  | Timing => Some (test_again r)
  | Returning => Some (Removing (rq_return_code r))
  | _ => None
  end.

(** The same with the mutex. *)
Definition look_locked (ph : sending_phase) (r : dsi_request) : option sending_phase :=
  match ph with
  | Locking timed => Some (test_done timed r)
  | Waking => Some Returning
  | Expired => Some (Removing ETIMEDOUT)
  | _ => None
  end.

Definition move_sending (i : nat) (c : sending) (ph : sending_phase) (st : wait_state) : wait_state :=
  mk_wait (st_server st) (<[i := mk_sending (sd_ptr c) ph]> (st_sendings st)) (st_main st) (st_next st).

(** [pthread_cond_signal] *)
Definition wake_sending (ptr : Z) (c : sending) : sending :=
  match sd_phase c with
  | Asleep _ => if sd_ptr c =? ptr then mk_sending (sd_ptr c) Waking else c
  | _ => c
  end.

Definition clear_wait (r : dsi_request) : dsi_request :=
  mk_request (rq_ptr r) (rq_requestid r) (rq_subcommand r) 0 (rq_done_waiting r) (rq_return_code r) (rq_other r).
Definition mark_done (r : dsi_request) : dsi_request :=
  mk_request (rq_ptr r) (rq_requestid r) (rq_subcommand r) (rq_wait r) 1 (rq_return_code r) (rq_other r).

(** What the main loop does next with the request [r] at [ptr]: the store to it, whether it
    signals, and where it is then. *)
Definition main_action (m : recv_phase) (r : dsi_request) : (dsi_request -> dsi_request) * bool * recv_phase :=
  match m with
  | Found ptr rc => (set_return_code rc, false, Handling ptr)
  | Handling ptr => (id, false, Taking ptr)
  | Taking ptr => (id, false, Locked ptr)
  | Locked ptr => (clear_wait, false, Cleared ptr)
  | Cleared ptr => (mark_done, false, Marked ptr)
  | Marked ptr => (id, true, Signalled ptr)
  | Outside | Signalled _ => (id, false, Outside)
  end.

Definition pointer (m : recv_phase) : option Z :=
  match m with
  | Outside => None
  | Found p _ | Handling p | Taking p | Locked p | Cleared p | Marked p | Signalled p => Some p
  end.

Definition main_moves (ptr : Z) (r : dsi_request) (st : wait_state) : wait_state :=
  let '(f, signal, m) := main_action (st_main st) r in
  mk_wait (update_request ptr f (st_server st))
    ((if signal then wake_sending ptr else id) <$> st_sendings st) m (st_next st).

(** In [calm] runs no wait ends before its reply: none times out, none ends without a cause,
    and there is one reply to a request. *)
Inductive wait_step (calm : bool) (st : wait_state) : wait_state -> Prop :=
| step_send wait sub other :
    wait <> 0 ->
    wait_step calm st (mk_wait (enqueue_request (new_request (st_next st) wait sub other (st_server st)) (st_server st))
                    (st_sendings st ++ [mk_sending (st_next st) Sent]) (st_main st) (st_next st + 1))
| step_look i c r ph :
    st_sendings st !! i = Some c -> find_ptr (sd_ptr c) (requests st) = Some r -> look (sd_phase c) r = Some ph ->
    wait_step calm st (move_sending i c ph st)
| step_look_locked i c r ph :
    st_sendings st !! i = Some c -> find_ptr (sd_ptr c) (requests st) = Some r ->
    look_locked (sd_phase c) r = Some ph -> holds (st_main st) <> Some (sd_ptr c) ->
    wait_step calm st (move_sending i c ph st)
| step_timeout i c :
    calm = false -> st_sendings st !! i = Some c -> sd_phase c = Asleep true ->
    wait_step calm st (move_sending i c Expired st)
| step_spurious i c timed :
    calm = false -> st_sendings st !! i = Some c -> sd_phase c = Asleep timed ->
    wait_step calm st (move_sending i c Waking st)
| step_remove i c rc :
    st_sendings st !! i = Some c -> sd_phase c = Removing rc ->
    wait_step calm st (mk_wait (dsi_remove_from_request_queue true (sd_ptr c) (st_server st)).2
                    (<[i := mk_sending (sd_ptr c) (Ended rc)]> (st_sendings st)) (st_main st) (st_next st))
| step_find r rc :
    st_main st = Outside -> r ∈ requests st -> (calm = true -> rq_done_waiting r = 0) ->
    wait_step calm st (mk_wait (st_server st) (st_sendings st) (Found (rq_ptr r) rc) (st_next st))
| step_incomplete ptr :
    st_main st = Handling ptr ->
    wait_step calm st (mk_wait (st_server st) (st_sendings st) Outside (st_next st))
| step_drop ptr r :
    st_main st = Handling ptr -> find_ptr ptr (requests st) = Some r -> rq_wait r = 0 ->
    wait_step calm st (mk_wait (dsi_remove_from_request_queue true ptr (st_server st)).2
                    (st_sendings st) Outside (st_next st))
| step_main ptr r :
    pointer (st_main st) = Some ptr -> find_ptr ptr (requests st) = Some r ->
    (st_main st = Handling ptr -> rq_wait r <> 0) ->
    wait_step calm st (main_moves ptr r st).

(** The main loop goes on with a request that was freed. *)
Definition main_uses_freed (st : wait_state) : Prop :=
  exists ptr, pointer (st_main st) = Some ptr /\ find_ptr ptr (requests st) = None.

(** A call does. *)
Definition call_uses_freed (st : wait_state) : Prop :=
  exists i c, st_sendings st !! i = Some c /\ (forall rc, sd_phase c <> Ended rc) /\
              find_ptr (sd_ptr c) (requests st) = None.

(** ** Calm runs *)

(** A request waits for its reply or has been signalled, once and for all. *)
Definition settled (r : dsi_request) : Prop :=
  rq_done_waiting r = 0 /\ rq_wait r <> 0 \/ rq_done_waiting r = 1 /\ rq_wait r = 0.

(** Between the two stores of the main loop it is neither. *)
Definition request_ok (m : recv_phase) (r : dsi_request) : Prop :=
  match m with
  | Outside => settled r
  | Found p _ | Handling p | Taking p | Locked p => settled r /\ (rq_ptr r = p -> rq_done_waiting r = 0)
  | Cleared p => if rq_ptr r =? p then rq_done_waiting r = 0 /\ rq_wait r = 0 else settled r
  | Marked p | Signalled p => settled r /\ (rq_ptr r = p -> rq_done_waiting r = 1)
  end.

Definition phase_ok (m : recv_phase) (r : dsi_request) (ph : sending_phase) : Prop :=
  match ph with
  | Sent | Locking _ | Expired | Ended _ => True
  | Positive | Timing => 0 <= rq_wait r
  | Asleep _ => rq_done_waiting r = 0 \/ m = Marked (rq_ptr r)
  | Waking => rq_done_waiting r = 1
  | Returning => rq_wait r = 0
  | Removing rc => rq_wait r = 0 /\ rq_return_code r = rc
  end.

Definition sending_ok (m : recv_phase) (q : list dsi_request) (next : Z) (c : sending) : Prop :=
  sd_ptr c < next /\ sd_phase c <> Expired /\
  ((forall rc, sd_phase c <> Ended rc) -> exists r, find_ptr (sd_ptr c) q = Some r /\ phase_ok m r (sd_phase c)).

(** Until it has stored [wait], the main loop has its request. *)
Definition main_ok (q : list dsi_request) (m : recv_phase) : Prop :=
  match m with
  | Found ptr _ | Handling ptr | Taking ptr | Locked ptr => is_Some (find_ptr ptr q)
  | _ => True
  end.

Record waits_ordered (st : wait_state) : Prop := {
  or_requests : Forall (fun r => request_ok (st_main st) r /\ rq_ptr r < st_next st) (requests st);
  or_ptrs : NoDup (rq_ptr <$> requests st);
  or_calls : Forall (sending_ok (st_main st) (requests st) (st_next st)) (st_sendings st);
  or_apart : NoDup (sd_ptr <$> st_sendings st);
  or_pointer : forall ptr, pointer (st_main st) = Some ptr -> ptr < st_next st;
  or_main : main_ok (requests st) (st_main st) }.

Lemma find_ptr_elem ptr q r : find_ptr ptr q = Some r -> r ∈ q /\ rq_ptr r = ptr.
Proof.
  induction q as [|x q IH]; [done|]. cbn [find_ptr]. destruct (Z.eqb_spec (rq_ptr x) ptr) as [E|E].
  - intros [= <-]. split; [by left|done].
  - intros H. destruct (IH H) as [Hq ?]. split; [by right|done].
Qed.

Lemma elem_find_ptr q r : NoDup (rq_ptr <$> q) -> r ∈ q -> find_ptr (rq_ptr r) q = Some r.
Proof.
  induction q as [|x q IH]; [by intros _ ?%not_elem_of_nil|]. cbn [fmap list_fmap find_ptr].
  intros [Hx Hq]%NoDup_cons [->|Hr]%elem_of_cons; [by rewrite Z.eqb_refl|].
  rewrite (proj2 (Z.eqb_neq _ _)); [by apply IH|]. intros E. apply Hx. rewrite E. by apply list_elem_of_fmap_2.
Qed.

(** The queue after a store to the request at [ptr]. *)
Lemma find_update ptr p f (s : dsi_server) :
  (forall r, rq_ptr (f r) = rq_ptr r) ->
  find_ptr ptr (command_requests (update_request p f s)) =
    (if ptr =? p then f else id) <$> find_ptr ptr (command_requests s).
Proof.
  intros Hf. cbn [update_request set_queue command_requests]. rewrite Senders.find_ptr_update by done.
  destruct (find_ptr ptr (command_requests s)) as [r|] eqn:E; [|done]. cbn.
  apply find_ptr_elem in E as [_ ->]. by destruct (ptr =? p).
Qed.

(** The two stores are those of [Dsi]. *)
Lemma stores_signal r s :
  rq_wait r <> 0 ->
  recv_out (Some r) s [] [] = (0, update_request (rq_ptr r) (fun r => mark_done (clear_wait r)) s, [], [EvSignal (rq_ptr r)]).
Proof. intros H. unfold recv_out. by rewrite (proj2 (Z.eqb_neq _ 0) H). Qed.

(** ** The order is kept *)

Section update.
Context (st : wait_state) (p : Z) (f : dsi_request -> dsi_request) (g : sending -> sending) (m : recv_phase).
Let upd (r : dsi_request) : dsi_request := if rq_ptr r =? p then f r else r.
Context (H : waits_ordered st) (Hf : forall r, rq_ptr (f r) = rq_ptr r).
Context (Hreq : forall r, request_ok (st_main st) r -> request_ok m (upd r)).
Context (Hptr : forall c, sd_ptr (g c) = sd_ptr c) (Hend : forall c rc, sd_phase c = Ended rc -> g c = c).
Context (Hexp : forall c, sd_phase c <> Expired -> sd_phase (g c) <> Expired).
Context (Hph : forall r c, request_ok (st_main st) r -> sd_ptr c = rq_ptr r ->
  phase_ok (st_main st) r (sd_phase c) -> phase_ok m (upd r) (sd_phase (g c))).
Context (Hpt : forall ptr, pointer m = Some ptr -> ptr < st_next st) (Hmain : main_ok (requests st) m).

Lemma upd_find ptr :
  find_ptr ptr (command_requests (update_request p f (st_server st))) = upd <$> find_ptr ptr (requests st).
Proof using Hf.
  rewrite find_update by done. fold (requests st). destruct (find_ptr ptr (requests st)) as [r|] eqn:E; [|done].
  cbn. apply find_ptr_elem in E as [_ <-]. unfold upd. by destruct (rq_ptr r =? p).
Qed.

(** A store of the main loop to its request, and a signal. *)
Lemma update_ordered :
  waits_ordered (mk_wait (update_request p f (st_server st)) (g <$> st_sendings st) m (st_next st)).
Proof using H Hf Hreq Hptr Hend Hexp Hph Hpt Hmain.
  assert (forall r, rq_ptr (upd r) = rq_ptr r) as Hup by (intros r; unfold upd; by destruct (_ =? _)).
  constructor; unfold requests; cbn [st_server st_sendings st_main st_next]; [| | | |done|].
  - apply Forall_fmap. eapply Forall_impl; [apply (or_requests _ H)|]. intros r [Hr ?].
    change (request_ok m (upd r) /\ rq_ptr (upd r) < st_next st). rewrite Hup. split; [by apply Hreq|done].
  - cbn [update_request set_queue command_requests]. rewrite Senders.update_ptrs by done. apply H.
  - apply Forall_fmap. eapply Forall_impl; [apply (or_calls _ H)|]. intros c (Hn & He & Hx). unfold compose.
    split; [by rewrite Hptr|]. split; [by apply Hexp|]. intros Hne.
    destruct Hx as (r & Hr & Hr'); [intros rc E; apply (Hne rc); by rewrite (Hend _ _ E)|].
    rewrite Hptr, upd_find, Hr. eexists. split; [done|]. apply find_ptr_elem in Hr as [Hin Hrp].
    apply Hph; [|done|done]. by apply (proj1 (Forall_forall _ _) (or_requests _ H) r Hin).
  - rewrite <- list_fmap_compose. rewrite (list_fmap_ext _ sd_ptr); [apply H|]. intros i c _. apply Hptr.
  - unfold main_ok in *. destruct m; try done; rewrite upd_find; by destruct Hmain as [r ->].
Qed.

End update.

Lemma wake_ptr p c : sd_ptr (wake_sending p c) = sd_ptr c.
Proof. unfold wake_sending. destruct (sd_phase c); try done. by destruct (_ =? _). Qed.

Lemma wake_same p c rc : sd_phase c = Ended rc -> wake_sending p c = c.
Proof. intros E. unfold wake_sending. by rewrite E. Qed.

Lemma wake_expired p c : sd_phase c <> Expired -> sd_phase (wake_sending p c) <> Expired.
Proof. unfold wake_sending. destruct (sd_phase c) eqn:E; try (by rewrite E). by destruct (_ =? _); rewrite ?E. Qed.

Lemma main_requests m r x q f m' :
  pointer m = Some q -> main_action m r = (f, (match m with Marked _ => true | _ => false end), m') ->
  request_ok m x -> request_ok m' (if rq_ptr x =? q then f x else x).
Proof.
  intros Hq Ha H. destruct m; cbn in Hq, Ha; simplify_eq; unfold request_ok, settled in *;
    destruct (Z.eqb_spec (rq_ptr x) q); cbn; rewrite ?(proj2 (Z.eqb_eq _ _)), ?(proj2 (Z.eqb_neq _ _)) by done;
    naive_solver.
Qed.

Lemma main_phases m r x q f m' c :
  pointer m = Some q -> main_action m r = (f, (match m with Marked _ => true | _ => false end), m') ->
  request_ok m x -> sd_ptr c = rq_ptr x -> phase_ok m x (sd_phase c) ->
  phase_ok m' (if rq_ptr x =? q then f x else x)
    (sd_phase ((match m with Marked _ => wake_sending q | _ => id end) c)).
Proof.
  destruct c as [p ph]. cbn [sd_ptr sd_phase]. intros Hq Ha H -> Hph.
  destruct m; cbn in Hq, Ha; simplify_eq; unfold request_ok, settled in *; cbn [id] in *;
    destruct ph; unfold wake_sending; cbn in *; destruct (Z.eqb_spec (rq_ptr x) q); cbn; subst; try done;
    try naive_solver lia.
Qed.

Lemma main_ordered st ptr r :
  waits_ordered st -> pointer (st_main st) = Some ptr -> find_ptr ptr (requests st) = Some r ->
  waits_ordered (main_moves ptr r st).
Proof.
  intros H Hp Hf. pose proof (or_pointer _ H ptr Hp) as Hlt. unfold main_moves.
  destruct (main_action (st_main st) r) as [[f sg] m'] eqn:Ea.
  assert (sg = match st_main st with Marked _ => true | _ => false end) as ->
    by (destruct (st_main st); cbn in Ea; by simplify_eq).
  replace (if match st_main st with Marked _ => true | _ => false end then wake_sending ptr else id) with
    (match st_main st with Marked _ => wake_sending ptr | _ => id end) by by destruct (st_main st).
  apply update_ordered.
  - done.
  - intros x. destruct (st_main st); cbn in Ea; by simplify_eq.
  - intros x. by apply main_requests with r.
  - intros c. destruct (st_main st); try done. apply wake_ptr.
  - intros c rc E. destruct (st_main st); try done. by eapply wake_same.
  - intros c E. destruct (st_main st); try done. by apply wake_expired.
  - intros x c. by apply main_phases with r.
  - intros q. destruct (st_main st); cbn in Ea, Hp; simplify_eq; cbn; intros; by simplify_eq.
  - destruct (st_main st); cbn in Ea, Hp; simplify_eq; cbn; try done; by eexists.
Qed.

(** A call goes on without a store. *)
Lemma phase_ordered st i c ph :
  waits_ordered st -> st_sendings st !! i = Some c ->
  sending_ok (st_main st) (requests st) (st_next st) (mk_sending (sd_ptr c) ph) ->
  waits_ordered (move_sending i c ph st).
Proof.
  intros [Hr Hp Hc Ha Hpt Hm] Hi Hok. constructor; try done.
  - by apply Forall_insert.
  - cbn. rewrite list_fmap_insert. cbn. rewrite list_insert_id; [done|]. by rewrite list_lookup_fmap, Hi.
Qed.

Lemma sending_here st i c r :
  waits_ordered st -> st_sendings st !! i = Some c -> find_ptr (sd_ptr c) (requests st) = Some r ->
  request_ok (st_main st) r /\ rq_ptr r = sd_ptr c /\ sd_ptr c < st_next st /\ sd_phase c <> Expired /\
  ((forall rc, sd_phase c <> Ended rc) -> phase_ok (st_main st) r (sd_phase c)).
Proof.
  intros H Hi Hf. destruct (find_ptr_elem _ _ _ Hf) as [Hin Hptr].
  destruct (proj1 (Forall_forall _ _) (or_requests _ H) r Hin) as [Hok _].
  destruct (Forall_lookup_1 _ _ _ _ (or_calls _ H) Hi) as (Hn & He & Hx). split_and!; [done..|].
  intros Hne. destruct (Hx Hne) as (r' & Hf' & ?). congruence.
Qed.

Lemma fresh_request_ok st r :
  waits_ordered st -> rq_ptr r = st_next st -> settled r -> request_ok (st_main st) r.
Proof.
  intros H E Hr. pose proof (or_pointer _ H) as Hp. unfold request_ok.
  destruct (st_main st) as [|q rc|q|q|q|q|q|q]; try (by split; [|intros Eq; specialize (Hp q eq_refl); lia]); [done|].
  rewrite (proj2 (Z.eqb_neq _ _)); [done|]. specialize (Hp q eq_refl). lia.
Qed.

Lemma send_ordered st wait sub other :
  waits_ordered st -> wait <> 0 ->
  waits_ordered (mk_wait (enqueue_request (new_request (st_next st) wait sub other (st_server st)) (st_server st))
             (st_sendings st ++ [mk_sending (st_next st) Sent]) (st_main st) (st_next st + 1)).
Proof.
  intros H Hw. pose proof H as [Hr Hp Hc Ha Hpt Hm]. set (r := new_request _ _ _ _ _).
  assert (forall ptr x, find_ptr ptr (requests st) = Some x -> find_ptr ptr (requests st ++ [r]) = Some x) as Hold
    by (intros ptr x E; by rewrite Senders.find_ptr_app, E).
  assert (find_ptr (st_next st) (requests st ++ [r]) = Some r) as Hnew.
  { rewrite Senders.find_ptr_app, Senders.find_ptr_None.
    - cbn. by rewrite Z.eqb_refl.
    - eapply Forall_impl; [exact Hr|]. by intros ? [_ ?]. }
  constructor; unfold requests; cbn [st_server st_sendings st_main st_next enqueue_request set_queue command_requests];
    fold (requests st).
  - apply Forall_app. split.
    + eapply Forall_impl; [exact Hr|]. intros x [? ?]. split; [done|lia].
    + apply Forall_singleton. split; [apply fresh_request_ok; [done|done|by left]|]. cbn. lia.
  - rewrite fmap_app. apply NoDup_app. split_and!; [done| |apply NoDup_singleton].
    intros ? (x & -> & Hx)%list_elem_of_fmap E%list_elem_of_singleton.
    apply (proj1 (Forall_forall _ _) Hr) in Hx as [_ Hx]. cbn in E. lia.
  - apply Forall_app. split.
    + eapply Forall_impl; [exact Hc|]. intros c (Hn & He & Hx). split; [lia|]. split; [done|]. intros Hne.
      destruct (Hx Hne) as (x & ? & ?). exists x. split; [by apply Hold|done].
    + apply Forall_singleton. split; cbn [sd_ptr]; [lia|]. split; [done|]. intros _. by exists r.
  - rewrite fmap_app. apply NoDup_app. split_and!; [done| |apply NoDup_singleton].
    intros ? (c & -> & Hx)%list_elem_of_fmap E%list_elem_of_singleton.
    apply (proj1 (Forall_forall _ _) Hc) in Hx as [Hx _]. cbn in E. lia.
  - intros ptr Hx. specialize (Hpt ptr Hx). lia.
  - unfold main_ok in *. destruct (st_main st); try done; destruct Hm as [x Hx]; exists x; by apply Hold.
Qed.

Lemma remove_ordered st i c rc :
  waits_ordered st -> st_sendings st !! i = Some c -> sd_phase c = Removing rc ->
  waits_ordered (mk_wait (dsi_remove_from_request_queue true (sd_ptr c) (st_server st)).2
             (<[i := mk_sending (sd_ptr c) (Ended rc)]> (st_sendings st)) (st_main st) (st_next st)).
Proof.
  intros H Hi Hph. pose proof H as [Hr Hp Hc Ha Hpt Hm].
  destruct (Forall_lookup_1 _ _ _ _ Hc Hi) as (Hlt & _ & Hx).
  destruct Hx as (r & Hf & Hd); [by rewrite Hph|]. rewrite Hph in Hd. destruct Hd as [Hd _].
  unfold dsi_remove_from_request_queue. fold (requests st).
  destruct (unlink_request (sd_ptr c) (requests st)) as [q|] eqn:E; cbn [snd].
  2: { exfalso. clear -E Hf. induction (requests st) as [|x q IH]; [done|]. cbn in *.
       destruct (rq_ptr x =? sd_ptr c); [done|]. destruct (unlink_request _ q); [done|by apply IH]. }
  pose proof (Senders.unlink_sublist _ _ _ E) as Hsub.
  pose proof (fun ptr => Senders.find_ptr_unlink ptr _ _ _ E) as Hfind.
  constructor; unfold requests; cbn [st_server st_sendings st_main st_next set_queue command_requests]; [| | | |done|].
  - apply Forall_forall. intros x Hx. apply (proj1 (Forall_forall _ _) Hr). by eapply elem_of_sublist.
  - eapply sublist_NoDup; [exact Hp|by apply fmap_sublist].
  - apply Forall_lookup. intros j c' [(-> & <- & _)|[Hne Hj]]%list_lookup_insert_Some.
    + split; [done|]. split; [done|]. intros Hn. by destruct (Hn rc).
    + destruct (Forall_lookup_1 _ _ _ _ Hc Hj) as (? & ? & Hx). split; [done|]. split; [done|]. intros Hn.
      rewrite Hfind; [by apply Hx|]. intros Heq. apply Hne.
      eapply (NoDup_lookup _ _ _ (sd_ptr c)); [exact Ha|..]; rewrite list_lookup_fmap.
      * by rewrite Hi.
      * by rewrite Hj, <- Heq.
  - rewrite list_fmap_insert. cbn. rewrite list_insert_id; [done|]. by rewrite list_lookup_fmap, Hi.
  - destruct (find_ptr_elem _ _ _ Hf) as [Hin Hptr].
    pose proof (proj1 (proj1 (Forall_forall _ _) Hr r Hin)) as Hok. unfold main_ok, request_ok, settled in *.
    destruct (st_main st) as [|p' ?|p'|p'|p'|p'|p'|p']; try done; (rewrite Hfind; [done|]);
      intros ->; (destruct Hok as [[[_ ?]|[E1 _]] Hx1]; [done|rewrite (Hx1 Hptr) in E1; done]).
Qed.

Lemma find_ordered st r rc :
  waits_ordered st -> st_main st = Outside -> r ∈ requests st -> rq_done_waiting r = 0 ->
  waits_ordered (mk_wait (st_server st) (st_sendings st) (Found (rq_ptr r) rc) (st_next st)).
Proof.
  intros [Hr Hp Hc Ha Hpt Hm] E Hin Hd. rewrite E in *. constructor; try done; cbn [st_main st_next].
  - apply Forall_forall. intros x Hx. pose proof (proj1 (Forall_forall _ _) Hr x Hx) as [Hok ?].
    split; [|done]. split; [done|]. intros Heq.
    pose proof (elem_find_ptr _ _ Hp Hin) as H1. pose proof (elem_find_ptr _ _ Hp Hx) as H2. congruence.
  - eapply Forall_impl; [exact Hc|]. intros c (? & ? & Hx). split; [done|]. split; [done|]. intros Hne.
    destruct (Hx Hne) as (x & ? & Hph). exists x. split; [done|].
    destruct (sd_phase c); try done. destruct Hph; [by left|done].
  - intros ptr [= <-]. by apply (proj1 (Forall_forall _ _) Hr).
  - cbn. exists r. by apply elem_find_ptr.
Qed.

Lemma outside_ordered st ptr :
  waits_ordered st -> st_main st = Handling ptr ->
  waits_ordered (mk_wait (st_server st) (st_sendings st) Outside (st_next st)).
Proof.
  intros [Hr Hp Hc Ha Hpt Hm] E. rewrite E in *. constructor; try done; cbn [st_main st_next].
  - eapply Forall_impl; [exact Hr|]. by intros x [[? _] ?].
  - eapply Forall_impl; [exact Hc|]. intros c (? & ? & Hx). split; [done|]. split; [done|]. intros Hne.
    destruct (Hx Hne) as (x & ? & Hph). exists x. split; [done|].
    destruct (sd_phase c); try done. destruct Hph; [by left|done].
Qed.

Lemma look_ok m r ph ph' :
  request_ok m r -> phase_ok m r ph -> look ph r = Some ph' -> phase_ok m r ph' /\ ph' <> Expired.
Proof.
  intros Hok Hph H. destruct ph; cbn in H; simplify_eq;
    unfold test_negative, test_positive, test_again; cbn in Hph |- *; try done.
  - destruct (Z.ltb_spec (rq_wait r) 0); done.
  - destruct (Z.ltb_spec 0 (rq_wait r)); cbn; [done|split; [lia|done]].
  - by destruct (Z.eqb_spec (rq_wait r) 0).
Qed.

Lemma look_locked_ok m r ph ph' :
  request_ok m r -> phase_ok m r ph -> ph <> Expired -> holds m <> Some (rq_ptr r) ->
  look_locked ph r = Some ph' -> phase_ok m r ph' /\ ph' <> Expired.
Proof.
  intros Hok Hph He Hm H.
  assert (rq_done_waiting r <> 0 -> rq_wait r = 0) as Hd.
  { unfold request_ok, settled in Hok. destruct m; cbn in Hm; try naive_solver.
    rewrite (proj2 (Z.eqb_neq _ _)) in Hok by congruence. naive_solver. }
  destruct ph; cbn in H; simplify_eq; unfold test_done; cbn in Hph |- *; try done.
  - destruct (Z.eqb_spec (rq_done_waiting r) 0); cbn; [by split; [left|]|by split; [apply Hd|]].
  - split; [|done]. apply Hd. lia.
Qed.

Lemma waits_step st st' : wait_step true st st' -> waits_ordered st -> waits_ordered st'.
Proof.
  intros Hs H. destruct Hs as [wait sub other Hw|i c r ph Hi Hf Hl|i c r ph Hi Hf Hl Hh|i c Hc|i c timed Hc
    |i c rc Hi Hph|r rc Hm Hr Hd|ptr Hm|ptr r Hm Hf Hw|ptr r Hm Hf Hw]; try discriminate.
  - by apply send_ordered.
  - destruct (sending_here _ _ _ _ H Hi Hf) as (Hok & Hp & Hn & _ & Hx). apply phase_ordered; [done|done|].
    assert (phase_ok (st_main st) r (sd_phase c)) as Hph by (apply Hx; intros rc E; by rewrite E in Hl).
    destruct (look_ok _ _ _ _ Hok Hph Hl) as [? ?]. split; [done|]. split; [done|]. intros _. by exists r.
  - destruct (sending_here _ _ _ _ H Hi Hf) as (Hok & Hp & Hn & He & Hx). apply phase_ordered; [done|done|].
    assert (phase_ok (st_main st) r (sd_phase c)) as Hph by (apply Hx; intros rc E; by rewrite E in Hl).
    rewrite <- Hp in Hh. destruct (look_locked_ok _ _ _ _ Hok Hph He Hh Hl) as [? ?].
    split; [done|]. split; [done|]. intros _. by exists r.
  - by apply remove_ordered.
  - apply find_ordered; auto.
  - by eapply outside_ordered.
  - destruct (find_ptr_elem _ _ _ Hf) as [Hin Hp].
    pose proof (proj1 (proj1 (Forall_forall _ _) (or_requests _ H) r Hin)) as Hok. rewrite Hm in Hok.
    destruct Hok as [[[? ?]|[? ?]] Hd]; [done|]. rewrite (Hd Hp) in *. done.
  - by apply main_ordered.
Qed.

Lemma quiet_ordered s : waits_ordered (quiet s).
Proof. constructor; try constructor. done. Qed.

(** ** What a call can rely on *)

(** The call [i] comes to its end with the code [rc]. *)
Definition comes_to (i : nat) (p rc : Z) (st : wait_state) : Prop :=
  exists st', rtc (wait_step true) st st' /\ st_sendings st' !! i = Some (mk_sending p (Ended rc)).

Lemma comes_to_step i p rc st st' : wait_step true st st' -> comes_to i p rc st' -> comes_to i p rc st.
Proof. intros Hs (st1 & Hr & ?). exists st1. split; [|done]. by eapply rtc_l. Qed.

Section own.
Context (st : wait_state) (i : nat) (p : Z) (r : dsi_request).
Context (Hf : find_ptr p (requests st) = Some r) (Hw : rq_wait r = 0).

(** Where the call stands changes nothing else. *)
Definition standing (ph : sending_phase) (st1 : wait_state) : Prop :=
  st_sendings st1 !! i = Some (mk_sending p ph) /\ requests st1 = requests st /\ st_main st1 = st_main st.

Lemma standing_move ph ph' st1 : standing ph st1 -> standing ph' (move_sending i (mk_sending p ph) ph' st1).
Proof using Type.
  intros (Hi & Hr & Hm). split_and!; [|done|done]. cbn. apply list_lookup_insert_eq. by eapply lookup_lt_Some.
Qed.

Lemma standing_looks ph ph' st1 rc :
  standing ph st1 -> look ph r = Some ph' ->
  (forall st2, standing ph' st2 -> comes_to i p rc st2) -> comes_to i p rc st1.
Proof using Hf.
  intros Hst Hl Hn. pose proof Hst as (Hi & Hr & _). eapply comes_to_step; [|by eapply Hn, standing_move].
  eapply step_look; [exact Hi|by rewrite Hr|done].
Qed.

Lemma removing_ends st1 rc : standing (Removing rc) st1 -> comes_to i p rc st1.
Proof using Type.
  intros (Hi & _). eexists. split; [by eapply rtc_once, step_remove|]. cbn. apply list_lookup_insert_eq.
  by eapply lookup_lt_Some.
Qed.

Lemma returning_ends st1 : standing Returning st1 -> comes_to i p (rq_return_code r) st1.
Proof using Hf. intros H. eapply standing_looks; [exact H|done|]. intros st2. apply removing_ends. Qed.

(** It ends by its own steps while the main loop does not have the mutex. *)
Lemma free_ends ph :
  (ph = Waking \/ (exists timed, ph = Locking timed) -> rq_done_waiting r = 1) ->
  (forall timed, ph <> Asleep timed) -> ph <> Expired -> (forall rc, ph <> Ended rc) ->
  (forall rc, ph = Removing rc -> rc = rq_return_code r) ->
  holds (st_main st) <> Some p -> standing ph st -> comes_to i p (rq_return_code r) st.
Proof using Hf Hw.
  intros Hd Has Hex Hen Hrm Hh H.
  assert (forall st1, standing Positive st1 -> comes_to i p (rq_return_code r) st1) as Hpos.
  { intros st1 H1. eapply standing_looks; [exact H1| |apply returning_ends]. cbn. unfold test_positive. by rewrite Hw. }
  assert (look_locked ph r = Some Returning -> comes_to i p (rq_return_code r) st) as Hlocked.
  { intros Hl. eapply comes_to_step; [|by eapply returning_ends, standing_move].
    eapply step_look_locked; [apply H|done|done|done]. }
  destruct ph as [| | |timed|timed| | | |rc|rc].
  - eapply standing_looks; [exact H| |exact Hpos]. cbn. unfold test_negative. by rewrite Hw.
  - by apply Hpos.
  - eapply standing_looks; [exact H| |apply returning_ends]. cbn. unfold test_again. by rewrite Hw.
  - apply Hlocked. cbn. unfold test_done. rewrite Hd; [done|]. right. by eexists.
  - by destruct (Has timed).
  - by apply Hlocked.
  - done.
  - by apply returning_ends.
  - rewrite (Hrm rc eq_refl) in H. by apply removing_ends.
  - by destruct (Hen rc).
Qed.

End own.

(** One step of the main loop with its request. *)
Lemma main_step_found st p r i c :
  pointer (st_main st) = Some p -> find_ptr p (requests st) = Some r -> (forall q, st_main st <> Handling q) ->
  st_sendings st !! i = Some c -> sd_ptr c = p ->
  let '(f, signal, m) := main_action (st_main st) r in
  let st1 := main_moves p r st in
  wait_step true st st1 /\ st_main st1 = m /\
  find_ptr p (requests st1) = Some (f r) /\
  st_sendings st1 !! i = Some ((if signal then wake_sending p else id) c).
Proof.
  intros Hp Hf Hh Hi Hc. destruct (main_action (st_main st) r) as [[f sg] m] eqn:E.
  assert (forall x, rq_ptr (f x) = rq_ptr x) as Hfp.
  { intros x. destruct (st_main st); cbn in E; by simplify_eq. }
  split; [apply step_main; [done|done|intros E1; by destruct (Hh _ E1)]|].
  unfold main_moves. rewrite E. split; [done|]. split.
  - unfold requests. cbn [st_server]. rewrite find_update by done. fold (requests st). rewrite Hf, Z.eqb_refl. done.
  - cbn [st_sendings]. by rewrite list_lookup_fmap, Hi.
Qed.

(** A call whose reply was handled ends with its code: by its own steps if the main loop does
    not have the mutex, and else after those of the main loop that give it back. *)
Section answered.
Context (i : nat).

Definition answered_in (st : wait_state) (c : sending) (r : dsi_request) : Prop :=
  waits_ordered st /\ st_sendings st !! i = Some c /\ (forall rc, sd_phase c <> Ended rc) /\
  find_ptr (sd_ptr c) (requests st) = Some r /\ rq_wait r = 0.

Lemma answered_free st c r :
  answered_in st c r -> holds (st_main st) <> Some (sd_ptr c) ->
  comes_to i (sd_ptr c) (rq_return_code r) st.
Proof using Type.
  intros (H & Hi & Hne & Hf & Hw) Hh. destruct (sending_here _ _ _ _ H Hi Hf) as (Hok & Hp & _ & He & Hx).
  specialize (Hx Hne). assert (rq_done_waiting r = 1) as Hd.
  { unfold request_ok, settled in Hok. destruct (st_main st); cbn in Hh; try naive_solver.
    rewrite (proj2 (Z.eqb_neq _ _)) in Hok by congruence. naive_solver. }
  destruct c as [p ph]. cbn [sd_ptr sd_phase] in *. apply (free_ends st i p r Hf Hw ph); try done.
  - intros timed ->. cbn in Hx. destruct Hx as [?|E]; [congruence|]. rewrite E in Hh. cbn in Hh. congruence.
  - intros rc ->. by destruct Hx.
Qed.

Lemma answered_signalled st c r :
  answered_in st c r -> st_main st = Signalled (sd_ptr c) -> comes_to i (sd_ptr c) (rq_return_code r) st.
Proof using Type.
  intros (H & Hi & Hne & Hf & Hw) E.
  pose proof (main_step_found st (sd_ptr c) r i c ltac:(by rewrite E) Hf ltac:(by rewrite E) Hi eq_refl) as Hs.
  rewrite E in Hs. cbn in Hs. destruct Hs as (Hs & Em & Ef & Ei). eapply comes_to_step; [exact Hs|].
  apply answered_free; [|by rewrite Em]. split_and!; try done. by eapply waits_step.
Qed.

Lemma answered_marked st c r :
  answered_in st c r -> st_main st = Marked (sd_ptr c) -> comes_to i (sd_ptr c) (rq_return_code r) st.
Proof using Type.
  intros (H & Hi & Hne & Hf & Hw) E.
  pose proof (main_step_found st (sd_ptr c) r i c ltac:(by rewrite E) Hf ltac:(by rewrite E) Hi eq_refl) as Hs.
  rewrite E in Hs. cbn in Hs. destruct Hs as (Hs & Em & Ef & Ei). eapply comes_to_step; [exact Hs|].
  pose proof (wake_ptr (sd_ptr c) c) as Hp. rewrite <- Hp.
  apply answered_signalled; [|by rewrite Hp]. split_and!; rewrite ?Hp; try done; [by eapply waits_step|].
  unfold wake_sending. destruct (sd_phase c) eqn:Ep; rewrite ?Ep; try done. by rewrite Z.eqb_refl.
Qed.

Lemma answered_ends st c r : answered_in st c r -> comes_to i (sd_ptr c) (rq_return_code r) st.
Proof using Type.
  intros Ha. pose proof Ha as (H & Hi & Hne & Hf & Hw). destruct (sending_here _ _ _ _ H Hi Hf) as (Hok & Hp & _).
  destruct (decide (holds (st_main st) = Some (sd_ptr c))) as [Hh|Hh]; [|by apply answered_free].
  destruct (st_main st) as [|q rc|q|q|q|q|q|q] eqn:E; cbn in Hh; simplify_eq.
  - destruct Hok as [[[_ ?]|[Hd _]] Hx]; [done|]. rewrite (Hx Hp) in Hd. done.
  - pose proof (main_step_found st (sd_ptr c) r i c ltac:(by rewrite E) Hf ltac:(by rewrite E) Hi eq_refl) as Hs.
    rewrite E in Hs. cbn in Hs. destruct Hs as (Hs & Em & Ef & Ei). eapply comes_to_step; [exact Hs|].
    change (rq_return_code r) with (rq_return_code (mark_done r)).
    apply answered_marked; [|done]. split_and!; try done. by eapply waits_step.
  - by apply answered_marked.
  - by apply answered_signalled.
Qed.

End answered.


(** ** What can go wrong *)

(** A call that waits for at most five seconds. *)
Definition one_sending (ph : sending_phase) (m : recv_phase) : wait_state :=
  mk_wait (enqueue_request (new_request 0 5 afpGetVolParms None (quiet sample_server).(st_server))
              (quiet sample_server).(st_server)) [mk_sending 0 ph] m 1.

(** Take a step of the call 0, or of the main loop. *)
Ltac call_step := eapply rtc_l; [by eapply (step_look _ _ 0)|].
Ltac locked_step := eapply rtc_l; [by eapply (step_look_locked _ _ 0)|].
Ltac main_step := eapply rtc_l; [by eapply step_main|].
Ltac find_step rc := eapply rtc_l; [eapply (step_find _ _ _ rc); [done|by left|done]|].

Lemma asleep_reached calm : rtc (wait_step calm) (quiet sample_server) (one_sending (Asleep true) Outside).
Proof.
  eapply rtc_l; [by apply (step_send calm (quiet sample_server) 5 afpGetVolParms None)|].
  do 3 call_step. locked_step. apply rtc_refl.
Qed.

(** A reply can be handled before its call looks at [wait].  The call then finds it cleared,
    does not wait for the mutex, returns and frees the request, all with the right code; and
    [dsi_recv], which has just cleared [wait], stores [done_waiting] into freed memory, signals
    a freed condition and unlocks a freed mutex.  For this nothing has to go wrong. *)
Theorem quick_call_faults :
  exists st, rtc (wait_step true) (quiet sample_server) st /\ st_main st = Cleared 0 /\
    main_uses_freed st /\ st_sendings st = [mk_sending 0 (Ended (-5000))].
Proof.
  eexists. split.
  - eapply rtc_l; [by apply (step_send _ (quiet sample_server) 5 afpGetVolParms None)|].
    find_step (-5000). do 4 main_step. do 3 call_step.
    eapply rtc_l; [by eapply (step_remove _ _ 0)|]. apply rtc_refl.
  - split_and!; [done|by exists 0|done].
Qed.

(** A wait can run out while the main loop handles the reply: the call frees the request, and
    the main loop goes on with it. *)
Theorem late_reply_faults :
  exists st, rtc (wait_step false) (quiet sample_server) st /\ st_main st = Found 0 0 /\
    main_uses_freed st /\ st_sendings st = [mk_sending 0 (Ended ETIMEDOUT)].
Proof.
  eexists. split.
  - etrans; [apply asleep_reached|]. find_step 0.
    eapply rtc_l; [by eapply (step_timeout _ _ 0)|]. locked_step.
    eapply rtc_l; [by eapply (step_remove _ _ 0)|]. apply rtc_refl.
  - split_and!; [done|by exists 0|done].
Qed.

(** A second reply to a request that its call has not removed yet makes the main loop free it;
    the call then reads the return code from it. *)
Theorem second_reply_faults :
  exists st, rtc (wait_step false) (quiet sample_server) st /\
    st_sendings st = [mk_sending 0 Waking] /\ call_uses_freed st.
Proof.
  eexists. split.
  - etrans; [apply asleep_reached|]. find_step 0. do 7 main_step. find_step 0. main_step.
    eapply rtc_l; [by eapply step_drop|]. apply rtc_refl.
  - split_and!; [done|]. exists 0%nat. eexists. by split_and!.
Qed.


End Wakeup.
