(* ===== verification/ReplyBlock.v ===== *)
(** * File and directory parameter blocks: lib/proto_replyblock.c

    [parse_reply_block] reads the block of parameters that the replies to
    FPGetFileDirParms and FPEnumerate carry.  A block is a run of optional fields,
    one per bit of a bitmap, and the names they point at.  The encoder of such
    blocks from the protocol is the specification. *)

From S2P Require Import Prelude Constants Types Utils.

Module ReplyBlock.
Import Utils.

Definition AFP_MAX_PATH : Z := 768.

(** ** The parser *)

(** The cursor [p2] and the structure being filled in, of type [A]. *)
Definition cursor (A : Type) : Type := A * nat.

(** [if (bitmap & bit) { ... }] *)
Definition if_bit {A} (bitmap bit : Z) (f : A -> nat -> option (cursor A))
    (c : cursor A) : option (cursor A) :=
  if has bitmap bit then f c.1 c.2 else Some c.

Definition get16 {A} (buf : list Z) (set : Z -> A -> A) (x : A) (p2 : nat)
    : option (cursor A) :=
  v ← ntohs <$> ld16 p2 buf; Some (set v x, p2 + 2)%nat.
Definition get32 {A} (buf : list Z) (set : Z -> A -> A) (x : A) (p2 : nat)
    : option (cursor A) :=
  v ← ntohl <$> ld32 p2 buf; Some (set v x, p2 + 4)%nat.
Definition get64 {A} (buf : list Z) (set : Z -> A -> A) (x : A) (p2 : nat)
    : option (cursor A) :=
  v ← ntoh64 <$> ld64 p2 buf; Some (set v x, p2 + 8)%nat.
Definition get_date {A} (buf : list Z) (set : Z -> A -> A) (x : A) (p2 : nat)
    : option (cursor A) :=
  v ← ld32 p2 buf; Some (set (AD_DATE_TO_UNIX v) x, p2 + 4)%nat.
Definition skip {A} (n : nat) (x : A) (p2 : nat) : option (cursor A) :=
  Some (x, p2 + n)%nat.
Definition get_finderinfo (buf : list Z) (fp : afp_file_info) (p2 : nat)
    : option (cursor afp_file_info) :=
  v ← slice p2 32 buf; Some (set_fi_finderinfo v fp, p2 + 32)%nat.
Definition get_longname (buf : list Z) (fp : afp_file_info) (p2 : nat)
    : option (cursor afp_file_info) :=
  offset ← ntohs <$> ld16 p2 buf;
  '(name, _) ← copy_from_pascal (fi_name fp) (Some (drop (Z.to_nat offset) buf))
                 AFP_MAX_PATH;
  Some (set_fi_name name fp, p2 + 2)%nat.
Definition get_utf8name (buf : list Z) (fp : afp_file_info) (p2 : nat)
    : option (cursor afp_file_info) :=
  offset ← ntohs <$> ld16 p2 buf;
  '(name, _) ← copy_from_pascal_two (fi_name fp) (drop (Z.to_nat offset + 4) buf)
                 AFP_MAX_PATH;
  Some (set_fi_name name fp, p2 + 6)%nat.

Definition set_uid (v : Z) (fp : afp_file_info) : afp_file_info :=
  set_fi_unixprivs (set_up_uid v (fi_unixprivs fp)) fp.
Definition set_gid (v : Z) (fp : afp_file_info) : afp_file_info :=
  set_fi_unixprivs (set_up_gid v (fi_unixprivs fp)) fp.

Definition get_unixprivs (buf : list Z) (fp : afp_file_info) (p2 : nat)
    : option (cursor afp_file_info) :=
  uid ← ntohl <$> ld32 p2 buf;
  gid ← ntohl <$> ld32 (p2 + 4) buf;
  permissions ← ntohl <$> ld32 (p2 + 8) buf;
  ua_permissions ← ntohl <$> ld32 (p2 + 12) buf;
  Some (set_fi_unixprivs (mk_afp_unixprivs uid gid permissions ua_permissions) fp,
        p2 + 16)%nat.

(** The fields of directories only, and of files only. *)
Definition parse_dir_fields (buf : list Z) (bitmap : Z) (c : cursor afp_file_info)
    : option (cursor afp_file_info) :=
  c ← if_bit bitmap kFPOffspringCountBit (get16 buf set_fi_offspring) c;
  c ← if_bit bitmap kFPOwnerIDBit (get32 buf set_uid) c;
  c ← if_bit bitmap kFPGroupIDBit (get32 buf set_gid) c;
  if_bit bitmap kFPAccessRightsBit (get32 buf set_fi_accessrights) c.

Definition parse_file_fields (buf : list Z) (bitmap : Z) (c : cursor afp_file_info)
    : option (cursor afp_file_info) :=
  c ← if_bit bitmap kFPDataForkLenBit (get32 buf set_fi_size) c;
  c ← if_bit bitmap kFPRsrcForkLenBit (get32 buf set_fi_resourcesize) c;
  c ← if_bit bitmap kFPExtDataForkLenBit (get64 buf set_fi_size) c;
  if_bit bitmap kFPLaunchLimitBit (skip 2) c.

(** [buf] is the memory from the block on; the argument [size] is not used. *)
Definition parse_reply_block (buf : list Z) (isdir filebitmap dirbitmap : Z)
    : option afp_file_info :=
  let bitmap := u16 (if isdir =? 0 then filebitmap else dirbitmap) in
  let c := (set_fi_isdir isdir zero_file_info, 0%nat) in
  c ← if_bit bitmap kFPAttributeBit (get16 buf set_fi_attributes) c;
  c ← if_bit bitmap kFPParentDirIDBit (get32 buf set_fi_did) c;
  c ← if_bit bitmap kFPCreateDateBit (get_date buf set_fi_creation_date) c;
  c ← if_bit bitmap kFPModDateBit (get_date buf set_fi_modification_date) c;
  c ← if_bit bitmap kFPBackupDateBit (get_date buf set_fi_backup_date) c;
  c ← if_bit bitmap kFPFinderInfoBit (get_finderinfo buf) c;
  c ← if_bit bitmap kFPLongNameBit (get_longname buf) c;
  c ← if_bit bitmap kFPShortNameBit (skip 2) c;
  c ← if_bit bitmap kFPNodeIDBit (get32 buf set_fi_fileid) c;
  c ← (if isdir =? 0 then parse_file_fields buf bitmap c
       else parse_dir_fields buf bitmap c);
  c ← if_bit bitmap kFPUTF8NameBit (get_utf8name buf) c;
  c ← if_bit bitmap kFPExtRsrcForkLenBit (get64 buf set_fi_resourcesize) c;
  c ← if_bit bitmap kFPUnixPrivsBit (get_unixprivs buf) c;
  Some c.1.

(** ** The encoding of the protocol *)

Definition put_if (bitmap bit : Z) (bytes : list Z) : list Z :=
  if has bitmap bit then bytes else [].

Definition put_unixprivs (u : afp_unixprivs) : list Z :=
  be_bytes 4 (up_uid u) ++ be_bytes 4 (up_gid u) ++ be_bytes 4 (up_permissions u)
  ++ be_bytes 4 (up_ua_permissions u).

(** The run of fields, given the offsets of the two names. *)
Definition encode_fields (isdir bitmap : Z) (fi : afp_file_info) (long_off utf8_off : Z)
    : list (list Z) :=
  [put_if bitmap kFPAttributeBit (be_bytes 2 (fi_attributes fi));
   put_if bitmap kFPParentDirIDBit (be_bytes 4 (fi_did fi));
   put_if bitmap kFPCreateDateBit (be_bytes 4 (fi_creation_date fi - AD_DATE_DELTA));
   put_if bitmap kFPModDateBit (be_bytes 4 (fi_modification_date fi - AD_DATE_DELTA));
   put_if bitmap kFPBackupDateBit (be_bytes 4 (fi_backup_date fi - AD_DATE_DELTA));
   put_if bitmap kFPFinderInfoBit (fi_finderinfo fi);
   put_if bitmap kFPLongNameBit (be_bytes 2 long_off);
   put_if bitmap kFPShortNameBit [0; 0];
   put_if bitmap kFPNodeIDBit (be_bytes 4 (fi_fileid fi))]
  ++ (if isdir =? 0 then
        [put_if bitmap kFPDataForkLenBit (be_bytes 4 (fi_size fi));
         put_if bitmap kFPRsrcForkLenBit (be_bytes 4 (fi_resourcesize fi));
         put_if bitmap kFPExtDataForkLenBit (be_bytes 8 (fi_size fi));
         put_if bitmap kFPLaunchLimitBit [0; 0]]
      else
        [put_if bitmap kFPOffspringCountBit (be_bytes 2 (fi_offspring fi));
         put_if bitmap kFPOwnerIDBit (be_bytes 4 (up_uid (fi_unixprivs fi)));
         put_if bitmap kFPGroupIDBit (be_bytes 4 (up_gid (fi_unixprivs fi)));
         put_if bitmap kFPAccessRightsBit (be_bytes 4 (fi_accessrights fi))])
  ++ [put_if bitmap kFPUTF8NameBit (be_bytes 2 utf8_off ++ be_bytes 4 0);
      put_if bitmap kFPExtRsrcForkLenBit (be_bytes 8 (fi_resourcesize fi));
      put_if bitmap kFPUnixPrivsBit (put_unixprivs (fi_unixprivs fi))].

Definition fields_length (isdir bitmap : Z) (fi : afp_file_info) : nat :=
  length (concat (encode_fields isdir bitmap fi 0 0)).

(** The names behind the fields: a Pascal string, and a hint with a two-byte
    Pascal string. *)
Definition encode_names (bitmap : Z) (name : list Z) : list Z :=
  put_if bitmap kFPLongNameBit (Z.of_nat (length name) :: name) ++
  put_if bitmap kFPUTF8NameBit
    (be_bytes 4 0x08000103 ++ be_bytes 2 (Z.of_nat (length name)) ++ name).

Definition encode_block (isdir bitmap : Z) (fi : afp_file_info) (name : list Z) : list Z :=
  let n := fields_length isdir bitmap fi in
  let m := length (put_if bitmap kFPLongNameBit (Z.of_nat (length name) :: name)) in
  concat (encode_fields isdir bitmap fi (Z.of_nat n) (Z.of_nat (n + m)))
  ++ encode_names bitmap name.

(** What the parser should find: the fields of the bitmap, and zero elsewhere. *)
Definition sel (bitmap bit v : Z) : Z := if has bitmap bit then v else 0.

Definition padded (name : list Z) : list Z :=
  name ++ replicate (768 - length name) 0.

Definition selected (isdir bitmap : Z) (fi : afp_file_info) (name : list Z)
    : afp_file_info :=
  let dir := negb (isdir =? 0) in
  let privs := has bitmap kFPUnixPrivsBit in
  {| fi_attributes := sel bitmap kFPAttributeBit (fi_attributes fi);
     fi_did := sel bitmap kFPParentDirIDBit (fi_did fi);
     fi_creation_date := sel bitmap kFPCreateDateBit (fi_creation_date fi);
     fi_modification_date := sel bitmap kFPModDateBit (fi_modification_date fi);
     fi_backup_date := sel bitmap kFPBackupDateBit (fi_backup_date fi);
     fi_fileid := sel bitmap kFPNodeIDBit (fi_fileid fi);
     fi_offspring := if dir then sel bitmap kFPOffspringCountBit (fi_offspring fi) else 0;
     fi_sync := 0;
     fi_finderinfo := if has bitmap kFPFinderInfoBit then fi_finderinfo fi
                      else replicate 32 0;
     fi_name := if has bitmap kFPLongNameBit || has bitmap kFPUTF8NameBit
                then padded name else replicate 768 0;
     fi_basename := replicate 768 0;
     fi_unixprivs :=
       if privs then fi_unixprivs fi
       else if dir then
         mk_afp_unixprivs (sel bitmap kFPOwnerIDBit (up_uid (fi_unixprivs fi)))
           (sel bitmap kFPGroupIDBit (up_gid (fi_unixprivs fi))) 0 0
       else zero_unixprivs;
     fi_accessrights := if dir then sel bitmap kFPAccessRightsBit (fi_accessrights fi) else 0;
     fi_isdir := isdir;
     fi_size := if dir then 0
                else if has bitmap kFPExtDataForkLenBit || has bitmap kFPDataForkLenBit
                then fi_size fi else 0;
     fi_resourcesize :=
       if has bitmap kFPExtRsrcForkLenBit || negb dir && has bitmap kFPRsrcForkLenBit
       then fi_resourcesize fi else 0;
     fi_resource := 0; fi_forkid := 0; fi_eof := 0 |}.

(** The ranges of the C types, and what a 32-bit length field can carry. *)
Record encodable (isdir bitmap : Z) (fi : afp_file_info) (name : list Z) : Prop := {
  en_bitmap : 0 <= bitmap < 65536;
  en_attributes : 0 <= fi_attributes fi < 65536;
  en_did : 0 <= fi_did fi < 2 ^ 32;
  en_creation : 0 <= fi_creation_date fi < 2 ^ 32;
  en_modification : 0 <= fi_modification_date fi < 2 ^ 32;
  en_backup : 0 <= fi_backup_date fi < 2 ^ 32;
  en_finderinfo : length (fi_finderinfo fi) = 32%nat;
  en_fileid : 0 <= fi_fileid fi < 2 ^ 32;
  en_offspring : 0 <= fi_offspring fi < 65536;
  en_uid : 0 <= up_uid (fi_unixprivs fi) < 2 ^ 32;
  en_gid : 0 <= up_gid (fi_unixprivs fi) < 2 ^ 32;
  en_permissions : 0 <= up_permissions (fi_unixprivs fi) < 2 ^ 32;
  en_ua : 0 <= up_ua_permissions (fi_unixprivs fi) < 2 ^ 32;
  en_access : 0 <= fi_accessrights fi < 2 ^ 32;
  en_size : 0 <= fi_size fi < 2 ^ 64;
  en_size32 : has bitmap kFPDataForkLenBit = true -> isdir = 0 -> fi_size fi < 2 ^ 32;
  en_rsrc : 0 <= fi_resourcesize fi < 2 ^ 64;
  en_rsrc32 : has bitmap kFPRsrcForkLenBit = true -> isdir = 0 ->
              fi_resourcesize fi < 2 ^ 32;
  en_name : (0 < length name < 256)%nat }.

(** ** Reading one field *)

Lemma get16_ok {A} pre v rest (set : Z -> A -> A) fp :
  0 <= v < 65536 ->
  get16 (pre ++ be_bytes 2 v ++ rest) set fp (length pre) =
    Some (set v fp, length (pre ++ be_bytes 2 v)).
Proof.
  intros Hv. unfold get16. rewrite ntohs_ld16 by done. cbn [mbind option_bind].
  do 2 f_equal. solve_len.
Qed.

Lemma get32_ok {A} pre v rest (set : Z -> A -> A) fp :
  0 <= v < 2 ^ 32 ->
  get32 (pre ++ be_bytes 4 v ++ rest) set fp (length pre) =
    Some (set v fp, length (pre ++ be_bytes 4 v)).
Proof.
  intros Hv. unfold get32. rewrite ntohl_ld32 by done. cbn [mbind option_bind].
  do 2 f_equal. solve_len.
Qed.

Lemma get64_ok {A} pre v rest (set : Z -> A -> A) fp :
  0 <= v < 2 ^ 64 ->
  get64 (pre ++ be_bytes 8 v ++ rest) set fp (length pre) =
    Some (set v fp, length (pre ++ be_bytes 8 v)).
Proof.
  intros Hv. unfold get64. rewrite ntoh64_ld64 by done. cbn [mbind option_bind].
  do 2 f_equal. solve_len.
Qed.

Lemma get_date_ok {A} pre v rest (set : Z -> A -> A) fp :
  0 <= v < 2 ^ 32 ->
  get_date (pre ++ be_bytes 4 (v - AD_DATE_DELTA) ++ rest) set fp (length pre) =
    Some (set v fp, length (pre ++ be_bytes 4 (v - AD_DATE_DELTA))).
Proof.
  intros Hv. unfold get_date, ld32. rewrite slice_at by solve_len.
  cbn [fmap option_fmap option_map mbind option_bind]. do 2 f_equal; [|solve_len].
  f_equal. unfold AD_DATE_TO_UNIX, ntohl, u32. rewrite bswap_be_bytes.
  change (256 ^ Z.of_nat 4) with 4294967296. rewrite Zplus_mod_idemp_l, Z.sub_add.
  by apply Z.mod_small.
Qed.

Lemma skip_ok {A} (pre bytes : list Z) (fp : A) :
  skip (length bytes) fp (length pre) = Some (fp, length (pre ++ bytes)).
Proof. unfold skip. by rewrite length_app. Qed.

Lemma get_finderinfo_ok pre v rest fp :
  length v = 32%nat ->
  get_finderinfo (pre ++ v ++ rest) fp (length pre) =
    Some (set_fi_finderinfo v fp, length (pre ++ v)).
Proof.
  intros Hv. unfold get_finderinfo. rewrite slice_at by done. cbn [mbind option_bind].
  do 2 f_equal. solve_len.
Qed.

Lemma get_unixprivs_ok pre u rest fp :
  0 <= up_uid u < 2 ^ 32 -> 0 <= up_gid u < 2 ^ 32 ->
  0 <= up_permissions u < 2 ^ 32 -> 0 <= up_ua_permissions u < 2 ^ 32 ->
  get_unixprivs (pre ++ put_unixprivs u ++ rest) fp (length pre) =
    Some (set_fi_unixprivs u fp, length (pre ++ put_unixprivs u)).
Proof.
  intros H1 H2 H3 H4. unfold get_unixprivs, put_unixprivs. rewrite <- !app_assoc.
  rewrite (ntohl_ld32 pre (up_uid u) _ (length pre)) by done. cbn [mbind option_bind].
  rewrite (app_assoc pre (be_bytes 4 (up_uid u))).
  rewrite (ntohl_ld32 _ (up_gid u) _ (length pre + 4)) by (first [done|solve_len]).
  cbn [mbind option_bind]. rewrite (app_assoc (pre ++ _) (be_bytes 4 (up_gid u))).
  rewrite (ntohl_ld32 _ (up_permissions u) _ (length pre + 8)) by (first [done|solve_len]).
  cbn [mbind option_bind]. rewrite (app_assoc ((pre ++ _) ++ _)).
  rewrite (ntohl_ld32 _ (up_ua_permissions u) _ (length pre + 12))
    by (first [done|solve_len]).
  cbn [mbind option_bind]. destruct u. do 2 f_equal. solve_len.
Qed.

(** A name that starts at [offset]. *)
Lemma get_longname_ok B pre rest offset name tail fp :
  B = pre ++ be_bytes 2 offset ++ rest ->
  drop (Z.to_nat offset) B = Z.of_nat (length name) :: name ++ tail ->
  0 <= offset < 65536 -> (0 < length name < 256)%nat -> length (fi_name fp) = 768%nat ->
  get_longname B fp (length pre) =
    Some (set_fi_name (padded name) fp, length (pre ++ be_bytes 2 offset)).
Proof.
  intros HB Hd Ho Hn Hf. unfold get_longname. rewrite HB at 1.
  rewrite ntohs_ld16 by done. cbn [mbind option_bind]. rewrite Hd.
  change AFP_MAX_PATH with (Z.of_nat 768).
  rewrite copy_from_pascal_spec by lia. cbn [mbind option_bind].
  rewrite drop_ge, app_nil_r by lia. do 2 f_equal. solve_len.
Qed.

Lemma get_utf8name_ok B pre rest offset name hint tail fp :
  B = pre ++ be_bytes 2 offset ++ rest ->
  drop (Z.to_nat offset) B =
    hint ++ be_bytes 2 (Z.of_nat (length name)) ++ name ++ tail ->
  length hint = 4%nat ->
  0 <= offset < 65536 -> (0 < length name < 256)%nat -> length (fi_name fp) = 768%nat ->
  get_utf8name B fp (length pre) =
    Some (set_fi_name (padded name) fp, length (pre ++ be_bytes 2 offset ++ be_bytes 4 0)).
Proof.
  intros HB Hd Hh Ho Hn Hf. unfold get_utf8name. rewrite HB at 1.
  rewrite ntohs_ld16 by done. cbn [mbind option_bind].
  rewrite <- drop_drop, Hd, <- Hh, drop_app_length.
  change AFP_MAX_PATH with (Z.of_nat 768).
  rewrite copy_from_pascal_two_spec by lia. cbn [mbind option_bind].
  rewrite drop_ge, app_nil_r by lia. do 2 f_equal. solve_len.
Qed.

(** The next field of the run, present or not. *)
Lemma if_bit_step {A} (P : A -> Prop) B pre rest bitmap bit bytes f (g : A -> A) fp :
  B = pre ++ put_if bitmap bit bytes ++ rest -> P fp ->
  (has bitmap bit = true -> B = pre ++ bytes ++ rest ->
   f fp (length pre) = Some (g fp, length (pre ++ bytes))) ->
  P (g fp) ->
  exists pre' fp', fp' = (if has bitmap bit then g fp else fp) /\
    P fp' /\ B = pre' ++ rest /\
    if_bit bitmap bit f (fp, length pre) = Some (fp', length pre').
Proof.
  unfold put_if, if_bit. intros HB Hn Hf Hg. destruct (has bitmap bit).
  - exists (pre ++ bytes), (g fp). rewrite <- app_assoc. split_and!; auto.
  - exists pre, fp. split_and!; auto.
Qed.

Lemma length_padded name : (length name < 256)%nat -> length (padded name) = 768%nat.
Proof. unfold padded. solve_len. Qed.

(** ** The names *)

Lemma length_put_if bitmap bit bytes :
  length (put_if bitmap bit bytes) = if has bitmap bit then length bytes else 0%nat.
Proof. unfold put_if. by case_match. Qed.

Lemma fields_length_any isdir bitmap fi a b :
  length (concat (encode_fields isdir bitmap fi a b)) = fields_length isdir bitmap fi.
Proof.
  unfold fields_length, encode_fields. destruct (isdir =? 0);
    cbn [app concat]; rewrite !length_app, !length_put_if; autorewrite with afp_len; done.
Qed.

Lemma encode_block_names isdir bitmap fi name rest :
  drop (fields_length isdir bitmap fi) (encode_block isdir bitmap fi name ++ rest)
    = encode_names bitmap name ++ rest.
Proof.
  unfold encode_block. rewrite <- app_assoc.
  erewrite <- fields_length_any at 1. apply drop_app_length.
Qed.

Lemma length_put_unixprivs u : length (put_unixprivs u) = 16%nat.
Proof. unfold put_unixprivs. solve_len. Qed.

#[local] Hint Rewrite length_put_unixprivs : afp_len.

Lemma put_if_le bitmap bit bytes n :
  (length bytes <= n)%nat -> (length (put_if bitmap bit bytes) <= n)%nat.
Proof. unfold put_if. case_match; simpl; lia. Qed.

Lemma fields_length_bound isdir bitmap fi :
  length (fi_finderinfo fi) = 32%nat -> (fields_length isdir bitmap fi < 600)%nat.
Proof.
  intros Hf. unfold fields_length, encode_fields.
  destruct (isdir =? 0); cbn [app concat]; rewrite !length_app;
    repeat match goal with |- context [length (put_if ?a ?b ?c)] =>
      let H := fresh in
      assert (length (put_if a b c) <= 32)%nat as H by (apply put_if_le; solve_len);
      revert H; generalize (length (put_if a b c)) end;
    intros; cbn [length]; lia.
Qed.

(** ** The run of fields *)

Lemma if_proj {A B} (f : A -> B) (b : bool) x y :
  f (if b then x else y) = if b then f x else f y.
Proof. by destruct b. Qed.

Lemma if_same {A} (b : bool) (x : A) : (if b then x else x) = x.
Proof. by destruct b. Qed.

(** Reads the next field with the lemma [ok], whose effect is [g]. *)
Ltac next_field g ok :=
  lazymatch goal with
  | HB : ?B = _ ++ put_if ?bm ?bit ?bytes ++ ?rest, Hn : length (fi_name ?fp) = 768%nat
    |- context [if_bit ?bm ?bit ?f (?fp, length ?pre)] =>
    let pre' := fresh "pre" in let fp' := fresh "fp" in
    let E := fresh "E" in let Hn' := fresh "Hn" in let HB' := fresh "HB" in
    let Hs := fresh "Hs" in
    destruct (if_bit_step (fun x => length (fi_name x) = 768%nat) B pre rest bm bit bytes f g
                fp HB Hn)
      as (pre' & fp' & E & Hn' & HB' & Hs);
    [ let Hb := fresh "Hb" in let Hx := fresh "Hx" in intros Hb Hx; ok Hb Hx
    | first [exact Hn | apply length_padded; lia]
    | rewrite Hs; cbn [mbind option_bind]; clear Hs HB Hn; rename HB' into HB ]
  end.

(** Projects a field out of the chain of updates. *)
Ltac project :=
  repeat match goal with
  | E : ?fp' = (if _ then _ else ?fp) |- context [?f ?fp'] =>
    is_var fp'; rewrite E, (if_proj f); cbn;
    rewrite ?if_same; clear E
  end.

Lemma file_info_ext (x y : afp_file_info) :
  fi_attributes x = fi_attributes y -> fi_did x = fi_did y ->
  fi_creation_date x = fi_creation_date y ->
  fi_modification_date x = fi_modification_date y ->
  fi_backup_date x = fi_backup_date y -> fi_fileid x = fi_fileid y ->
  fi_offspring x = fi_offspring y -> fi_sync x = fi_sync y ->
  fi_finderinfo x = fi_finderinfo y -> fi_name x = fi_name y ->
  fi_basename x = fi_basename y -> fi_unixprivs x = fi_unixprivs y ->
  fi_accessrights x = fi_accessrights y -> fi_isdir x = fi_isdir y ->
  fi_size x = fi_size y -> fi_resourcesize x = fi_resourcesize y ->
  fi_resource x = fi_resource y -> fi_forkid x = fi_forkid y -> fi_eof x = fi_eof y ->
  x = y.
Proof. destruct x, y; cbn; intros; subst; done. Qed.


(** Closes an equation between fields by cases on the bits it mentions. *)
Ltac by_bits :=
  cbn -[replicate]; repeat match goal with |- context [has ?m ?b] => destruct (has m b) end;
  reflexivity.

Section parse.
Context (isdir bitmap : Z) (fi : afp_file_info) (name : list Z).
Context (B rest : list Z) (o1 o2 : Z).
Hypothesis enc : encodable isdir bitmap fi name.
Hypothesis o1_ok : 0 <= o1 < 65536.
Hypothesis o2_ok : 0 <= o2 < 65536.
Hypothesis long_at : has bitmap kFPLongNameBit = true ->
  exists tail, drop (Z.to_nat o1) B = Z.of_nat (length name) :: name ++ tail.
Hypothesis utf8_at : has bitmap kFPUTF8NameBit = true ->
  exists tail, drop (Z.to_nat o2) B =
    be_bytes 4 0x08000103 ++ be_bytes 2 (Z.of_nat (length name)) ++ name ++ tail.

(** The fields behind the ones that depend on the kind of object. *)
Ltac tail_fields :=
  next_field (set_fi_name (padded name)) ltac:(fun Hb Hx =>
    destruct (utf8_at Hb); eapply get_utf8name_ok;
    [rewrite Hx at 1; by rewrite <- app_assoc|eassumption|done|done|done|done]);
  next_field (set_fi_resourcesize (fi_resourcesize fi))
    ltac:(fun Hb Hx => rewrite Hx; apply get64_ok, enc);
  next_field (set_fi_unixprivs (fi_unixprivs fi))
    ltac:(fun Hb Hx => rewrite Hx; apply get_unixprivs_ok; apply enc).

Lemma parse_block :
  B = concat (encode_fields isdir bitmap fi o1 o2) ++ rest ->
  parse_reply_block B isdir bitmap bitmap = Some (selected isdir bitmap fi name).
Proof using enc o1_ok o2_ok long_at utf8_at.
  intros HB. pose proof (en_name _ _ _ _ enc) as Hname.
  unfold parse_reply_block. rewrite if_same, u16_small by apply enc.
  assert (length (fi_name (set_fi_isdir isdir zero_file_info)) = 768%nat) as Hn by done.
  remember (set_fi_isdir isdir zero_file_info) as fp0 eqn:Hfp0.
  assert (exists pre : list Z, pre = [] /\ B = pre ++ B) as (pre & Hpre & HB0)
    by (by exists []).
  change (fp0, 0%nat) with (fp0, length (@nil Z)). rewrite <- Hpre. clear Hpre.
  rewrite HB in HB0 at 2. clear HB. rename HB0 into HB.
  unfold encode_fields in HB. rewrite !concat_app in HB. cbn [concat] in HB.
  rewrite ?app_nil_r, <- !app_assoc in HB.
  next_field (set_fi_attributes (fi_attributes fi))
    ltac:(fun Hb Hx => rewrite Hx; apply get16_ok, enc).
  next_field (set_fi_did (fi_did fi))
    ltac:(fun Hb Hx => rewrite Hx; apply get32_ok, enc).
  next_field (set_fi_creation_date (fi_creation_date fi))
    ltac:(fun Hb Hx => rewrite Hx; apply get_date_ok, enc).
  next_field (set_fi_modification_date (fi_modification_date fi))
    ltac:(fun Hb Hx => rewrite Hx; apply get_date_ok, enc).
  next_field (set_fi_backup_date (fi_backup_date fi))
    ltac:(fun Hb Hx => rewrite Hx; apply get_date_ok, enc).
  next_field (set_fi_finderinfo (fi_finderinfo fi))
    ltac:(fun Hb Hx => rewrite Hx; apply get_finderinfo_ok, enc).
  next_field (set_fi_name (padded name)) ltac:(fun Hb Hx =>
    destruct (long_at Hb); eapply get_longname_ok; [exact Hx|eassumption|done..]).
  next_field (fun fp : afp_file_info => fp) ltac:(fun Hb Hx => apply (skip_ok _ [0; 0])).
  next_field (set_fi_fileid (fi_fileid fi))
    ltac:(fun Hb Hx => rewrite Hx; apply get32_ok, enc).
  destruct (isdir =? 0) eqn:Hdir; cbn [concat] in HB; rewrite ?app_nil_r, <- !app_assoc in HB.
  - unfold parse_file_fields. apply Z.eqb_eq in Hdir as Hdir0.
    next_field (set_fi_size (fi_size fi)) ltac:(fun Hb Hx =>
      rewrite Hx; apply get32_ok;
      pose proof (en_size32 _ _ _ _ enc Hb Hdir0); pose proof (en_size _ _ _ _ enc); lia).
    next_field (set_fi_resourcesize (fi_resourcesize fi)) ltac:(fun Hb Hx =>
      rewrite Hx; apply get32_ok;
      pose proof (en_rsrc32 _ _ _ _ enc Hb Hdir0); pose proof (en_rsrc _ _ _ _ enc); lia).
    next_field (set_fi_size (fi_size fi))
      ltac:(fun Hb Hx => rewrite Hx; apply get64_ok, enc).
    next_field (fun fp : afp_file_info => fp) ltac:(fun Hb Hx => apply (skip_ok _ [0; 0])).
    tail_fields. f_equal. cbn [fst].
    apply file_info_ext; project; subst fp0; unfold selected, sel; rewrite ?Hdir;
      by_bits.
  - unfold parse_dir_fields.
    next_field (set_fi_offspring (fi_offspring fi))
      ltac:(fun Hb Hx => rewrite Hx; apply get16_ok, enc).
    next_field (set_uid (up_uid (fi_unixprivs fi)))
      ltac:(fun Hb Hx => rewrite Hx; apply get32_ok, enc).
    next_field (set_gid (up_gid (fi_unixprivs fi)))
      ltac:(fun Hb Hx => rewrite Hx; apply get32_ok, enc).
    next_field (set_fi_accessrights (fi_accessrights fi))
      ltac:(fun Hb Hx => rewrite Hx; apply get32_ok, enc).
    tail_fields. f_equal. cbn [fst].
    apply file_info_ext; project; subst fp0; unfold selected, sel; rewrite ?Hdir;
      by_bits.
Qed.
End parse.

Section roundtrip.
Context (isdir bitmap : Z) (fi : afp_file_info) (name rest : list Z).
Hypothesis enc : encodable isdir bitmap fi name.

Let B := encode_block isdir bitmap fi name ++ rest.

Lemma long_name_at :
  has bitmap kFPLongNameBit = true ->
  exists tail, drop (Z.to_nat (Z.of_nat (fields_length isdir bitmap fi))) B =
    Z.of_nat (length name) :: name ++ tail.
Proof using enc.
  intros H. unfold B. rewrite Nat2Z.id, encode_block_names. unfold encode_names, put_if.
  rewrite H. rewrite <- !app_assoc. by eexists.
Qed.

Lemma utf8_name_at :
  has bitmap kFPUTF8NameBit = true ->
  exists tail, drop (Z.to_nat (Z.of_nat (fields_length isdir bitmap fi +
      length (put_if bitmap kFPLongNameBit (Z.of_nat (length name) :: name))))) B =
    be_bytes 4 0x08000103 ++ be_bytes 2 (Z.of_nat (length name)) ++ name ++ tail.
Proof using enc.
  intros H. unfold B. rewrite Nat2Z.id, <- drop_drop, encode_block_names.
  unfold encode_names. rewrite <- app_assoc, drop_app_length. unfold put_if. rewrite H.
  rewrite <- !app_assoc. by eexists.
Qed.

Lemma offsets_fit :
  0 <= Z.of_nat (fields_length isdir bitmap fi) < 65536 /\
  0 <= Z.of_nat (fields_length isdir bitmap fi +
     length (put_if bitmap kFPLongNameBit (Z.of_nat (length name) :: name))) < 65536.
Proof using enc.
  pose proof (fields_length_bound isdir bitmap fi (en_finderinfo _ _ _ _ enc)).
  pose proof (en_name _ _ _ _ enc).
  pose proof (put_if_le bitmap kFPLongNameBit (Z.of_nat (length name) :: name) 256).
  simpl length in *. lia.
Qed.

Lemma parse_encoded :
  parse_reply_block B isdir bitmap bitmap = Some (selected isdir bitmap fi name).
Proof using enc.
  destruct offsets_fit as [Ho1 Ho2].
  eapply (parse_block isdir bitmap fi name B _ _ _ enc Ho1 Ho2 long_name_at utf8_name_at).
  unfold B, encode_block. by rewrite <- app_assoc.
Qed.
End roundtrip.

Lemma parse_reply_block_bitmap buf isdir fb db :
  parse_reply_block buf isdir fb db =
    let bitmap := if isdir =? 0 then fb else db in
    parse_reply_block buf isdir bitmap bitmap.
Proof. unfold parse_reply_block. by rewrite if_same. Qed.

Lemma parse_reply_block_encoded isdir bitmap fi name rest fb db :
  encodable isdir bitmap fi name -> (if isdir =? 0 then fb else db) = bitmap ->
  parse_reply_block (encode_block isdir bitmap fi name ++ rest) isdir fb db =
    Some (selected isdir bitmap fi name).
Proof.
  intros He Hb. rewrite parse_reply_block_bitmap, Hb. by apply parse_encoded.
Qed.

(** C31: for every bitmap, a parameter block that encodes a file or a directory
    as the protocol prescribes, whatever follows it, is read back by
    [parse_reply_block] as exactly the fields of the bitmap, with zeros in the
    others. *)
Theorem parse_reply_block_roundtrip isdir bitmap fi name rest filebitmap dirbitmap :
  encodable isdir bitmap fi name -> (if isdir =? 0 then filebitmap else dirbitmap) = bitmap ->
  parse_reply_block (encode_block isdir bitmap fi name ++ rest) isdir filebitmap dirbitmap =
    Some (selected isdir bitmap fi name).
Proof. apply parse_reply_block_encoded. Qed.

(** A directory and a file with every field set. *)
Definition sample_info : afp_file_info :=
  {| fi_attributes := 1; fi_did := 2; fi_creation_date := 946684800;
     fi_modification_date := 1; fi_backup_date := 4294967295; fi_fileid := 17;
     fi_offspring := 3; fi_sync := 0; fi_finderinfo := replicate 32 65;
     fi_name := []; fi_basename := [];
     fi_unixprivs := mk_afp_unixprivs 501 20 16877 7;
     fi_accessrights := 0x87070707; fi_isdir := 1; fi_size := 5000; fi_resourcesize := 300;
     fi_resource := 0; fi_forkid := 0; fi_eof := 0 |}.

Lemma sample_dir_encodable : encodable 128 0xbf7f sample_info [97; 98; 99].
Proof.
  constructor; try (vm_compute; done). split; apply Nat.ltb_lt; done.
Qed.

Lemma parse_reply_block_roundtrip_witness :
  parse_reply_block (encode_block 128 0xbf7f sample_info [97; 98; 99] ++ [1; 2]) 128 0 0xbf7f
    = Some (selected 128 0xbf7f sample_info [97; 98; 99]).
Proof.
  apply (parse_reply_block_roundtrip 128 0xbf7f sample_info [97; 98; 99] [1; 2] 0 0xbf7f
           sample_dir_encodable). reflexivity.
Defined.

End ReplyBlock.
