(* ===== verification/ProtoFiles.v ===== *)
(** * Requests on files, forks and directories: lib/proto_files.c,
    lib/proto_fork.c, lib/proto_directory.c

    An AFP call builds a message behind a DSI header and hands it to [dsi_send];
    the handler of its reply parses the packet in the receive buffer. *)

From S2P Require Import Prelude Constants Types Utils Dsi ReplyBlock.

Module ProtoFiles.
Import Utils Dsi ReplyBlock.

(** What a call hands to [dsi_send]: the DSI command, the [data_offset] of the
    header, the bytes behind the header, the timeout and the subcommand of the
    queued request. *)
Record request := mk_req {
  rq_dsi : Z; rq_offset : Z; rq_body : list Z; rq_timeout : Z; rq_sub : Z }.

Definition DSI_DEFAULT_TIMEOUT : Z := 5.

Definition afp_call (body : list Z) (sub : Z) : request :=
  mk_req DSI_DSICommand 0 body DSI_DEFAULT_TIMEOUT sub.

(** [malloc(n)]: [n] bytes, of which [junk] are the first. *)
Definition malloc (junk : list Z) (n : Z) : list Z := resize (Z.to_nat n) 0 junk.

(** [copy_path] and [unixpath_to_afppath] at [msg+off]. *)
Definition put_path (server : afp_server) (off : nat) (name msg : list Z)
    : option (list Z) :=
  p ← copy_path server (drop off msg) name;
  p ← unixpath_to_afppath server p;
  Some (take off msg ++ p).

Definition path_len (server : afp_server) (name : list Z) : Z :=
  sizeof_path_header server + Z.of_nat (length name).

(** ** Files *)

(** The parameter block of [afp_setparms_lowlevel]: [p] is the offset of the
    cursor behind the DSI header. *)
Definition put_block (bitmap : Z) (fp : afp_file_info) (p : nat) (msg : list Z)
    : option (list Z * nat) :=
  let field bit bytes (c : list Z * nat) :=
    if has bitmap bit then msg ← blit c.2 bytes c.1; Some (msg, c.2 + length bytes)%nat
    else Some c in
  (* [*p=htons(...)] through a pointer to char, with [p+=2] *)
  '(msg, p) ← (if has bitmap kFPAttributeBit
               then msg ← blit p (st8 (htons (fi_attributes fp))) msg; Some (msg, p + 2)%nat
               else Some (msg, p));
  c ← field kFPCreateDateBit (st32 (AD_DATE_FROM_UNIX (fi_creation_date fp))) (msg, p);
  c ← field kFPModDateBit (st32 (AD_DATE_FROM_UNIX (fi_modification_date fp))) c;
  c ← field kFPBackupDateBit (st32 (AD_DATE_FROM_UNIX (fi_backup_date fp))) c;
  c ← field kFPFinderInfoBit (fi_finderinfo fp) c;
  let u := fi_unixprivs fp in
  field kFPUnixPrivsBit
    (st32 (htonl (up_uid u)) ++ st32 (htonl (up_gid u)) ++ st32 (htonl (up_permissions u))
     ++ st32 (htonl (up_ua_permissions u))) c.

Definition even_up (p : Z) : Z := if Z.odd p then p + 1 else p.

Definition afp_setparms_lowlevel (server : afp_server) (volid dirid : Z)
    (pathname : list Z) (bitmap : Z) (fp : afp_file_info) (command : Z)
    : option request :=
  let fixed := st8 command ++ st8 0 ++ st16 (htons volid) ++ st32 (htonl dirid)
               ++ st16 (htons bitmap) in
  let msg := replicate (Z.to_nat (10 + path_len server pathname + 200 + 1)) 0 in
  let p := even_up (10 + path_len server pathname) in
  msg ← blit 0 fixed msg;
  msg ← put_path server 10 pathname msg;
  '(msg, p) ← put_block bitmap fp (Z.to_nat p) msg;
  Some (afp_call (take p msg) command).

Definition afp_setfileparms server volid dirid pathname bitmap fp :=
  afp_setparms_lowlevel server volid dirid pathname bitmap fp afpSetFileParms.
Definition afp_setfiledirparms server volid dirid pathname bitmap fp :=
  afp_setparms_lowlevel server volid dirid pathname bitmap fp afpSetFileDirParms.
Definition afp_setdirparms server volid dirid pathname bitmap fp :=
  afp_setparms_lowlevel server volid dirid pathname bitmap fp afpSetDirParms.

(** A fixed part and one path behind it. *)
Definition path_request (junk : list Z) (server : afp_server) (fixed pathname : list Z)
    : option (list Z) :=
  let msg := malloc junk (Z.of_nat (length fixed) + path_len server pathname) in
  msg ← blit 0 fixed msg;
  put_path server (length fixed) pathname msg.

Definition afp_delete (junk : list Z) (server : afp_server) (volid dirid : Z)
    (pathname : list Z) : option request :=
  body ← path_request junk server
           (st8 afpDelete ++ st8 0 ++ st16 (htons volid) ++ st32 (htonl dirid)) pathname;
  Some (afp_call body afpDelete).

Definition afp_read (forkid offset count : Z) : request :=
  afp_call (st8 afpRead ++ st8 0 ++ st16 (htons forkid) ++ st32 (htonl offset)
            ++ st32 (htonl count) ++ st8 0 ++ st8 0) afpRead.

(** [buf] is the receive buffer, [size] the number of bytes in it. *)
Definition afp_read_reply (server : afp_server) (buf : list Z) (size : Z)
    (rx : afp_rx_buffer) : option (Z * afp_rx_buffer) :=
  let size := u32 (size - 16) in
  let size := if sv_rx_quantum server <? size then sv_rx_quantum server else size in
  bytes ← slice 16 (Z.to_nat size) buf;
  data ← blit 0 bytes (rx_data rx);
  errorcode ← ntohl <$> ld32 4 buf;
  Some (0, mk_rx size (rx_maxsize rx) data (i32 errorcode)).

Definition afp_readext (forkid offset count : Z) : request :=
  afp_call (st8 afpReadExt ++ st8 0 ++ st16 (htons forkid) ++ st64 (hton64 offset)
            ++ st64 (hton64 count)) afpReadExt.

Definition afp_readext_reply := afp_read_reply.

(** The return value is the error code as it lies in the packet, not swapped. *)
Definition raw_error (buf : list Z) : option Z := i32 <$> ld32 4 buf.

Definition afp_getfiledirparms_reply (buf : list Z) (size : Z) (filecur : afp_file_info)
    : option (Z * afp_file_info) :=
  err ← raw_error buf;
  if negb (err =? 0) then Some (err, filecur)
  else if size <? 22 then Some (-1, filecur)
  else
    filebitmap ← ntohs <$> ld16 16 buf;
    dirbitmap ← ntohs <$> ld16 18 buf;
    isdir ← ld8 20 buf;
    fp ← parse_reply_block (drop 22 buf) isdir filebitmap dirbitmap;
    Some (0, set_fi_isdir isdir fp).

Definition afp_getfiledirparms (junk : list Z) (server : afp_server)
    (volid did filebitmap dirbitmap : Z) (pathname : option (list Z))
    : option (option request) :=
  match pathname with
  | None => Some None
  | Some pathname =>
    body ← path_request junk server
             (st8 afpGetFileDirParms ++ st8 0 ++ st16 (htons volid) ++ st32 (htonl did)
              ++ st16 (htons filebitmap) ++ st16 (htons dirbitmap)) pathname;
    Some (Some (afp_call body afpGetFileDirParms))
  end.

Definition afp_createfile (junk : list Z) (server : afp_server) (volid flag did : Z)
    (pathname : list Z) : option request :=
  body ← path_request junk server
           (st8 afpCreateFile ++ st8 flag ++ st16 (htons volid) ++ st32 (htonl did)) pathname;
  Some (afp_call body afpCreateFile).

(** [len] is an [unsigned int]: the message is allocated with the wrapped size. *)
Definition write_request (junk fixed : list Z) (reqcount : Z) (data : list Z) (command : Z)
    : option request :=
  let len := u32 (16 + Z.of_nat (length fixed) + reqcount) in
  let msg := malloc junk (len - 16) in
  bytes ← slice 0 (Z.to_nat reqcount) data;
  msg ← blit (length fixed) bytes msg;
  msg ← blit 0 fixed msg;
  Some (mk_req DSI_DSIWrite (Z.of_nat (length fixed)) msg DSI_DEFAULT_TIMEOUT command).

Definition afp_write (junk : list Z) (forkid offset reqcount : Z) (data : list Z)
    : option request :=
  write_request junk (st8 afpWrite ++ st8 0 ++ st16 (htons forkid) ++ st32 (htonl offset)
                      ++ st32 (htonl reqcount)) reqcount data afpWrite.

(** The reply is taken for one with a 64-bit count, of which the first half is
    read. *)
Definition afp_write_reply (buf : list Z) (size : Z) : option (Z * Z) :=
  if size <? 24 then Some (0, 0)
  else written ← ld64 16 buf; Some (0, ntohl (u32 written)).

Definition afp_writeext (junk : list Z) (forkid offset reqcount : Z) (data : list Z)
    : option request :=
  write_request junk (st8 afpWriteExt ++ st8 0 ++ st16 (htons forkid)
                      ++ st64 (hton64 offset) ++ st64 (hton64 reqcount))
    reqcount data afpWriteExt.

Definition afp_writeext_reply (buf : list Z) (size : Z) : option (Z * Z) :=
  if size <? 24 then Some (0, 0)
  else written ← ntoh64 <$> ld64 16 buf; Some (0, written).

(** ** Forks *)

(** The 64-bit length is made with [htonl]. *)
Definition afp_setforkparms (forkid bitmap len : Z) : request :=
  let fixed := st8 afpSetForkParms ++ st8 0 ++ st16 (htons forkid) ++ st16 (htons bitmap) in
  afp_call (if has bitmap (Z.lor kFPExtDataForkLenBit kFPExtRsrcForkLenBit)
            then fixed ++ st64 (htonl len) else fixed ++ st32 (htonl len)) afpSetForkParms.

(** The queued request says FPFlushFork. *)
Definition afp_closefork (forkid : Z) : request :=
  afp_call (st8 afpCloseFork ++ st8 0 ++ st16 (htons forkid)) afpFlushFork.

Definition afp_flushfork (forkid : Z) : request :=
  afp_call (st8 afpFlushFork ++ st8 0 ++ st16 (htons forkid)) afpFlushFork.

(** The error code is compared without being swapped. *)
Definition afp_openfork_reply (buf : list Z) (size : Z) (fp : afp_file_info)
    : option (Z * afp_file_info) :=
  err ← raw_error buf;
  if (err =? kFPNoErr) || (err =? kFPDenyConflict) then
    if size <? 20 then Some (-1, fp)
    else forkid ← ntohs <$> ld16 18 buf; Some (0, set_fi_forkid forkid fp)
  else Some (0, fp).

Definition AFP_FORKTYPE_DATA : Z := 0.
Definition AFP_FORKTYPE_RESOURCE : Z := 128.

Definition afp_openfork (junk : list Z) (server : afp_server)
    (volid forktype dirid accessmode : Z) (filename : list Z) : option request :=
  body ← path_request junk server
           (st8 afpOpenFork
            ++ st8 (if forktype =? 0 then AFP_FORKTYPE_DATA else AFP_FORKTYPE_RESOURCE)
            ++ st16 (htons volid) ++ st32 (htonl dirid) ++ st16 0
            ++ st16 (htons accessmode)) filename;
  Some (afp_call body afpOpenFork).

Definition afp_byterangelock (flag forkid offset len : Z) : request :=
  afp_call (st8 afpByteRangeLock ++ st8 flag ++ st16 (htons forkid) ++ st32 (htonl offset)
            ++ st32 (htonl len)) afpByteRangeLock.

Definition afp_byterangelock_reply (buf : list Z) (size : Z) : option (Z * Z) :=
  err ← raw_error buf;
  if size <? 24 then Some (err, 0)
  else offset ← ld64 16 buf; Some (err, ntohl (u32 offset)).

Definition afp_byterangelockext (flag forkid offset len : Z) : request :=
  afp_call (st8 afpByteRangeLockExt ++ st8 flag ++ st16 (htons forkid)
            ++ st64 (hton64 offset) ++ st64 (hton64 len)) afpByteRangeLockExt.

Definition afp_byterangelockext_reply (buf : list Z) (size : Z) : option (Z * Z) :=
  err ← raw_error buf;
  if size <? 24 then Some (err, 0)
  else offset ← ntoh64 <$> ld64 16 buf; Some (err, offset).

(** ** Directories *)

(** As in the only call, [src_path] and [new_name] are not NULL. *)
Definition afp_moveandrename (junk : list Z) (server : afp_server)
    (volid src_did dst_did : Z) (src_path : list Z) (dst_path : option (list Z))
    (new_name : list Z) : option request :=
  let dst_path := default [] dst_path in
  let fixed := st8 afpMoveAndRename ++ st8 0 ++ st16 (htons volid) ++ st32 (htonl src_did)
               ++ st32 (htonl dst_did) in
  let msg := malloc junk (12 + path_len server src_path + path_len server dst_path
                          + path_len server new_name) in
  msg ← blit 0 fixed msg;
  let p := 12 in
  msg ← put_path server (Z.to_nat p) src_path msg;
  let p := p + path_len server src_path in
  msg ← put_path server (Z.to_nat p) dst_path msg;
  let p := p + path_len server dst_path in
  msg ← put_path server (Z.to_nat p) new_name msg;
  Some (afp_call msg afpMoveAndRename).

Definition afp_rename (junk : list Z) (server : afp_server) (volid dirid : Z)
    (path_from path_to : list Z) : option request :=
  let fixed := st8 afpRename ++ st8 0 ++ st16 (htons volid) ++ st32 (htonl dirid) in
  let msg := malloc junk (8 + path_len server path_from + path_len server path_to) in
  msg ← blit 0 fixed msg;
  msg ← put_path server 8 path_from msg;
  msg ← put_path server (Z.to_nat (8 + path_len server path_from)) path_to msg;
  Some (afp_call msg afpRename).

Definition afp_createdir (junk : list Z) (server : afp_server) (volid dirid : Z)
    (pathname : list Z) : option request :=
  body ← path_request junk server
           (st8 afpCreateDir ++ st8 0 ++ st16 (htons volid) ++ st32 (htonl dirid)) pathname;
  Some (afp_call body afpCreateDir).

(** The new directory id is always stored as 0. *)
Definition afp_createdir_reply (buf : list Z) (size : Z) : option (Z * Z) :=
  err ← raw_error buf;
  if negb (err =? 0) then Some (err, 0)
  else if size <? 20 then Some (-1, 0)
  else Some (0, 0).

(** The loop of [afp_enumerate_reply] from the offset [p] on, for [n] more
    entries; [None] inside is the return with an error. *)
Fixpoint enumerate_loop (n : nat) (buf : list Z) (size filebitmap dirbitmap : Z) (p : nat)
    : option (option (list afp_file_info)) :=
  match n with
  | O => Some (Some [])
  | S n =>
    if size <? Z.of_nat p then Some None
    else
      entry_size ← ld8 p buf;
      isdir ← ld8 (p + 1) buf;
      fp ← parse_reply_block (drop (p + 2) buf) isdir filebitmap dirbitmap;
      r ← enumerate_loop n buf size filebitmap dirbitmap (p + Z.to_nat entry_size);
      Some (match r with Some l => Some (fp :: l) | None => None end)
  end.

(** The result, and the list stored through [other]. *)
Definition afp_enumerate_reply (buf : list Z) (size : Z)
    : option (Z * option (list afp_file_info)) :=
  err ← raw_error buf;
  if negb (err =? 0) then Some (err, None)
  else if size <? 22 then Some (-1, None)
  else
    filebitmap ← ntohs <$> ld16 16 buf;
    dirbitmap ← ntohs <$> ld16 18 buf;
    reqcount ← ntohs <$> ld16 20 buf;
    r ← enumerate_loop (Z.to_nat reqcount) buf size filebitmap dirbitmap 22;
    Some (match r with Some l => (0, Some l) | None => (-1, None) end).

Fixpoint enumerateext2_loop (n : nat) (buf : list Z) (filebitmap dirbitmap : Z) (p : nat)
    : option (list afp_file_info) :=
  match n with
  | O => Some []
  | S n =>
    entry_size ← ntohs <$> ld16 p buf;
    isdir ← ld8 (p + 2) buf;
    fp ← parse_reply_block (drop (p + 4) buf) isdir filebitmap dirbitmap;
    l ← enumerateext2_loop n buf filebitmap dirbitmap (p + Z.to_nat entry_size);
    Some (fp :: l)
  end.

Definition afp_enumerateext2_reply (buf : list Z) (size : Z)
    : option (Z * option (list afp_file_info)) :=
  err ← raw_error buf;
  if negb (err =? 0) then Some (err, None)
  else if size <? 22 then Some (-1, None)
  else
    filebitmap ← ntohs <$> ld16 16 buf;
    dirbitmap ← ntohs <$> ld16 18 buf;
    reqcount ← ntohs <$> ld16 20 buf;
    l ← enumerateext2_loop (Z.to_nat reqcount) buf filebitmap dirbitmap 22;
    Some (0, Some l).

(** [len] is an [unsigned short]. *)
Definition enumerate_request (junk : list Z) (server : afp_server) (fixed pathname : list Z)
    (command : Z) : option request :=
  let len := u16 (path_len server pathname + 16 + Z.of_nat (length fixed)) in
  msg ← blit 0 fixed (malloc junk (len - 16));
  msg ← put_path server (length fixed) pathname msg;
  Some (afp_call msg command).

Definition afp_enumerate (junk : list Z) (server : afp_server)
    (volid dirid filebitmap dirbitmap reqcount startindex : Z) (pathname : list Z)
    : option request :=
  enumerate_request junk server
    (st8 afpEnumerate ++ st8 0 ++ st16 (htons volid) ++ st32 (htonl dirid)
     ++ st16 (htons filebitmap) ++ st16 (htons dirbitmap) ++ st16 (htons reqcount)
     ++ st16 (htons startindex) ++ st16 (htons 5280)) pathname afpEnumerate.

Definition afp_enumerateext2 (junk : list Z) (server : afp_server)
    (volid dirid filebitmap dirbitmap reqcount startindex : Z) (pathname : list Z)
    : option request :=
  enumerate_request junk server
    (st8 afpEnumerateExt2 ++ st8 0 ++ st16 (htons volid) ++ st32 (htonl dirid)
     ++ st16 (htons filebitmap) ++ st16 (htons dirbitmap) ++ st16 (htons reqcount)
     ++ st32 (htonl startindex) ++ st32 (htonl 5280)) pathname afpEnumerateExt2.

(** ** What goes on the wire *)

Lemma length_malloc junk n : 0 <= n -> length (malloc junk n) = Z.to_nat n.
Proof. intros. unfold malloc. apply length_resize. Qed.

Lemma path_len_nat server name :
  Z.to_nat (path_len server name) =
    (Z.to_nat (sizeof_path_header server) + length name)%nat /\ 0 <= path_len server name.
Proof.
  unfold path_len, sizeof_path_header. repeat case_match; lia.
Qed.

(** A path that fits is put where it belongs and nothing else changes. *)
Lemma put_path_spec server pre mid post name :
  known_encoding server -> (length name <= path_limit server)%nat ->
  length mid = Z.to_nat (path_len server name) ->
  put_path server (length pre) name (pre ++ mid ++ post) =
    Some (pre ++ path_field server name ++ post).
Proof.
  intros Hk Hn Hm. destruct (path_len_nat server name) as [Hp _]. rewrite Hp in Hm.
  unfold put_path. rewrite drop_app_length, take_app_length.
  pose proof (afp_path_spec server (mid ++ post) name Hk Hn) as Hs.
  assert (Z.to_nat (sizeof_path_header server) + length name <= length (mid ++ post))%nat
    as Hle by solve_len.
  specialize (Hs Hle). destruct (copy_path server (mid ++ post) name) as [d|];
    cbn [mbind option_bind] in Hs |- *; [|discriminate]. rewrite Hs.
  cbn [mbind option_bind]. do 3 f_equal. rewrite <- Hm. apply drop_app_length.
Qed.

Lemma path_request_spec junk server fixed name :
  known_encoding server -> (length name <= path_limit server)%nat ->
  path_request junk server fixed name = Some (fixed ++ path_field server name).
Proof.
  intros Hk Hn. destruct (path_len_nat server name) as [Hp Hp0]. unfold path_request.
  assert (length (malloc junk (Z.of_nat (length fixed) + path_len server name)) =
          length fixed + Z.to_nat (path_len server name))%nat as Hl
    by (rewrite length_malloc; lia).
  rewrite blit_0 by lia. cbn [mbind option_bind].
  rewrite <- (app_nil_r (drop _ _)), put_path_spec; [by rewrite app_nil_r|done|done|].
  rewrite length_drop, Hl. lia.
Qed.

(** The fixed part of a request on a volume, as the protocol lays it out. *)
Definition wire_fixed (command flag volid dirid : Z) : list Z :=
  [command; flag] ++ be_bytes 2 volid ++ be_bytes 4 dirid.

Lemma st8_byte c : 0 <= c < 256 -> st8 c = [c].
Proof. intros H. unfold st8. cbn. by rewrite Z.mod_small. Qed.

Lemma length_path_field server name :
  known_encoding server -> length (path_field server name) = Z.to_nat (path_len server name).
Proof.
  intros Hk. destruct (path_len_nat server name) as [-> _].
  unfold path_field, sizeof_path_header.
  destruct Hk as [-> | ->]; cbn; rewrite ?length_fmap; lia.
Qed.

(** The next path behind what is already written. *)
Lemma put_path_next server pre rest name off :
  known_encoding server -> (length name <= path_limit server)%nat ->
  off = length pre -> (Z.to_nat (path_len server name) <= length rest)%nat ->
  put_path server off name (pre ++ rest) =
    Some ((pre ++ path_field server name) ++ drop (Z.to_nat (path_len server name)) rest).
Proof.
  intros Hk Hn -> Hr. rewrite <- (take_drop (Z.to_nat (path_len server name)) rest) at 1.
  rewrite put_path_spec by (try done; solve_len). by rewrite <- app_assoc.
Qed.

Lemma blit_malloc junk n fixed :
  (length fixed <= Z.to_nat n)%nat -> 0 <= n ->
  exists rest, blit 0 fixed (malloc junk n) = Some (fixed ++ rest) /\
    length rest = (Z.to_nat n - length fixed)%nat.
Proof.
  intros Hf Hn. rewrite blit_0 by (rewrite length_malloc; lia). eexists.
  split; [done|]. rewrite length_drop, length_malloc; lia.
Qed.

(** The messages of the calls that name one object: for every path of at
    most 253 bytes (254 with long names), the body is the fixed part, in network
    byte order, followed by the path field, whatever [malloc] left in the buffer. *)
Theorem path_requests_wire junk server volid did flag filebitmap dirbitmap mode name :
  known_encoding server -> (length name <= path_limit server)%nat ->
  afp_delete junk server volid did name =
    Some (afp_call (wire_fixed afpDelete 0 volid did ++ path_field server name)
            afpDelete) /\
  afp_createfile junk server volid flag did name =
    Some (afp_call (wire_fixed afpCreateFile (u8 flag) volid did ++ path_field server name)
            afpCreateFile) /\
  afp_createdir junk server volid did name =
    Some (afp_call (wire_fixed afpCreateDir 0 volid did ++ path_field server name)
            afpCreateDir) /\
  afp_getfiledirparms junk server volid did filebitmap dirbitmap (Some name) =
    Some (Some (afp_call (wire_fixed afpGetFileDirParms 0 volid did
            ++ be_bytes 2 filebitmap ++ be_bytes 2 dirbitmap ++ path_field server name)
            afpGetFileDirParms)) /\
  afp_openfork junk server volid flag did mode name =
    Some (afp_call (wire_fixed afpOpenFork (if flag =? 0 then 0 else 128) volid did
            ++ be_bytes 2 0 ++ be_bytes 2 mode ++ path_field server name) afpOpenFork).
Proof.
  intros Hk Hn. unfold afp_delete, afp_createfile, afp_createdir, afp_getfiledirparms,
    afp_openfork. rewrite !path_request_spec by done. cbn [mbind option_bind].
  rewrite !st16_htons, !st32_htonl. change (st16 0) with (be_bytes 2 0).
  split_and!; try done. by destruct (flag =? 0).
Qed.

Lemma path_requests_wire_witness :
  afp_delete [1; 2; 3] utf8_server 7 2 [97; 47; 98] =
    Some (afp_call ([8; 0; 0; 7; 0; 0; 0; 2] ++ [3; 8; 0; 1; 3; 0; 3; 97; 0; 98]) afpDelete).
Proof.
  refine (proj1 (path_requests_wire [1; 2; 3] utf8_server 7 2 0 0 0 0 [97; 47; 98] _ _)).
  - by left.
  - vm_compute; lia.
Defined.

Lemma moveandrename_spec junk server volid src dst from to name :
  known_encoding server -> (length from <= path_limit server)%nat ->
  (length (default [] to) <= path_limit server)%nat -> (length name <= path_limit server)%nat ->
  afp_moveandrename junk server volid src dst from to name =
    Some (afp_call (wire_fixed afpMoveAndRename 0 volid src ++ be_bytes 4 dst
                    ++ path_field server from ++ path_field server (default [] to)
                    ++ path_field server name) afpMoveAndRename).
Proof.
  intros Hk Hf Ht Hn. unfold afp_moveandrename. revert Ht. generalize (default [] to) as dest.
  intros dest Ht. pose proof (length_path_field server from Hk) as Lf.
  pose proof (length_path_field server dest Hk) as Lt.
  destruct (path_len_nat server from) as [_ Pf], (path_len_nat server dest) as [_ Pt],
    (path_len_nat server name) as [_ Pn].
  rewrite !st8_byte, st16_htons, !st32_htonl by done.
  set (fixed := [afpMoveAndRename] ++ _).
  assert (length fixed = 12%nat) as Hfx by (unfold fixed; solve_len).
  destruct (blit_malloc junk (12 + path_len server from + path_len server dest
    + path_len server name) fixed) as (rest & -> & Hr); [lia..|].
  cbn [mbind option_bind].
  rewrite put_path_next by (done || lia). cbn [mbind option_bind].
  rewrite put_path_next by (done || solve_len). cbn [mbind option_bind].
  rewrite put_path_next by (done || solve_len). cbn [mbind option_bind].
  rewrite drop_ge, app_nil_r, <- !app_assoc by solve_len. done.
Qed.

(** A rename names the old and the new path, one behind the other; a move
    names the source, the destination directory and the new name. *)
Theorem rename_requests_wire junk server volid src dst from to name :
  known_encoding server -> (length from <= path_limit server)%nat ->
  (length to <= path_limit server)%nat -> (length name <= path_limit server)%nat ->
  afp_rename junk server volid src from to =
    Some (afp_call (wire_fixed afpRename 0 volid src ++ path_field server from
                    ++ path_field server to) afpRename) /\
  afp_moveandrename junk server volid src dst from (Some to) name =
    Some (afp_call (wire_fixed afpMoveAndRename 0 volid src ++ be_bytes 4 dst
                    ++ path_field server from ++ path_field server to
                    ++ path_field server name) afpMoveAndRename).
Proof.
  intros Hk Hf Ht Hn. pose proof (length_path_field server from Hk) as Lf.
  pose proof (length_path_field server to Hk) as Lt.
  destruct (path_len_nat server from) as [_ Pf], (path_len_nat server to) as [_ Pt].
  split.
  - unfold afp_rename. rewrite !st8_byte, st16_htons, st32_htonl by done. set (fixed := [afpRename] ++ _).
    assert (length fixed = 8%nat) as Hfx by (unfold fixed; solve_len).
    destruct (blit_malloc junk (8 + path_len server from + path_len server to) fixed)
      as (rest & -> & Hr); [lia..|]. cbn [mbind option_bind].
    rewrite put_path_next by (done || lia). cbn [mbind option_bind].
    rewrite put_path_next by (done || solve_len). cbn [mbind option_bind].
    rewrite drop_ge, app_nil_r, <- !app_assoc by solve_len. done.
  - by apply moveandrename_spec.
Qed.

Lemma rename_requests_wire_witness :
  afp_rename [] utf8_server 7 2 [97] [98] =
    Some (afp_call ([28; 0; 0; 7; 0; 0; 0; 2] ++ [3; 8; 0; 1; 3; 0; 1; 97]
                    ++ [3; 8; 0; 1; 3; 0; 1; 98]) afpRename).
Proof.
  refine (proj1 (rename_requests_wire [] utf8_server 7 2 0 [97] [98] [] _ _ _ _)).
  - by left.
  - vm_compute; lia.
  - vm_compute; lia.
  - vm_compute; lia.
Defined.

(** ** Setting parameters *)

(** The parameters that are sent as they should be. *)
Definition settable : Z := 0x803c.

Definition block_bytes (bitmap : Z) (fp : afp_file_info) : list Z :=
  put_if bitmap kFPCreateDateBit (be_bytes 4 (fi_creation_date fp - AD_DATE_DELTA)) ++
  put_if bitmap kFPModDateBit (be_bytes 4 (fi_modification_date fp - AD_DATE_DELTA)) ++
  put_if bitmap kFPBackupDateBit (be_bytes 4 (fi_backup_date fp - AD_DATE_DELTA)) ++
  put_if bitmap kFPFinderInfoBit (fi_finderinfo fp) ++
  put_if bitmap kFPUnixPrivsBit (put_unixprivs (fi_unixprivs fp)).

Lemma blit_field bitmap bit bytes pre rest :
  (length bytes <= length rest)%nat ->
  exists rest',
    (if has bitmap bit
     then msg ← blit (length pre) bytes (pre ++ rest); Some (msg, length pre + length bytes)%nat
     else Some (pre ++ rest, length pre)) =
      Some ((pre ++ put_if bitmap bit bytes) ++ rest',
            length (pre ++ put_if bitmap bit bytes)) /\
    (length rest - length bytes <= length rest')%nat.
Proof.
  intros Hl. unfold put_if. destruct (has bitmap bit).
  - rewrite blit_app by done. cbn [mbind option_bind]. exists (drop (length bytes) rest).
    rewrite <- app_assoc, length_app, length_drop. split; [done|lia].
  - exists rest. rewrite app_nil_r. split; [done|lia].
Qed.

Lemma put_block_spec bitmap fp pre rest :
  has bitmap kFPAttributeBit = false -> length (fi_finderinfo fp) = 32%nat ->
  (60 <= length rest)%nat ->
  exists rest', put_block bitmap fp (length pre) (pre ++ rest) =
    Some ((pre ++ block_bytes bitmap fp) ++ rest',
          length (pre ++ block_bytes bitmap fp)).
Proof.
  intros Ha Hf Hr. unfold put_block, block_bytes. rewrite Ha. cbn [mbind option_bind fst snd].
  unfold AD_DATE_FROM_UNIX. rewrite !st32_htonl.
  change (be_bytes 4 (up_uid _) ++ _) with (put_unixprivs (fi_unixprivs fp)).
  rewrite !app_assoc.
  destruct (blit_field bitmap kFPCreateDateBit
    (be_bytes 4 (fi_creation_date fp - AD_DATE_DELTA)) pre rest) as (r1 & -> & H1); [solve_len|].
  cbn [mbind option_bind fst snd].
  destruct (blit_field bitmap kFPModDateBit
    (be_bytes 4 (fi_modification_date fp - AD_DATE_DELTA))
    (pre ++ put_if bitmap kFPCreateDateBit
       (be_bytes 4 (fi_creation_date fp - AD_DATE_DELTA))) r1) as (r2 & -> & H2); [solve_len|].
  cbn [mbind option_bind fst snd].
  match goal with |- context [(?x ++ r2, length ?x)] =>
    destruct (blit_field bitmap kFPBackupDateBit
      (be_bytes 4 (fi_backup_date fp - AD_DATE_DELTA)) x r2) as (r3 & -> & H3) end; [solve_len|].
  cbn [mbind option_bind fst snd].
  match goal with |- context [blit (length ?x) (fi_finderinfo fp) (?x ++ r3)] =>
    destruct (blit_field bitmap kFPFinderInfoBit (fi_finderinfo fp) x r3) as (r4 & -> & H4) end;
    [solve_len|].
  cbn [mbind option_bind fst snd].
  match goal with |- context [blit (length ?x) (put_unixprivs (fi_unixprivs fp)) (?x ++ r4)] =>
    destruct (blit_field bitmap kFPUnixPrivsBit (put_unixprivs (fi_unixprivs fp)) x r4)
      as (r5 & -> & _) end;
    [rewrite length_put_unixprivs; solve_len|].
  by exists r5.
Qed.

Lemma setparms_body server volid dirid name bitmap fp command :
  known_encoding server -> (length name <= path_limit server)%nat ->
  0 <= command < 256 -> has bitmap kFPAttributeBit = false ->
  length (fi_finderinfo fp) = 32%nat ->
  exists pad, (pad = [] \/ pad = [0]) /\
    Z.even (10 + path_len server name + Z.of_nat (length pad)) = true /\
    afp_setparms_lowlevel server volid dirid name bitmap fp command =
      Some (afp_call (wire_fixed command 0 volid dirid ++ be_bytes 2 bitmap
                      ++ path_field server name ++ pad ++ block_bytes bitmap fp) command).
Proof.
  intros Hk Hn Hc Ha Hf. unfold afp_setparms_lowlevel.
  rewrite !st8_byte, !st16_htons, st32_htonl by done.
  pose proof (length_path_field server name Hk) as Lp.
  destruct (path_len_nat server name) as [_ Pn].
  set (fixed := [command] ++ _).
  assert (length fixed = 10%nat) as Hfx by (unfold fixed; solve_len).
  set (P := path_len server name) in *. rewrite blit_0 by solve_len. cbn [mbind option_bind].
  rewrite put_path_next by (done || solve_len). cbn [mbind option_bind].
  rewrite drop_drop, drop_replicate. fold P.
  set (n := (_ - _)%nat). assert (n = 201)%nat as -> by (unfold n; lia).
  set (pad := if Z.odd (10 + P) then [0] else []).
  exists pad. split; [unfold pad; case_match; auto|].
  assert (Z.to_nat (even_up (10 + P)) = length ((fixed ++ path_field server name) ++ pad)) as Hp.
  { unfold even_up, pad. destruct (Z.odd (10 + P)); solve_len. }
  split.
  { unfold pad. rewrite <- Z.negb_odd. destruct (Z.odd (10 + P)) eqn:E; cbn [length].
    - change (Z.of_nat 1) with 1. by rewrite Z.odd_add, E.
    - change (Z.of_nat 0) with 0. by rewrite Z.add_0_r, E. }
  assert (exists rest, replicate 201 0 = pad ++ rest /\ (60 <= length rest)%nat)
    as (rest & -> & Hr).
  { unfold pad. case_match; [exists (replicate 200 0)|exists (replicate 201 0)];
      (split; [done|rewrite length_replicate; lia]). }
  rewrite app_assoc, Hp.
  destruct (put_block_spec bitmap fp ((fixed ++ path_field server name) ++ pad) rest Ha Hf Hr)
    as (rest' & ->). cbn [mbind option_bind].
  rewrite take_app_length, <- !app_assoc. done.
Qed.

Lemma has_settable bitmap bit :
  Z.land bitmap settable = bitmap -> Z.land settable bit = 0 -> has bitmap bit = false.
Proof.
  intros Hb Hs. unfold has. by rewrite <- Hb, <- Z.land_assoc, Hs, Z.land_0_r.
Qed.

Lemma block_bytes_encode isdir bitmap fp name :
  Z.land bitmap settable = bitmap ->
  block_bytes bitmap fp = encode_block isdir bitmap fp name.
Proof.
  intros Hb. pose proof (has_settable bitmap) as H.
  unfold encode_block, encode_names, encode_fields, block_bytes.
  set (n := Z.of_nat _). set (m := Z.of_nat (_ + _)).
  destruct (isdir =? 0); cbn [app concat]; unfold put_if;
    repeat match goal with |- context [has bitmap ?b] =>
      lazymatch b with
      | kFPCreateDateBit => fail | kFPModDateBit => fail | kFPBackupDateBit => fail
      | kFPFinderInfoBit => fail | kFPUnixPrivsBit => fail
      | _ => rewrite (H b Hb eq_refl) end end;
    cbn [app]; by rewrite !app_nil_r.
Qed.

(** Setting the dates, the Finder information and the Unix privileges: the
    message carries the path, padded to an even offset, and a parameter block
    that [parse_reply_block] reads back as exactly those parameters. *)
Theorem setparms_roundtrip server volid dirid path bitmap fp command isdir name rest :
  known_encoding server -> (length path <= path_limit server)%nat ->
  0 <= command < 256 -> Z.land bitmap settable = bitmap ->
  encodable isdir bitmap fp name ->
  exists pad block, (pad = [] \/ pad = [0]) /\
    Z.even (10 + path_len server path + Z.of_nat (length pad)) = true /\
    afp_setparms_lowlevel server volid dirid path bitmap fp command =
      Some (afp_call (wire_fixed command 0 volid dirid ++ be_bytes 2 bitmap
                      ++ path_field server path ++ pad ++ block) command) /\
    parse_reply_block (block ++ rest) isdir bitmap bitmap =
      Some (selected isdir bitmap fp name).
Proof.
  intros Hk Hp Hc Hb He.
  destruct (setparms_body server volid dirid path bitmap fp command) as (pad & H1 & H2 & H3);
    [done..|by apply has_settable|apply He|].
  exists pad, (block_bytes bitmap fp). split_and!; [done..|].
  rewrite (block_bytes_encode isdir bitmap fp name Hb).
  apply parse_reply_block_encoded; [done|]. apply if_same.
Qed.

Lemma setparms_roundtrip_witness :
  exists pad block, (pad = [] \/ pad = [0]) /\
    Z.even (10 + path_len utf8_server [97; 98] + Z.of_nat (length pad)) = true /\
    afp_setparms_lowlevel utf8_server 7 2 [97; 98] 0x8008 sample_info afpSetFileDirParms =
      Some (afp_call (wire_fixed afpSetFileDirParms 0 7 2 ++ be_bytes 2 0x8008
              ++ path_field utf8_server [97; 98] ++ pad ++ block) afpSetFileDirParms) /\
    parse_reply_block (block ++ [9]) 0 0x8008 0x8008 =
      Some (selected 0 0x8008 sample_info [97]).
Proof.
  apply (setparms_roundtrip utf8_server 7 2 [97; 98] 0x8008 sample_info afpSetFileDirParms 0
           [97] [9]).
  - by left.
  - vm_compute; lia.
  - done.
  - done.
  - constructor; try (vm_compute; done). split; apply Nat.ltb_lt; done.
Defined.

(** Of the attributes only the high byte is sent, followed by a zero: the
    store goes through a pointer to a byte. *)
Theorem setparms_attributes server volid dirid path fp command :
  known_encoding server -> (length path <= path_limit server)%nat ->
  0 <= command < 256 -> 0 <= fi_attributes fp < 65536 ->
  exists pre, afp_setparms_lowlevel server volid dirid path kFPAttributeBit fp command =
    Some (afp_call (pre ++ [fi_attributes fp / 256; 0]) command).
Proof.
  intros Hk Hn Hc Ha. unfold afp_setparms_lowlevel.
  rewrite !st8_byte, !st16_htons, st32_htonl by done.
  pose proof (length_path_field server path Hk) as Lp.
  destruct (path_len_nat server path) as [_ Pn]. set (fixed := [command] ++ _).
  assert (length fixed = 10%nat) as Hfx by (unfold fixed; solve_len).
  set (P := path_len server path) in *. rewrite blit_0 by solve_len. cbn [mbind option_bind].
  rewrite put_path_next by (done || solve_len). cbn [mbind option_bind].
  rewrite drop_drop, drop_replicate. fold P.
  set (n := (_ - _)%nat). assert (n = 201)%nat as -> by (unfold n; lia).
  unfold put_block. change (has kFPAttributeBit kFPAttributeBit) with true. cbn match.
  assert (st8 (htons (fi_attributes fp)) = [fi_attributes fp / 256]) as ->.
  { unfold st8, htons, bswap. cbn -[Z.mul Z.add Z.modulo Z.div]. f_equal. dlia. }
  assert (exists pre z, (fixed ++ path_field server path) ++ replicate 201 0 = pre ++ 0 :: 0 :: z /\
    Z.to_nat (even_up (10 + P)) = length pre) as (pre & z & -> & ->).
  { unfold even_up. destruct (Z.odd (10 + P)).
    - exists ((fixed ++ path_field server path) ++ [0]), (replicate 198 0).
      rewrite <- (app_assoc _ [0]). split; [done|solve_len].
    - exists (fixed ++ path_field server path), (replicate 199 0). split; [done|solve_len]. }
  change (pre ++ 0 :: 0 :: z) with (pre ++ [0] ++ 0 :: z).
  rewrite (blit_at pre [0] (0 :: z)) by done.
  cbn [mbind option_bind fst snd].
  change (has kFPAttributeBit kFPCreateDateBit) with false.
  change (has kFPAttributeBit kFPModDateBit) with false.
  change (has kFPAttributeBit kFPBackupDateBit) with false.
  change (has kFPAttributeBit kFPFinderInfoBit) with false.
  change (has kFPAttributeBit kFPUnixPrivsBit) with false.
  cbn match. cbn [mbind option_bind]. exists pre. do 3 f_equal.
  rewrite take_app_ge by lia. f_equal.
  by replace (length pre + 2 - length pre)%nat with 2%nat by lia.
Qed.

Lemma setparms_attributes_witness :
  exists pre, afp_setparms_lowlevel utf8_server 7 2 [97; 98] kFPAttributeBit sample_info
      afpSetFileDirParms = Some (afp_call (pre ++ [0; 0]) afpSetFileDirParms).
Proof.
  apply (setparms_attributes utf8_server 7 2 [97; 98] sample_info afpSetFileDirParms).
  - by left.
  - vm_compute; lia.
  - done.
  - done.
Defined.

(** ** Listing a directory *)

(** An entry of a listing: directory flag, parameters, name and padding. *)
Record entry := mk_entry {
  e_isdir : Z; e_info : afp_file_info; e_name : list Z; e_pad : list Z }.

Definition e_bitmap (filebitmap dirbitmap : Z) (e : entry) : Z :=
  if e_isdir e =? 0 then filebitmap else dirbitmap.

(** An entry of the reply to FPEnumerateExt2: its size, all included, the
    directory flag, a pad byte and the parameter block. *)
Definition entry_block (filebitmap dirbitmap : Z) (e : entry) : list Z :=
  encode_block (e_isdir e) (e_bitmap filebitmap dirbitmap e) (e_info e) (e_name e) ++ e_pad e.

Definition encode_entry (filebitmap dirbitmap : Z) (e : entry) : list Z :=
  be_bytes 2 (4 + Z.of_nat (length (entry_block filebitmap dirbitmap e)))
  ++ [e_isdir e; 0] ++ entry_block filebitmap dirbitmap e.

Definition entry_ok (filebitmap dirbitmap : Z) (e : entry) : Prop :=
  encodable (e_isdir e) (e_bitmap filebitmap dirbitmap e) (e_info e) (e_name e) /\
  Z.of_nat (length (encode_entry filebitmap dirbitmap e)) < 65536.

Definition entry_result (filebitmap dirbitmap : Z) (e : entry) : afp_file_info :=
  selected (e_isdir e) (e_bitmap filebitmap dirbitmap e) (e_info e) (e_name e).

Definition encode_listing (id filebitmap dirbitmap : Z) (es : list entry) : list Z :=
  let body := be_bytes 2 filebitmap ++ be_bytes 2 dirbitmap
              ++ be_bytes 2 (Z.of_nat (length es))
              ++ concat (encode_entry filebitmap dirbitmap <$> es) in
  wire_header DSI_REPLY DSI_DSICommand id 0 (Z.of_nat (length body)) ++ body.

Lemma ld8_at pre (b : Z) rest off : off = length pre -> ld8 off (pre ++ b :: rest) = Some b.
Proof.
  intros ->. unfold ld8. rewrite (slice_at pre [b] rest _ 1 eq_refl eq_refl
    : slice (length pre) 1 (pre ++ b :: rest) = _).
  cbn [fmap option_fmap option_map le_val]. f_equal. lia.
Qed.

Lemma enumerateext2_loop_spec fb db es pre rest p :
  p = length pre -> Forall (entry_ok fb db) es ->
  enumerateext2_loop (length es) (pre ++ concat (encode_entry fb db <$> es) ++ rest) fb db p =
    Some (entry_result fb db <$> es).
Proof.
  intros -> He. revert pre. induction He as [|e es [He Hl] _ IH]; intros pre; [done|].
  cbn [length enumerateext2_loop fmap list_fmap concat].
  set (tail := concat _) in *. rewrite <- app_assoc.
  set (blk := entry_block fb db e). set (sz := be_bytes 2 (4 + Z.of_nat (length blk))).
  assert (encode_entry fb db e = sz ++ e_isdir e :: 0 :: blk) as Hen by done.
  assert (length (encode_entry fb db e) = 4 + length blk)%nat as Hle
    by (rewrite Hen; unfold sz; solve_len).
  pose proof (IH (pre ++ encode_entry fb db e)) as IHp. fold tail in IHp.
  rewrite <- app_assoc, length_app, Hle in IHp. rewrite Hen in IHp |- *. rewrite <- !app_assoc.
  assert (forall t, ntohs <$> ld16 (length pre) (pre ++ sz ++ t) =
    Some (4 + Z.of_nat (length blk))) as -> by (intros t; apply ntohs_ld16; [done|lia]).
  cbn [mbind option_bind].
  rewrite (app_assoc pre). cbn [app]. rewrite ld8_at by (unfold sz; solve_len).
  cbn [mbind option_bind]. rewrite drop_app_ge by (unfold sz; solve_len).
  replace (length pre + 4 - length (pre ++ sz))%nat with 2%nat by (unfold sz; solve_len).
  assert (forall t, parse_reply_block (blk ++ t) (e_isdir e) fb db =
    Some (entry_result fb db e)) as Hparse.
  { intros t. unfold blk, entry_block. rewrite <- app_assoc.
    by apply parse_reply_block_encoded. }
  cbn [drop]. rewrite drop_0, Hparse. cbn [mbind option_bind].
  replace (length pre + Z.to_nat (4 + Z.of_nat (length blk)))%nat
    with (length pre + (4 + length blk))%nat by lia.
  rewrite <- app_assoc. rewrite <- app_assoc in IHp. cbn [app] in IHp. rewrite IHp. done.
Qed.

Lemma raw_error_wire f c id len t : raw_error (wire_header f c id 0 len ++ t) = Some 0.
Proof.
  unfold raw_error, wire_header, ld32. rewrite <- !app_assoc.
  rewrite (app_assoc [f; c]), (slice_at _ (be_bytes 4 0)) by solve_len. done.
Qed.

Lemma raw_error_refused f c id rc len t :
  -2147483648 <= rc < 0 ->
  exists e, e <> 0 /\ raw_error (wire_header f c id rc len ++ t) = Some e.
Proof.
  intros Hrc. unfold raw_error, wire_header, ld32. rewrite <- !app_assoc.
  rewrite (app_assoc [_; _]), (slice_at _ (be_bytes 4 rc)) by solve_len.
  cbn [fmap option_fmap option_map]. eexists. split; [|done]. intros H0.
  assert (le_val (be_bytes 4 rc) = 0) as Hz.
  { pose proof (le_val_range (be_bytes 4 rc) (be_bytes_ok 4 rc)) as Hr.
    rewrite length_be_bytes in Hr. change (256 ^ Z.of_nat 4) with 4294967296 in Hr.
    revert H0. unfold i32, u32. rewrite Z.mod_small by done.
    destruct (Z.ltb_spec (le_val (be_bytes 4 rc)) 2147483648); lia. }
  pose proof (bswap_be_bytes 4 rc) as Hb. rewrite Hz in Hb.
  change (bswap 4 0) with 0 in Hb. change (256 ^ Z.of_nat 4) with 4294967296 in Hb. dlia.
Qed.

Lemma listing_parsed id fb db es rest size :
  0 <= fb < 65536 -> 0 <= db < 65536 -> Z.of_nat (length es) < 65536 -> 22 <= size ->
  Forall (entry_ok fb db) es ->
  afp_enumerateext2_reply (encode_listing id fb db es ++ rest) size =
    Some (0, Some (entry_result fb db <$> es)).
Proof.
  intros Hf Hd Hn Hs He. unfold afp_enumerateext2_reply, encode_listing.
  cbv zeta. match goal with |- context [wire_header _ _ _ _ ?l] => set (len := l) end.
  rewrite <- !app_assoc, raw_error_wire. cbn [mbind option_bind].
  change (negb (0 =? 0)) with false. cbn match. rewrite (proj2 (Z.ltb_ge size 22)) by lia.
  pose proof (length_wire_header DSI_REPLY DSI_DSICommand id 0 len) as Hw.
  rewrite (ntohs_ld16 _ fb _ 16) by (congruence || lia). cbn [mbind option_bind].
  rewrite (app_assoc (wire_header _ _ _ _ _)), (ntohs_ld16 _ db _ 18) by (lia || solve_len).
  cbn [mbind option_bind].
  rewrite (app_assoc (_ ++ be_bytes 2 fb)), (ntohs_ld16 _ (Z.of_nat (length es)) _ 20)
    by (lia || solve_len).
  cbn [mbind option_bind]. rewrite Nat2Z.id.
  rewrite (app_assoc ((_ ++ be_bytes 2 fb) ++ _)), enumerateext2_loop_spec by (done || solve_len).
  done.
Qed.

(** A directory listing, as the protocol lays out the reply to
    FPEnumerateExt2, is read back as the list of its entries, in order, each with
    exactly the parameters of its bitmap. *)
Theorem enumerateext2_roundtrip id filebitmap dirbitmap es rest size :
  0 <= filebitmap < 65536 -> 0 <= dirbitmap < 65536 ->
  Z.of_nat (length es) < 65536 -> 22 <= size ->
  Forall (entry_ok filebitmap dirbitmap) es ->
  afp_enumerateext2_reply (encode_listing id filebitmap dirbitmap es ++ rest) size =
    Some (0, Some (entry_result filebitmap dirbitmap <$> es)).
Proof. apply listing_parsed. Qed.

Definition sample_listing : list entry :=
  [mk_entry 0 sample_info [97; 46; 99] []; mk_entry 128 sample_info [100] [0]].

Lemma sample_listing_ok : Forall (entry_ok 0x8100 0x9300) sample_listing.
Proof.
  repeat constructor; try (vm_compute; done); (split; apply Nat.ltb_lt; done).
Qed.

Lemma enumerateext2_roundtrip_witness :
  afp_enumerateext2_reply (encode_listing 5 0x8100 0x9300 sample_listing ++ [1]) 100 =
    Some (0, Some (entry_result 0x8100 0x9300 <$> sample_listing)).
Proof.
  exact (enumerateext2_roundtrip 5 0x8100 0x9300 sample_listing [1] 100 ltac:(done)
           ltac:(done) ltac:(done) ltac:(done) sample_listing_ok).
Defined.

(** The reply to FPGetFileDirParms: an error in the header leaves the
    caller's structure alone; otherwise the structure gets the parameters of the
    block, with the directory flag of the reply. *)
Theorem getfiledirparms_reply_spec id rc isdir fb db fi name filecur rest size :
  0 <= fb < 65536 -> 0 <= db < 65536 -> 22 <= size ->
  encodable isdir (if isdir =? 0 then fb else db) fi name -> 0 <= isdir < 256 ->
  let bitmap := if isdir =? 0 then fb else db in
  let body := be_bytes 2 fb ++ be_bytes 2 db ++ [isdir; 0] ++ encode_block isdir bitmap fi name in
  (rc = 0 -> afp_getfiledirparms_reply
     (wire_header DSI_REPLY DSI_DSICommand id rc (Z.of_nat (length body)) ++ body ++ rest)
     size filecur = Some (0, selected isdir bitmap fi name)) /\
  (-2147483648 <= rc < 0 -> exists e, e <> 0 /\ afp_getfiledirparms_reply
     (wire_header DSI_REPLY DSI_DSICommand id rc (Z.of_nat (length body)) ++ body ++ rest)
     size filecur = Some (e, filecur)).
Proof.
  intros Hf Hd Hs He Hi bitmap body. unfold afp_getfiledirparms_reply.
  set (len := Z.of_nat (length body)). split.
  - intros ->. rewrite raw_error_wire. cbn [mbind option_bind].
    change (negb (0 =? 0)) with false. cbn match. rewrite (proj2 (Z.ltb_ge size 22)) by lia.
    pose proof (length_wire_header DSI_REPLY DSI_DSICommand id 0 len) as Hw.
    unfold body. rewrite <- !app_assoc.
    rewrite (ntohs_ld16 _ fb _ 16) by (congruence || lia). cbn [mbind option_bind].
    rewrite (app_assoc (wire_header _ _ _ _ _)), (ntohs_ld16 _ db _ 18) by (lia || solve_len).
    cbn [mbind option_bind].
    rewrite (app_assoc (_ ++ be_bytes 2 fb)). cbn [app]. rewrite ld8_at by solve_len.
    cbn [mbind option_bind]. rewrite drop_app_ge by solve_len.
    replace (22 - _)%nat with 2%nat by solve_len. cbn [drop]. rewrite drop_0.
    unfold bitmap. rewrite (parse_reply_block_encoded _ _ _ _ _ fb db He eq_refl).
    done.
  - intros Hrc. destruct (raw_error_refused DSI_REPLY DSI_DSICommand id rc len (body ++ rest) Hrc)
      as (e & Hne & ->). exists e. split; [done|]. cbn [mbind option_bind].
    by rewrite (proj2 (Z.eqb_neq _ 0) Hne).
Qed.

Lemma getfiledirparms_reply_spec_witness :
  afp_getfiledirparms_reply
    (wire_header DSI_REPLY DSI_DSICommand 5 0 (Z.of_nat (length (be_bytes 2 0x8100
       ++ be_bytes 2 0xbf7f ++ [128; 0] ++ encode_block 128 0xbf7f sample_info [97; 98; 99])))
     ++ (be_bytes 2 0x8100 ++ be_bytes 2 0xbf7f ++ [128; 0]
         ++ encode_block 128 0xbf7f sample_info [97; 98; 99]) ++ [])
    60 zero_file_info = Some (0, selected 128 0xbf7f sample_info [97; 98; 99]).
Proof.
  refine (proj1 (getfiledirparms_reply_spec 5 0 128 0x8100 0xbf7f sample_info [97; 98; 99]
    zero_file_info [] 60 _ _ _ sample_dir_encodable _) eq_refl); done.
Defined.

(** ** Writing *)

Lemma write_request_spec junk fixed n data rest command :
  Z.of_nat (length data) = n -> 16 + Z.of_nat (length fixed) + n < 4294967296 ->
  write_request junk fixed n (data ++ rest) command =
    Some (mk_req DSI_DSIWrite (Z.of_nat (length fixed)) (fixed ++ data)
            DSI_DEFAULT_TIMEOUT command).
Proof.
  intros Hn Hl. unfold write_request. rewrite u32_small by lia.
  rewrite slice_0 by lia. cbn [mbind option_bind].
  assert (length (malloc junk (16 + Z.of_nat (length fixed) + n - 16)) =
          length fixed + length data)%nat as Hm by (rewrite length_malloc; lia).
  rewrite blit_in_range by lia. cbn [mbind option_bind].
  rewrite (drop_ge (malloc _ _)), app_nil_r by lia.
  rewrite blit_0 by solve_len. cbn [mbind option_bind]. do 3 f_equal.
  rewrite drop_app_ge by solve_len.
  replace (length fixed - _)%nat with 0%nat by solve_len. by rewrite drop_0.
Qed.

Lemma write_requests_spec junk forkid offset data rest :
  0 <= offset < 2 ^ 64 -> Z.of_nat (length data) < 4294967260 ->
  afp_write junk forkid offset (Z.of_nat (length data)) (data ++ rest) =
    Some (mk_req DSI_DSIWrite 12 ([afpWrite; 0] ++ be_bytes 2 forkid ++ be_bytes 4 offset
            ++ be_bytes 4 (Z.of_nat (length data)) ++ data) DSI_DEFAULT_TIMEOUT afpWrite) /\
  afp_writeext junk forkid offset (Z.of_nat (length data)) (data ++ rest) =
    Some (mk_req DSI_DSIWrite 20 ([afpWriteExt; 0] ++ be_bytes 2 forkid ++ be_bytes 8 offset
            ++ be_bytes 8 (Z.of_nat (length data)) ++ data) DSI_DEFAULT_TIMEOUT afpWriteExt).
Proof.
  intros Ho Hd. unfold afp_write, afp_writeext.
  rewrite !st16_htons, !st32_htonl, !st64_hton64 by lia.
  rewrite !write_request_spec by solve_len. rewrite <- !app_assoc. split; [done|].
  by rewrite !st8_byte.
Qed.

(** A write sends the fork, offset and count in network byte order and
    exactly the bytes asked for, with the header's data offset at the first of
    them. *)
Theorem write_requests_wire junk forkid offset data rest :
  0 <= offset < 2 ^ 64 -> Z.of_nat (length data) < 4294967260 ->
  afp_write junk forkid offset (Z.of_nat (length data)) (data ++ rest) =
    Some (mk_req DSI_DSIWrite 12 ([afpWrite; 0] ++ be_bytes 2 forkid ++ be_bytes 4 offset
            ++ be_bytes 4 (Z.of_nat (length data)) ++ data) DSI_DEFAULT_TIMEOUT afpWrite) /\
  afp_writeext junk forkid offset (Z.of_nat (length data)) (data ++ rest) =
    Some (mk_req DSI_DSIWrite 20 ([afpWriteExt; 0] ++ be_bytes 2 forkid ++ be_bytes 8 offset
            ++ be_bytes 8 (Z.of_nat (length data)) ++ data) DSI_DEFAULT_TIMEOUT afpWriteExt).
Proof. apply write_requests_spec. Qed.

Lemma write_requests_wire_witness :
  afp_writeext [] 3 5 2 [10; 20; 30] =
    Some (mk_req DSI_DSIWrite 20 [61; 0; 0; 3; 0; 0; 0; 0; 0; 0; 0; 5;
      0; 0; 0; 0; 0; 0; 0; 2; 10; 20] DSI_DEFAULT_TIMEOUT afpWriteExt).
Proof. refine (proj2 (write_requests_wire [] 3 5 [10; 20] [30] _ _)); done. Defined.

(** The reply to FPWrite has the header and a 32-bit count, 20 bytes in
    all; the handler expects 24 and reports that nothing was written. *)
Theorem write_reply_loses_count id rc last rest :
  afp_write_reply (wire_header DSI_REPLY DSI_DSIWrite id rc 4 ++ be_bytes 4 last ++ rest) 20
    = Some (0, 0).
Proof. done. Qed.

(** @@[afp_setforkparms] sends a 32-bit length as it should, but a 64-bit
    length, made with [htonl], arrives multiplied by 2^32. *)
Theorem setforkparms_length forkid bitmap len :
  0 <= len < 2 ^ 32 ->
  (has bitmap (Z.lor kFPExtDataForkLenBit kFPExtRsrcForkLenBit) = false ->
   rq_body (afp_setforkparms forkid bitmap len) =
     [afpSetForkParms; 0] ++ be_bytes 2 forkid ++ be_bytes 2 bitmap ++ be_bytes 4 len) /\
  (has bitmap (Z.lor kFPExtDataForkLenBit kFPExtRsrcForkLenBit) = true ->
   rq_body (afp_setforkparms forkid bitmap len) =
     [afpSetForkParms; 0] ++ be_bytes 2 forkid ++ be_bytes 2 bitmap
     ++ be_bytes 8 (len * 2 ^ 32)).
Proof.
  intros Hl. unfold afp_setforkparms. split; intros ->;
    rewrite !st16_htons, ?st32_htonl, <- !app_assoc; [by rewrite !st8_byte|].
  rewrite !st8_byte by done. cbn [afp_call rq_body app]. do 4 f_equal.
  unfold st64, be_bytes. change 8%nat with (4 + 4)%nat. rewrite !le_bytes_app, reverse_app.
  change (256 ^ Z.of_nat 4) with (2 ^ 32). rewrite Z.div_mul by lia.
  pose proof (bswap_range 4 len) as Hb. change (256 ^ Z.of_nat 4) with (2 ^ 32) in Hb.
  unfold htonl. rewrite Z.div_small by lia. rewrite le_bytes_bswap. unfold be_bytes.
  f_equal. rewrite <- (le_bytes_mod 4 (len * 2 ^ 32)).
  change (256 ^ Z.of_nat 4) with (2 ^ 32). by rewrite Z.mod_mul by lia.
Qed.

Lemma setforkparms_length_witness :
  rq_body (afp_setforkparms 3 kFPExtDataForkLenBit 1) =
    [afpSetForkParms; 0] ++ be_bytes 2 3 ++ be_bytes 2 kFPExtDataForkLenBit
    ++ be_bytes 8 (1 * 2 ^ 32).
Proof.
  refine (proj2 (setforkparms_length 3 kFPExtDataForkLenBit 1 _) _); done.
Defined.

End ProtoFiles.
