(* ===== verification/ProtoVolume.v ===== *)
(** * Requests on volumes, servers, users and the desktop: lib/proto_volume.c,
    lib/proto_server.c, lib/proto_map.c, lib/proto_desktop.c, lib/proto_attr.c,
    lib/proto_login.c, lib/proto_session.c *)

From S2P Require Import Prelude Constants Types Utils Codepage Dsi ReplyBlock ProtoFiles.

Module ProtoVolume.
Import Utils Codepage Dsi ReplyBlock ProtoFiles.

Definition DSI_BLOCK_TIMEOUT : Z := -1.
Definition DSI_OPENVOLUME_TIMEOUT : Z := 20.
Definition DSI_LOGIN_TIMEOUT : Z := 20.

Definition call_with (timeout : Z) (body : list Z) (sub : Z) : request :=
  mk_req DSI_DSICommand 0 body timeout sub.

(** ** Volumes *)

(** The check against [size] compares the start of the block with its end, and
    never fails. *)
Definition parse_volbitmap_reply (tmpvol : afp_volume) (bitmap : Z) (msg : list Z)
    : option afp_volume :=
  c ← if_bit bitmap kFPVolAttributeBit (get16 msg set_vo_attributes) (tmpvol, 0%nat);
  c ← if_bit bitmap kFPVolSignatureBit (get16 msg set_vo_signature) c;
  c ← if_bit bitmap kFPVolCreateDateBit (get_date msg set_vo_creation_date) c;
  c ← if_bit bitmap kFPVolModDateBit (get_date msg set_vo_modification_date) c;
  c ← if_bit bitmap kFPVolBackupDateBit (get_date msg set_vo_backup_date) c;
  c ← if_bit bitmap kFPVolIDBit (get16 msg set_vo_volid) c;
  c ← if_bit bitmap kFPVolBytesFreeBit (get32 msg set_vo_f_bfree) c;
  c ← if_bit bitmap kFPVolBytesTotalBit (get32 msg set_vo_f_blocks) c;
  c ← if_bit bitmap kFPVolNameBit (get16 msg (fun _ v => v)) c;
  c ← if_bit bitmap kFPVolExtBytesFreeBit (get64 msg set_vo_f_bfree) c;
  c ← if_bit bitmap kFPVolExtBytesTotalBit (get64 msg set_vo_f_blocks) c;
  c ← if_bit bitmap kFPVolBlockSizeBit (get32 msg set_vo_f_bsize) c;
  Some c.1.

Definition afp_volclose (volid : Z) : request :=
  afp_call (st8 afpCloseVol ++ st8 0 ++ st16 (htons volid)) afpCloseVol.

(** The name array is followed in the structure by the printable one. *)
Definition printable_volume_name (volume : afp_volume) : option (list Z) :=
  convert_utf8dec_to_utf8pre (vo_volume_name volume ++ vo_volume_name_printable volume)
    (vo_volume_name_printable volume).

Definition afp_volopen_reply (buf : list Z) (size : Z) (volume : afp_volume)
    : option (Z * afp_volume) :=
  if size <? 18 then Some (-1, volume)
  else
    bitmap ← ntohs <$> ld16 16 buf;
    volume ← parse_volbitmap_reply volume bitmap (drop 18 buf);
    printable ← (if has (vo_attributes volume) kSupportsUTF8Names
                 then printable_volume_name volume
                 else bytes ← slice 0 33 (vo_volume_name volume);
                      blit 0 bytes (vo_volume_name_printable volume));
    Some (0, set_vo_volume_name_printable printable volume).

Definition AFP_VOLPASS_LEN : Z := 8.

Definition afp_volopen (junk volume_name : list Z) (bitmap : Z) (password : option (list Z))
    : option request :=
  let len := 20 + Z.of_nat (length volume_name) + 1 in
  let len := match password with
             | None => len
             | Some _ => even_up (len + AFP_VOLPASS_LEN)
             end in
  msg ← blit 0 (st8 afpOpenVol ++ st8 0 ++ st16 (htons bitmap)) (malloc junk (len - 16));
  '(volname, _) ← copy_to_pascal (drop 4 msg) volume_name;
  let msg := take 4 msg ++ volname in
  msg ← (match password with
         | None => Some msg
         | Some password =>
           let len2 := u8 (Z.of_nat (length password)) in
           let len2 := if AFP_VOLPASS_LEN <? len2 then AFP_VOLPASS_LEN else len2 in
           let off := Z.to_nat (len - 16 - AFP_VOLPASS_LEN) in
           msg ← blit off (replicate 8 0) msg;
           blit off (take (Z.to_nat len2) password) msg
         end);
  Some (call_with DSI_OPENVOLUME_TIMEOUT msg afpOpenVol).

(** [None] for the volume is NULL. *)
Definition afp_getvolparms_reply (buf : list Z) (size : Z) (volume : option afp_volume)
    : option (Z * option afp_volume) :=
  if size <? 18 then Some (-1, volume)
  else
    bitmap ← ntohs <$> ld16 16 buf;
    match volume with
    | None => Some (-1, None)
    | Some volume =>
      volume ← parse_volbitmap_reply volume bitmap (drop 18 buf); Some (0, Some volume)
    end.

Definition afp_flush (volid : Z) : request :=
  afp_call (st8 afpFlush ++ st8 0 ++ st16 (htons volid)) afpFlush.

Definition afp_getvolparms (volid bitmap : Z) : request :=
  afp_call (st8 afpGetVolParms ++ st8 0 ++ st16 (htons volid) ++ st16 (htons bitmap))
    afpGetVolParms.

(** ** The server *)

Definition afp_getsrvrparms : request := afp_call (st8 afpGetSrvrParms) afpGetSrvrParms.

Definition zero_volume : afp_volume :=
  mk_afp_volume 0 0 0 0 0 0 0 0 0 0 (replicate 33 0) (replicate 33 0) 0 0 0.

(** The loop over the volumes, from the offset [p] on. *)
Fixpoint srvrparms_loop (n : nat) (server : afp_server) (msg : list Z) (p : nat)
    : option (list afp_volume) :=
  match n with
  | O => Some []
  | S n =>
    flags ← ld8 p msg;
    '(name, len) ← copy_from_pascal (replicate 33 0) (Some (drop (p + 1) msg)) 33;
    let vol := set_vo_volume_name name (set_vo_flags flags zero_volume) in
    printable ← (if sv_av_number server <? 30
                 then bytes ← slice 0 33 name; blit 0 bytes (vo_volume_name_printable vol)
                 else printable_volume_name vol);
    vols ← srvrparms_loop n server msg (p + 1 + Z.to_nat (len + 1));
    Some (set_vo_volume_name_printable printable vol :: vols)
  end.

(** The return value, the time of the server and the volumes. *)
Definition afp_getsrvrparms_reply (server : afp_server) (msg : list Z) (size : Z)
    : option (Z * option (Z * list afp_volume)) :=
  if size <? 21 then Some (-1, None)
  else
    time ← ld32 16 msg;
    numvolumes ← ld8 20 msg;
    vols ← srvrparms_loop (Z.to_nat numvolumes) server msg 21;
    Some (0, Some (AD_DATE_TO_UNIX time, vols)).

(** [mesg] is the destination. *)
Definition afp_getsrvrmsg_reply (buf : list Z) (size : Z) (mesg : list Z)
    : option (Z * list Z) :=
  if size <? 20 then Some (-1, mesg)
  else
    messagebitmap ← ntohs <$> ld16 18 buf;
    '(mesg, _) ← (if has messagebitmap AFP_GETSRVRMSG_UTF8
                  then copy_from_pascal_two mesg (drop 20 buf) 200
                  else copy_from_pascal mesg (Some (drop 20 buf)) 200);
    Some (0, mesg).

Definition afp_getsrvrmsg (messagetype utf8 block : Z) : request :=
  call_with block
    (st8 afpGetSrvrMsg ++ st8 0 ++ st16 (htons messagetype)
     ++ st16 (htons (Z.lor AFP_GETSRVRMSG_GETMSG
                           (if utf8 =? 0 then 0 else AFP_GETSRVRMSG_UTF8)))) afpGetSrvrMsg.

Definition afp_zzzzz : request := afp_call (st8 afpZzzzz ++ st8 0 ++ st32 0) afpZzzzz.

(** ** Users and groups *)

Definition afp_getuserinfo (thisuser userid bitmap : Z) : request :=
  afp_call (st8 afpGetUserInfo ++ st8 (if thisuser =? 0 then 0 else 1)
            ++ st32 (htonl userid) ++ st16 (htons bitmap)) afpGetUserInfo.

(** What the call stores through [newuid] and [newgid]. *)
Definition afp_getuserinfo_result (bitmap : Z) (uidgid : Z * Z) (newuid newgid : Z) : Z * Z :=
  ((if has bitmap kFPGetUserInfo_USER_ID then uidgid.1 else newuid),
   (if has bitmap kFPGetUserInfo_PRI_GROUPID then uidgid.2 else newgid)).

Definition afp_getuserinfo_reply (buf : list Z) (size : Z) : option (Z * (Z * Z)) :=
  if size <? 16 then Some (-1, (0, 0))
  else
    bitmap ← ntohs <$> ld16 16 buf;
    err ← raw_error buf;
    if negb (err =? kFPNoErr) then Some (-1, (0, 0))
    else if has bitmap kFPGetUserInfo_USER_ID then
      uid ← ntohl <$> ld32 18 buf;
      gid ← (if has bitmap kFPGetUserInfo_PRI_GROUPID then ntohl <$> ld32 22 buf else Some 0);
      Some (0, (uid, gid))
    else if has bitmap kFPGetUserInfo_PRI_GROUPID then
      gid ← ntohl <$> ld32 18 buf; Some (0, (0, gid))
    else Some (0, (0, 0)).

Definition afp_mapid (subfunction id : Z) : request :=
  afp_call (st8 afpMapID ++ st8 subfunction ++ st32 (htonl id)) afpMapID.

Definition afp_mapid_reply (buf : list Z) (size : Z) (name : list Z)
    : option (Z * list Z) :=
  if size <? 16 then Some (-1, name)
  else
    err ← raw_error buf;
    if negb (err =? kFPNoErr) then Some (-1, name)
    else '(name, _) ← copy_from_pascal_two name (drop 16 buf) 255; Some (0, name).

(** The buffer is filled with 0x4b first. *)
Definition afp_mapname (subfunction : Z) (name : list Z) : option request :=
  '(nameptr, _) ← copy_to_pascal (replicate (1 + length name) 0x4b) name;
  Some (afp_call (st8 afpMapName ++ st8 subfunction ++ nameptr) afpMapName).

Definition afp_mapname_reply (buf : list Z) (size : Z) (id : Z) : option (Z * Z) :=
  if size <? 16 then Some (-1, id)
  else id ← ntohl <$> ld32 16 buf; Some (0, id).

(** ** The desktop database *)

Definition afp_geticon (dtrefnum filecreator filetype icontype len : Z) : request :=
  afp_call (st8 afpGetIcon ++ st8 0 ++ st16 (htons dtrefnum) ++ st32 (htonl filecreator)
            ++ st32 (htonl filetype) ++ st8 icontype ++ st8 0 ++ st16 (htons len)) afpGetIcon.

(** [struct afp_icon] and [struct afp_comment]: both have a capacity, a size and a
    buffer. *)
Record sized_buffer := mk_sized { sb_maxsize : Z; sb_size : Z; sb_data : list Z }.

Definition afp_geticon_reply (buf : list Z) (size : Z) (icon : sized_buffer)
    : option (Z * sized_buffer) :=
  let len := u32 (size - 16) in
  if size <? 16 + sb_maxsize icon then Some (-1, icon)
  else
    bytes ← slice 16 (Z.to_nat len) buf;
    data ← blit 0 bytes (sb_data icon);
    Some (0, mk_sized (sb_maxsize icon) len data).

(** The size stored through [size] is the length of the comment. *)
Definition afp_addcomment (server : afp_server) (dtrefnum did : Z)
    (pathname comment : list Z) : option (request * Z) :=
  let len := 8 + path_len server pathname + Z.of_nat (length comment) + 1 in
  msg ← blit 0 (st8 afpAddComment ++ st8 0 ++ st16 (htons dtrefnum) ++ st32 (htonl did))
         (replicate (Z.to_nat (len + 1)) 0);
  msg ← put_path server 8 pathname msg;
  let p := 8 + path_len server pathname in
  let len := if Z.odd p then len + 1 else len in
  let p := Z.to_nat (even_up p) in
  '(tail, _) ← copy_to_pascal (drop p msg) comment;
  Some (afp_call (take (Z.to_nat len) (take p msg ++ tail)) afpAddComment,
        Z.of_nat (length comment)).

Definition afp_getcomment (junk : list Z) (server : afp_server) (dtrefnum did : Z)
    (pathname : list Z) : option request :=
  body ← path_request junk server
           (st8 afpGetComment ++ st8 0 ++ st16 (htons dtrefnum) ++ st32 (htonl did)) pathname;
  Some (afp_call body afpGetComment).

Definition afp_getcomment_reply (buf : list Z) (size : Z) (comment : sized_buffer)
    : option (Z * sized_buffer) :=
  if size <? 16 then Some (-1, comment)
  else
    let len := Z.min (u64 (size - 17)) (sb_maxsize comment) in
    commentlen ← ld8 16 buf;
    let len := Z.min len commentlen in
    bytes ← slice 17 (Z.to_nat len) buf;
    data ← blit 0 bytes (sb_data comment);
    Some (0, mk_sized (sb_maxsize comment) len data).

Definition afp_closedt (refnum : Z) : request :=
  afp_call (st8 afpCloseDT ++ st8 0 ++ st16 (htons refnum)) afpCloseDT.

Definition afp_opendt (volid : Z) : request :=
  afp_call (st8 afpOpenDT ++ st8 0 ++ st16 (htons volid)) afpOpenDT.

Definition afp_opendt_reply (buf : list Z) (size : Z) (refnum : Z) : option (Z * Z) :=
  if size <? 18 then Some (-1, refnum)
  else refnum ← ntohs <$> ld16 16 buf; Some (0, refnum).

(** ** Extended attributes *)

Definition afp_newcommand76 (junk : list Z) (volid dlen : Z) (data : list Z)
    : option request :=
  msg ← blit 0 (st8 76 ++ st8 0 ++ st16 (htons volid)) (malloc junk (4 + dlen));
  bytes ← slice 0 (Z.to_nat dlen) data;
  msg ← blit 4 bytes msg;
  Some (afp_call msg 76).

(** [maxreplysize] is a 32-bit field given the result of [hton64]. *)
Definition afp_listextattr (junk : list Z) (server : afp_server) (volid dirid bitmap : Z)
    (pathname : list Z) (maxsize : Z) : option request :=
  body ← path_request junk server
           (st8 afpListExtAttrs ++ st8 0 ++ st16 (htons volid) ++ st32 (htonl dirid)
            ++ st16 (htons bitmap) ++ st16 0 ++ st32 0 ++ st32 (u32 (hton64 maxsize))) pathname;
  Some (afp_call body afpListExtAttrs).

(** The data is copied from the place of a pointer field, 22 bytes into the
    packet, on. *)
Definition afp_listextattrs_reply (buf : list Z) (info : sized_buffer)
    : option (Z * sized_buffer) :=
  datalength ← ntohl <$> ld32 18 buf;
  let len := Z.min (sb_maxsize info) datalength in
  bytes ← slice 22 (Z.to_nat len) buf;
  data ← blit 0 bytes (sb_data info);
  Some (0, mk_sized (sb_maxsize info) len data).

(** The bitmap is never set ([junk] goes out in its place), the name is copied to
    the place of a pointer field behind its length, the length sent stops two
    bytes short of the name's end, and the queued request says FPDelete. *)
Definition afp_getextattr (junk : list Z) (server : afp_server) (volid dirid replysize : Z)
    (pathname name : list Z) (namelen : Z) : option request :=
  let msg := malloc junk (30 + path_len server pathname + 1 + 4 + Z.of_nat (length name)) in
  msg ← blit 0 (st8 afpGetExtAttr ++ st8 0 ++ st16 (htons volid) ++ st32 (htonl dirid)) msg;
  msg ← blit 10 (st64 (hton64 0) ++ st64 (hton64 0) ++ st32 (htonl replysize)) msg;
  msg ← put_path server 30 pathname msg;
  let p2 := even_up (30 + path_len server pathname) in
  msg ← blit (Z.to_nat p2) (st16 (htons namelen)) msg;
  bytes ← slice 0 (Z.to_nat namelen) (name ++ [0]);
  msg ← blit (Z.to_nat (p2 + 2)) bytes msg;
  bytes ← slice 0 (Z.to_nat (p2 + namelen)) msg;
  Some (afp_call bytes afpDelete).

(** Neither the bitmap, the offset, the name nor the data is put in. *)
Definition afp_setextattr (junk : list Z) (server : afp_server) (volid dirid : Z)
    (pathname : list Z) : option request :=
  msg ← blit 0 (st8 afpSetExtAttr ++ st8 0 ++ st16 (htons volid) ++ st32 (htonl dirid))
         (malloc junk (18 + path_len server pathname));
  msg ← put_path server 18 pathname msg;
  Some (afp_call msg afpDelete).

(** ** Logging in *)

Definition afp_logout (wait : Z) : request :=
  call_with (u8 wait) (st8 afpLogout ++ st8 0) afpLogout.

(** The size of the buffer is not updated. *)
Definition afp_login_reply (buf : list Z) (size : Z) (rx : option afp_rx_buffer)
    : option (Z * option afp_rx_buffer) :=
  let size := u32 (size - 16) in
  match rx with
  | None => Some (0, None)
  | Some rx =>
    if 0 <? size then
      let size := if rx_maxsize rx <? size then rx_maxsize rx else size in
      bytes ← slice 16 (Z.to_nat size) buf;
      data ← blit 0 bytes (rx_data rx);
      Some (0, Some (mk_rx (rx_size rx) (rx_maxsize rx) data (rx_errorcode rx)))
    else Some (0, Some rx)
  end.

(** The pad byte is not set. *)
Definition afp_changepassword (junk ua_name userauthinfo : list Z) : option request :=
  let msg := malloc junk (2 + Z.of_nat (length ua_name) + 1
                          + Z.of_nat (length userauthinfo)) in
  msg ← blit 0 (st8 afpChangePassword) msg;
  '(tail, len) ← copy_to_pascal (drop 2 msg) ua_name;
  msg ← blit (Z.to_nat (2 + len + 1)) userauthinfo (take 2 msg ++ tail);
  Some (afp_call msg afpChangePassword).

Definition afp_changepassword_reply := afp_login_reply.

Definition afp_login (junk av_name ua_name userauthinfo : list Z) : option request :=
  let msg := malloc junk (1 + Z.of_nat (length av_name) + 1 + Z.of_nat (length ua_name) + 1
                          + Z.of_nat (length userauthinfo)) in
  msg ← blit 0 (st8 afpLogin) msg;
  '(tail, len1) ← copy_to_pascal (drop 1 msg) av_name;
  let msg := take 1 msg ++ tail in
  let p := Z.to_nat (1 + len1 + 1) in
  '(tail, len2) ← copy_to_pascal (drop p msg) ua_name;
  msg ← blit (Z.to_nat (1 + len1 + 1 + len2 + 1)) userauthinfo (take p msg ++ tail);
  Some (call_with DSI_BLOCK_TIMEOUT msg afpLogin).

Definition afp_logincont (id : Z) (userauthinfo : list Z) : request :=
  call_with DSI_LOGIN_TIMEOUT
    (st8 afpLoginCont ++ st8 0 ++ st16 (htons id) ++ userauthinfo) afpLoginCont.

(** ** Sessions *)

(** [struct afp_token]: a length and 256 bytes. *)
Record afp_token := mk_token { tk_length : Z; tk_data : list Z }.

(** [None] inside is the return of -1 before anything is sent; the time stamp goes
    out in host byte order. The call returns 0 whatever [dsi_send] does. *)
Definition afp_getsessiontoken (type timestamp : Z) (outgoing : afp_token)
    : option (option request) :=
  let send datalen stamp :=
    bytes ← slice 0 (Z.to_nat datalen) (tk_data outgoing);
    Some (Some (afp_call (st8 afpGetSessionToken ++ st8 0 ++ st16 (htons type)
                          ++ st32 (htonl datalen) ++ stamp ++ bytes) afpGetSessionToken)) in
  if (type =? kLoginWithTimeAndID) || (type =? kReconnWithTimeAndID)
  then send (tk_length outgoing) (st32 timestamp)
  else if type =? kRecon1Login then send (tk_length outgoing) []
  else if (type =? kLoginWithoutID) || (type =? kRecon1Refresh)
          || (type =? kRecon1ReconnectLogin) then send 0 []
  else Some None.

(** The length in the header does not count the header, but its size is taken off
    again. *)
Definition afp_getsessiontoken_reply (buf : list Z) (token : option afp_token)
    : option (Z * option afp_token) :=
  length ← hd_length buf;
  if length <=? 16 then
    Some (0, (fun t => mk_token 0 (tk_data t)) <$> token)
  else
    token_len ← ntohl <$> ld32 16 buf;
    if (AFP_TOKEN_MAX_LEN <? token_len) || (length - 16 <? token_len) then Some (-1, token)
    else
      match token with
      | None => Some (0, None)
      | Some t =>
        bytes ← slice 20 (Z.to_nat token_len) buf;
        data ← blit 0 bytes (tk_data t);
        Some (0, Some (mk_token token_len data))
      end.

(** The pad byte is not set: [junk] is what [malloc] left there. *)
Definition afp_disconnectoldsession (junk type : Z) (token : afp_token)
    : option (option request) :=
  if AFP_TOKEN_MAX_LEN <? tk_length token then Some None
  else
    bytes ← slice 0 (Z.to_nat (tk_length token)) (tk_data token);
    Some (Some (afp_call (st8 afpDisconnectOldSession ++ st8 junk ++ st16 (htons type)
                          ++ st32 (htonl (tk_length token)) ++ bytes)
                         afpDisconnectOldSession)).

(** ** Volume parameters *)

Definition encode_volume (bitmap : Z) (v : afp_volume) (name_off : Z) : list Z :=
  put_if bitmap kFPVolAttributeBit (be_bytes 2 (vo_attributes v)) ++
  put_if bitmap kFPVolSignatureBit (be_bytes 2 (vo_signature v)) ++
  put_if bitmap kFPVolCreateDateBit (be_bytes 4 (vo_creation_date v - AD_DATE_DELTA)) ++
  put_if bitmap kFPVolModDateBit (be_bytes 4 (vo_modification_date v - AD_DATE_DELTA)) ++
  put_if bitmap kFPVolBackupDateBit (be_bytes 4 (vo_backup_date v - AD_DATE_DELTA)) ++
  put_if bitmap kFPVolIDBit (be_bytes 2 (vo_volid v)) ++
  put_if bitmap kFPVolBytesFreeBit (be_bytes 4 (Z.min (vo_f_bfree v) 0xffffffff)) ++
  put_if bitmap kFPVolBytesTotalBit (be_bytes 4 (Z.min (vo_f_blocks v) 0xffffffff)) ++
  put_if bitmap kFPVolNameBit (be_bytes 2 name_off) ++
  put_if bitmap kFPVolExtBytesFreeBit (be_bytes 8 (vo_f_bfree v)) ++
  put_if bitmap kFPVolExtBytesTotalBit (be_bytes 8 (vo_f_blocks v)) ++
  put_if bitmap kFPVolBlockSizeBit (be_bytes 4 (vo_f_bsize v)).

Definition volume_ok (v : afp_volume) : Prop :=
  (0 <= vo_attributes v < 65536 /\ 0 <= vo_signature v < 65536) /\
  (0 <= vo_creation_date v < 2 ^ 32 /\ 0 <= vo_modification_date v < 2 ^ 32 /\
   0 <= vo_backup_date v < 2 ^ 32) /\
  (0 <= vo_volid v < 65536 /\ 0 <= vo_f_bsize v < 2 ^ 32) /\
  (0 <= vo_f_bfree v < 2 ^ 64 /\ 0 <= vo_f_blocks v < 2 ^ 64).

(** The volume [old] with the parameters of the bitmap taken from [v]; the
    64-bit sizes win over the 32-bit ones, which saturate. *)
Definition keep (b : bool) (new old : Z) : Z := if b then new else old.

Definition updated (bitmap : Z) (old v : afp_volume) : afp_volume :=
  {| vo_volid := keep (has bitmap kFPVolIDBit) (vo_volid v) (vo_volid old);
     vo_flags := vo_flags old;
     vo_attributes := keep (has bitmap kFPVolAttributeBit) (vo_attributes v)
                        (vo_attributes old);
     vo_signature := keep (has bitmap kFPVolSignatureBit) (vo_signature v)
                       (vo_signature old);
     vo_creation_date := keep (has bitmap kFPVolCreateDateBit) (vo_creation_date v)
                           (vo_creation_date old);
     vo_modification_date := keep (has bitmap kFPVolModDateBit) (vo_modification_date v)
                               (vo_modification_date old);
     vo_backup_date := keep (has bitmap kFPVolBackupDateBit) (vo_backup_date v)
                         (vo_backup_date old);
     vo_f_bfree := keep (has bitmap kFPVolExtBytesFreeBit) (vo_f_bfree v)
       (keep (has bitmap kFPVolBytesFreeBit) (Z.min (vo_f_bfree v) 0xffffffff)
          (vo_f_bfree old));
     vo_f_blocks := keep (has bitmap kFPVolExtBytesTotalBit) (vo_f_blocks v)
       (keep (has bitmap kFPVolBytesTotalBit) (Z.min (vo_f_blocks v) 0xffffffff)
          (vo_f_blocks old));
     vo_f_bsize := keep (has bitmap kFPVolBlockSizeBit) (vo_f_bsize v) (vo_f_bsize old);
     vo_volume_name := vo_volume_name old;
     vo_volume_name_printable := vo_volume_name_printable old;
     vo_dtrefnum := vo_dtrefnum old; vo_extra_flags := vo_extra_flags old;
     vo_mapping := vo_mapping old |}.

Lemma volume_ext (x y : afp_volume) :
  vo_volid x = vo_volid y -> vo_flags x = vo_flags y ->
  vo_attributes x = vo_attributes y -> vo_signature x = vo_signature y ->
  vo_creation_date x = vo_creation_date y ->
  vo_modification_date x = vo_modification_date y ->
  vo_backup_date x = vo_backup_date y -> vo_f_bfree x = vo_f_bfree y ->
  vo_f_blocks x = vo_f_blocks y -> vo_f_bsize x = vo_f_bsize y ->
  vo_volume_name x = vo_volume_name y ->
  vo_volume_name_printable x = vo_volume_name_printable y ->
  vo_dtrefnum x = vo_dtrefnum y -> vo_extra_flags x = vo_extra_flags y ->
  vo_mapping x = vo_mapping y -> x = y.
Proof. destruct x, y; cbn; intros; subst; done. Qed.

(** Reads the next parameter, whose effect is [g]. *)
Ltac next_parm g ok :=
  lazymatch goal with
  | HB : ?B = _ ++ put_if ?bm ?bit ?bytes ++ ?rest
    |- context [if_bit ?bm ?bit ?f (?v, length ?pre)] =>
    let pre' := fresh "pre" in let v' := fresh "v" in
    let E := fresh "E" in let HB' := fresh "HB" in let Hs := fresh "Hs" in
    destruct (if_bit_step (fun _ => True) B pre rest bm bit bytes f g v HB I)
      as (pre' & v' & E & _ & HB' & Hs);
    [ let Hx := fresh "Hx" in intros _ Hx; rewrite Hx; apply ok; lia
    | exact I
    | rewrite Hs; cbn [mbind option_bind]; clear Hs HB; rename HB' into HB ]
  end.

Lemma volume_parms_parsed bitmap old v name_off rest :
  volume_ok v -> 0 <= name_off < 65536 ->
  parse_volbitmap_reply old bitmap (encode_volume bitmap v name_off ++ rest) =
    Some (updated bitmap old v).
Proof.
  intros ((H1 & H2) & (H3 & H4 & H5) & (H6 & H7) & (H8 & H9)) Ho.
  unfold parse_volbitmap_reply.
  remember (encode_volume bitmap v name_off ++ rest) as B eqn:HB0.
  assert (exists pre : list Z, pre = [] /\ B = pre ++ B) as (pre & Hpre & HB)
    by (by exists []).
  rewrite HB0 in HB at 2. clear HB0. unfold encode_volume in HB. rewrite <- !app_assoc in HB.
  change (old, 0%nat) with (old, length (@nil Z)). rewrite <- Hpre. clear Hpre.
  next_parm (set_vo_attributes (vo_attributes v)) (@get16_ok afp_volume).
  next_parm (set_vo_signature (vo_signature v)) (@get16_ok afp_volume).
  next_parm (set_vo_creation_date (vo_creation_date v)) (@get_date_ok afp_volume).
  next_parm (set_vo_modification_date (vo_modification_date v)) (@get_date_ok afp_volume).
  next_parm (set_vo_backup_date (vo_backup_date v)) (@get_date_ok afp_volume).
  next_parm (set_vo_volid (vo_volid v)) (@get16_ok afp_volume).
  next_parm (set_vo_f_bfree (Z.min (vo_f_bfree v) 0xffffffff)) (@get32_ok afp_volume).
  next_parm (set_vo_f_blocks (Z.min (vo_f_blocks v) 0xffffffff)) (@get32_ok afp_volume).
  next_parm (fun x : afp_volume => x) (@get16_ok afp_volume).
  next_parm (set_vo_f_bfree (vo_f_bfree v)) (@get64_ok afp_volume).
  next_parm (set_vo_f_blocks (vo_f_blocks v)) (@get64_ok afp_volume).
  next_parm (set_vo_f_bsize (vo_f_bsize v)) (@get32_ok afp_volume).
  f_equal. cbn [fst]. apply volume_ext; project; unfold updated, keep; by_bits.
Qed.

(** The volume parameters of a reply, for every bitmap, are stored in the
    volume, and its other fields keep their values. *)
Theorem volume_parms_roundtrip bitmap old v name_off rest :
  volume_ok v -> 0 <= name_off < 65536 ->
  parse_volbitmap_reply old bitmap (encode_volume bitmap v name_off ++ rest) =
    Some (updated bitmap old v).
Proof. apply volume_parms_parsed. Qed.

Definition sample_volume : afp_volume :=
  mk_afp_volume 7 0 0x60 2 1 2 3 4294967296 5000000000 512 (replicate 33 0) (replicate 33 0)
    0 0 0.

Lemma volume_parms_roundtrip_witness :
  parse_volbitmap_reply zero_volume 0xfff (encode_volume 0xfff sample_volume 60 ++ [9]) =
    Some (updated 0xfff zero_volume sample_volume).
Proof. apply volume_parms_roundtrip; repeat split; vm_compute; done. Defined.

(** ** Logging in *)

Definition pascal (s : list Z) : list Z := Z.of_nat (length s) :: s.

(** The login message is the command, the version and the UAM as Pascal
    strings, and the authentication data; nothing of the buffer's old contents. *)
Theorem login_wire junk av_name ua_name userauthinfo :
  (length av_name < 256)%nat -> (length ua_name < 256)%nat ->
  afp_login junk av_name ua_name userauthinfo =
    Some (call_with DSI_BLOCK_TIMEOUT
            ([afpLogin] ++ pascal av_name ++ pascal ua_name ++ userauthinfo) afpLogin).
Proof.
  intros Ha Hu. unfold afp_login. rewrite st8_byte by done.
  destruct (blit_malloc junk (1 + Z.of_nat (length av_name) + 1 + Z.of_nat (length ua_name)
    + 1 + Z.of_nat (length userauthinfo)) [afpLogin]) as (rest & -> & Hr); [simpl; lia|lia|].
  cbn [mbind option_bind length] in *. change (drop 1 ([afpLogin] ++ rest)) with (drop 0 rest).
  rewrite drop_0, copy_to_pascal_spec by lia. cbn [mbind option_bind].
  change (take 1 ([afpLogin] ++ rest)) with [afpLogin].
  set (rest1 := drop (S (length av_name)) rest).
  assert (length rest1 = S (length ua_name) + length userauthinfo)%nat as Hr1
    by (unfold rest1; rewrite length_drop; lia).
  replace ([afpLogin] ++ Z.of_nat (length av_name) :: av_name ++ rest1)
    with (([afpLogin] ++ pascal av_name) ++ rest1)
    by (unfold pascal; by rewrite <- !app_assoc).
  set (pre := [afpLogin] ++ pascal av_name).
  assert (Z.to_nat (1 + Z.of_nat (length av_name) + 1) = length pre) as ->
    by (unfold pre, pascal; solve_len).
  rewrite drop_app_length, take_app_length, copy_to_pascal_spec by lia.
  cbn [mbind option_bind].
  set (rest2 := drop (S (length ua_name)) rest1).
  assert (length rest2 = length userauthinfo) as Hr2
    by (unfold rest2; rewrite length_drop; lia).
  replace (pre ++ Z.of_nat (length ua_name) :: ua_name ++ rest2)
    with ((pre ++ pascal ua_name) ++ rest2) by (unfold pascal; by rewrite <- !app_assoc).
  rewrite blit_app; [|unfold pre, pascal; solve_len|lia]. cbn [mbind option_bind].
  rewrite drop_ge, app_nil_r by lia. unfold pre. by rewrite <- !app_assoc.
Qed.

Lemma login_wire_witness :
  afp_login [1] [65; 70] [85] [7; 8] =
    Some (call_with DSI_BLOCK_TIMEOUT [18; 2; 65; 70; 1; 85; 7; 8] afpLogin).
Proof. apply (login_wire [1] [65; 70] [85] [7; 8]); vm_compute; lia. Defined.

(** ** Session tokens *)

(** A reply that carries a token, as the protocol lays it out (the length in
    the header is that of the token and of its length field), never reaches the
    caller: a token of at most 12 bytes is taken for none, and a longer one is
    refused. *)
Theorem session_token_lost id rc bytes rest token :
  0 <= id < 65536 -> Z.of_nat (length bytes) < 2 ^ 31 ->
  let n := Z.of_nat (length bytes) in
  let reply := wire_header DSI_REPLY DSI_DSICommand id rc (4 + n)
                 ++ be_bytes 4 n ++ bytes ++ rest in
  afp_getsessiontoken_reply reply (Some token) =
    if n <=? 12 then Some (0, Some (mk_token 0 (tk_data token)))
    else Some (-1, Some token).
Proof.
  intros Hid Hn n reply. unfold afp_getsessiontoken_reply, reply.
  rewrite hd_length_wire by lia. cbn [mbind option_bind].
  destruct (Z.leb_spec n 12).
  - by rewrite (proj2 (Z.leb_le (4 + n) 16)) by lia.
  - rewrite (proj2 (Z.leb_gt (4 + n) 16)) by lia.
    pose proof (length_wire_header DSI_REPLY DSI_DSICommand id rc (4 + n)).
    rewrite (ntohl_ld32 _ n _ 16) by (congruence || lia). cbn [mbind option_bind].
    rewrite (proj2 (Z.ltb_lt (4 + n - 16) n)) by lia. by rewrite orb_true_r.
Qed.

Lemma session_token_lost_witness :
  afp_getsessiontoken_reply (wire_header DSI_REPLY DSI_DSICommand 5 0 24
      ++ be_bytes 4 20 ++ replicate 20 7) (Some (mk_token 0 (replicate 256 0))) =
    Some (-1, Some (mk_token 0 (replicate 256 0))).
Proof.
  exact (session_token_lost 5 0 (replicate 20 7) [] (mk_token 0 (replicate 256 0))
           ltac:(done) ltac:(done)).
Defined.

(** ** Extended attributes *)

Lemma low_half_hton64 x : 0 <= x < 2 ^ 32 -> u32 (hton64 x) = 0.
Proof.
  intros Hx. rewrite hton64_bswap by lia. unfold bswap.
  change 8%nat with (4 + 4)%nat. rewrite le_bytes_app, reverse_app, le_val_app.
  change (256 ^ Z.of_nat 4) with (2 ^ 32). rewrite Z.div_small by lia.
  rewrite length_reverse, length_le_bytes. unfold u32.
  change (256 ^ Z.of_nat 4) with 4294967296.
  rewrite (Z.mul_comm 4294967296), Z.mod_add by lia. done.
Qed.

(** A listing of extended attributes always asks for a reply of at most 0
    bytes, whatever room the caller has. *)
Theorem listextattr_zero_reply_size junk server volid dirid bitmap name maxsize :
  known_encoding server -> (length name <= path_limit server)%nat -> 0 <= maxsize < 2 ^ 32 ->
  afp_listextattr junk server volid dirid bitmap name maxsize =
    Some (afp_call (wire_fixed afpListExtAttrs 0 volid dirid ++ be_bytes 2 bitmap
            ++ be_bytes 2 0 ++ be_bytes 4 0 ++ be_bytes 4 0 ++ path_field server name)
            afpListExtAttrs).
Proof.
  intros Hk Hn Hm. unfold afp_listextattr. rewrite path_request_spec by done.
  cbn [mbind option_bind]. rewrite low_half_hton64 by done.
  rewrite !st16_htons, st32_htonl, !st8_byte, <- !app_assoc by done. done.
Qed.

Lemma listextattr_zero_reply_size_witness :
  afp_listextattr [] utf8_server 7 2 0 [97] 1024 =
    Some (afp_call ([72; 0; 0; 7; 0; 0; 0; 2; 0; 0; 0; 0; 0; 0; 0; 0; 0; 0; 0; 0]
            ++ [3; 8; 0; 1; 3; 0; 1; 97]) afpListExtAttrs).
Proof.
  apply (listextattr_zero_reply_size [] utf8_server 7 2 0 [97] 1024).
  - by left.
  - vm_compute; lia.
  - done.
Defined.

End ProtoVolume.
