(* ===== verification/Client.v ===== *)
(** * The client: programs over a session with the server

    The file system calls of lib/did.c, lib/lowlevel.c, lib/resource.c and
    lib/midlevel.c are sequences of AFP calls with state of their own in between.
    They are written in a monad: a program may change the state of the client and
    ask its environment, which is the server behind [dsi_send] and the operating
    system.  Programs are data, so that a statement about one covers every
    behaviour of the environment. *)

From S2P Require Import Prelude Constants Types Utils Dsi ProtoFiles.

Module Client.
Import Utils Dsi ProtoFiles.

(** ** The environment *)

(** What [dsi_send] brings back: its return value; the packet the handler of the
    reply is run on with what lies behind it in the receive buffer, if one came; and
    the data that went to the buffer of a read. *)
Record answer := mk_answer {
  an_rc : Z; an_packet : option (list Z * list Z); an_data : list Z }.

(** What the front ends ask of their own machine.  The results are a return value, the mode
    of a file or [errno], and the bytes read.  [LocalPselect] brings the descriptors that
    are ready as its list; [LocalMeanwhile] the signals that were delivered while the
    program waited, with 0 for the end of the thread that ends the program.  [LocalExists]
    is access() with F_OK, [LocalReopen] freopen() for appending.  [LocalFork] is 0 in the
    new process; [LocalExec] is 0 when the program was replaced. *)
Inductive local_call : Set :=
| LocalStat (path : list Z)
| LocalAccess (path : list Z)
| LocalOpen (path : list Z) (flags mode : Z)
| LocalRead (fd n : Z)
| LocalWrite (fd : Z) (bytes : list Z)
| LocalClose (fd : Z)
| LocalChmod (path : list Z) (mode : Z)
| LocalChown (path : list Z) (uid gid : Z)
| LocalMkdir (path : list Z) (mode : Z)
| LocalChdir (path : list Z)
| LocalGetuid
| LocalGetpass
| LocalHost (name : list Z)
| LocalUnixSocket
| LocalUnixConnect (fd : Z) (path : list Z)
| LocalBind (fd : Z) (path : list Z)
| LocalListen (fd backlog : Z)
| LocalAccept (fd : Z)
| LocalSelect (fd seconds : Z)
| LocalPselect (max_fd : Z) (fds : list Z) (seconds : Z)
| LocalMeanwhile
| LocalThread
| LocalUnlink (path : list Z)
| LocalExists (path : list Z)
| LocalFork
| LocalExec (file : list Z)
| LocalGetenv (name : list Z)
| LocalSetegid (gid : Z)
| LocalSeteuid (uid : Z)
| LocalGetpwnam (name : list Z)
| LocalGetgrnam (name : list Z)
| LocalDup (fd : Z)
| LocalDup2 (fd newfd : Z)
| LocalReopen (path : list Z) (fd : Z)
| LocalFuseExit (fuse : Z)
| LocalKill (thread signum : Z)
| LocalJoin (thread : Z).

Record local_result := mk_local { lo_ret : Z; lo_mode : Z; lo_bytes : list Z }.

(** [struct addrinfo]; the addresses of [*ai_addr] and of [ai_canonname], and the bytes
    of [*ai_addr]. *)
Record addrinfo : Set := mk_addrinfo {
  ai_family : Z; ai_socktype : Z; ai_protocol : Z; ai_addr : Z; ai_canonname : Z;
  ai_sockaddr : list Z }.

(** [Memory n] are the contents of [n] bytes of fresh memory, [Uninitialised] those of
    a local [struct afp_file_info] and [Unset] of a local integer, [Address] is the address of a block or a local
    variable, [Free] its end; [Random n] are [n] bytes of libgcrypt's generator.  The
    calls for sockets come back with their return value and [errno], [Getaddrinfo] with
    its list, [Getpwuid] with user and group, [Timeofday] with seconds and microseconds. *)
Inductive env : Set -> Type :=
| Exchange (r : request) : env answer
| Memory (n : Z) : env (list Z)
| Uninitialised : env afp_file_info
| Unset : env Z
| Address : env Z
| Free (p : Z) : env unit
| Random (n : Z) : env (list Z)
| Gettimeofday : env Z
| Getgid : env Z
| Geteuid : env Z
| Sleep (seconds : Z) : env unit
| Local (call : local_call) : env local_result
| Getaddrinfo (hostname service : list Z) : env (option (list addrinfo))
| OpenSocket (family socktype protocol : Z) : env (Z * Z)
| ConnectSocket (fd : Z) (address : list Z) : env (Z * Z)
| CloseSocket (fd : Z) : env (Z * Z)
| Getpwuid (uid : Z) : env (option (Z * Z))
| Timeofday : env (Z * Z).

(** [Crash] is an access to memory that is not there, [NoFuel] a loop that has not
    ended within the fuel it was given. *)
Inductive prog (A : Type) : Type :=
| Ret (a : A)
| Ask {X : Set} (e : env X) (k : X -> prog A)
| Crash
| NoFuel.
Arguments Ret {A} a.
Arguments Ask {A X} e k.
Arguments Crash {A}.
Arguments NoFuel {A}.

Fixpoint prog_bind {A B} (p : prog A) (f : A -> prog B) : prog B :=
  match p with
  | Ret a => f a
  | Ask e k => Ask e (fun x => prog_bind (k x) f)
  | Crash => Crash
  | NoFuel => NoFuel
  end.

(** ** The state of the client *)

(** [struct did_cache_entry]: the directory's full name, its id, and the second it
    was stored. *)
Record did_cache_entry := mk_did { de_dirname : list Z; de_did : Z; de_time : Z }.

(** A volume with its server, its directory cache and the counters of that, and
    the addresses on the list of open forks. *)
Record client := mk_client {
  cl_server : afp_server;
  cl_volume : afp_volume;
  cl_dids : list did_cache_entry;
  cl_hits : Z;
  cl_misses : Z;
  cl_expired : Z;
  cl_force_removed : Z;
  cl_forks : list Z }.

Definition set_server x c :=
  mk_client x (cl_volume c) (cl_dids c) (cl_hits c) (cl_misses c) (cl_expired c)
    (cl_force_removed c) (cl_forks c).
Definition set_volume x c :=
  mk_client (cl_server c) x (cl_dids c) (cl_hits c) (cl_misses c) (cl_expired c)
    (cl_force_removed c) (cl_forks c).
Definition set_dids x c :=
  mk_client (cl_server c) (cl_volume c) x (cl_hits c) (cl_misses c) (cl_expired c)
    (cl_force_removed c) (cl_forks c).
Definition set_stats hits misses expired force_removed c :=
  mk_client (cl_server c) (cl_volume c) (cl_dids c) hits misses expired force_removed
    (cl_forks c).
Definition set_forks x c :=
  mk_client (cl_server c) (cl_volume c) (cl_dids c) (cl_hits c) (cl_misses c)
    (cl_expired c) (cl_force_removed c) x.

(** ** The monad *)

Definition M (A : Type) : Type := client -> prog (A * client).

#[export] Instance M_ret : MRet M := fun A a c => Ret (a, c).
#[export] Instance M_bind : MBind M :=
  fun A B f m c => prog_bind (m c) (fun r => f r.1 r.2).

Definition get : M client := fun c => Ret (c, c).
Definition modify (f : client -> client) : M unit := fun c => Ret (tt, f c).
Definition ask {X : Set} (e : env X) : M X := fun c => Ask e (fun x => Ret (x, c)).
Definition crash {A} : M A := fun _ => Crash.
Definition out_of_fuel {A} : M A := fun _ => NoFuel.
Definition lift {A} (o : option A) : M A :=
  match o with Some a => mret a | None => crash end.
Definition server : M afp_server := c ← get; mret (cl_server c).
Definition volume : M afp_volume := c ← get; mret (cl_volume c).

(** [switch (x) { case ...: ... default: ... }] with a [break] in every case. *)
Fixpoint switch {A} (x : Z) (cases : list (list Z * A)) (default : A) : A :=
  match cases with
  | [] => default
  | (labels, a) :: cases =>
    if existsb (Z.eqb x) labels then a else switch x cases default
  end.

(** ** Running a program *)

Inductive outcome (A : Type) := Done (a : A) | Crashed | Starved.
Arguments Done {A} a.
Arguments Crashed {A}.
Arguments Starved {A}.

(** A server and an operating system with a state of their own. *)
Definition handler (W : Type) : Type := forall X : Set, env X -> W -> X * W.

Definition requests_of {X : Set} (e : env X) : list request :=
  match e with Exchange r => [r] | _ => [] end.

(** The requests handed to [dsi_send] in order, the result, and the environment
    after it. *)
Fixpoint run {W A} (h : handler W) (p : prog A) (w : W) : list request * outcome A * W :=
  match p with
  | Ret a => ([], Done a, w)
  | Ask e k =>
    let '(x, w) := h _ e w in
    let '(rs, o, w) := run h (k x) w in (requests_of e ++ rs, o, w)
  | Crash => ([], Crashed, w)
  | NoFuel => ([], Starved, w)
  end.

(** An environment that is only a server: fresh memory is zero, time stands still. *)
Definition serving {W} (f : request -> W -> answer * W) : handler W :=
  fun X e w =>
    match e in env X return X * W with
    | Exchange r => f r w
    | Memory n | Random n => (replicate (Z.to_nat n) 0, w)
    | Uninitialised => (zero_file_info, w)
    | Unset | Address | Gettimeofday | Getgid | Geteuid => (0, w)
    | Free _ | Sleep _ => (tt, w)
    | Local _ => (mk_local 0 0 [], w)
    | Getaddrinfo _ _ => (None, w)
    | OpenSocket _ _ _ | ConnectSocket _ _ | CloseSocket _ | Timeofday => ((0, 0), w)
    | Getpwuid _ => (Some (0, 0), w)
    end.

(** ** Specifications of programs

    A contract says which requests a program may send and what it may rely on in
    the answers of the environment, and whether it may crash. *)
Record contract := mk_contract {
  guarantee : request -> Prop;
  rely : forall X : Set, env X -> X -> Prop;
  may_crash : Prop;
  may_starve : Prop }.

Definition guarantees (C : contract) {X : Set} (e : env X) : Prop :=
  Forall (guarantee C) (requests_of e).

Fixpoint wp (C : contract) {A} (p : prog A) (Q : A -> Prop) : Prop :=
  match p with
  | Ret a => Q a
  | Ask e k => guarantees C e /\ forall x, rely C _ e x -> wp C (k x) Q
  | Crash => may_crash C
  | NoFuel => may_starve C
  end.

(** The specification of a monadic program from a state. *)
Definition hoare (C : contract) (c : client) {A} (m : M A) (Q : A -> client -> Prop) : Prop :=
  wp C (m c) (fun r => Q r.1 r.2).

Lemma wp_mono C {A} (p : prog A) (Q Q' : A -> Prop) :
  (forall a, Q a -> Q' a) -> wp C p Q -> wp C p Q'.
Proof. intros HQ. induction p; simpl; [apply HQ| |done|done]. intros [? ?]. eauto. Qed.

Lemma wp_bind C {A B} (p : prog A) (f : A -> prog B) (Q : B -> Prop) :
  wp C p (fun a => wp C (f a) Q) -> wp C (prog_bind p f) Q.
Proof. induction p; simpl; [done| |done|done]. intros [? ?]. eauto. Qed.

Lemma wp_bind_inv C {A B} (p : prog A) (f : A -> prog B) (Q : B -> Prop) :
  wp C (prog_bind p f) Q -> wp C p (fun a => wp C (f a) Q).
Proof. induction p; simpl; [done| |done|done]. intros [? ?]. eauto. Qed.

(** A program keeps to a contract that allows its requests and promises as much in the
    answers to them. *)
Lemma wp_refine C C' {A} (p : prog A) (Q : A -> Prop) :
  (forall X (e : env X), guarantees C e ->
     guarantees C' e /\ forall x, rely C' X e x -> rely C X e x) ->
  (may_crash C -> may_crash C') -> (may_starve C -> may_starve C') ->
  wp C p Q -> wp C' p Q.
Proof.
  intros He Hc Hs. induction p; simpl; [done| |done|done]. intros [H1 H2].
  destruct (He _ e H1) as [H3 H4]. split; [done|]. eauto.
Qed.

(** In particular to one that allows more requests and promises more. *)
Lemma wp_weaken C C' {A} (p : prog A) (Q : A -> Prop) :
  (forall r, guarantee C r -> guarantee C' r) ->
  (forall X (e : env X) x, rely C' X e x -> rely C X e x) ->
  (may_crash C -> may_crash C') -> (may_starve C -> may_starve C') ->
  wp C p Q -> wp C' p Q.
Proof.
  intros Hg Hr. apply wp_refine. intros X e He. split; [by eapply Forall_impl|by apply Hr].
Qed.

Section hoare.
Context (C : contract).

Lemma hoare_mono c {A} (m : M A) (Q Q' : A -> client -> Prop) :
  (forall a c', Q a c' -> Q' a c') -> hoare C c m Q -> hoare C c m Q'.
Proof. intros H. apply wp_mono. intros [a c']. apply H. Qed.

Lemma hoare_ret c {A} (a : A) (Q : A -> client -> Prop) : Q a c -> hoare C c (mret a) Q.
Proof. done. Qed.

Lemma hoare_bind c {A B} (m : M A) (f : A -> M B) (Q : B -> client -> Prop) :
  hoare C c m (fun a c' => hoare C c' (f a) Q) -> hoare C c (m ≫= f) Q.
Proof. apply wp_bind. Qed.

Lemma hoare_get c Q : Q c c -> hoare C c get Q.
Proof. done. Qed.

Lemma hoare_modify c f Q : Q tt (f c) -> hoare C c (modify f) Q.
Proof. done. Qed.

Lemma hoare_ask c {X : Set} (e : env X) (Q : X -> client -> Prop) :
  guarantees C e -> (forall x, rely C _ e x -> Q x c) -> hoare C c (ask e) Q.
Proof. done. Qed.

Lemma hoare_lift c {A} (o : option A) Q :
  (forall a, o = Some a -> Q a c) -> (o = None -> may_crash C) -> hoare C c (lift o) Q.
Proof. destruct o; simpl; intros H1 H2; [by apply H1|by apply H2]. Qed.

End hoare.

(** An environment that keeps to the contract, in the states [I]. *)
Definition keeps (C : contract) {W} (h : handler W) (I : W -> Prop) : Prop :=
  forall X (e : env X) w, I w -> guarantees C e ->
    rely C X e (h X e w).1 /\ I (h X e w).2.

Definition allowed (C : contract) {A} (Q : A -> Prop) (o : outcome A) : Prop :=
  match o with Done a => Q a | Crashed => may_crash C | Starved => may_starve C end.

(** The rule is sound: every run in such an environment sends only allowed
    requests and ends as the specification says. *)
Lemma wp_run C {W A} (h : handler W) (I : W -> Prop) (p : prog A) (Q : A -> Prop) w :
  keeps C h I -> I w -> wp C p Q ->
  Forall (guarantee C) (run h p w).1.1 /\ allowed C Q (run h p w).1.2 /\ I (run h p w).2.
Proof.
  intros Hh. revert w. induction p as [a|X e k IH| |]; intros w Hw Hp; simpl in *.
  - done.
  - destruct Hp as [Hg Hk]. destruct (Hh X e w Hw Hg) as [Hr Hw'].
    destruct (h X e w) as [x w'] eqn:E. simpl in *.
    destruct (IH x w' Hw' (Hk x Hr)) as (H1 & H2 & H3).
    destruct (run h (k x) w') as [[rs o] w'']. simpl in *.
    split_and!; [by apply Forall_app|done|done].
  - done.
  - done.
Qed.

(** The same promises for other requests. *)
Definition only (G : request -> Prop) (C : contract) : contract :=
  {| guarantee := G; rely := rely C; may_crash := False; may_starve := False |}.

(** A program that sends requests of [G], then [last], and nothing behind it. *)
Fixpoint wp_last (C : contract) (G : request -> Prop) (last : request) {A} (p : prog A)
    (Q : A -> Prop) : Prop :=
  match p with
  | Ask e k =>
    (requests_of e = [last] /\ forall x, rely C _ e x -> wp (only (fun _ => False) C) (k x) Q) \/
    (Forall G (requests_of e) /\ forall x, rely C _ e x -> wp_last C G last (k x) Q)
  | _ => False
  end.

Definition hoare_last (C : contract) (G : request -> Prop) (last : request) (c : client) {A}
    (m : M A) (Q : A -> client -> Prop) : Prop :=
  wp_last C G last (m c) (fun r => Q r.1 r.2).

Section last.
Context (C : contract) (G : request -> Prop) (last : request).

Lemma wp_before_last {A B} (p : prog A) (f : A -> prog B) (Q : B -> Prop) :
  wp (only G C) p (fun a => wp_last C G last (f a) Q) -> wp_last C G last (prog_bind p f) Q.
Proof. induction p; simpl; [done| |done|done]. intros [? ?]. right. eauto. Qed.

Lemma wp_behind_last {A B} (p : prog A) (f : A -> prog B) (Q : B -> Prop) :
  wp_last C G last p (fun a => wp (only (fun _ => False) C) (f a) Q) ->
  wp_last C G last (prog_bind p f) Q.
Proof.
  induction p; simpl; [done| |done|done]. intros [[? ?]|[? ?]]; [left|right]; eauto using wp_bind.
Qed.

Lemma hoare_before_last c {A B} (m : M A) (f : A -> M B) (Q : B -> client -> Prop) :
  hoare (only G C) c m (fun a c' => hoare_last C G last c' (f a) Q) ->
  hoare_last C G last c (m ≫= f) Q.
Proof. apply wp_before_last. Qed.

Lemma hoare_behind_last c {A B} (m : M A) (f : A -> M B) (Q : B -> client -> Prop) :
  hoare_last C G last c m (fun a c' => hoare (only (fun _ => False) C) c' (f a) Q) ->
  hoare_last C G last c (m ≫= f) Q.
Proof. apply wp_behind_last. Qed.

Lemma hoare_last_ask c (Q : answer -> client -> Prop) :
  (forall a, rely C _ (Exchange last) a -> Q a c) ->
  hoare_last C G last c (ask (Exchange last)) Q.
Proof. intros H. left. split; [done|]. intros a Ha. by apply H. Qed.

(** Every run sends [last] once, behind requests of [G], and returns. *)
Lemma wp_last_run {W A} (h : handler W) (I : W -> Prop) (p : prog A) (Q : A -> Prop) w :
  keeps C h I -> I w -> guarantee C last -> (forall r, G r -> guarantee C r) ->
  wp_last C G last p Q ->
  exists rs a, (run h p w).1 = (rs ++ [last], Done a) /\ Forall G rs /\ Q a.
Proof using Type.
  intros Hh Hw Hlast HG. revert w Hw. induction p as [|X e k IH| |]; intros w Hw Hp; simpl in *; try done.
  assert (guarantees C e) as He.
  { destruct Hp as [[E _]|[H _]]; unfold guarantees; [rewrite E; by apply Forall_singleton|by eapply Forall_impl]. }
  destruct (Hh X e w Hw He) as [Hr Hw']. destruct (h X e w) as [x w1]. simpl in *.
  destruct Hp as [[E Hk]|[HGe Hk]].
  - specialize (Hk x Hr).
    assert (keeps (only (fun _ => False) C) h I) as Hq.
    { intros Y e' w2 Hw2 He'. apply Hh; [done|]. by eapply Forall_impl; [exact He'|]. }
    destruct (wp_run _ h I _ _ w1 Hq Hw' Hk) as (Hnil & Ha & _).
    destruct (run h (k x) w1) as [[rs o] w2]. simpl in *. destruct o as [a| |]; [|done|done].
    exists [], a. rewrite E. destruct Hnil; [done|done].
  - destruct (IH x w1 Hw' (Hk x Hr)) as (rs & a & Hrun & Hrs & Ha).
    destruct (run h (k x) w1) as [[rs' o] w2]. simpl in *. injection Hrun as -> ->.
    exists (requests_of e ++ rs), a. rewrite app_assoc. split_and!; [done|by apply Forall_app|done].
Qed.

End last.

(** Programs that use nothing of the files and sockets of the local machine, and what
    they rely on. *)
Definition is_local {X : Set} (e : env X) : bool :=
  match e with
  | Local _ | Getaddrinfo _ _ | OpenSocket _ _ _ | ConnectSocket _ _ | CloseSocket _ => true
  | _ => false
  end.

Fixpoint remote {A} (p : prog A) : Prop :=
  match p with
  | Ask e k => is_local e = false /\ forall x, remote (k x)
  | _ => True
  end.

Definition keeps_remote (C : contract) {W} (h : handler W) (I : W -> Prop) : Prop :=
  forall X (e : env X) w, is_local e = false -> I w -> guarantees C e ->
    rely C X e (h X e w).1 /\ I (h X e w).2.

Lemma wp_run_remote C {W A} (h : handler W) (I : W -> Prop) (p : prog A) (Q : A -> Prop) w :
  keeps_remote C h I -> I w -> remote p -> wp C p Q ->
  allowed C Q (run h p w).1.2 /\ I (run h p w).2.
Proof.
  intros Hh. revert w. induction p as [a|X e k IH| |]; intros w Hw Hr Hp; simpl in *; try done.
  destruct Hp as [Hg Hk], Hr as [Hl Hr]. destruct (Hh X e w Hl Hw Hg) as [Hx Hw'].
  destruct (h X e w) as [x w'] eqn:E. simpl in *.
  destruct (IH x w' Hw' (Hr x) (Hk x Hx)) as (H1 & H2).
  by destruct (run h (k x) w') as [[rs o] w''].
Qed.

Lemma remote_bind {A B} (p : prog A) (f : A -> prog B) :
  remote p -> (forall a, remote (f a)) -> remote (prog_bind p f).
Proof. intros Hp Hf. induction p as [a|X e k IH| |]; simpl; [done| |done|done].
  destruct Hp as [He Hk]. split; [done|]. intros x. by apply IH. Qed.

(** The same of a monadic program. *)
Definition remotely {A} (m : M A) : Prop := forall c, remote (m c).

Create HintDb remote discriminated.

Lemma remotely_ret {A} (a : A) : remotely (mret a).
Proof. done. Qed.
Lemma remotely_bind {A B} (m : M A) (f : A -> M B) :
  remotely m -> (forall a, remotely (f a)) -> remotely (m ≫= f).
Proof. intros Hm Hf c. apply remote_bind; [apply Hm|]. intros [a c']. apply Hf. Qed.
Lemma remotely_get : remotely get.
Proof. done. Qed.
Lemma remotely_modify f : remotely (modify f).
Proof. done. Qed.
Lemma remotely_ask {X : Set} (e : env X) : is_local e = false -> remotely (ask e).
Proof. done. Qed.
Lemma remotely_lift {A} (o : option A) : remotely (lift o).
Proof. by destruct o. Qed.
Lemma remotely_crash {A} : remotely (@crash A).
Proof. done. Qed.
#[export] Hint Resolve remotely_ret remotely_get remotely_modify remotely_lift remotely_crash
  : remote.

(** Take a program apart into its calls. *)
Ltac solve_remote :=
  repeat first
    [ solve [auto with remote nocore]
    | apply remotely_bind; [|intros ?]
    | apply remotely_ask; reflexivity
    | progress case_match ].

(** ** Runs step by step *)

Lemma run_bind {W A B} (h : handler W) (p : prog A) (f : A -> prog B) w rs a w' :
  run h p w = (rs, Done a, w') ->
  run h (prog_bind p f) w =
    let '(rs', o, w'') := run h (f a) w' in (rs ++ rs', o, w'').
Proof.
  revert w rs. induction p as [a'|X e k IH| |]; intros w rs Hp; simpl in *; simplify_eq.
  - simpl. by destruct (run h (f a) w') as [[? ?] ?].
  - destruct (h X e w) as [x w1]. destruct (run h (k x) w1) as [[rs1 o1] w2] eqn:E.
    simplify_eq. rewrite (IH x w1 rs1 E).
    destruct (run h (f a) w') as [[? ?] ?]. by rewrite app_assoc.
Qed.

(** A program that ends in the state it started in. *)
Definition runs {W A} (h : handler W) (m : M A) (c : client) (w : W) (rs : list request) (a : A)
    (w' : W) : Prop :=
  run h (m c) w = (rs, Done (a, c), w').

Section runs.
Context {W : Type} (h : handler W).

Lemma runs_ret {A} (a : A) c w : runs h (mret a) c w [] a w.
Proof. done. Qed.

Lemma runs_bind {A B} (m : M A) (f : A -> M B) c w rs a w' rs' b w'' :
  runs h m c w rs a w' -> runs h (f a) c w' rs' b w'' ->
  runs h (m ≫= f) c w (rs ++ rs') b w''.
Proof.
  unfold runs. intros Hm Hf. change ((m ≫= f) c) with (prog_bind (m c) (fun r => f r.1 r.2)).
  rewrite (run_bind h (m c) (fun r => f r.1 r.2) w rs _ w' Hm). cbn [fst snd]. by rewrite Hf.
Qed.

Lemma runs_ask {X : Set} (e : env X) c w :
  runs h (ask e) c w (requests_of e) (h X e w).1 (h X e w).2.
Proof. unfold runs, ask. simpl. destruct (h X e w). by rewrite app_nil_r. Qed.

Lemma runs_get c w : runs h get c w [] c w.
Proof. done. Qed.

Lemma runs_server c w : runs h server c w [] (cl_server c) w.
Proof. done. Qed.

Lemma runs_volume c w : runs h volume c w [] (cl_volume c) w.
Proof. done. Qed.

End runs.

(** ** The transport

    What [Dsi] promises to the handlers of replies: no packet is shorter than a DSI
    header. *)
Class Transport {W} (h : handler W) : Prop :=
  framed : forall r w packet behind,
    an_packet (h answer (Exchange r) w).1 = Some (packet, behind) -> (16 <= length packet)%nat.

End Client.
