(* ===== verification/Calls.v ===== *)
(** * The AFP calls

    One program per call of lib/proto_*.c that the file system uses: it builds the
    request, hands it to [dsi_send] and runs the handler of the reply.  The requests
    and the handlers are those of [ProtoFiles] and [ProtoVolume]; the names are the
    protocol's. *)

From S2P Require Import Prelude Constants Types Utils Dsi ReplyBlock ProtoFiles ProtoVolume.
From S2P Require Import Client.

Module Calls.
Import Utils Dsi ReplyBlock ProtoFiles ProtoVolume Client.

(** [dsi_send] of a request. *)
Definition send (r : request) : M answer := ask (Exchange r).

Definition junk : M (list Z) := ask (Memory AFP_MAX_PATH).

(** The handler of a reply runs on the packet, if one came, and updates what the
    caller passed as [other]; its own return value is dropped. *)
Definition handle {A} (handler : list Z -> Z -> option (Z * A)) (a : answer) (other : A)
    : M A :=
  match an_packet a with
  | None => mret other
  | Some (packet, behind) =>
    r ← lift (handler (packet ++ behind) (Z.of_nat (length packet))); mret r.2
  end.

(** ** Calls that name an object by a directory and a path *)

Definition FPGetFileDirParms (did filebitmap dirbitmap : Z) (path : list Z)
    (fp : afp_file_info) : M (Z * afp_file_info) :=
  j ← junk; s ← server; v ← volume;
  r ← lift (afp_getfiledirparms j s (vo_volid v) did filebitmap dirbitmap (Some path));
  match r with
  | None => mret (-1, fp)
  | Some r =>
    a ← send r;
    fp ← handle (fun buf size => afp_getfiledirparms_reply buf size fp) a fp;
    mret (an_rc a, fp)
  end.

Definition FPCreateFile (flag did : Z) (path : list Z) : M Z :=
  j ← junk; s ← server; v ← volume;
  r ← lift (afp_createfile j s (vo_volid v) flag did path); a ← send r; mret (an_rc a).

Definition FPDelete (did : Z) (path : list Z) : M Z :=
  j ← junk; s ← server; v ← volume;
  r ← lift (afp_delete j s (vo_volid v) did path); a ← send r; mret (an_rc a).

(** The id of the new directory goes to [other] and is not used by the callers. *)
Definition FPCreateDir (did : Z) (path : list Z) : M Z :=
  j ← junk; s ← server; v ← volume;
  r ← lift (afp_createdir j s (vo_volid v) did path);
  a ← send r;
  _ ← handle afp_createdir_reply a 0;
  mret (an_rc a).

Definition FPMoveAndRename (src_did dst_did : Z) (src_path : list Z)
    (dst_path : option (list Z)) (new_name : list Z) : M Z :=
  j ← junk; s ← server; v ← volume;
  r ← lift (afp_moveandrename j s (vo_volid v) src_did dst_did src_path dst_path new_name);
  a ← send r; mret (an_rc a).

Definition FPSetFileParms (did : Z) (path : list Z) (bitmap : Z) (fp : afp_file_info) : M Z :=
  s ← server; v ← volume;
  r ← lift (afp_setfileparms s (vo_volid v) did path bitmap fp); a ← send r; mret (an_rc a).

Definition FPSetDirParms (did : Z) (path : list Z) (bitmap : Z) (fp : afp_file_info) : M Z :=
  s ← server; v ← volume;
  r ← lift (afp_setdirparms s (vo_volid v) did path bitmap fp); a ← send r; mret (an_rc a).

Definition FPSetFileDirParms (did : Z) (path : list Z) (bitmap : Z) (fp : afp_file_info)
    : M Z :=
  s ← server; v ← volume;
  r ← lift (afp_setfiledirparms s (vo_volid v) did path bitmap fp);
  a ← send r; mret (an_rc a).

(** The list the handler of an enumeration stores; NULL is the empty list. *)
Definition listing (handler : list Z -> Z -> option (Z * option (list afp_file_info)))
    (a : answer) : M (list afp_file_info) :=
  files ← handle handler a None; mret (default [] files).

Definition FPEnumerate (dirid filebitmap dirbitmap reqcount startindex : Z) (path : list Z)
    : M (Z * list afp_file_info) :=
  j ← junk; s ← server; v ← volume;
  r ← lift (afp_enumerate j s (vo_volid v) dirid filebitmap dirbitmap reqcount startindex
              path);
  a ← send r; files ← listing afp_enumerate_reply a; mret (an_rc a, files).

Definition FPEnumerateExt2 (dirid filebitmap dirbitmap reqcount startindex : Z)
    (path : list Z) : M (Z * list afp_file_info) :=
  j ← junk; s ← server; v ← volume;
  r ← lift (afp_enumerateext2 j s (vo_volid v) dirid filebitmap dirbitmap reqcount startindex
              path);
  a ← send r; files ← listing afp_enumerateext2_reply a; mret (an_rc a, files).

(** ** Calls on forks *)

Definition FPOpenFork (forktype dirid accessmode : Z) (filename : list Z)
    (fp : afp_file_info) : M (Z * afp_file_info) :=
  j ← junk; s ← server; v ← volume;
  r ← lift (afp_openfork j s (vo_volid v) forktype dirid accessmode filename);
  a ← send r;
  fp ← handle (fun buf size => afp_openfork_reply buf size fp) a fp;
  mret (an_rc a, fp).

Definition FPCloseFork (forkid : Z) : M Z :=
  a ← send (afp_closefork forkid); mret (an_rc a).

Definition FPFlushFork (forkid : Z) : M Z :=
  a ← send (afp_flushfork forkid); mret (an_rc a).

Definition FPSetForkParms (forkid bitmap len : Z) : M Z :=
  a ← send (afp_setforkparms forkid bitmap len); mret (an_rc a).

(** The generated offset goes to [other] and is not used by the callers. *)
Definition FPByteRangeLock (flag forkid offset len : Z) : M Z :=
  a ← send (afp_byterangelock flag forkid offset len);
  _ ← handle afp_byterangelock_reply a 0; mret (an_rc a).

Definition FPByteRangeLockExt (flag forkid offset len : Z) : M Z :=
  a ← send (afp_byterangelockext flag forkid offset len);
  _ ← handle afp_byterangelockext_reply a 0; mret (an_rc a).

(** [dsi_recv] stores the data of a read at the start of the buffer, and no more of
    it than [maxsize]. *)
Definition fill (a : answer) (rx : afp_rx_buffer) : option afp_rx_buffer :=
  let bytes := take (Z.to_nat (rx_maxsize rx)) (an_data a) in
  data ← blit 0 bytes (rx_data rx);
  Some (mk_rx (Z.of_nat (length bytes)) (rx_maxsize rx) data (rx_errorcode rx)).

Definition FPRead (forkid offset count : Z) (rx : afp_rx_buffer) : M (Z * afp_rx_buffer) :=
  a ← send (afp_read forkid offset count); rx ← lift (fill a rx); mret (an_rc a, rx).

Definition FPReadExt (forkid offset count : Z) (rx : afp_rx_buffer)
    : M (Z * afp_rx_buffer) :=
  a ← send (afp_readext forkid offset count); rx ← lift (fill a rx); mret (an_rc a, rx).

(** The count in the reply is not used by the callers. *)
Definition FPWrite (forkid offset reqcount : Z) (data : list Z) : M Z :=
  j ← junk;
  r ← lift (afp_write j forkid offset reqcount data);
  a ← send r; _ ← handle afp_write_reply a 0; mret (an_rc a).

Definition FPWriteExt (forkid offset reqcount : Z) (data : list Z) : M Z :=
  j ← junk;
  r ← lift (afp_writeext j forkid offset reqcount data);
  a ← send r; _ ← handle afp_writeext_reply a 0; mret (an_rc a).

(** ** Calls on the volume, the desktop database and users *)

Definition FPGetVolParms (bitmap : Z) : M Z :=
  v ← volume;
  a ← send (afp_getvolparms (vo_volid v) bitmap);
  v ← handle (fun buf size => r ← afp_getvolparms_reply buf size (Some v);
                              Some (r.1, default v r.2)) a v;
  modify (set_volume v);; mret (an_rc a).

Definition FPOpenDT : M Z :=
  v ← volume;
  a ← send (afp_opendt (vo_volid v));
  refnum ← handle (fun buf size => afp_opendt_reply buf size (vo_dtrefnum v)) a (vo_dtrefnum v);
  modify (fun c => set_volume (set_vo_dtrefnum refnum (cl_volume c)) c);; mret (an_rc a).

Definition FPGetComment (did : Z) (path : list Z) (comment : sized_buffer)
    : M (Z * sized_buffer) :=
  j ← junk; s ← server; v ← volume;
  r ← lift (afp_getcomment j s (vo_dtrefnum v) did path);
  a ← send r;
  comment ← handle (fun buf size => afp_getcomment_reply buf size comment) a comment;
  mret (an_rc a, comment).

(** The return code and the size stored through [size]. *)
Definition FPAddComment (did : Z) (path comment : list Z) : M (Z * Z) :=
  s ← server; v ← volume;
  '(r, size) ← lift (afp_addcomment s (vo_dtrefnum v) did path comment);
  a ← send r; mret (an_rc a, size).

Definition FPGetUserInfo (thisuser userid bitmap newuid newgid : Z) : M (Z * (Z * Z)) :=
  uid ← ask Unset; gid ← ask Unset;
  a ← send (afp_getuserinfo thisuser userid bitmap);
  uidgid ← handle afp_getuserinfo_reply a (uid, gid);
  mret (an_rc a, afp_getuserinfo_result bitmap uidgid newuid newgid).

Definition FPMapID (subfunction id : Z) (name : list Z) : M (Z * list Z) :=
  a ← send (afp_mapid subfunction id);
  name ← handle (fun buf size => afp_mapid_reply buf size name) a name;
  mret (an_rc a, name).

End Calls.
