(* ===== verification/Did.v ===== *)
(** * Directory ids: lib/did.c

    The cache from full directory names to ids, and the walk of [get_dirid] from the
    nearest cached ancestor down to the parent of a path. *)

From S2P Require Import Prelude Constants Types Utils Dsi ReplyBlock ProtoFiles Client.
From S2P Require Import Calls.

Module Did.
Import Utils Dsi ReplyBlock ProtoFiles Client Calls.

(** ** The cache *)

Definition timeout : Z := 10.

(** [time.tv_sec > (p->time.tv_sec+timeout)] *)
Definition expired (now : Z) (e : did_cache_entry) : bool := de_time e + timeout <? now.

(** The blocks are freed, but [did_cache_base] is left as it is: the entries are
    still on the list. *)
Definition free_entire_did_cache : M Z := mret 0.

Fixpoint remove_entry (name : list Z) (l : list did_cache_entry)
    : option (list did_cache_entry) :=
  match l with
  | [] => None
  | d :: l => if bytes_eqb (de_dirname d) name then Some l else (d ::.) <$> remove_entry name l
  end.

Definition count_removed (c : client) : client :=
  set_stats (cl_hits c) (cl_misses c) (cl_expired c) (u64 (cl_force_removed c + 1)) c.

Definition remove_did_entry (name : list Z) : M Z :=
  c ← get;
  match remove_entry name (cl_dids c) with
  | Some l => modify (count_removed ∘ set_dids l);; mret 0
  | None => mret 0
  end.

Definition add_did_cache_entry (new_did : Z) (path : list Z) : M Z :=
  now ← ask Gettimeofday;
  modify (fun c => set_dids (mk_did path new_did now :: cl_dids c) c);; mret 0.

(** The loop of [find_dirid_by_fullname]: [rest] starts at [p], [front] is the list
    before it, whose last element is [prev], and [n] counts expired entries.  The
    result is the id, the list from [did_cache_base] on, the count, and whether it
    was a hit.

    [prev==base] holds for an empty [front] and for one of length one; in the second
    case the entry at the head is lost with the expired one.  After that branch the
    loop goes on behind the new head. *)
Fixpoint find_loop (now : Z) (path : list Z) (front rest : list did_cache_entry) (n : Z)
    : Z * list did_cache_entry * Z * bool :=
  match rest with
  | [] => (0, front, n, false)
  | p :: rest =>
    if expired now p then
      if decide (length front <= 1)%nat then
        if bytes_eqb (de_dirname p) path then (0, rest, n + 1, false)
        else match rest with
             | [] => (0, [], n + 1, false)
             | h :: rest => find_loop now path [h] rest (n + 1)
             end
      else
        match last front with
        | Some prev =>
          if bytes_eqb (de_dirname prev) path then (de_did prev, front ++ rest, n + 1, true)
          else find_loop now path front rest (n + 1)
        | None => (0, front ++ rest, n + 1, false)
        end
    else if bytes_eqb (de_dirname p) path then (de_did p, front ++ p :: rest, n, true)
    else find_loop now path (front ++ [p]) rest n
  end.

Definition find_dirid_by_fullname (path : list Z) : M Z :=
  now ← ask Gettimeofday;
  c ← get;
  let '(did, dids, n, hit) := find_loop now path [] (cl_dids c) 0 in
  modify (fun c => set_stats (u64 (cl_hits c + if hit : bool then 1 else 0)) (cl_misses c)
                     (u64 (cl_expired c + n)) (cl_force_removed c) (set_dids dids c));;
  mret did.

(** ** Directories *)

(** 1 when the object is a directory. *)
Definition is_dir (parentdid : Z) (path : list Z) : M Z :=
  fi ← ask Uninitialised;
  '(ret, fi) ← FPGetFileDirParms parentdid 0 0 path fi;
  mret (if ret =? 0 then fi_isdir fi else 0).

(** The [while ((p=strrchr(copy,'/')))] loop: the id of the nearest known ancestor
    and the length of its name.  On a path that does not start with a slash the loop
    ends with a null [p]. *)
Fixpoint find_ancestor (fuel : nat) (copy : list Z) : M (Z * nat) :=
  match fuel with
  | O => out_of_fuel
  | S fuel =>
    match last_index_of slash copy with
    | None => crash
    | Some O => mret (AFP_ROOT_DID, O)
    | Some i =>
      parent_did ← find_dirid_by_fullname (take i copy);
      if negb (parent_did =? 0) then mret (parent_did, i) else find_ancestor fuel (take i copy)
    end
  end.

Definition count_miss (c : client) : client :=
  set_stats (cl_hits c) (u64 (cl_misses c + 1)) (cl_expired c) (cl_force_removed c) c.

(** The [while ((p=strchr(p+1,'/')))] loop: [p2] is the position of the slash before
    the next component.  The return code is not looked at, and [fi] keeps what the
    round before left there when the call fails. *)
Fixpoint walk_down (fuel : nat) (path : list Z) (p2 : nat) (parent_did : Z)
    (fi : afp_file_info) : M Z :=
  match fuel with
  | O => out_of_fuel
  | S fuel =>
    match index_of slash (drop (S p2) path) with
    | None => mret parent_did
    | Some k =>
      let p := (S p2 + k)%nat in
      modify count_miss;;
      '(ret, fi) ← FPGetFileDirParms parent_did kFPNodeIDBit kFPNodeIDBit
                     (take (p - p2) (drop p2 path)) fi;
      if negb (fi_isdir fi =? 0) then
        add_did_cache_entry (fi_fileid fi) (take p path);;
        walk_down fuel path p (fi_fileid fi) fi
      else mret parent_did
    end
  end.

(** The return value, [basename] and [dirid]; the arrays hold [AFP_MAX_PATH] bytes. *)
Definition get_dirid (path : list Z) : M (Z * (list Z * Z)) :=
  match last_index_of slash path with
  | None => mret (-1, ([], 0))
  | Some i =>
    let basename := drop (S i) path in
    if decide (768 <= length basename)%nat then crash
    else if decide (i = 0)%nat then mret (0, (basename, AFP_ROOT_DID))
    else if decide (768 < S i)%nat then crash
    else
      let copy := take i path in
      newdid ← find_dirid_by_fullname copy;
      if negb (newdid =? 0) then mret (0, (basename, newdid))
      else
        '(parent_did, p) ← find_ancestor (S (length copy)) copy;
        fi ← ask Uninitialised;
        dirid ← walk_down (S (length path)) path p parent_did fi;
        mret (0, (basename, dirid))
  end.

(** ** The cache: what a lookup finds and keeps *)

Definition fresh_other (now : Z) (path : list Z) (e : did_cache_entry) : Prop :=
  expired now e = false /\ de_dirname e <> path.

Lemma last_in_tail {A} (l : list A) (x : A) :
  last l = Some x -> (1 < length l)%nat -> x ∈ tail l.
Proof.
  destruct l as [|a [|b l]]; simpl; try lia. intros H _.
  apply last_Some in H as [l' ->]. set_solver.
Qed.

Lemma find_loop_sound now path front rest n :
  Forall (fresh_other now path) (tail front) ->
  let '(did, dids, k, hit) := find_loop now path front rest n in
  dids `sublist_of` front ++ rest /\
  (if hit then exists e, e ∈ front ++ rest /\ e ∈ dids /\ expired now e = false /\
                         de_dirname e = path /\ de_did e = did
   else did = 0).
Proof.
  remember (length rest) as m eqn:Hm. assert (length rest <= m)%nat as Hle by lia. clear Hm.
  revert front rest n Hle.
  induction m as [|m IH]; intros front [|p rest] n Hle Hf; simpl in Hle; try lia;
    cbn [find_loop]; try (by rewrite app_nil_r).
  assert (forall e, de_dirname e = path \/ de_dirname e <> path) as Heq
    by (intros e; destruct (decide (de_dirname e = path)); auto).
  destruct (expired now p) eqn:Ep.
  - destruct (decide (length front <= 1)%nat) as [Hl|Hl].
    + unfold bytes_eqb. case_bool_decide as Hp.
      { split; [|done]. by apply sublist_inserts_l, sublist_cons. }
      destruct rest as [|h rest]; [split; [apply sublist_nil_l|done]|].
      specialize (IH [h] rest (n + 1)). simpl in Hle.
      destruct (find_loop now path [h] rest (n + 1)) as [[[d l] k] hit].
      destruct IH as [Hs Hh]; [lia|constructor|]. split.
      { etransitivity; [exact Hs|]. by apply sublist_inserts_l, sublist_cons. }
      destruct hit; [|done]. destruct Hh as (e & Hin & ?). exists e. set_solver.
    + destruct (last front) as [prev|] eqn:El.
      * assert (fresh_other now path prev) as [_ Hne].
        { rewrite Forall_forall in Hf. apply Hf, last_in_tail; [done|lia]. }
        unfold bytes_eqb. rewrite bool_decide_eq_false_2 by done.
        specialize (IH front rest (n + 1)).
        destruct (find_loop now path front rest (n + 1)) as [[[d l] k] hit].
        destruct IH as [Hs Hh]; [lia|done|]. split.
        { etransitivity; [exact Hs|]. by apply sublist_app, sublist_cons. }
        destruct hit; [|done]. destruct Hh as (e & Hin & ?). exists e. set_solver.
      * split; [|done]. by apply sublist_app, sublist_cons.
  - unfold bytes_eqb. case_bool_decide as Hp.
    + split; [done|]. exists p. set_solver.
    + specialize (IH (front ++ [p]) rest n).
      destruct (find_loop now path (front ++ [p]) rest n) as [[[d l] k] hit].
      rewrite <- app_assoc in IH. apply IH; [lia|].
      destruct front; simpl; [constructor|]. apply Forall_app. by repeat constructor.
Qed.

Lemma find_loop_finds now path front rest n e :
  Forall (fun e => expired now e = false) rest ->
  List.find (fun e => bytes_eqb (de_dirname e) path) rest = Some e ->
  find_loop now path front rest n = (de_did e, front ++ rest, n, true).
Proof.
  intros Hr. revert front. induction Hr as [|p rest Hp _ IH]; intros front Hf; [done|].
  cbn [find_loop]. rewrite Hp. simpl in Hf. unfold bytes_eqb in *.
  case_bool_decide; [by simplify_eq|]. rewrite IH by done. by rewrite <- app_assoc.
Qed.

(** A lookup answers only with the id of an entry of that name that has not
    expired, never adds or reorders entries, and, when no entry has expired, finds
    the first entry of the name and keeps the list as it is. *)
Theorem lookup_sound now path dids :
  let '(did, dids', k, hit) := find_loop now path [] dids 0 in
  dids' `sublist_of` dids /\
  (did <> 0 -> exists e, e ∈ dids' /\ de_time e + timeout >= now /\
                         de_dirname e = path /\ de_did e = did) /\
  (Forall (fun e => now <= de_time e + timeout) dids ->
   forall e, List.find (fun e => bytes_eqb (de_dirname e) path) dids = Some e ->
   did = de_did e /\ dids' = dids).
Proof.
  pose proof (find_loop_sound now path [] dids 0 (Forall_nil_2 _)) as H.
  pose proof (find_loop_finds now path [] dids 0) as Hfind.
  destruct (find_loop now path [] dids 0) as [[[d l] k] hit]. destruct H as [Hs Hh].
  split_and!; [done| |].
  - intros Hd. destruct hit; [|done]. destruct Hh as (e & _ & ? & He & ? & ?).
    exists e. split_and!; try done. unfold expired in He. apply Z.ltb_ge in He. lia.
  - intros Hr e He. specialize (Hfind e). rewrite He in Hfind.
    assert (Forall (fun e => expired now e = false) dids) as Hr'.
    { eapply Forall_impl; [exact Hr|]. intros x Hx. apply Z.ltb_ge. simpl in Hx. lia. }
    specialize (Hfind Hr' eq_refl). by simplify_eq/=.
Qed.

Lemma lookup_sound_witness :
  find_loop 100 [47; 98] [] [mk_did [47; 97] 17 95; mk_did [47; 98] 18 95] 0 =
    (18, [mk_did [47; 97] 17 95; mk_did [47; 98] 18 95], 0, true) /\
  exists e, e ∈ [mk_did [47; 97] 17 95; mk_did [47; 98] 18 95] /\ de_time e + timeout >= 100 /\
            de_dirname e = [47; 98] /\ de_did e = 18.
Proof.
  split; [reflexivity|].
  apply (lookup_sound 100 [47; 98] [mk_did [47; 97] 17 95; mk_did [47; 98] 18 95]).
  discriminate.
Defined.

(** An expired second entry takes the live head of the list with it, and an expired
    head hides the entry behind it. *)
Lemma lookup_drops_live :
  let live := mk_did [47; 97] 17 100 in
  let old := mk_did [47; 98] 18 50 in
  find_loop 100 [47; 99] [] [live; old] 0 = (0, [], 1, false) /\
  find_loop 100 [47; 97] [] [old; live] 0 = (0, [live], 1, false).
Proof. done. Qed.

(** ** A server with a directory tree

    [tree did name] is the id of the directory [name] in the directory [did].  The
    server answers FPGetFileDirParms for the id of a directory as the protocol
    prescribes, nothing else about it is known, and nothing else is asked. *)

Definition descend (tree : Z -> list Z -> option Z) (did : option Z) (name : list Z)
    : option Z :=
  d ← did; tree d name.

(** The id of the directory with the full name [path], like "/foo/bar". *)
Definition dir_id (tree : Z -> list Z -> option Z) (path : list Z) : option Z :=
  match split_on slash path with
  | [] :: names => foldl (descend tree) (Some AFP_ROOT_DID) names
  | _ => None
  end.

Definition node_request (server : afp_server) (volid did : Z) (name : list Z) : request :=
  afp_call (wire_fixed afpGetFileDirParms 0 volid did ++ be_bytes 2 kFPNodeIDBit
            ++ be_bytes 2 kFPNodeIDBit ++ path_field server (slash :: name))
    afpGetFileDirParms.

(** The reply that carries a directory id. *)
Definition node_reply (rid isdir id : Z) : list Z :=
  wire_header DSI_REPLY DSI_DSICommand rid 0 10 ++ be_bytes 2 kFPNodeIDBit
  ++ be_bytes 2 kFPNodeIDBit ++ [isdir; 0] ++ be_bytes 4 id.

Definition tree_server (server : afp_server) (volid : Z) (tree : Z -> list Z -> option Z)
    : contract :=
  {| guarantee := fun r => exists did name, r = node_request server volid did name;
     rely := fun X e =>
       match e in env X return X -> Prop with
       | Exchange r => fun a =>
         forall did name id, tree did name = Some id -> r = node_request server volid did name ->
         an_rc a = 0 /\ exists rid behind, an_packet a = Some (node_reply rid 128 id, behind)
       | _ => fun _ => True
       end;
     may_crash := False; may_starve := False |}.

(** The ids the cache holds are those of the tree. *)
Definition consistent (tree : Z -> list Z -> option Z) (c : client) : Prop :=
  Forall (fun e => dir_id tree (de_dirname e) = Some (de_did e)) (cl_dids c).

(** The state after calls that touch only the cache. *)
Definition same_session (c c' : client) : Prop :=
  cl_server c' = cl_server c /\ cl_volume c' = cl_volume c /\ cl_forks c' = cl_forks c.

#[export] Instance same_session_refl : Reflexive same_session.
Proof. done. Qed.
#[export] Instance same_session_trans : Transitive same_session.
Proof. intros a b c (?&?&?) (?&?&?). split_and!; congruence. Qed.

Lemma parse_node_id buf isdir :
  parse_reply_block buf isdir kFPNodeIDBit kFPNodeIDBit =
    v ← ntohl <$> ld32 0 buf;
    Some (set_fi_fileid v (set_fi_isdir isdir zero_file_info)).
Proof.
  unfold parse_reply_block, parse_file_fields, parse_dir_fields, if_bit, get32.
  destruct (isdir =? 0); change (u16 kFPNodeIDBit) with kFPNodeIDBit; decide_bits;
    cbn; by destruct (ld32 0 buf).
Qed.

Lemma node_reply_handled rid isdir id behind fp :
  0 <= id < 4294967296 ->
  afp_getfiledirparms_reply (node_reply rid isdir id ++ behind)
    (Z.of_nat (length (node_reply rid isdir id))) fp =
    Some (0, set_fi_isdir isdir (set_fi_fileid id (set_fi_isdir isdir zero_file_info))).
Proof.
  intros Hid. unfold afp_getfiledirparms_reply, node_reply. rewrite <- !app_assoc.
  rewrite raw_error_wire. cbn [mbind option_bind]. change (negb (0 =? 0)) with false. cbv iota.
  pose proof (length_wire_header DSI_REPLY DSI_DSICommand rid 0 10) as Hw.
  rewrite (proj2 (Z.ltb_ge _ _)) by solve_len.
  rewrite (ntohs_ld16 _ kFPNodeIDBit _ 16) by (done || congruence). cbn [mbind option_bind].
  rewrite (app_assoc (wire_header _ _ _ _ _)), (ntohs_ld16 _ kFPNodeIDBit _ 18)
    by (done || solve_len). cbn [mbind option_bind].
  rewrite (app_assoc (_ ++ be_bytes 2 kFPNodeIDBit)). cbn [app]. rewrite ld8_at by solve_len.
  cbn [mbind option_bind]. rewrite drop_app_ge by solve_len.
  replace (22 - _)%nat with 2%nat by solve_len. cbn [drop]. rewrite drop_0.
  rewrite parse_node_id. pose proof (ntohl_ld32 [] id behind 0 eq_refl Hid) as Hn.
  cbn [app] in Hn. rewrite Hn. done.
Qed.

Lemma dir_id_nil tree : dir_id tree [] = Some AFP_ROOT_DID.
Proof. done. Qed.

Lemma dir_id_child tree s name d :
  dir_id tree s = Some d -> slash ∉ name -> dir_id tree (s ++ slash :: name) = tree d name.
Proof.
  unfold dir_id. intros H Hn. rewrite split_on_app, (split_on_none slash name) by done.
  destruct (split_on slash s) as [|[|c h] t]; [done| |done]. cbn [app].
  rewrite foldl_snoc, H. done.
Qed.

Lemma dir_id_prefix tree s rest d :
  dir_id tree (s ++ slash :: rest) = Some d -> exists d', dir_id tree s = Some d'.
Proof.
  unfold dir_id. rewrite split_on_app.
  pose proof (split_on_ne slash s) as Hne.
  destruct (split_on slash s) as [|[|c h] t]; [done| |done]. cbn [app]. rewrite foldl_app.
  destruct (foldl (descend tree) (Some AFP_ROOT_DID) t) as [d'|]; [by eauto|].
  intros H. exfalso. revert H. generalize (split_on slash rest) as l.
  induction l; simpl; [done|]. exact IHl.
Qed.

(** A component between two slashes before the last one. *)
Lemma path_behind s base a name post :
  s ++ slash :: base = a ++ slash :: name ++ slash :: post -> slash ∉ base -> slash ∉ name ->
  exists rest, s = a ++ slash :: name \/ s = a ++ slash :: name ++ slash :: rest.
Proof.
  intros Hp Hb Hn. rewrite app_comm_cons, app_assoc in Hp.
  apply app_eq_app in Hp as (l & [[Hs Hl] | [Hs Hl]]).
  - exists (drop 1 l). destruct l as [|x l]; [left; by rewrite app_nil_r in Hs|right].
    injection Hl as <- Hl. by rewrite Hs, <- app_assoc.
  - destruct l as [|x l]; [exists []; left; by rewrite app_nil_r in Hs|].
    injection Hl as <- Hl. rewrite Hl in Hb. set_solver.
Qed.

(** The positions the walk uses around a component. *)
Lemma path_pieces a name post :
  let path := a ++ slash :: name ++ slash :: post in
  let p := (S (length a) + length name)%nat in
  drop (S (length a)) path = name ++ slash :: post /\
  take (p - length a) (drop (length a) path) = slash :: name /\
  take p path = a ++ slash :: name /\ drop (S p) path = post.
Proof.
  intros path p. subst path p. split_and!.
  - change (slash :: name ++ slash :: post) with ([slash] ++ name ++ slash :: post).
    rewrite app_assoc. apply drop_app_length'. solve_len.
  - rewrite drop_app_length, app_comm_cons. apply take_app_length'. solve_len.
  - rewrite app_comm_cons, app_assoc. apply take_app_length'. solve_len.
  - change (slash :: name ++ slash :: post) with ((slash :: name) ++ [slash] ++ post).
    rewrite !app_assoc. apply drop_app_length'. solve_len.
Qed.

Lemma component_in s a name rest :
  slash ∉ name -> s = a ++ slash :: name \/ s = a ++ slash :: name ++ slash :: rest ->
  name ∈ split_on slash s.
Proof.
  intros Hn [-> | ->]; rewrite split_on_app.
  - rewrite (split_on_none slash name) by done. set_solver.
  - rewrite split_on_first by done. set_solver.
Qed.

Section walk.
Context (s0 : afp_server) (v0 : afp_volume) (tree : Z -> list Z -> option Z).
Context (Hk : known_encoding s0).
Context (Htree : forall did name id, tree did name = Some id -> 0 < id < 4294967296).

Let C := tree_server s0 (vo_volid v0) tree.

(** What every step of the walk keeps. *)
Definition session_ok (c c' : client) : Prop :=
  cl_server c = s0 /\ cl_volume c = v0 -> consistent tree c ->
  same_session c c' /\ consistent tree c'.

Lemma node_lookup c did name id fi (Q : Z * afp_file_info -> client -> Prop) :
  cl_server c = s0 -> cl_volume c = v0 ->
  (S (length name) <= path_limit s0)%nat -> tree did name = Some id ->
  (forall fi', fi_isdir fi' = 128 -> fi_fileid fi' = id -> Q (0, fi') c) ->
  hoare C c (FPGetFileDirParms did kFPNodeIDBit kFPNodeIDBit (slash :: name) fi) Q.
Proof.
  intros Hs Hv Hl Ht HQ. unfold FPGetFileDirParms.
  apply hoare_bind, hoare_ask; [constructor|]. intros j _.
  apply hoare_bind, hoare_bind, hoare_get, hoare_ret. rewrite Hs.
  apply hoare_bind, hoare_bind, hoare_get, hoare_ret. rewrite Hv.
  apply hoare_bind. unfold afp_getfiledirparms. rewrite path_request_spec by done.
  cbn [mbind option_bind lift]. apply hoare_ret, hoare_bind.
  match goal with |- hoare _ _ (send ?r) _ =>
    assert (r = node_request s0 (vo_volid v0) did name) as Hr
      by (unfold node_request, wire_fixed; rewrite !st16_htons, !st32_htonl, <- !app_assoc; done);
    rewrite Hr; clear Hr
  end.
  apply hoare_ask; [apply Forall_singleton; by exists did, name|].
  intros a Ha. unfold C in Ha. cbn [rely tree_server] in Ha.
  destruct (Ha did name id Ht eq_refl) as (Hrc & rid & behind & Hp).
  apply hoare_bind. unfold handle. rewrite Hp. apply hoare_bind.
  specialize (Htree _ _ _ Ht).
  rewrite node_reply_handled by lia. apply hoare_ret, hoare_ret, hoare_ret. rewrite Hrc.
  by apply HQ.
Qed.

Lemma cache_lookup c path (Q : Z -> client -> Prop) :
  consistent tree c ->
  (forall d c', same_session c c' -> consistent tree c' ->
     (d <> 0 -> dir_id tree path = Some d) -> Q d c') ->
  hoare C c (find_dirid_by_fullname path) Q.
Proof.
  intros Hc HQ. unfold find_dirid_by_fullname.
  apply hoare_bind, hoare_ask; [constructor|]. intros now _.
  apply hoare_bind, hoare_get.
  pose proof (find_loop_sound now path [] (cl_dids c) 0 (Forall_nil_2 _)) as H.
  destruct (find_loop now path [] (cl_dids c) 0) as [[[d l] k] hit]. destruct H as [Hs Hh].
  apply hoare_bind, hoare_modify, hoare_ret. apply HQ.
  - done.
  - unfold consistent in *. cbn. cbn [app] in Hs. rewrite Forall_forall in Hc |- *.
    intros e He. apply Hc. by eapply elem_of_sublist.
  - intros Hd. destruct hit; [|done]. destruct Hh as (e & Hin & _ & _ & <- & <-).
    unfold consistent in Hc. rewrite Forall_forall in Hc. by apply Hc.
Qed.

Lemma find_ancestor_ok fuel c copy d (Q : Z * nat -> client -> Prop) :
  (length copy < fuel)%nat -> copy <> [] -> dir_id tree copy = Some d -> consistent tree c ->
  (forall pre post pd c', same_session c c' -> consistent tree c' ->
     copy = pre ++ slash :: post -> dir_id tree pre = Some pd -> Q (pd, length pre) c') ->
  hoare C c (find_ancestor fuel copy) Q.
Proof.
  revert c copy d Q. induction fuel as [|fuel IH]; intros c copy d Q Hf Hne Hd Hc HQ; [lia|].
  cbn [find_ancestor]. destruct (last_index_of slash copy) as [i|] eqn:Ei.
  - apply last_index_of_Some in Ei as (pre & post & -> & <- & Hn).
    destruct (dir_id_prefix _ _ _ _ Hd) as [pd Hpd]. rewrite take_app_length.
    destruct (length pre) as [|m] eqn:El.
    { apply nil_length_inv in El as ->. apply hoare_ret. by eapply (HQ []). }
    apply hoare_bind, cache_lookup; [done|]. intros d' c' Hcc' Hc' Hd'.
    destruct (Z.eqb_spec d' 0) as [->|Hnz]; cbn [negb].
    + eapply IH; try done.
      * rewrite length_app in Hf. simpl in Hf. lia.
      * intros ->. done.
      * intros pre' post' pd' c'' Hc'' Hok -> Hp. rewrite <- app_assoc in HQ.
        eapply HQ; [by etransitivity|done|done|done].
    + apply hoare_ret. rewrite <- El. eapply HQ; eauto.
  - exfalso. apply last_index_of_None in Ei. unfold dir_id in Hd.
    rewrite split_on_none in Hd by done. by destruct copy.
Qed.

Lemma walk_down_ok fuel c s base a b pd d fi (Q : Z -> client -> Prop) :
  s ++ slash :: base = a ++ slash :: b -> slash ∉ base -> (length b < fuel)%nat ->
  dir_id tree a = Some pd -> dir_id tree s = Some d ->
  Forall (fun n => S (length n) <= path_limit s0)%nat (split_on slash s) ->
  cl_server c = s0 -> cl_volume c = v0 -> consistent tree c ->
  (forall c', same_session c c' -> consistent tree c' -> Q d c') ->
  hoare C c (walk_down fuel (s ++ slash :: base) (length a) pd fi) Q.
Proof.
  revert c a b pd fi Q.
  induction fuel as [|fuel IH]; intros c a b pd fi Q Hp Hb Hf Ha Hs Hl Hcs Hcv Hc HQ; [lia|].
  cbn [walk_down]. rewrite Hp at 1.
  change (a ++ slash :: b) with (a ++ [slash] ++ b). rewrite app_assoc.
  rewrite (drop_app_length' (a ++ [slash])) by solve_len.
  destruct (index_of slash b) as [k|] eqn:Ek.
  - apply index_of_Some in Ek as (name & post & -> & <- & Hn).
    destruct (path_behind s base a name post Hp Hb Hn) as (rest & Hrest).
    assert (exists d', tree pd name = Some d' /\
                       dir_id tree (a ++ slash :: name) = Some d') as (d' & Ht & Hd').
    { rewrite <- (dir_id_child tree a name pd) by done.
      destruct Hrest as [-> | ->]; [by exists d|].
      rewrite app_comm_cons, app_assoc in Hs.
      apply dir_id_prefix in Hs as [d' Hd']. by exists d'. }
    assert (S (length name) <= path_limit s0)%nat as Hln.
    { rewrite Forall_forall in Hl. by eapply Hl, component_in. }
    destruct (path_pieces a name post) as (_ & H2 & H3 & _). rewrite Hp, H2, H3.
    apply hoare_bind, hoare_modify.
    apply hoare_bind, (node_lookup _ _ _ d'); try done.
    intros fi' Hi Hid. rewrite Hi. change (negb (128 =? 0)) with true. cbv iota.
    rewrite Hid. apply hoare_bind. unfold add_did_cache_entry.
    apply hoare_bind, hoare_ask; [constructor|]. intros now _.
    apply hoare_bind, hoare_modify, hoare_ret.
    replace (S (length a) + length name)%nat with (length (a ++ slash :: name)) by solve_len.
    rewrite <- Hp. eapply IH; try done.
    + by rewrite Hp, <- app_assoc.
    + rewrite length_app in Hf. simpl in Hf. lia.
    + unfold consistent in *. cbn. by constructor.
  - apply index_of_None in Ek. apply hoare_ret.
    assert (a = s) as ->.
    { apply (f_equal (last_index_of slash)) in Hp as Hi.
      rewrite !last_index_of_app in Hi by done.
      apply (f_equal (take (length s))) in Hp. injection Hi as Hi.
      rewrite take_app_length, Hi, take_app_length in Hp. done. }
    simplify_eq. by apply HQ.
Qed.

Lemma get_dirid_ok c s base d :
  cl_server c = s0 -> cl_volume c = v0 -> consistent tree c ->
  slash ∉ base -> (length base < 768)%nat -> (length s < 768)%nat ->
  Forall (fun n => S (length n) <= path_limit s0)%nat (split_on slash s) ->
  dir_id tree s = Some d ->
  hoare C c (get_dirid (s ++ slash :: base))
    (fun r c' => r = (0, (base, d)) /\ same_session c c' /\ consistent tree c').
Proof.
  intros Hcs Hcv Hc Hb Hlb Hls Hl Hs. unfold get_dirid. rewrite last_index_of_app by done.
  replace (drop (S (length s)) (s ++ slash :: base)) with base
    by (change (s ++ slash :: base) with (s ++ [slash] ++ base);
        rewrite app_assoc, drop_app_length'; [done|solve_len]).
  rewrite decide_False by lia. case_decide as H0.
  { apply nil_length_inv in H0 as ->. rewrite dir_id_nil in Hs. simplify_eq.
    by apply hoare_ret. }
  rewrite decide_False by lia. rewrite take_app_length.
  apply hoare_bind, cache_lookup; [done|]. intros d1 c1 Hc1 Hok1 Hd1.
  destruct (Z.eqb_spec d1 0) as [->|Hnz]; cbn [negb].
  2: { apply hoare_ret. specialize (Hd1 Hnz). rewrite Hs in Hd1. by simplify_eq. }
  apply hoare_bind. apply find_ancestor_ok with d; try done; [lia|by intros ->|].
  intros pre post pd c2 Hc2 Hok2 -> Hpd.
  apply hoare_bind, hoare_ask; [constructor|]. intros fi _. apply hoare_bind.
  assert (same_session c c2) as (Hs2 & Hv2 & Hf2) by (by etransitivity).
  eapply (walk_down_ok _ _ (pre ++ slash :: post) base pre (post ++ slash :: base)); try done.
  - by rewrite <- app_assoc.
  - solve_len.
  - congruence.
  - congruence.
  - intros c3 Hc3 Hok3. apply hoare_ret. split; [done|]. split; [|done].
    by etransitivity; [exact Hc1|]; etransitivity; [exact Hc2|].
Qed.

End walk.

(** C7: on a server with a directory tree, [get_dirid] finds the parent directory
    and the base name of every path whose parent exists, whatever of it the cache
    holds and whatever has expired; it always ends, and the cache keeps holding only
    ids of the tree. *)
Theorem get_dirid_resolves {W} (h : handler W) (I : W -> Prop) w c tree s base d :
  keeps (tree_server (cl_server c) (vo_volid (cl_volume c)) tree) h I -> I w ->
  known_encoding (cl_server c) ->
  (forall did name id, tree did name = Some id -> 0 < id < 4294967296) ->
  consistent tree c -> slash ∉ base -> (length base < 768)%nat -> (length s < 768)%nat ->
  Forall (fun n => S (length n) <= path_limit (cl_server c))%nat (split_on slash s) ->
  dir_id tree s = Some d ->
  exists c', (run h (get_dirid (s ++ slash :: base) c) w).1.2 = Done (0, (base, d), c') /\
    same_session c c' /\ consistent tree c'.
Proof.
  intros Hh Hw Hk Ht Hc Hb Hlb Hls Hl Hs.
  destruct (wp_run _ h I _ _ w Hh Hw (get_dirid_ok (cl_server c) (cl_volume c) tree Hk Ht c s
    base d eq_refl eq_refl Hc Hb Hlb Hls Hl Hs)) as (_ & Ha & _).
  destruct (run h (get_dirid (s ++ slash :: base) c) w) as [[rs o] w']. cbn in Ha |- *.
  destruct o as [[r c']| |]; [|done|done]. destruct Ha as (Hr & ? & ?). cbn in *. subst r.
  by exists c'.
Qed.

(** A tree with "/a" and "/a/b", and a server that answers for it. *)
Definition sample_tree (did : Z) (name : list Z) : option Z :=
  if (did =? 2) && bytes_eqb name [97] then Some 17
  else if (did =? 17) && bytes_eqb name [98] then Some 18 else None.

Definition sample_volume : afp_volume :=
  mk_afp_volume 7 0 0 0 0 0 0 0 0 0 [] [] 0 0 0.
Definition sample_client : client := mk_client utf8_server sample_volume [] 0 0 0 0 [].

#[export] Instance request_eq_dec : EqDecision request.
Proof. solve_decision. Defined.

Definition accepted (packet : list Z) : answer := mk_answer 0 (Some (packet, [])) [].
Definition refused (rc : Z) : answer :=
  mk_answer rc (Some (wire_header DSI_REPLY DSI_DSICommand 9 rc 0, [])) [].

Definition sample_answer (r : request) : answer :=
  if decide (r = node_request utf8_server 7 2 [97]) then accepted (node_reply 9 128 17)
  else if decide (r = node_request utf8_server 7 17 [98]) then accepted (node_reply 9 128 18)
  else refused kFPObjectNotFound.

Lemma sample_tree_cases did name id :
  sample_tree did name = Some id ->
  (did = 2 /\ name = [97] /\ id = 17) \/ (did = 17 /\ name = [98] /\ id = 18).
Proof.
  unfold sample_tree, bytes_eqb. destruct (Z.eqb_spec did 2); destruct (Z.eqb_spec did 17);
    repeat case_bool_decide; intros; simplify_eq/=; auto.
Qed.

Lemma sample_keeps :
  keeps (tree_server utf8_server 7 sample_tree) (serving (fun r (w : unit) => (sample_answer r, w)))
    (fun _ => True).
Proof.
  intros X e w _ _. split; [|done]. destruct e; cbn [rely tree_server serving fst]; try done.
  intros did name id Ht ->.
  destruct (sample_tree_cases did name id Ht) as [(-> & -> & ->) | (-> & -> & ->)].
  - split; [done|]. by exists 9, [].
  - split; [done|]. by exists 9, [].
Qed.

Lemma get_dirid_resolves_witness :
  exists c', (run (serving (fun r (w : unit) => (sample_answer r, w)))
      (get_dirid [47; 97; 47; 98; 47; 120] sample_client) tt).1.2 =
      Done (0, ([120], 18), c') /\
    same_session sample_client c' /\ consistent sample_tree c'.
Proof.
  apply (get_dirid_resolves _ _ tt sample_client sample_tree [47; 97; 47; 98] [120] 18
           sample_keeps I).
  - by left.
  - intros did name id. unfold sample_tree. repeat case_match; intros; simplify_eq; lia.
  - constructor.
  - intros H. by apply list_elem_of_singleton in H.
  - simpl; lia.
  - simpl; lia.
  - vm_compute split_on. repeat constructor; vm_compute; lia.
  - reflexivity.
Defined.

(** ** Directories that are not there *)

(** A server that refuses, or a reply that never comes. *)
Definition refusing : contract :=
  {| guarantee := fun _ => True;
     rely := fun X e =>
       match e in env X return X -> Prop with
       | Exchange r => fun a =>
         an_packet a = None \/
         exists rid rc behind, -2147483648 <= rc < 0 /\
           an_packet a = Some (wire_header DSI_REPLY DSI_DSICommand rid rc 0, behind)
       | _ => fun _ => True
       end;
     may_crash := False; may_starve := False |}.

Lemma refused_lookup c did name fi (Q : Z * afp_file_info -> client -> Prop) :
  known_encoding (cl_server c) -> (length name <= path_limit (cl_server c))%nat ->
  (forall rc, Q (rc, fi) c) ->
  hoare refusing c (FPGetFileDirParms did kFPNodeIDBit kFPNodeIDBit name fi) Q.
Proof.
  intros Hk Hl HQ. unfold FPGetFileDirParms.
  apply hoare_bind, hoare_ask; [constructor|]. intros j _.
  do 2 apply hoare_bind, hoare_bind, hoare_get, hoare_ret.
  apply hoare_bind. unfold afp_getfiledirparms. rewrite path_request_spec by done.
  cbn [mbind option_bind lift]. apply hoare_ret, hoare_bind, hoare_ask; [by constructor|].
  intros a Ha. cbn [rely refusing] in Ha. apply hoare_bind. unfold handle.
  destruct Ha as [-> | (rid & rc & behind & Hrc & ->)].
  - by apply hoare_ret, hoare_ret.
  - apply hoare_bind. unfold afp_getfiledirparms_reply.
    destruct (raw_error_refused DSI_REPLY DSI_DSICommand rid rc 0 behind Hrc) as (e & He & ->).
    cbn [mbind option_bind]. rewrite (proj2 (Z.eqb_neq e 0) He). cbn [negb lift].
    by apply hoare_ret, hoare_ret, hoare_ret.
Qed.

(** Below a directory that was just looked up, a component the server refuses
    to find is taken for that directory: the walk goes on with the id of the parent,
    and the cache gets it under the name of the missing directory. *)
Theorem missing_directory_cached {W} (h : handler W) (I : W -> Prop) w c a name base pd fi :
  keeps refusing h I -> I w -> known_encoding (cl_server c) ->
  slash ∉ name -> slash ∉ base -> (S (length name) <= path_limit (cl_server c))%nat ->
  fi_isdir fi <> 0 -> fi_fileid fi = pd ->
  exists c' now, (run h (walk_down (2 + length name) (a ++ slash :: name ++ slash :: base) (length a) pd fi c)
      w).1.2 = Done (pd, c') /\
    cl_dids c' = mk_did (a ++ slash :: name) pd now :: cl_dids c.
Proof.
  intros Hh Hw Hk Hn Hb Hl Hdir Hid.
  assert (hoare refusing c
    (walk_down (2 + length name) (a ++ slash :: name ++ slash :: base) (length a) pd fi)
    (fun d c' => d = pd /\ exists now, cl_dids c' = mk_did (a ++ slash :: name) pd now :: cl_dids c))
    as Hwp.
  { destruct (path_pieces a name base) as (H1 & H2 & H3 & H4).
    change (2 + length name)%nat with (S (S (length name))). cbn [walk_down].
    rewrite H1, (proj2 (index_of_Some slash (name ++ slash :: base) (length name)))
      by (by exists name, base).
    apply hoare_bind, hoare_modify. rewrite H2.
    apply hoare_bind, refused_lookup; [done|done|]. intros rc.
    rewrite (proj2 (Z.eqb_neq _ _) Hdir). cbn [negb].
    apply hoare_bind. unfold add_did_cache_entry.
    apply hoare_bind, hoare_ask; [constructor|]. intros now _.
    apply hoare_bind, hoare_modify, hoare_ret. rewrite H3, H4.
    rewrite (proj2 (index_of_None slash base)) by done.
    apply hoare_ret. cbn. rewrite Hid. by split; [|exists now]. }
  destruct (wp_run _ h I _ _ w Hh Hw Hwp) as (_ & Ha & _).
  destruct (run h _ w) as [[rs o] w']. cbn in Ha |- *.
  destruct o as [[r c']| |]; [|done|done]. destruct Ha as (Hr & now & Hd). cbn in *. subst r.
  by exists c', now.
Qed.

Definition looked_up : afp_file_info :=
  set_fi_isdir 128 (set_fi_fileid 17 zero_file_info).

Lemma refused_keeps rc :
  -2147483648 <= rc < 0 ->
  keeps refusing (serving (fun r (w : unit) => (refused rc, w))) (fun _ => True).
Proof.
  intros Hrc X e w _ _. split; [|done]. destruct e; cbn [rely refusing serving fst]; try done.
  right. by exists 9, rc, [].
Qed.

Lemma missing_directory_cached_witness :
  exists c' now, (run (serving (fun r (w : unit) => (refused kFPObjectNotFound, w)))
      (walk_down 3 ([47; 97] ++ [47; 109; 47; 120]) 2 17 looked_up sample_client) tt).1.2 =
      Done (17, c') /\
    cl_dids c' = mk_did [47; 97; 47; 109] 17 now :: [].
Proof.
  refine (missing_directory_cached _ (fun _ => True) tt sample_client [47; 97] [109] [120] 17
    looked_up _ _ _ _ _ _ _ _).
  - by apply refused_keeps.
  - exact I.
  - by left.
  - intros H. by apply list_elem_of_singleton in H.
  - intros H. by apply list_elem_of_singleton in H.
  - vm_compute; lia.
  - discriminate.
  - reflexivity.
Defined.

(** So on the sample server, which has no "/a/m", the parent of "/a/m/x" is "/a". *)
Example wrong_parent :
  exists c', (run (serving (fun r (w : unit) => (sample_answer r, w)))
      (get_dirid [47; 97; 47; 109; 47; 120] sample_client) tt).1.2 =
      Done (0, ([120], 17), c').
Proof. eexists. vm_compute. reflexivity. Qed.

End Did.
