(* ===== verification/Wire.v ===== *)
(** * Programs over the transport

    The programs of [Client] ask an abstract server.  Here their requests go through
    [dsi_setup_header], [dsi_send] and [dsi_recv] of lib/dsi.c to a machine that only sees the
    bytes on the wire and whose replies the network cuts as it likes; a program that keeps to
    a contract behaves as its specification says on top of this. *)

From S2P Require Import Prelude Constants Types Utils Dsi ProtoFiles Client Did.

Module Wire.
Import Utils Dsi ProtoFiles Client Did.

(** ** Receiving keeps the buffer

    What every step of [dsi_recv] leaves as it is: the size of the receive buffer, and the
    last request id in its range. *)
Definition steady (s s' : dsi_server) : Prop :=
  length (incoming_buffer s') = length (incoming_buffer s) /\
  (0 <= lastrequestid s < 65536 -> 0 <= lastrequestid s' < 65536).

#[export] Instance steady_refl : Reflexive steady.
Proof. done. Qed.
#[export] Instance steady_trans : Transitive steady.
Proof. intros a b c [? ?] [? ?]. split; [congruence|auto]. Qed.

Lemma steady_input buf n rx s :
  length buf = length (incoming_buffer s) -> steady s (set_input buf n rx s).
Proof. by split. Qed.

Lemma recv_out_steady r s sock ev x s' sock' ev' :
  recv_out r s sock ev = (x, s', sock', ev') -> steady s s'.
Proof.
  unfold recv_out, dsi_remove_from_request_queue.
  intros H. repeat case_match; simplify_eq/=; done.
Qed.

Lemma after_processing_steady r s sock ev x s' sock' ev' :
  after_processing r s sock ev = Some (x, s', sock', ev') -> steady s s'.
Proof.
  unfold after_processing. intros H. apply bind_Some in H as (len & _ & H). case_match.
  - apply (inj Some) in H. by apply recv_out_steady in H.
  - apply bind_Some in H as (bytes & _ & H). apply bind_Some in H as (buf & Hb & H).
    apply (inj Some) in H. apply recv_out_steady in H. etransitivity; [|exact H].
    by apply steady_input, (blit_length _ _ _ _ Hb).
Qed.

Lemma tickle_steady s s' msg : dsi_incoming_tickle s = Some (s', msg) -> steady s s'.
Proof.
  unfold dsi_incoming_tickle, dsi_setup_header. intros H.
  apply bind_Some in H as (m & _ & H). simplify_eq. split; [done|]. intros Hl. cbn.
  case_match; [lia|apply u16_range].
Qed.

Lemma command_reply_steady r s sock s' sock' ev :
  dsi_command_reply r s sock = Some (s', sock', ev) -> steady s s'.
Proof.
  unfold dsi_command_reply. intros H. repeat case_match; simplify_eq; try done.
  apply bind_Some in H as (buf & _ & H). case_match. apply bind_Some in H as (data & _ & H).
  case_match; by simplify_eq.
Qed.

Lemma process_packet_steady r runt s sock x s' sock' ev :
  process_packet r runt s sock = Some (x, s', sock', ev) -> steady s s'.
Proof.
  unfold process_packet. intros H. apply bind_Some in H as (command & _ & H).
  case_match; [by eapply after_processing_steady|].
  case_match; [by eapply after_processing_steady|].
  case_match.
  { apply bind_Some in H as (s1 & E1 & H). apply bind_Some in E1 as (q & _ & [= <-]).
    by apply after_processing_steady in H. }
  case_match.
  { apply bind_Some in H as ([s1 msg] & E1 & H). etransitivity; [by eapply tickle_steady|].
    by eapply after_processing_steady. }
  case_match.
  { case_match; [by eapply after_processing_steady|].
    apply bind_Some in H as (r' & -> & H). apply bind_Some in H as ([[s1 sock1] ev1] & E1 & H).
    etransitivity; [by eapply command_reply_steady|]. by eapply after_processing_steady. }
  case_match; [|by simplify_eq].
  apply bind_Some in H as (att & _ & H). by apply after_processing_steady in H.
Qed.

Lemma recv_read_steady r len s sock x s' sock' ev :
  recv_read r len s sock = Some (x, s', sock', ev) -> steady s s'.
Proof.
  unfold recv_read. intros H. apply bind_Some in H as (buf & _ & H). case_match.
  { apply (inj Some) in H. by apply recv_out_steady in H. }
  case_match; [by simplify_eq|]. cbv zeta in H. destruct (sock_read _ sock) as [bytes rest].
  case_match; [by simplify_eq|]. apply bind_Some in H as (data & _ & H).
  case_match; [|by simplify_eq]. case_match.
  { apply (inj Some) in H. by apply recv_out_steady in H. }
  case_match; [by simplify_eq|]. apply bind_Some in H as (shifted & _ & H).
  apply bind_Some in H as (buffer & Hb & H). apply process_packet_steady in H.
  etransitivity; [|exact H]. split; [|done]. exact (blit_length _ _ _ _ Hb).
Qed.

Lemma recv_other_steady r runt len s sock x s' sock' ev :
  recv_other r runt len s sock = Some (x, s', sock', ev) -> steady s s'.
Proof.
  unfold recv_other. intros H. case_match; [by eapply process_packet_steady|]. cbv zeta in H.
  destruct (sock_read _ sock) as [bytes rest]. case_match; [by simplify_eq|].
  apply bind_Some in H as (buffer & Hb & H).
  pose proof (fun n u => steady_input buffer n u s (blit_length _ _ _ _ Hb)) as Hs.
  case_match; [by simplify_eq|].
  case_match; [apply after_processing_steady in H|apply process_packet_steady in H];
    (etransitivity; [apply Hs|exact H]).
Qed.

Lemma recv_gotenough_steady s sock x s' sock' ev :
  recv_gotenough s sock = Some (x, s', sock', ev) -> steady s s'.
Proof.
  unfold recv_gotenough. intros H. apply bind_Some in H as (id & _ & H).
  apply bind_Some in H as (flags & _ & H). apply bind_Some in H as (rc & _ & H).
  apply bind_Some in H as (len & _ & H). case_match.
  - case_match; [by apply recv_read_steady in H|by apply recv_other_steady in H].
  - apply recv_other_steady in H. by destruct (flags =? DSI_REPLY).
Qed.

Lemma dsi_recv_steady s sock x s' sock' ev :
  dsi_recv s sock = Some (x, s', sock', ev) -> steady s s'.
Proof.
  unfold dsi_recv. intros H. cbv zeta in H. case_match; [|by apply recv_gotenough_steady in H].
  destruct (sock_read _ sock) as [bytes rest]. case_match; [by simplify_eq|].
  apply bind_Some in H as (buffer & Hb & H).
  pose proof (fun n u => steady_input buffer n u s (blit_length _ _ _ _ Hb)) as Hs.
  case_match; [|by simplify_eq]. apply bind_Some in H as (len & _ & H).
  case_match; [|by simplify_eq]. apply recv_gotenough_steady in H.
  etransitivity; [apply Hs|exact H].
Qed.

Lemma recv_loop_steady fuel s sock s' ev :
  recv_loop fuel s sock = Some (s', ev) -> steady s s'.
Proof.
  revert s sock s' ev. induction fuel as [|fuel IH]; intros s sock s' ev H; [by simplify_eq/=|].
  destruct sock as [|seg sock]; [by simplify_eq/=|]. cbn [recv_loop] in H.
  apply bind_Some in H as ([[[x s1] sock1] ev1] & E1%dsi_recv_steady & H). case_match; [|by simplify_eq].
  apply bind_Some in H as ([s2 ev2] & E2%IH & H). simplify_eq. by etransitivity.
Qed.

(** ** A request on the wire *)

Definition is_read (q : request) : bool := (rq_sub q =? afpRead) || (rq_sub q =? afpReadExt).

(** [dsi_header.return_code.data_offset], which the calls that write set in the header of
    [dsi_setup_header]; it is zero in the others. *)
Definition put_data_offset (offset : Z) (header : list Z) : option (list Z) :=
  blit 4 (st32 (htonl offset)) header.

(** The packet a call hands to [dsi_send]. *)
Definition packet_of (header : list Z) (q : request) : option (list Z) :=
  header ← put_data_offset (rq_offset q) header; Some (header ++ rq_body q).

(** What the machine reads. *)
Definition wire_message (id : Z) (q : request) : list Z :=
  wire_header 0 (rq_dsi q) id (rq_offset q) (Z.of_nat (length (rq_body q))) ++ rq_body q.

(** The reply of a machine to a message: the header repeats its command and its id. *)
Definition reply_to (msg : list Z) (rc : Z) (payload : list Z) : list Z :=
  wire_header DSI_REPLY (default 0 (hd_command msg)) (default 0 (hd_requestid msg)) rc
    (Z.of_nat (length payload)) ++ payload.

(** The server while the reply is awaited, as [dsi_send] leaves it to the main loop. *)
Definition awaiting (ptr : Z) (msg : list Z) (q : request) (other : option afp_rx_buffer)
    (s : dsi_server) : dsi_server :=
  let s := enqueue_request (new_request ptr (rq_timeout q) (rq_sub q) other s) s in
  set_tx (u64 (tx_bytes s + Z.of_nat (length msg))) s.

(** The packet the handler of the reply is run on, with what lies behind it in the buffer. *)
Fixpoint handed (events : list event) (buffer : list Z) : option (list Z * list Z) :=
  match events with
  | [] => None
  | EvCommand _ packet :: _ => Some (packet, drop (length packet) buffer)
  | _ :: events => handed events buffer
  end.

(** The data in the buffer of a read. *)
Definition read_data (other : option afp_rx_buffer) : list Z :=
  match other with Some rx => take (Z.to_nat (rx_size rx)) (rx_data rx) | None => [] end.

Lemma header_wire cmd id body off :
  0 <= cmd < 256 -> 0 <= id < 65536 ->
  (header ← put_data_offset off (dsi_header 0 cmd (htons id) 0 0); dsi_set_length (header ++ body)) =
    Some (wire_header 0 cmd id off (Z.of_nat (length body)) ++ body).
Proof.
  intros Hc Hid. unfold put_data_offset, dsi_set_length, dsi_header.
  rewrite !st32_htonl, st16_htons.
  assert (st8 0 = [0]) as -> by done.
  assert (st8 cmd = [cmd]) as ->.
  { unfold st8. simpl. by rewrite Z.mod_small. }
  change (st32 0) with (be_bytes 4 0).
  rewrite (app_assoc [cmd]), (app_assoc [0]).
  rewrite blit_at by solve_len. cbn [mbind option_bind]. rewrite <- !app_assoc.
  rewrite (app_assoc (be_bytes 2 id)), (app_assoc [cmd]), (app_assoc [0]).
  rewrite st32_htonl, blit_at by solve_len. unfold wire_header. rewrite <- !app_assoc.
  replace (Z.of_nat (length _) - 16) with (Z.of_nat (length body)) by solve_len. done.
Qed.

Lemma packet_on_wire s q :
  0 <= rq_dsi q < 256 -> 0 <= lastrequestid s < 65536 ->
  exists id packet, 0 <= id < 65536 /\
    (dsi_setup_header s (rq_dsi q)).1 = set_ids id id s /\
    packet_of (dsi_setup_header s (rq_dsi q)).2 q = Some packet /\
    dsi_set_length packet = Some (wire_message id q).
Proof.
  intros Hc Hl. destruct (setup_header_id s (rq_dsi q) Hl) as (id & Hid & _ & ->).
  pose proof (header_wire (rq_dsi q) id (rq_body q) (rq_offset q) Hc Hid) as H.
  apply bind_Some in H as (header & Hh & Hm). exists id, (header ++ rq_body q).
  split; [done|]. split; [done|]. split; [|done].
  unfold packet_of. cbn [snd]. by rewrite Hh.
Qed.

Lemma reply_to_message id q rc payload :
  0 <= id < 65536 ->
  reply_to (wire_message id q) rc payload =
    wire_header DSI_REPLY (rq_dsi q) id rc (Z.of_nat (length payload)) ++ payload.
Proof.
  intros H. unfold reply_to, wire_message. by rewrite hd_command_wire, hd_requestid_wire.
Qed.

(** [dsi_send] on a live connection: its result is the return code of the request it queued,
    as the main loop leaves it. *)
Lemma dsi_send_connected reconnect meanwhile ptr s packet msg q other s2 x p :
  dsi_set_length packet = Some msg ->
  meanwhile (awaiting ptr msg q other s) = Some s2 ->
  rq_ptr x = ptr -> at_queue [] [] p x s2 ->
  dsi_send reconnect meanwhile connected ptr s packet (rq_timeout q) (rq_sub q) other =
    Some (mk_result (rq_return_code x) (set_queue [] (u64 (p - 1)) s2) [msg] (rq_other x) false false).
Proof.
  intros Hm Hs Hp Hq. assert (alone [] [] x) as Ha by by split_and!.
  pose proof (at_queue_find_ptr _ _ _ _ _ Ha Hq) as Hf.
  pose proof (at_queue_remove _ _ _ _ _ Ha Hq) as Hr. rewrite Hp in Hf, Hr.
  unfold dsi_send. rewrite Hm. cbn [mbind option_bind].
  cbn [connected en_valid en_fd en_disconnected en_write en_timed_out negb orb].
  change (3 =? 0) with false. cbn match. fold (awaiting ptr msg q other s). rewrite Hs.
  cbn [mbind option_bind]. rewrite Hf. cbn [mbind option_bind]. rewrite andb_false_r, Hr. done.
Qed.

(** ** The handler

    [machine] answers the messages it reads with a return code and a payload, [cut] is how
    the network delivers a reply, [room] the size of the buffer a read goes to, [ptr] the
    address of the queued request, and [local] the rest of the environment. *)
Section wire.
Context {W : Type} (machine : list Z -> W -> Z * list Z * W) (cut : W -> list Z -> list (list Z)).
Context (room : request -> nat) (ptr : Z) (reconnect : dsi_server -> dsi_server * bool).
Context (local : handler W).

Definition buffer_of (q : request) : option afp_rx_buffer :=
  if is_read q then Some (mk_rx 0 (Z.of_nat (room q)) (replicate (room q) 0) 0) else None.

(** One call: the header, [dsi_send] with the main loop reading the reply while it waits, and
    what comes back.  [None] is a crash. *)
Definition exchange (q : request) (s : dsi_server) (w : W)
    : option (answer * (dsi_server * W)) :=
  let '(s, header) := dsi_setup_header s (rq_dsi q) in
  packet ← packet_of header q;
  msg ← dsi_set_length packet;
  let '(rc, payload, w) := machine msg w in
  let sock := cut w (reply_to msg rc payload) in
  let main_loop s := recv_loop (length (concat sock)) s sock in
  '(_, events) ← main_loop (awaiting ptr msg q (buffer_of q) s);
  result ← dsi_send reconnect (fun s => fst <$> main_loop s) connected ptr s packet
             (rq_timeout q) (rq_sub q) (buffer_of q);
  let s := sr_server result in
  Some (mk_answer (sr_rc result) (handed events (incoming_buffer s)) (read_data (sr_other result)),
        (s, w)).

(** The state is the server, what [machine] and [local] keep, and whether the transport has
    crashed. *)
Definition wire_state : Type := dsi_server * W * bool.

Definition over_wire : handler wire_state :=
  fun X e '(s, w, crashed) =>
    match e in env X return X * W -> X * wire_state with
    | Exchange q => fun _ =>
      match exchange q s w with
      | Some (a, (s, w)) => (a, (s, w, crashed))
      | None => (mk_answer (-1) None [], (s, w, true))
      end
    | _ => fun r => (r.1, (s, r.2, crashed))
    end (local X e w).

(** No call is under way, and the next reply of [n] bytes fits the receive buffer. *)
Definition idle (n : Z) (s : dsi_server) : Prop :=
  command_requests s = [] /\ 0 <= lastrequestid s < 65536 /\ 0 <= requests_pending s < 2 ^ 64 /\
  ready n s.

(** What such a call brings. *)
Definition wire_answer (q : request) (id rc : Z) (payload : list Z) (a : answer) : Prop :=
  if is_read q then a = mk_answer rc None payload
  else exists behind, a =
    mk_answer rc (Some (wire_header DSI_REPLY (rq_dsi q) id rc (Z.of_nat (length payload)) ++ payload,
                        behind)) [].

(** A call [dsi_recv] hands to a handler. *)
Definition is_call (q : request) : Prop :=
  (rq_dsi q = DSI_DSICommand \/ rq_dsi q = DSI_DSIWrite) /\ 0 < rq_sub q < 256 /\ rq_timeout q <> 0.

(** What fits the return code, the receive buffer of [n] bytes and the buffer of a read. *)
Definition reply_fits (n : Z) (q : request) (rc : Z) (payload : list Z) : Prop :=
  -2147483648 <= rc < 2147483648 /\
  if is_read q then (length payload <= room q)%nat /\ Z.of_nat (room q) < 2147483648
  else 16 + Z.of_nat (length payload) <= n.

Context (n : Z) (Hn : 16 <= n).
Context (Hcut : forall w pkt, segments (cut w pkt) /\ concat (cut w pkt) = pkt).

Lemma is_read_sub q : is_read q = true -> rq_sub q = afpRead \/ rq_sub q = afpReadExt.
Proof using Type. unfold is_read. rewrite orb_true_iff, !Z.eqb_eq. done. Qed.

Lemma not_read_sub q : is_read q = false -> rq_sub q <> afpRead /\ rq_sub q <> afpReadExt.
Proof using Type. unfold is_read. rewrite orb_false_iff, !Z.eqb_neq. done. Qed.

Lemma awaiting_steady msg q other s : steady s (awaiting ptr msg q other s).
Proof using Type. done. Qed.

(** The main loop while a call waits: the request is signalled, and what the handler and the
    buffer of the read get. *)
Lemma reply_received q s id rc payload w :
  let msg := wire_message id q in
  let r := mk_request ptr id (rq_sub q) (rq_timeout q) 0 0 (buffer_of q) in
  let p := u64 (requests_pending s + 1) in
  is_call q -> 0 <= id < 65536 -> idle n s -> reply_fits n q rc payload ->
  let sock := cut w (reply_to msg rc payload) in
  let s1 := awaiting ptr msg q (buffer_of q) (set_ids id id s) in
  exists s2 events x, recv_loop (length (concat sock)) s1 sock = Some (s2, events) /\
    data_read s2 = 0 /\ at_queue [] [] p x s2 /\ rq_ptr x = ptr /\ rq_return_code x = rc /\
    wire_answer q id rc payload
      (mk_answer rc (handed events (incoming_buffer s2)) (read_data (rq_other x))).
Proof using Hcut Hn.
  intros msg r p (Hdsi & Hsub & Hw) Hid (Hq & Hl & Hp & Hd & Hb) (Hrc & Hfit) sock s1.
  destruct (Hcut w (reply_to msg rc payload)) as [Hseg Hcat]. fold sock in Hseg, Hcat.
  rewrite Hcat. unfold msg in *. rewrite reply_to_message in * by done.
  assert (at_queue [] [] p r s1) as Hat.
  { split; [|done]. cbn. rewrite Hq. unfold new_request. cbn. by rewrite u8_small by lia. }
  assert (alone [] [] r) as Ha by by split_and!.
  unfold wire_answer, reply_fits in *. destruct (is_read q) eqn:Er.
  - assert (rq_other r = Some (mk_rx 0 (Z.of_nat (room q)) (replicate (room q) 0) 0)) as Ho.
    { cbn. unfold buffer_of. by rewrite Er. }
    destruct Hfit as [Hpl Hroom].
    destruct (read_received (rq_dsi q) rc payload [] [] p r (Z.of_nat (room q)) 0
      (replicate (room q) 0) s1 sock (length (wire_header DSI_REPLY (rq_dsi q) id rc
        (Z.of_nat (length payload)) ++ payload))) as (s2 & Hl2 & r' & Hr' & Hd2 & Hq2);
      try done; [lia|by rewrite length_replicate|split; [done|cbn; lia]|by apply is_read_sub|].
    rewrite Hl2. unfold filled in Hr'. subst r'. eexists _, _, _.
    split; [done|]. split; [done|]. split; [exact Hq2|]. split; [done|]. split; [done|].
    cbn. rewrite Nat2Z.id, (take_ge payload) by lia. by rewrite take_app_length.
  - destruct (not_read_sub q Er) as [Hs1 Hs2].
    destruct (command_received (rq_dsi q) rc payload [] [] p r s1 sock (length (wire_header
      DSI_REPLY (rq_dsi q) id rc (Z.of_nat (length payload)) ++ payload)))
      as (s2 & Hl2 & Hd2 & Hq2); try done; [split; [done|cbn; lia]|cbn; lia|].
    rewrite Hl2. eexists _, _, _. split; [done|]. split; [done|]. split; [exact Hq2|].
    split; [done|]. split; [done|]. cbn. unfold buffer_of. rewrite Er. by eexists.
Qed.

(** One call over the wire, from an idle session to an idle session. *)
Lemma exchange_ok q s w :
  is_call q -> idle n s ->
  (forall id, 0 <= id < 65536 ->
     reply_fits n q (machine (wire_message id q) w).1.1 (machine (wire_message id q) w).1.2) ->
  exists id a s', 0 <= id < 65536 /\
    let '(rc, payload, w') := machine (wire_message id q) w in
    exchange q s w = Some (a, (s', w')) /\ idle n s' /\ wire_answer q id rc payload a.
Proof using Hcut Hn.
  intros Hq Hs Hfit. pose proof Hs as (Hqueue & Hl & Hp & Hd & Hb).
  destruct (packet_on_wire s q) as (id & packet & Hid & Hset & Hpk & Hlen);
    [destruct Hq as ([-> | ->] & _); done|done|].
  unfold exchange. destruct (dsi_setup_header s (rq_dsi q)) as [s0 header]. cbn [fst snd] in *. subst s0.
  rewrite Hpk. cbn [mbind option_bind]. rewrite Hlen. cbn [mbind option_bind].
  specialize (Hfit id Hid). destruct (machine (wire_message id q) w) as [[rc payload] w'] eqn:Em.
  cbn [fst snd] in Hfit.
  destruct (reply_received q s id rc payload w' Hq Hid Hs Hfit)
    as (s2 & events & x & Hloop & Hd2 & Hx & Hxp & Hxr & Ha).
  pose proof (recv_loop_steady _ _ _ _ _ Hloop) as [Hb2 Hl2].
  eexists id, _, _. split; [done|]. rewrite Em. cbv zeta. rewrite Hloop. cbn [mbind option_bind].
  erewrite dsi_send_connected; [|exact Hlen|by rewrite Hloop|exact Hxp|exact Hx].
  cbn [mbind option_bind sr_server sr_rc sr_other]. rewrite Hxr. split; [done|]. split.
  - split; [done|]. cbn in Hb2, Hl2. split; [by apply Hl2|].
    split; [apply Z.mod_pos_bound; lia|].
    split; [done|]. cbn. by rewrite Hb2.
  - exact Ha.
Qed.

(** A machine that keeps to a contract about calls, with replies that fit. *)
Record speaks (C : contract) (I : W -> Prop) : Prop := {
  sp_call : forall q, guarantee C q -> is_call q;
  sp_fits : forall q id w rc payload w', guarantee C q -> I w -> 0 <= id < 65536 ->
    machine (wire_message id q) w = (rc, payload, w') -> reply_fits n q rc payload;
  sp_rely : forall q id w rc payload w' a, guarantee C q -> I w -> 0 <= id < 65536 ->
    machine (wire_message id q) w = (rc, payload, w') -> wire_answer q id rc payload a ->
    rely C answer (Exchange q) a /\ I w';
  sp_local : forall X (e : env X) w, requests_of e = [] -> I w ->
    rely C X e (local X e w).1 /\ I (local X e w).2 }.

(** The session is idle between the calls, and the transport has not crashed. *)
Definition at_rest (I : W -> Prop) (st : wire_state) : Prop :=
  let '(s, w, crashed) := st in idle n s /\ I w /\ crashed = false.

Lemma over_wire_keeps C I : speaks C I -> keeps C over_wire (at_rest I).
Proof using Hcut Hn.
  intros HC X e [[s w] crashed] (Hs & Hw & ->) He.
  destruct e as [q|n'| | | | | | | | | | | | | | | |];
    try (match goal with |- context [over_wire _ ?e _] =>
           destruct (sp_local _ _ HC _ e w eq_refl Hw); by split end).
  apply (proj1 (Forall_singleton _ _)) in He.
  destruct (exchange_ok q s w) as (id & a & s' & Hid & H);
    [exact (sp_call _ _ HC q He)|done| |].
  { intros id' Hid'. destruct (machine (wire_message id' q) w) as [[rc payload] w'] eqn:E.
    exact (sp_fits _ _ HC _ _ _ _ _ _ He Hw Hid' E). }
  destruct (machine (wire_message id q) w) as [[rc payload] w'] eqn:E.
  destruct H as (Hx & Hs' & Ha). cbn [over_wire]. rewrite Hx.
  destruct (sp_rely _ _ HC q id w rc payload w' a He Hw Hid E Ha) as [? ?]. by split.
Qed.

(** C3: whatever is proved of a program for a machine with a contract holds on top of the
    transport.  The requests go out with the header of [dsi_setup_header] and the length that
    [dsi_send] stores; the machine only sees these bytes; the network cuts every reply as it
    likes, and [dsi_recv] puts it together for the handler or for the buffer of a read.  The
    program sends only what the contract allows and ends as its specification says, the
    transport does not crash, and the queue of requests is empty at the end. *)
Theorem programs_over_wire C I {A} (p : prog A) (Q : A -> Prop) s w :
  speaks C I -> idle n s -> I w -> wp C p Q ->
  exists rs o s' w', run over_wire p (s, w, false) = (rs, o, (s', w', false)) /\
    Forall (guarantee C) rs /\ allowed C Q o /\ idle n s' /\ I w'.
Proof using Hcut Hn.
  intros HC Hs Hw Hp.
  destruct (wp_run C over_wire (at_rest I) p Q (s, w, false)) as (Hg & Ho & Hend);
    [by apply over_wire_keeps|done|done|].
  destruct (run over_wire p (s, w, false)) as [[rs o] [[s' w'] crashed]].
  destruct Hend as (Hs' & Hw' & ->). by exists rs, o, s', w'.
Qed.

End wire.

(** ** A machine with a directory tree *)

Definition node_payload (id : Z) : list Z :=
  be_bytes 2 kFPNodeIDBit ++ be_bytes 2 kFPNodeIDBit ++ [128; 0] ++ be_bytes 4 id.

(** It knows the two directories of [sample_tree] by the bytes of the requests. *)
Definition sample_machine (msg : list Z) (w : unit) : Z * list Z * unit :=
  if decide (drop 16 msg = rq_body (node_request utf8_server 7 2 [97])) then (0, node_payload 17, w)
  else if decide (drop 16 msg = rq_body (node_request utf8_server 7 17 [98])) then (0, node_payload 18, w)
  else (kFPObjectNotFound, [], w).

(** A network that delivers at most [k] bytes at a time. *)
Fixpoint chunks (fuel k : nat) (pkt : list Z) : list (list Z) :=
  match fuel, pkt with
  | S fuel, _ :: _ => take k pkt :: chunks fuel k (drop k pkt)
  | _, _ => []
  end.

Lemma chunks_ok k fuel pkt :
  (0 < k)%nat -> (length pkt <= fuel)%nat ->
  segments (chunks fuel k pkt) /\ concat (chunks fuel k pkt) = pkt.
Proof.
  intros Hk. revert pkt. induction fuel as [|fuel IH]; intros [|b pkt] Hl; simpl in Hl; try lia;
    [by split; [apply Forall_nil|].. |].
  destruct (IH (drop k (b :: pkt))) as [H1 H2]; [rewrite length_drop; simpl; lia|].
  cbn [chunks]. split.
  - constructor; [|done]. destruct k; [lia|done].
  - cbn [concat]. by rewrite H2, take_drop.
Qed.

Definition sample_wire : handler (wire_state (W := unit)) :=
  over_wire sample_machine (fun _ pkt => chunks (length pkt) 7 pkt) (fun _ => 0%nat) 5000
    (fun s => (s, false)) (serving (fun q w => (refused 0, w))).

Lemma wire_body id q : drop 16 (wire_message id q) = rq_body q.
Proof. unfold wire_message. by rewrite drop_app_length' by by rewrite length_wire_header. Qed.

(** What the machine answers: to the requests for the directories of the tree their ids, and
    never more than ten bytes. *)
Lemma sample_machine_size msg w :
  let '(rc, payload, _) := sample_machine msg w in
  -2147483648 <= rc < 2147483648 /\ (length payload <= 10)%nat.
Proof. unfold sample_machine. repeat case_decide; (split; [done|by vm_compute; lia]). Qed.

Lemma sample_machine_node wid did name id w :
  sample_tree did name = Some id ->
  sample_machine (wire_message wid (node_request utf8_server 7 did name)) w = (0, node_payload id, w).
Proof.
  intros Ht. unfold sample_machine. rewrite wire_body.
  destruct (sample_tree_cases did name id Ht) as [(-> & -> & ->) | (-> & -> & ->)]; by vm_compute.
Qed.

Lemma sample_speaks :
  speaks sample_machine (fun _ => 0%nat) (serving (fun q w => (refused 0, w))) 32
    (tree_server utf8_server 7 sample_tree) (fun _ => True).
Proof.
  constructor.
  - intros q (did & name & ->). split; [by left|done].
  - intros q id w rc payload w' (did & name & ->) _ _ Hm.
    pose proof (sample_machine_size (wire_message id (node_request utf8_server 7 did name)) w) as H.
    rewrite Hm in H. destruct H as [Hrc Hl]. split; [done|].
    change (is_read _) with false. cbv iota. lia.
  - intros q id w rc payload w' a _ _ Hid Hm Ha. split; [|done].
    intros did name d Ht ->. rewrite (sample_machine_node _ _ _ _ _ Ht) in Hm. simplify_eq.
    destruct Ha as [behind ->]. split; [done|]. by exists id, behind.
  - intros X e w He _. by destruct e.
Qed.

Definition sample_session : dsi_server :=
  mk_server 65535 65535 [] 0 0 0 0 (replicate 64 0) 0 (replicate 64 0) 0 0.

(** [get_dirid] for "/a/b/x", with replies that come seven bytes at a time. *)
Lemma programs_over_wire_witness :
  exists rs o s', run sample_wire (get_dirid [47; 97; 47; 98; 47; 120] sample_client)
      (sample_session, tt, false) = (rs, o, (s', tt, false)) /\
    (exists c', o = Done (0, ([120], 18), c')) /\ idle 32 s'.
Proof.
  destruct (programs_over_wire sample_machine (fun _ pkt => chunks (length pkt) 7 pkt) (fun _ => 0%nat) 5000
    (fun s => (s, false)) (serving (fun q w => (refused 0, w))) 32 ltac:(lia)
    ltac:(intros w pkt; apply chunks_ok; lia)
    (tree_server utf8_server 7 sample_tree) (fun _ => True)
    (get_dirid [47; 97; 47; 98; 47; 120] sample_client)
    (fun r => r.1 = (0, ([120], 18))) sample_session tt sample_speaks)
    as (rs & o & s' & [] & Hr & _ & Ho & Hs & _).
  - split_and!; by vm_compute.
  - done.
  - pose proof (get_dirid_ok utf8_server sample_volume sample_tree ltac:(by left)
      ltac:(intros did name d; unfold sample_tree; repeat case_match; intros; simplify_eq; lia)
      sample_client [47; 97; 47; 98] [120] 18 eq_refl eq_refl ltac:(by constructor)
      ltac:(intros H; by apply list_elem_of_singleton in H) ltac:(simpl; lia) ltac:(simpl; lia)
      ltac:(vm_compute split_on; repeat constructor; vm_compute; lia) eq_refl) as Hok.
    change ([47; 97; 47; 98] ++ slash :: [120]) with [47; 97; 47; 98; 47; 120] in Hok.
    eapply wp_mono; [|exact Hok]. by intros r [H _].
  - exists rs, o, s'. split; [exact Hr|]. split; [|exact Hs]. clear Hr Hs.
    destruct o as [[r c']| |]; [|destruct Ho|destruct Ho]. exists c'. cbn in Ho. by subst r.
Defined.

End Wire.
