(* ===== verification/Users.v ===== *)
(** * User and group ids: lib/users.c *)

From S2P Require Import Prelude Constants Types Utils Dsi ReplyBlock ProtoFiles ProtoVolume.
From S2P Require Import Client Calls.

Module Users.
Import Utils Dsi ReplyBlock ProtoFiles ProtoVolume Client Calls.

Definition AFP_MAPPING_UNKNOWN : Z := 0.
Definition AFP_MAPPING_COMMON : Z := 1.
Definition AFP_MAPPING_LOGINIDS : Z := 2.
Definition AFP_MAPPING_NAME : Z := 3.

(** The return value and the two ids. *)
Definition translate_uidgid_to_server (newuid newgid : Z) : M (Z * (Z * Z)) :=
  s ← server; v ← volume;
  mret (if vo_mapping v =? AFP_MAPPING_COMMON then (0, (newuid, newgid))
        else if vo_mapping v =? AFP_MAPPING_LOGINIDS
        then (0, (sv_server_uid s, sv_server_gid s))
        else (-1, (newuid, newgid))).

Definition translate_uidgid_to_client (newuid newgid : Z) : M (Z * (Z * Z)) :=
  s ← server; v ← volume;
  mret (if vo_mapping v =? AFP_MAPPING_COMMON then (0, (newuid, newgid))
        else if vo_mapping v =? AFP_MAPPING_LOGINIDS then (0, (sv_pw_uid s, sv_pw_gid s))
        else (-1, (newuid, newgid))).

Definition set_mapping (m : Z) : M unit :=
  modify (fun c => set_volume (set_vo_mapping m (cl_volume c)) c).
Definition update_server (f : afp_server -> afp_server) : M unit :=
  modify (fun c => Client.set_server (f (cl_server c)) c).

(** [pw_name] is [server->passwd.pw_name].  The user id is stored whatever FPGetUserInfo
    returns, and the name is compared whatever FPMapID returns. *)
Definition afp_detect_mapping (pw_name : list Z) : M Z :=
  v ← volume; s ← server;
  if negb (vo_mapping v =? AFP_MAPPING_UNKNOWN) then mret 0
  else if has (vo_attributes v) kNoNetworkUserIDs then set_mapping AFP_MAPPING_LOGINIDS;; mret 0
  else
    name ← ask (Memory 255);
    set_mapping AFP_MAPPING_LOGINIDS;;
    update_server (set_sv_server_gid_valid 0);;
    dummy ← ask Unset;
    '(rc, (uid, dummy)) ← FPGetUserInfo 1 0 kFPGetUserInfo_USER_ID (sv_server_uid s) dummy;
    update_server (set_sv_server_uid uid);;
    if negb (rc =? 0) then mret 0
    else
      tmpgid ← ask Unset;
      '(rc, (dummy, tmpgid)) ← FPGetUserInfo 1 0 kFPGetUserInfo_PRI_GROUPID dummy tmpgid;
      (if rc =? 0
       then update_server (set_sv_server_gid_valid 1);; update_server (set_sv_server_gid tmpgid)
       else mret tt);;
      s ← server;
      if negb (sv_server_uid s =? sv_pw_uid s) then mret 0
      else
        '(_, name) ← FPMapID (if has (vo_attributes v) kSupportsUTF8Names
                              then kUserIDToUTF8Name else kUserIDToName) (sv_pw_uid s) name;
        name ← lift (cstr name);
        (if bytes_eqb name pw_name then set_mapping AFP_MAPPING_COMMON else mret tt);;
        mret 0.

(** ** A server with a user *)

Section detection.
Context (uid gid : Z) (login : list Z).

Definition user_request (bitmap : Z) : request := afp_getuserinfo 1 0 bitmap.
Definition user_reply (rid bitmap id : Z) : list Z :=
  wire_header DSI_REPLY DSI_DSICommand rid 0 6 ++ be_bytes 2 bitmap ++ be_bytes 4 id.
Definition name_reply (rid : Z) : list Z :=
  wire_header DSI_REPLY DSI_DSICommand rid 0 (Z.of_nat (2 + length login))
  ++ be_bytes 2 (Z.of_nat (length login)) ++ login.

(** The server knows the user of the session as [login], with the ids [uid] and [gid]. *)
Definition user_server (pw_uid : Z) : contract :=
  {| guarantee := fun r =>
       r = user_request kFPGetUserInfo_USER_ID \/ r = user_request kFPGetUserInfo_PRI_GROUPID \/
       r = afp_mapid kUserIDToUTF8Name pw_uid;
     rely := fun X e =>
       match e in env X return X -> Prop with
       | Exchange r => fun a =>
         an_rc a = 0 /\ exists rid behind,
         (r = user_request kFPGetUserInfo_USER_ID ->
            an_packet a = Some (user_reply rid kFPGetUserInfo_USER_ID uid, behind)) /\
         (r = user_request kFPGetUserInfo_PRI_GROUPID ->
            an_packet a = Some (user_reply rid kFPGetUserInfo_PRI_GROUPID gid, behind)) /\
         (r = afp_mapid kUserIDToUTF8Name pw_uid ->
            an_packet a = Some (name_reply rid, behind))
       | Memory n => fun m => length m = Z.to_nat n
       | _ => fun _ => True
       end;
     may_crash := False; may_starve := False |}.

Lemma user_handled rid bitmap id behind :
  0 <= id < 4294967296 ->
  bitmap = kFPGetUserInfo_USER_ID \/ bitmap = kFPGetUserInfo_PRI_GROUPID ->
  afp_getuserinfo_reply (user_reply rid bitmap id ++ behind)
    (Z.of_nat (length (user_reply rid bitmap id))) =
    Some (0, if bitmap =? kFPGetUserInfo_USER_ID then (id, 0) else (0, id)).
Proof using Type.
  intros Hid Hb. unfold afp_getuserinfo_reply, user_reply.
  pose proof (length_wire_header DSI_REPLY DSI_DSICommand rid 0 6) as Hw.
  rewrite (proj2 (Z.ltb_ge _ _)) by solve_len. rewrite <- !app_assoc.
  rewrite (ntohs_ld16 _ bitmap _ 16) by (congruence || by destruct Hb as [-> | ->]).
  cbn [mbind option_bind]. rewrite raw_error_wire. cbn [mbind option_bind].
  change (negb (0 =? kFPNoErr)) with false. cbv iota.
  rewrite (app_assoc (wire_header _ _ _ _ _)).
  rewrite (ntohl_ld32 _ id _ 18) by (done || solve_len).
  by destruct Hb as [-> | ->].
Qed.

Context (Huid : 0 <= uid < 4294967296) (Hgid : 0 <= gid < 4294967296).
Context (Hlogin : nul_free login) (Hlen : (0 < length login < 255)%nat).

Lemma name_handled rid behind name :
  length name = 255%nat ->
  exists rest, afp_mapid_reply (name_reply rid ++ behind)
    (Z.of_nat (length (name_reply rid))) name = Some (0, login ++ 0 :: rest).
Proof using Hlen.
  intros Hn. unfold afp_mapid_reply, name_reply.
  set (w := wire_header _ _ _ _ _). assert (length w = 16%nat) as Hw by apply length_wire_header.
  rewrite (proj2 (Z.ltb_ge _ _)) by solve_len. rewrite <- !app_assoc.
  assert (forall t, raw_error (w ++ t) = Some 0) as -> by (intros; apply raw_error_wire).
  cbn [mbind option_bind]. change (negb (0 =? kFPNoErr)) with false.
  cbv iota. rewrite drop_app_length' by done.
  pose proof (copy_from_pascal_two_spec name login behind 255 ltac:(lia) ltac:(lia)) as E.
  change (Z.of_nat 255) with 255 in E. rewrite E. cbn [mbind option_bind].
  destruct (255 - length login)%nat as [|k] eqn:Ek; [lia|]. cbn [replicate app].
  by eexists.
Qed.

Lemma user_info_ok pw_uid c bitmap newuid newgid (Q : Z * (Z * Z) -> client -> Prop) :
  bitmap = kFPGetUserInfo_USER_ID \/ bitmap = kFPGetUserInfo_PRI_GROUPID ->
  Q (0, if bitmap =? kFPGetUserInfo_USER_ID then (uid, newgid) else (newuid, gid)) c ->
  hoare (user_server pw_uid) c (FPGetUserInfo 1 0 bitmap newuid newgid) Q.
Proof using Huid Hgid.
  intros Hb HQ. unfold FPGetUserInfo.
  apply hoare_bind, hoare_ask; [constructor|]. intros u _.
  apply hoare_bind, hoare_ask; [constructor|]. intros g _.
  apply hoare_bind, hoare_ask; [apply Forall_singleton; destruct Hb as [-> | ->]; [by left|by right; left]|].
  intros a (Hrc & rid & behind & H1 & H2 & _). apply hoare_bind. unfold handle.
  destruct Hb as [-> | ->].
  - rewrite (H1 eq_refl). apply hoare_bind. rewrite user_handled by auto.
    apply hoare_ret, hoare_ret, hoare_ret. by rewrite Hrc.
  - rewrite (H2 eq_refl). apply hoare_bind. rewrite user_handled by auto.
    apply hoare_ret, hoare_ret, hoare_ret. by rewrite Hrc.
Qed.

Lemma user_name_ok pw_uid c name (Q : Z * list Z -> client -> Prop) :
  length name = 255%nat ->
  (forall rest, Q (0, login ++ 0 :: rest) c) ->
  hoare (user_server pw_uid) c (FPMapID kUserIDToUTF8Name pw_uid name) Q.
Proof using Hlen.
  intros Hn HQ. unfold FPMapID. apply hoare_bind, hoare_ask; [by apply Forall_singleton; right; right|].
  intros a (Hrc & rid & behind & _ & _ & H). apply hoare_bind. unfold handle.
  rewrite (H eq_refl). destruct (name_handled rid behind name Hn) as (rest & Hr).
  apply hoare_bind. rewrite Hr. apply hoare_ret, hoare_ret, hoare_ret. rewrite Hrc. apply HQ.
Qed.

(** The volume and the server after the detection. *)
Definition detected (pw_name : list Z) (c c' : client) : Prop :=
  cl_server c' = set_sv_server_gid gid (set_sv_server_gid_valid 1
    (set_sv_server_uid uid (set_sv_server_gid_valid 0 (cl_server c)))) /\
  cl_volume c' = set_vo_mapping
    (if (uid =? sv_pw_uid (cl_server c)) && bytes_eqb login pw_name
     then AFP_MAPPING_COMMON else AFP_MAPPING_LOGINIDS) (cl_volume c).

Lemma detect_mapping_ok pw_name c :
  vo_mapping (cl_volume c) = AFP_MAPPING_UNKNOWN ->
  has (vo_attributes (cl_volume c)) kNoNetworkUserIDs = false ->
  has (vo_attributes (cl_volume c)) kSupportsUTF8Names = true ->
  hoare (user_server (sv_pw_uid (cl_server c))) c (afp_detect_mapping pw_name)
    (fun r c' => r = 0 /\ detected pw_name c c').
Proof using Huid Hgid Hlogin Hlen.
  intros Hm Hn Hu. unfold afp_detect_mapping, volume, server, set_mapping, update_server.
  apply hoare_bind, hoare_bind, hoare_get, hoare_ret, hoare_bind, hoare_bind, hoare_get,
    hoare_ret.
  rewrite Hm, Hn. change (negb (AFP_MAPPING_UNKNOWN =? AFP_MAPPING_UNKNOWN)) with false. cbv iota.
  apply hoare_bind, hoare_ask; [constructor|]. intros name Hname.
  apply hoare_bind, hoare_modify, hoare_bind, hoare_modify, hoare_bind, hoare_ask;
    [constructor|]. intros dummy _.
  apply hoare_bind, user_info_ok; [by left|]. cbn [Z.eqb].
  apply hoare_bind, hoare_modify. cbn [negb].
  apply hoare_bind, hoare_ask; [constructor|]. intros tmpgid _.
  apply hoare_bind, user_info_ok; [by right|]. cbn [Z.eqb].
  apply hoare_bind, hoare_bind, hoare_modify, hoare_modify.
  apply hoare_bind, hoare_bind, hoare_get, hoare_ret. unfold detected.
  change (sv_server_uid _) with uid. change (sv_pw_uid (cl_server _)) with
    (sv_pw_uid (cl_server c)) at 1 2.
  destruct (uid =? sv_pw_uid (cl_server c)); cbn [negb andb]; [|by apply hoare_ret].
  rewrite Hu. apply hoare_bind, user_name_ok; [exact Hname|].
  intros rest. apply hoare_bind. rewrite cstr_app by done. apply hoare_ret, hoare_bind.
  destruct (bytes_eqb login pw_name); [by apply hoare_modify, hoare_ret|by do 2 apply hoare_ret].
Qed.

End detection.

(** On a server that knows the user of the session as [login], with the ids [uid] and
    [gid], the detection stores both ids and chooses the common user database exactly when
    the user id and the name are the local ones; otherwise the ids are those of the login.
    After it ids can be translated to the client's. *)
Theorem mapping_detected {W} (h : handler W) (I : W -> Prop) w c pw_name uid gid login :
  keeps (user_server uid gid login (sv_pw_uid (cl_server c))) h I -> I w ->
  0 <= uid < 4294967296 -> 0 <= gid < 4294967296 -> nul_free login ->
  (0 < length login < 255)%nat ->
  vo_mapping (cl_volume c) = AFP_MAPPING_UNKNOWN ->
  has (vo_attributes (cl_volume c)) kNoNetworkUserIDs = false ->
  has (vo_attributes (cl_volume c)) kSupportsUTF8Names = true ->
  exists c', (run h (afp_detect_mapping pw_name c) w).1.2 = Done (0, c') /\
    detected uid gid login pw_name c c' /\
    forall u g, translate_uidgid_to_client u g c' =
      Ret (0, (if (uid =? sv_pw_uid (cl_server c)) && bytes_eqb login pw_name then (u, g)
               else (sv_pw_uid (cl_server c), sv_pw_gid (cl_server c))), c').
Proof.
  intros Hh Hw Hu Hg Hl Hn Hm H1 H2.
  destruct (wp_run _ h I _ _ w Hh Hw
    (detect_mapping_ok uid gid login Hu Hg Hl Hn pw_name c Hm H1 H2)) as (_ & Ha & _).
  destruct (run h _ w) as [[rs o] w']. cbn in Ha |- *.
  destruct o as [[r c']| |]; [|done|done]. destruct Ha as [Hr Hd]. cbn in Hr, Hd. subst r.
  exists c'. split_and!; [done|done|]. intros u g. destruct Hd as [Hs Hv].
  transitivity (Ret (if vo_mapping (cl_volume c') =? AFP_MAPPING_COMMON then (0, (u, g))
    else if vo_mapping (cl_volume c') =? AFP_MAPPING_LOGINIDS
    then (0, (sv_pw_uid (cl_server c'), sv_pw_gid (cl_server c'))) else (-1, (u, g)), c'));
    [done|].
  rewrite Hs, Hv. by destruct ((uid =? sv_pw_uid (cl_server c)) && bytes_eqb login pw_name).
Qed.

(** ** An example: the user "ann" *)

Definition user_answer (uid gid : Z) (login : list Z) (r : request) : answer :=
  if decide (rq_body r = rq_body (user_request kFPGetUserInfo_USER_ID))
  then mk_answer 0 (Some (user_reply 9 kFPGetUserInfo_USER_ID uid, [])) []
  else if decide (rq_body r = rq_body (user_request kFPGetUserInfo_PRI_GROUPID))
  then mk_answer 0 (Some (user_reply 9 kFPGetUserInfo_PRI_GROUPID gid, [])) []
  else mk_answer 0 (Some (name_reply login 9, [])) [].

Lemma user_answer_keeps uid gid login pw_uid :
  keeps (user_server uid gid login pw_uid)
    (serving (fun r (w : unit) => (user_answer uid gid login r, w))) (fun _ => True).
Proof.
  intros X e w _ _. split; [|done].
  destruct e as [r|n| | | | | | | | | | | | | | | |]; cbn [rely user_server serving fst]; try done.
  - split; [unfold user_answer; by repeat case_decide|]. exists 9, []. unfold user_answer.
    split_and!; intros ->; [by rewrite decide_True| |].
    + rewrite decide_False by discriminate. by rewrite decide_True.
    + by rewrite !decide_False by discriminate.
  - apply length_replicate.
Qed.

Definition user_client : client :=
  mk_client (Utils.utf8_server) (mk_afp_volume 7 0 kSupportsUTF8Names 0 0 0 0 0 0 0 [] [] 0 0 0)
    [] 0 0 0 0 [].

Lemma mapping_detected_witness :
  exists c', (run (serving (fun r (w : unit) => (user_answer 0 20 [97; 110; 110] r, w)))
      (afp_detect_mapping [97; 110; 110] user_client) tt).1.2 = Done (0, c') /\
    vo_mapping (cl_volume c') = AFP_MAPPING_COMMON.
Proof.
  destruct (mapping_detected _ (fun _ => True) tt user_client [97; 110; 110] 0 20 [97; 110; 110]
    (user_answer_keeps 0 20 [97; 110; 110] _) I) as (c' & Hr & (_ & Hv) & _).
  - split; [discriminate|reflexivity].
  - split; [discriminate|reflexivity].
  - repeat constructor; discriminate.
  - simpl; lia.
  - reflexivity.
  - reflexivity.
  - reflexivity.
  - exists c'. split; [exact Hr|]. by rewrite Hv.
Defined.

End Users.
