(* ===== verification/UamsDef.v ===== *)
(** * Names of authentication methods and of mappings: lib/uams_def.c and lib/map_def.c *)

From S2P Require Import Prelude.

Module UamsDef.

Definition UAM_NOUSERAUTHENT : Z := 0x1.
Definition UAM_CLEARTXTPASSWRD : Z := 0x2.
Definition UAM_RANDNUMEXCHANGE : Z := 0x4.
Definition UAM_2WAYRANDNUM : Z := 0x8.
Definition UAM_DHCAST128 : Z := 0x10.
Definition UAM_CLIENTKRB : Z := 0x20.
Definition UAM_DHX2 : Z := 0x40.
Definition UAM_RECON1 : Z := 0x80.

(** The tables end with an empty string. *)
Definition afp_strings : list (list Z) :=
  [str "No User Authent"; str "Cleartxt Passwrd"; str "Randnum Exchange";
   str "2-Way Randnum Exchange"; str "DHCAST128"; str "Client Krb v2"; str "DHX2";
   str "Recon1"; []].

Definition afp_map_strings : list (list Z) :=
  [str "Unknown"; str "Common user directory"; str "Login ids"; str "Name mapped"; []].

(** [strcasecmp] in the C locale. *)
Definition tolower (c : Z) : Z := if (65 <=? c) && (c <=? 90) then c + 32 else c.
Definition casecmp (a b : list Z) : bool := bytes_eqb (tolower <$> a) (tolower <$> b).

(** The position of [name] among the entries before the empty one. *)
Fixpoint find_string (name : list Z) (strings : list (list Z)) (i : nat) : option nat :=
  match strings with
  | [] | [] :: _ => None
  | s :: strings => if casecmp name s then Some i else find_string name strings (S i)
  end.

Definition uam_string_to_bitmap (name : list Z) : Z :=
  match find_string name afp_strings 0 with
  | Some i => Z.shiftl 1 (Z.of_nat i)
  | None => 0
  end.

(** The highest of the [n] low bits that is set. *)
Fixpoint highest_bit (n : nat) (bitmap : Z) : option nat :=
  match n with
  | O => None
  | S n => if Z.testbit bitmap (Z.of_nat n) then Some n else highest_bit n bitmap
  end.

(** [None] outside is a read behind the table, which has nine entries; [None] inside is
    NULL. *)
Definition uam_bitmap_to_string (bitmap : Z) : option (option (list Z)) :=
  match highest_bit 16 bitmap with
  | Some i => Some <$> (afp_strings !! i)
  | None => Some None
  end.

(** [None] is a read outside of the table. *)
Definition get_mapping_name (mapping : Z) : option (list Z) :=
  if mapping <? 0 then None else afp_map_strings !! Z.to_nat mapping.

Definition map_string_to_num (name : list Z) : Z :=
  match find_string name afp_map_strings 0 with Some i => Z.of_nat i | None => 0 end.

(** ** Names and bits belong together *)

Definition uams : list Z :=
  [UAM_NOUSERAUTHENT; UAM_CLEARTXTPASSWRD; UAM_RANDNUMEXCHANGE; UAM_2WAYRANDNUM;
   UAM_DHCAST128; UAM_CLIENTKRB; UAM_DHX2; UAM_RECON1].

Lemma uam_names_roundtrip :
  Forall (fun uam => exists name, uam_bitmap_to_string uam = Some (Some name) /\
                     name <> [] /\ uam_string_to_bitmap name = uam) uams.
Proof. repeat constructor; eexists; (split_and!; [reflexivity|discriminate|reflexivity]). Qed.

Lemma mapping_names_roundtrip :
  Forall (fun m => exists name, get_mapping_name m = Some name /\ map_string_to_num name = m)
    [0; 1; 2; 3].
Proof. repeat constructor; eexists; split; reflexivity. Qed.

(** A bit of no method is looked up behind the table. *)
Example uam_beyond_table : uam_bitmap_to_string 0x200 = None.
Proof. reflexivity. Qed.

Lemma find_string_In name strings i j :
  find_string name strings i = Some j -> exists s, s ∈ strings /\ casecmp name s = true.
Proof.
  revert i. induction strings as [|[|c s] strings IH]; intros i; cbn [find_string]; try done.
  destruct (casecmp name (c :: s)) eqn:E; [exists (c :: s); set_solver|].
  intros H. destruct (IH _ H) as (s' & ? & ?). exists s'. set_solver.
Qed.

End UamsDef.
