(* ===== verification/Url.v ===== *)
(** * AFP URLs: lib/afp_url.c

    [afp_parse_url] on the two arrays it splits the URL into.  A write behind an array
    or a read of memory that was not set is [Crashed], a recursion that does not end
    within the fuel [Starved]. *)

From S2P Require Import Prelude Dsi Client UamsDef.

Module Url.
Import Client UamsDef.

#[export] Instance outcome_ret : MRet outcome := fun A => @Done A.
#[export] Instance outcome_bind : MBind outcome := fun A B f o =>
  match o with Done a => f a | Crashed => Crashed | Starved => Starved end.

Definition guard_lt (n limit : nat) : outcome unit :=
  if decide (n < limit)%nat then Done tt else Crashed.

Definition afp_of_option {A} (o : option A) : outcome A :=
  match o with Some a => Done a | None => Crashed end.

(** ** The structure *)

(** The fields [afp_parse_url] and [afp_default_url] set; strings by their bytes before
    the NUL. *)
Record afp_url := mk_url {
  ur_username : list Z; ur_uamname : list Z; ur_password : list Z; ur_servername : list Z;
  ur_port : Z; ur_volumename : list Z; ur_path : list Z }.

Definition set_ur_username x u := mk_url x (ur_uamname u) (ur_password u) (ur_servername u)
  (ur_port u) (ur_volumename u) (ur_path u).
Definition set_ur_uamname x u := mk_url (ur_username u) x (ur_password u) (ur_servername u)
  (ur_port u) (ur_volumename u) (ur_path u).
Definition set_ur_password x u := mk_url (ur_username u) (ur_uamname u) x (ur_servername u)
  (ur_port u) (ur_volumename u) (ur_path u).
Definition set_ur_servername x u := mk_url (ur_username u) (ur_uamname u) (ur_password u) x
  (ur_port u) (ur_volumename u) (ur_path u).
Definition set_ur_port x u := mk_url (ur_username u) (ur_uamname u) (ur_password u)
  (ur_servername u) x (ur_volumename u) (ur_path u).
Definition set_ur_volumename x u := mk_url (ur_username u) (ur_uamname u) (ur_password u)
  (ur_servername u) (ur_port u) x (ur_path u).
Definition set_ur_path x u := mk_url (ur_username u) (ur_uamname u) (ur_password u)
  (ur_servername u) (ur_port u) (ur_volumename u) x.

Definition afp_default_url : afp_url := mk_url [] [] [] [] 548 [] [].

(** [snprintf(field,strlen(s)+1,"%s",s)] into a field of [size] bytes. *)
Definition copy_field (size : nat) (s : list Z) : outcome (list Z) :=
  guard_lt (length s) size;; mret s.

(** ** Checks *)

Definition slash : Z := 47.
Definition colon : Z := 58.
Definition at_sign : Z := 64.
Definition open_bracket : Z := 91.
Definition close_bracket : Z := 93.
Definition dollar : Z := 36.

Definition check_servername (servername : list Z) : Z :=
  if index_of slash servername then -1 else 0.

(** [strtol] in base 10; the result is clamped to the range of a [long]. *)
Definition isspace (c : Z) : bool := ((9 <=? c) && (c <=? 13)) || (c =? 32).
Definition isdigit (c : Z) : bool := (48 <=? c) && (c <=? 57).

Fixpoint digits (s : list Z) (acc : Z) : Z :=
  match s with
  | c :: s => if isdigit c then digits s (10 * acc + (c - 48)) else acc
  | [] => acc
  end.

Fixpoint strtol (s : list Z) : Z :=
  let clamp x := Z.max (- 2 ^ 63) (Z.min (2 ^ 63 - 1) x) in
  match s with
  | [] => 0
  | c :: s' =>
    if isspace c then strtol s'
    else if c =? 45 then clamp (- digits s' 0)
    else if c =? 43 then clamp (digits s' 0)
    else clamp (digits s 0)
  end.

Definition check_port (port : list Z) : Z :=
  let ret := strtol port in if (ret <? 0) || (32767 <? ret) then -1 else 0.

(** 0 is a known name. *)
Definition check_uamname (uam : list Z) : Z := if uam_string_to_bitmap uam =? 0 then 1 else 0.

(** ** Escapes *)

(** The loop over the string, with [inescape]. *)
Fixpoint escape_loop (inescape : bool) (c : Z) (s : list Z) : list Z :=
  match s with
  | [] => []
  | d :: s =>
    if inescape && (d =? c) then escape_loop false c s
    else d :: escape_loop (inescape || (d =? c)) c s
  end.

(** The result goes through an array of 1024 bytes. *)
Definition escape_string (s : list Z) (c : Z) : outcome (list Z) :=
  let r := escape_loop false c s in guard_lt (length r) 1024;; mret r.

Definition escape_url (url : afp_url) : outcome afp_url :=
  password ← escape_string (ur_password url) at_sign;
  username ← escape_string (ur_username url) colon;
  mret (set_ur_username username (set_ur_password password url)).

(** The position in [s] of the first [c] from [k] on that is not doubled. *)
Fixpoint escape_strchr (fuel : nat) (s : list Z) (k : nat) (c : Z) (toescape : list Z)
    : outcome (option nat) :=
  match fuel with
  | O => Starved
  | S fuel =>
    let found := Nat.add k <$> index_of c (drop k s) in
    if negb (existsb (Z.eqb c) toescape) then Done found
    else
      match found with
      | None => Done None
      | Some p =>
        if bool_decide (s !! S p = Some c) then escape_strchr fuel s (p + 2) c toescape
        else Done (Some p)
      end
  end.

(** The recursive call starts two characters before the one just found and searches
    forward from there. *)
Fixpoint escape_strrchr (fuel : nat) (s : list Z) (k : nat) (c : Z) (toescape : list Z)
    : outcome (option nat) :=
  match fuel with
  | O => Starved
  | S fuel =>
    let found := Nat.add k <$> last_index_of c (drop k s) in
    if negb (existsb (Z.eqb c) toescape) then Done found
    else
      match found with
      | None => Done None
      | Some p =>
        if decide (p = k) then Done (Some p)
        else if bool_decide (s !! pred p = Some c) then
          if decide (p < 2)%nat then Crashed else escape_strrchr fuel s (p - 2) c toescape
        else Done (Some p)
      end
  end.

(** ** The parser *)

(** The prefix a conversion [%[^c]] reads. *)
Definition until (c : Z) (s : list Z) : list Z :=
  match index_of c s with Some i => take i s | None => s end.

(** [sscanf(p,"%[^/]/%[^$]",firstpart,secondpart)]: whether both were read, and the
    strings in the arrays, of 255 and 2048 bytes.  [first] is what the first array holds
    before. *)
Definition scan_url (p first : list Z) : outcome (bool * list Z * list Z) :=
  let a := until slash p in
  if decide (a = []) then
    firstpart ← afp_of_option (cstr first); mret (false, firstpart, [])
  else
    guard_lt (length a) 255;;
    match drop (length a) p with
    | _ :: r =>
      let b := until dollar r in
      if decide (b = []) then mret (false, a, [])
      else guard_lt (length b) 2048;; mret (true, a, b)
    | [] => mret (false, a, [])
    end.

(** The server name and the text behind the colon, if there is one.  In square brackets
    it is an IPv6 address; what follows the bracket up to the colon is skipped. *)
Definition split_server (p : list Z) : list Z * option (list Z) :=
  let behind_colon q := (fun i => drop (S i) q) <$> index_of colon q in
  match (if bool_decide (head p = Some open_bracket) then index_of close_bracket p else None)
  with
  | Some j => (take (j - 1) (drop 1 p), behind_colon (drop (S j) p))
  | None => (until colon p, behind_colon p)
  end.

(** "user[;AUTH=uamname][:password]"; [None] is the exit with -1. *)
Definition parse_auth (fuel : nat) (url : afp_url) (p : list Z)
    : outcome (option unit * afp_url) :=
  q ← escape_strrchr fuel p 0 colon [colon];
  '(p, url) ← match q with
              | Some i =>
                password ← copy_field 127 (drop (S i) p);
                mret (take i p, set_ur_password password url)
              | None => mret (p, url)
              end;
  '(ok, p, url) ← match strstr p (str ";AUTH=") with
                  | Some i =>
                    uamname ← copy_field 50 (drop (i + 6) p);
                    mret (check_uamname uamname =? 0, take i p, set_ur_uamname uamname url)
                  | None => mret (true, p, url)
                  end;
  if negb (ok : bool) then mret (None, url)
  else if decide (p = []) then mret (Some tt, url)
  else username ← copy_field 127 p; mret (Some tt, set_ur_username username url).

(** "volume[/path]" *)
Definition parse_secondpart (url : afp_url) (secondpart : list Z) : outcome afp_url :=
  volumename ← copy_field 33 (until slash secondpart);
  let url := set_ur_volumename volumename url in
  match index_of slash secondpart with
  | None => mret url
  | Some i =>
    let q := drop (S i) secondpart in
    path ← copy_field 768 (slash :: q); mret (set_ur_path path url)
  end.

(** From the server name on.  [auth] is what stands before the at sign. *)
Definition parse_firstpart (fuel : nat) (url : afp_url) (auth : option (list Z))
    (p : list Z) (second : option (list Z)) : outcome (Z * afp_url) :=
  let '(servername, port) := split_server p in
  let port_ok := match port with
                 | None => true
                 | Some q => (check_port q =? 0) && negb (strtol q =? 0)
                 end in
  let url := match port with
             | Some q => if check_port q =? 0 then set_ur_port (strtol q) url else url
             | None => url
             end in
  if negb port_ok then mret (-1, url)
  else
    servername ← copy_field 255 servername;
    let url := set_ur_servername servername url in
    if negb (check_servername servername =? 0) then mret (-1, url)
    else
      '(ok, url) ← match auth with
                   | Some a => parse_auth fuel url a
                   | None => mret (Some tt, url)
                   end;
      match ok with
      | None => mret (-1, url)
      | Some _ =>
        url ← match second with
              | Some secondpart => parse_secondpart url secondpart
              | None => mret url
              end;
        url ← escape_url url;
        mret (0, url)
      end.

(** The text of the URL starts behind the first "://", which must follow "afp".  [first]
    is what the array [firstpart] holds at the start. *)
Definition afp_parse_url (fuel : nat) (first : list Z) (url : afp_url) (toparse : list Z)
    : outcome (Z * afp_url) :=
  let url := mk_url [] [] [] [] (ur_port url) [] [] in
  match strstr toparse (str "://") with
  | None => mret (-1, url)
  | Some i =>
    if decide (i < 3)%nat then Crashed
    else if negb (bytes_eqb (take 3 (drop (i - 3) toparse)) (str "afp")) then mret (-1, url)
    else
      '(two, firstpart, secondpart) ← scan_url (drop (i + 3) toparse) first;
      let second := if two : bool then Some secondpart else None in
      p ← escape_strchr (S (length firstpart)) firstpart 0 at_sign [at_sign];
      match p with
      | Some i => parse_firstpart fuel url (Some (take i firstpart)) (drop (S i) firstpart) second
      | None => parse_firstpart fuel url None firstpart second
      end
  end.

Definition afp_url_validate (fuel : nat) (first : list Z) (url_string : list Z)
    (port : Z) (valid_url : afp_url) : outcome Z :=
  '(rc, new_url) ← afp_parse_url fuel first (mk_url [] [] [] [] port [] []) url_string;
  mret (if negb (rc =? 0) then -1
        else if bytes_eqb (ur_username new_url) (ur_username valid_url)
             && bytes_eqb (ur_uamname new_url) (ur_uamname valid_url)
             && bytes_eqb (ur_password new_url) (ur_password valid_url)
             && bytes_eqb (ur_servername new_url) (ur_servername valid_url)
             && bytes_eqb (ur_volumename new_url) (ur_volumename valid_url)
        then 0 else -1).

Example parse_full :
  afp_parse_url 2 [] afp_default_url
    (str "afp://us::er;AUTH=dhx2:p@@ss@host:1548/vol/a/b") =
  Done (0, mk_url (str "us:er") (str "dhx2") (str "p@ss") (str "host") 1548 (str "vol")
             (str "/a/b")).
Proof. vm_compute. reflexivity. Qed.

(** ** Text of a URL

    The grammar of the comment in [afp_parse_url]: user name, method and password,
    the port, the volume and the path are optional, the method and the password also by
    themselves.  A colon in the user name and an at sign in the password are doubled; an IPv6
    address ([lo_literal]) stands in square brackets. *)

Record location := mk_location {
  lo_auth : option (list Z * option (list Z) * option (list Z));
  lo_literal : bool;
  lo_server : list Z;
  lo_port : option (list Z);
  lo_volume : option (list Z * option (list Z)) }.

Fixpoint double (c : Z) (s : list Z) : list Z :=
  match s with
  | [] => []
  | d :: s => if d =? c then c :: c :: double c s else d :: double c s
  end.

Definition user_text (user : list Z) (uam : option (list Z)) : list Z :=
  double colon user ++ match uam with Some uam => str ";AUTH=" ++ uam | None => [] end.

Definition auth_text (a : list Z * option (list Z) * option (list Z)) : list Z :=
  let '(user, uam, password) := a in
  user_text user uam
  ++ match password with Some password => colon :: double at_sign password | None => [] end.

Definition server_text (literal : bool) (server : list Z) (port : option (list Z)) : list Z :=
  (if literal then open_bracket :: server ++ [close_bracket] else server)
  ++ match port with Some port => colon :: port | None => [] end.

Definition first_text (l : location) : list Z :=
  match lo_auth l with Some a => auth_text a ++ [at_sign] | None => [] end
  ++ server_text (lo_literal l) (lo_server l) (lo_port l).

Definition volume_text (v : list Z * option (list Z)) : list Z :=
  v.1 ++ match v.2 with Some path => slash :: path | None => [] end.

Definition url_text (l : location) : list Z :=
  str "afp://" ++ first_text l
  ++ match lo_volume l with Some v => slash :: volume_text v | None => [] end.

(** What the parser should make of it. *)
Definition located (l : location) (port : Z) : afp_url :=
  mk_url (match lo_auth l with Some (user, _, _) => user | None => [] end)
    (match lo_auth l with Some (_, Some uam, _) => uam | _ => [] end)
    (match lo_auth l with Some (_, _, Some password) => password | _ => [] end)
    (lo_server l)
    (match lo_port l with Some port => digits port 0 | None => port end)
    (match lo_volume l with Some (v, _) => v | None => [] end)
    (match lo_volume l with Some (_, Some path) => slash :: path | _ => [] end).

(** Which parts the parser can take apart.  Everything has to fit its field; there are no
    slashes before the volume, no at signs and semicolons in a user name, no colons in a
    password, and none in a user name that has no password or at its end
    ([doubled_colon_hangs]); a port is at most 32767; there is no dollar sign in the volume and
    the path, and no slash in the volume; and no NUL anywhere. *)
Definition without (cs s : list Z) : Prop := Forall (fun c => c ∉ s) cs.

Definition auth_ok (a : list Z * option (list Z) * option (list Z)) : Prop :=
  let '(user, uam, password) := a in
  without [slash; at_sign; 59] user /\ last user <> Some colon /\
  (length (double colon user) < 127)%nat /\
  match uam with
  | Some uam => without [slash; at_sign; colon] uam /\ uam_string_to_bitmap uam <> 0 /\
                (length uam < 50)%nat
  | None => True
  end /\
  match password with
  | Some password =>
    without [slash; colon] password /\ (length (double at_sign password) < 127)%nat
  | None => colon ∉ user
  end.

Definition host_ok (literal : bool) (server : list Z) : Prop :=
  server <> [] /\
  if literal then without [slash; at_sign; close_bracket] server
  else without [slash; at_sign; colon] server /\ head server <> Some open_bracket.

#[export] Instance without_dec cs s : Decision (without cs s).
Proof. unfold without. apply _. Defined.

Record location_ok (l : location) : Prop := {
  ok_auth : match lo_auth l with Some a => auth_ok a | None => True end;
  ok_server : host_ok (lo_literal l) (lo_server l);
  ok_port : match lo_port l with
            | Some p => Forall (fun c => isdigit c = true) p /\ 0 < digits p 0 <= 32767
            | None => True
            end;
  ok_first : (length (first_text l) < 255)%nat;
  ok_volume : match lo_volume l with
              | Some (v, path) =>
                without [slash; dollar] v /\ (length v < 33)%nat /\
                match path with
                | Some path => dollar ∉ path /\ (S (length path) < 768)%nat
                | None => True
                end
              | None => True
              end;
  ok_nul : nul_free (url_text l) }.

(** ** Scanning *)

Lemma until_all c s : c ∉ s -> until c s = s.
Proof. unfold until. by intros ->%index_of_None. Qed.

Lemma index_of_mid c s t : c ∉ s -> index_of c (s ++ c :: t) = Some (length s).
Proof. intros H. apply index_of_Some. by exists s, t. Qed.

Lemma until_mid c s t : c ∉ s -> until c (s ++ c :: t) = s.
Proof. intros H. unfold until. rewrite index_of_mid by done. apply take_app_length. Qed.

Lemma strstr_before s t pat c :
  head pat = Some c -> c ∉ s ->
  strstr (s ++ t) pat = Nat.add (length s) <$> strstr t pat.
Proof.
  intros Hp. induction s as [|x s IH]; intros Hs; cbn [app length].
  - by destruct (strstr t pat).
  - cbn [strstr]. rewrite bool_decide_eq_false_2.
    + rewrite IH by set_solver. by destruct (strstr t pat).
    + intros [k Hk]. destruct pat; [done|]. simplify_eq/=. set_solver.
Qed.

Lemma strstr_absent s pat c : head pat = Some c -> c ∉ s -> strstr s pat = None.
Proof.
  intros Hp Hs. rewrite <- (app_nil_r s), (strstr_before s [] pat c) by done.
  by destruct pat.
Qed.

(** ** Escapes *)

Lemma double_elem c d s : d ∉ s -> d <> c -> d ∉ double c s.
Proof.
  intros Hs Hd. induction s as [|x s IH]; cbn [double]; [done|].
  destruct (Z.eqb_spec x c); set_solver.
Qed.

Lemma double_plain c s : c ∉ s -> double c s = s.
Proof.
  induction s as [|x s IH]; intros Hs; cbn [double]; [done|].
  rewrite (proj2 (Z.eqb_neq x c)) by set_solver. by rewrite IH by set_solver.
Qed.

Lemma escape_double c s : escape_loop false c (double c s) = s.
Proof.
  induction s as [|x s IH]; cbn [double]; [done|].
  destruct (Z.eqb_spec x c) as [->|Hx]; cbn [escape_loop andb orb].
  - rewrite !Z.eqb_refl. cbn [andb orb]. by rewrite IH.
  - rewrite (proj2 (Z.eqb_neq x c)) by done. cbn [andb orb]. by rewrite IH.
Qed.

Lemma escape_plain c s : c ∉ s -> escape_loop false c s = s.
Proof.
  induction s as [|x s IH]; intros Hs; cbn [escape_loop andb orb]; [done|].
  rewrite (proj2 (Z.eqb_neq x c)) by set_solver. rewrite IH by set_solver. done.
Qed.

Lemma length_double c s : (length s <= length (double c s))%nat.
Proof.
  induction s as [|x s IH]; cbn [double length]; [lia|]. destruct (x =? c); simpl; lia.
Qed.

(** The doubled characters are skipped. *)
Lemma escape_strchr_double c s k a w t fuel :
  drop k s = a ++ double c w ++ c :: t -> (k <= length s)%nat -> c ∉ a -> head t <> Some c ->
  (length w < fuel)%nat ->
  escape_strchr fuel s k c [c] = Done (Some (k + length a + length (double c w))%nat).
Proof.
  revert k a fuel. induction w as [|x w IH]; intros k a fuel Hs Hk Ha Ht Hf;
    (destruct fuel as [|fuel]; [simpl in Hf; lia|]).
  - cbn [double app length] in *. cbn [escape_strchr existsb orb]. rewrite Z.eqb_refl. cbn [negb orb].
    rewrite Hs, index_of_mid by done. cbn [fmap option_fmap option_map].
    rewrite bool_decide_eq_false_2; [f_equal; f_equal; lia|].
    intros Hn. apply Ht. rewrite <- Hn. replace (S (k + length a))%nat with (k + S (length a))%nat by lia.
    rewrite <- lookup_drop, Hs. rewrite lookup_app_r by lia.
    replace (S (length a) - length a)%nat with 1%nat by lia. by destruct t.
  - cbn [double] in *. destruct (Z.eqb_spec x c) as [->|Hx].
    + cbn [app] in Hs. cbn [escape_strchr existsb orb]. rewrite Z.eqb_refl. cbn [negb orb].
      rewrite Hs, index_of_mid by done. cbn [fmap option_fmap option_map].
      rewrite bool_decide_eq_true_2.
      2: { replace (S (k + length a))%nat with (k + S (length a))%nat by lia.
           rewrite <- lookup_drop, Hs, lookup_app_r by lia.
           by replace (S (length a) - length a)%nat with 1%nat by lia. }
      pose proof (f_equal length Hs) as Hl. rewrite length_drop, length_app in Hl.
      cbn [length] in Hl.
      rewrite (IH (k + length a + 2)%nat []); try done.
      * cbn [length]. f_equal. f_equal. lia.
      * replace (k + length a + 2)%nat with (k + (length a + 2))%nat by lia.
        rewrite <- drop_drop, Hs. change (c :: c :: double c w ++ c :: t) with
          ([c; c] ++ double c w ++ c :: t). rewrite app_assoc, drop_app_length'; [done|].
        rewrite length_app. simpl. lia.
      * lia.
      * set_solver.
      * simpl in Hf. lia.
    + rewrite (IH k (a ++ [x]));
        [|by rewrite Hs, <- app_assoc|done|set_solver|done|simpl in Hf; lia].
      rewrite length_app. cbn [length]. f_equal. f_equal. lia.
Qed.

Lemma escape_strchr_absent c s fuel : c ∉ s -> escape_strchr (S fuel) s 0 c [c] = Done None.
Proof.
  intros H. cbn [escape_strchr existsb orb]. rewrite Z.eqb_refl. cbn [negb orb].
  rewrite drop_0. apply index_of_None in H. by rewrite H.
Qed.

(** A colon that does not follow another one is found at once. *)
Lemma escape_strrchr_last c u t fuel :
  c ∉ t -> last u <> Some c ->
  escape_strrchr (S fuel) (u ++ c :: t) 0 c [c] = Done (Some (length u)).
Proof.
  intros Ht Hu. cbn [escape_strrchr existsb orb]. rewrite Z.eqb_refl. cbn [negb orb].
  rewrite drop_0, last_index_of_app by done. cbn [fmap option_fmap option_map].
  change (0 + length u)%nat with (length u).
  case_decide as H0; [done|]. rewrite bool_decide_eq_false_2; [done|].
  rewrite lookup_app_l by lia. intros H. apply Hu. by rewrite last_lookup.
Qed.

Lemma escape_strrchr_absent c s fuel : c ∉ s -> escape_strrchr (S fuel) s 0 c [c] = Done None.
Proof.
  intros H. cbn [escape_strrchr existsb orb]. rewrite Z.eqb_refl. cbn [negb orb].
  rewrite drop_0. by rewrite last_index_of_absent.
Qed.

Lemma last_double c s : last (double c s) = last s.
Proof.
  induction s as [|x s IH]; [done|]. cbn [double]. destruct (Z.eqb_spec x c) as [->|].
  - rewrite !last_cons, IH. by destruct (last s).
  - by rewrite !last_cons, IH.
Qed.

(** ** The parts *)

Lemma copy_field_ok size s : (length s < size)%nat -> copy_field size s = Done s.
Proof. intros H. unfold copy_field, guard_lt. by rewrite decide_True. Qed.

Lemma user_text_last user uam password :
  auth_ok (user, uam, password) -> last (user_text user uam) <> Some colon.
Proof.
  intros (_ & Hl & _ & Hu & _). unfold user_text. destruct uam as [uam|].
  - destruct Hu as (Hu & _). unfold without in Hu. rewrite !Forall_cons in Hu.
    rewrite app_assoc, last_app. destruct (last uam) eqn:E.
    + intros [= ->]. apply last_Some in E as [u' ->]. set_solver.
    + by rewrite last_app.
  - by rewrite app_nil_r, last_double.
Qed.

Lemma user_text_elem user uam :
  auth_ok (user, uam, None) -> colon ∉ user_text user uam.
Proof.
  intros (_ & _ & _ & Hu & Hc). unfold user_text. rewrite double_plain by done.
  rewrite not_elem_of_app. split; [done|]. destruct uam as [uam|]; [|set_solver].
  destruct Hu as (Hu & _). unfold without in Hu. rewrite !Forall_cons in Hu.
  rewrite not_elem_of_app. split; [|tauto]. by apply (bool_decide_unpack (colon ∉ str ";AUTH=")).
Qed.

Lemma parse_auth_ok fuel a srv port :
  auth_ok a ->
  parse_auth (S fuel) (mk_url [] [] [] srv port [] []) (auth_text a) =
    Done (Some tt, let '(user, uam, password) := a in
                   mk_url (double colon user) (default [] uam)
                     (match password with Some p => double at_sign p | None => [] end) srv
                     port [] []).
Proof.
  destruct a as [[user uam] password]. intros H.
  pose proof H as Hok. pose proof (user_text_last _ _ _ H) as Hlast.
  destruct H as (Huser & _ & Hlu & Huam & Hpw). unfold without in *.
  rewrite !Forall_cons in *. unfold parse_auth, auth_text.
  assert (escape_strrchr (S fuel) (user_text user uam ++
      match password with Some password => colon :: double at_sign password | None => [] end) 0 colon [colon] =
    Done (match password with Some _ => Some (length (user_text user uam)) | None => None end)) as ->.
  { destruct password as [password|].
    - rewrite !Forall_cons in Hpw. apply escape_strrchr_last; [apply double_elem; [tauto|done]|done].
    - rewrite app_nil_r, escape_strrchr_absent; [done|]. by apply user_text_elem. }
  cbn [mbind outcome_bind].
  match goal with |- mbind _ ?e = _ =>
    replace e with (Done (user_text user uam,
      mk_url [] [] (match password with Some p => double at_sign p | None => [] end) srv port [] []))
  end.
  2: { destruct password as [password|]; [|by rewrite app_nil_r].
       by rewrite drop_behind, copy_field_ok, take_app_length by tauto. }
  cbn [mbind outcome_bind mret outcome_ret].
  assert (59 ∉ double colon user) as H59 by (apply double_elem; [tauto|done]).
  unfold user_text. destruct uam as [uam|].
  - rewrite (strstr_before _ _ _ 59) by done. rewrite strstr_here.
    cbn [fmap option_fmap option_map]. rewrite Nat.add_0_r.
    rewrite app_assoc, drop_app_length' by (rewrite length_app; done).
    rewrite copy_field_ok by tauto. cbn [mbind outcome_bind mret outcome_ret].
    rewrite <- app_assoc, take_app_length. unfold check_uamname.
    rewrite (proj2 (Z.eqb_neq (uam_string_to_bitmap uam) 0)) by tauto. cbn [Z.eqb negb].
    case_decide as H0; [by rewrite H0|]. by rewrite copy_field_ok.
  - rewrite app_nil_r, (strstr_absent _ _ 59) by done. cbn [mbind outcome_bind mret outcome_ret negb].
    case_decide as H0; [by rewrite H0|]. by rewrite copy_field_ok.
Qed.

Lemma split_server_ok literal server port :
  host_ok literal server -> split_server (server_text literal server port) = (server, port).
Proof.
  intros (Hn & Hc). unfold split_server, server_text. destruct literal.
  { unfold without in Hc. rewrite !Forall_cons in Hc. destruct Hc as (_ & _ & Hc & _).
    rewrite bool_decide_eq_true_2 by done. rewrite <- app_comm_cons, <- app_assoc. cbn [app].
    assert (close_bracket ∉ open_bracket :: server) as Hc' by (rewrite not_elem_of_cons; done).
    pose proof (index_of_mid _ _ (match port with Some p => colon :: p | None => [] end) Hc') as E.
    rewrite <- app_comm_cons in E. rewrite E. cbn [length drop Nat.sub].
    rewrite Nat.sub_0_r, drop_0, take_app_length, drop_behind. by destruct port. }
  destruct Hc as [Hc Hb]. unfold without in Hc. rewrite !Forall_cons in Hc. destruct Hc as (_ & _ & Hc & _).
  rewrite bool_decide_eq_false_2 by (by destruct server).
  destruct port as [port|].
  - rewrite until_mid, index_of_mid by done. cbn [fmap option_fmap option_map].
    by rewrite drop_behind.
  - rewrite app_nil_r, until_all by done. apply index_of_None in Hc. by rewrite Hc.
Qed.

Lemma port_strtol p :
  Forall (fun c => isdigit c = true) p -> 0 < digits p 0 <= 32767 -> strtol p = digits p 0.
Proof.
  intros Hd Hr. destruct p as [|c p]; [done|].
  apply Forall_cons in Hd as [Hc _]. unfold isdigit in Hc.
  apply andb_prop in Hc as [H1%Z.leb_le H2%Z.leb_le]. cbn [strtol].
  assert (isspace c = false) as ->.
  { unfold isspace. apply orb_false_iff. split; [apply andb_false_iff; right|].
    - apply Z.leb_gt. lia.
    - apply Z.eqb_neq. lia. }
  rewrite !(proj2 (Z.eqb_neq c _)) by lia. lia.
Qed.

Lemma digit_elem d p : Forall (fun c => isdigit c = true) p -> isdigit d = false -> d ∉ p.
Proof. intros Hp Hd H. rewrite Forall_forall in Hp. by rewrite (Hp d H) in Hd. Qed.

Lemma host_ok_elem literal server :
  host_ok literal server -> slash ∉ server /\ at_sign ∉ server.
Proof.
  intros [_ H]. destruct literal; [|destruct H as [H _]]; unfold without in H; rewrite !Forall_cons in H; tauto.
Qed.

Lemma first_text_elem l d :
  location_ok l -> d = slash \/ (d = at_sign /\ lo_auth l = None) -> d ∉ first_text l.
Proof.
  intros [Ha Hs Hp _ _ _] Hd. apply host_ok_elem in Hs.
  assert (d ∉ server_text (lo_literal l) (lo_server l) (lo_port l)) as Hsrv.
  { unfold server_text.
    assert (d ∉ lo_server l /\ d <> open_bracket /\ d <> close_bracket /\ d <> colon) as (H1 & H2 & H3 & H4)
      by (destruct Hd as [-> | [-> _]]; split; [apply Hs|done|apply Hs|done]).
    rewrite not_elem_of_app. split; [destruct (lo_literal l); set_solver|].
    destruct (lo_port l) as [p|]; [|set_solver]. destruct Hp as [Hp _].
    assert (d ∉ p) by (apply digit_elem; [done|by destruct Hd as [-> | [-> _]]]). set_solver. }
  unfold first_text. destruct (lo_auth l) as [[[user uam] password]|]; [|done].
  destruct Hd as [-> | [_ Hd]]; [|done].
  destruct Ha as (Hu & _ & _ & Huam & Hpw). unfold without in *. rewrite !Forall_cons in *.
  assert (slash ∉ double colon user) by (apply double_elem; [tauto|done]).
  unfold auth_text, user_text. rewrite !not_elem_of_app.
  split_and!; try done; [|destruct password as [password|]; [|set_solver]|set_solver].
  2: { rewrite Forall_cons in Hpw. rewrite not_elem_of_cons. split; [done|]. apply double_elem; [tauto|done]. }
  destruct uam as [uam|]; [|set_solver]. rewrite !Forall_cons in Huam.
  rewrite not_elem_of_app. split; [|tauto].
  by apply (bool_decide_unpack (slash ∉ str ";AUTH=")).
Qed.

(** What is behind the first slash, if there is something. *)
Definition second_text (l : location) : option (list Z) :=
  v ← lo_volume l; if decide (volume_text v = []) then None else Some (volume_text v).

Lemma scan_url_ok l first :
  location_ok l ->
  scan_url (first_text l ++ match lo_volume l with Some v => slash :: volume_text v | None => [] end)
    first = Done (bool_decide (is_Some (second_text l)), first_text l, default [] (second_text l)).
Proof.
  intros Hl. pose proof (first_text_elem l slash Hl (or_introl eq_refl)) as Hs.
  assert (first_text l <> []) as Hn.
  { destruct Hl as [_ (Hn & _) _ _ _ _]. unfold first_text, server_text.
    intros [_ [E _]%app_eq_nil]%app_eq_nil. by destruct (lo_literal l). }
  destruct Hl as [_ _ _ Hf Hv _]. unfold scan_url, guard_lt, second_text.
  destruct (lo_volume l) as [[v path]|].
  - destruct Hv as (Hv & Hlv & Hp). unfold without in Hv. rewrite !Forall_cons in Hv.
    rewrite until_mid by done. rewrite decide_False by done. rewrite decide_True by done.
    cbn [mbind outcome_bind mret outcome_ret]. rewrite drop_app_length.
    rewrite until_all.
    2: { unfold volume_text. cbn [fst snd]. destruct path; set_solver. }
    cbn [mbind option_bind]. case_decide; [done|].
    rewrite decide_True; [done|].
    unfold volume_text. cbn [fst snd]. rewrite length_app. destruct path; cbn [length]; lia.
  - rewrite app_nil_r, until_all by done. rewrite decide_False by done.
    rewrite decide_True by done. cbn [mbind outcome_bind mret outcome_ret]. by rewrite drop_all.
Qed.

Lemma parse_secondpart_ok u v path :
  without [slash; dollar] v -> (length v < 33)%nat ->
  match path with Some path => (S (length path) < 768)%nat | None => True end ->
  parse_secondpart u (volume_text (v, path)) =
    Done (let u := set_ur_volumename v u in
          match path with Some path => set_ur_path (slash :: path) u | None => u end).
Proof.
  intros Hv Hl Hp. unfold without in Hv. rewrite !Forall_cons in Hv.
  unfold parse_secondpart, volume_text. cbn [fst snd]. destruct path as [path|].
  - rewrite until_mid, index_of_mid by tauto. rewrite (copy_field_ok 33) by done.
    cbn [mbind outcome_bind mret outcome_ret]. rewrite drop_behind.
    by rewrite copy_field_ok by (simpl; lia).
  - rewrite app_nil_r, until_all by tauto. rewrite (copy_field_ok 33) by done.
    destruct Hv as [Hv%index_of_None _]. cbn [mbind outcome_bind mret outcome_ret]. by rewrite Hv.
Qed.

Lemma escape_url_ok user password u :
  ur_username u = double colon user -> ur_password u = double at_sign password ->
  (length (double colon user) < 127)%nat -> (length (double at_sign password) < 127)%nat ->
  escape_url u = Done (set_ur_username user (set_ur_password password u)).
Proof.
  intros H1 H2 H3 H4. unfold escape_url, escape_string, guard_lt. rewrite H1, H2, !escape_double.
  pose proof (length_double colon user). pose proof (length_double at_sign password).
  by rewrite !decide_True by lia.
Qed.

(** Behind the at sign. *)
Lemma parse_firstpart_ok fuel l port :
  location_ok l ->
  parse_firstpart (S fuel) (mk_url [] [] [] [] port [] [])
    (auth_text <$> lo_auth l) (server_text (lo_literal l) (lo_server l) (lo_port l))
    (second_text l) = Done (0, located l port).
Proof.
  intros [Ha Hs Hp Hf Hv _].
  assert (length (lo_server l) < 255)%nat as Hls.
  { unfold first_text, server_text in Hf. rewrite !length_app in Hf.
    destruct (lo_literal l); [|lia]. simpl in Hf. rewrite length_app in Hf. lia. }
  unfold parse_firstpart. rewrite split_server_ok by done. apply host_ok_elem in Hs.
  set (n := match lo_port l with Some p => digits p 0 | None => port end).
  assert (forall p, lo_port l = Some p -> strtol p = digits p 0 /\ check_port p = 0 /\
    0 < digits p 0) as Hport.
  { intros p Ep. rewrite Ep in Hp. destruct Hp as [Hd Hr].
    pose proof (port_strtol p Hd Hr) as Hst. split; [done|]. unfold check_port. rewrite Hst.
    rewrite (proj2 (Z.ltb_ge _ _)), (proj2 (Z.ltb_ge _ _)) by lia. split; [done|lia]. }
  replace (match lo_port l with
           | Some q => if check_port q =? 0 then _ else _
           | None => _ end) with (mk_url [] [] [] [] n [] []).
  2: { unfold n. destruct (lo_port l) as [p|]; [|done].
       destruct (Hport p eq_refl) as (-> & -> & _). done. }
  replace (match lo_port l with Some q => (check_port q =? 0) && _ | None => true end)
    with true.
  2: { destruct (lo_port l) as [p|]; [|done]. destruct (Hport p eq_refl) as (-> & -> & Hd).
       by rewrite (proj2 (Z.eqb_neq (digits p 0) 0)) by lia. }
  cbn [negb]. rewrite (copy_field_ok 255) by done. cbn [mbind outcome_bind mret outcome_ret].
  unfold check_servername. destruct Hs as [Hsl _]. rewrite (proj2 (index_of_None _ _) Hsl).
  change (negb (0 =? 0)) with false. cbv iota.
  set (u := match lo_auth l with
            | Some (user, uam, password) => mk_url (double colon user) (default [] uam)
                (match password with Some p => double at_sign p | None => [] end) (lo_server l) n [] []
            | None => mk_url [] [] [] (lo_server l) n [] []
            end).
  replace (match auth_text <$> lo_auth l with Some a => _ | None => _ end)
    with (Done (Some tt, u)).
  2: { unfold u. destruct (lo_auth l) as [[[user uam] password]|]; [|done].
       cbn [fmap option_fmap option_map]. unfold set_ur_servername. cbn [ur_username ur_uamname
         ur_password ur_port ur_volumename ur_path]. by rewrite parse_auth_ok. }
  cbn [mbind outcome_bind].
  set (u2 := match lo_volume l with
             | Some (v, Some path) => set_ur_path (slash :: path) (set_ur_volumename v u)
             | Some (v, None) => set_ur_volumename v u
             | None => u
             end).
  replace (match second_text l with Some s => _ | None => _ end) with (Done u2).
  2: { unfold u2, second_text. destruct (lo_volume l) as [[v path]|]; [|done].
       destruct Hv as (Hv & Hlv & Hlp). cbn [mbind option_bind]. case_decide as Hvt.
       - unfold volume_text in Hvt. destruct path; [by destruct v|]. destruct v; [|done].
         unfold u. by destruct (lo_auth l) as [[[user uam] password]|].
       - rewrite parse_secondpart_ok; [by destruct path|done|done|].
         destruct path; [apply Hlp|done]. }
  cbn [mbind outcome_bind].
  rewrite (escape_url_ok (match lo_auth l with Some (user, _, _) => user | None => [] end)
    (match lo_auth l with Some (_, _, Some password) => password | _ => [] end)).
  - cbn [mbind outcome_bind]. unfold located, u2, u, n.
    destruct (lo_auth l) as [[[user [uam|]] [password|]]|], (lo_volume l) as [[v [path|]]|];
      reflexivity.
  - unfold u2, u. destruct (lo_auth l) as [[[user uam] password]|],
      (lo_volume l) as [[v [path|]]|]; reflexivity.
  - unfold u2, u. destruct (lo_auth l) as [[[user uam] [password|]]|],
      (lo_volume l) as [[v [path|]]|]; reflexivity.
  - destruct (lo_auth l) as [[[user uam] password]|]; [apply Ha|simpl; lia].
  - destruct (lo_auth l) as [[[user uam] [password|]]|]; [apply Ha|simpl; lia|simpl; lia].
Qed.

(** The at sign behind the authentication part. *)
Lemma at_sign_found l :
  location_ok l ->
  escape_strchr (S (length (first_text l))) (first_text l) 0 at_sign [at_sign] =
    Done (length <$> (auth_text <$> lo_auth l)).
Proof.
  intros Hl. pose proof Hl as [Ha [Hsn _] _ _ _ _].
  pose proof (proj2 (host_ok_elem _ _ (ok_server l Hl))) as Hs.
  destruct (lo_auth l) as [[[user uam] password]|] eqn:Ea.
  2: { apply escape_strchr_absent, first_text_elem; [done|]. by right. }
  destruct Ha as (Hu & _ & _ & Huam & _). unfold without in *. rewrite !Forall_cons in *.
  unfold first_text. rewrite Ea. cbn [fmap option_fmap option_map]. unfold auth_text.
  rewrite <- !app_assoc. cbn [app].
  rewrite (escape_strchr_double _ _ 0
    (user_text user uam ++ match password with Some _ => [colon] | None => [] end) (default [] password)
    (server_text (lo_literal l) (lo_server l) (lo_port l))).
  - f_equal. f_equal. rewrite !length_app. destruct password; cbn [length default double from_option id]; lia.
  - rewrite drop_0, <- !app_assoc. by destruct password.
  - lia.
  - assert (at_sign ∉ double colon user) by (apply double_elem; [tauto|done]).
    unfold user_text. rewrite !not_elem_of_app. split_and!; try done.
    + destruct uam as [uam|]; [|set_solver]. rewrite !Forall_cons in Huam.
      rewrite not_elem_of_app. split; [|tauto].
      by apply (bool_decide_unpack (at_sign ∉ str ";AUTH=")).
    + destruct password; [by apply (bool_decide_unpack (at_sign ∉ [colon]))|set_solver].
  - unfold server_text. destruct (lo_literal l); [done|]. destruct (lo_server l); [done|]. set_solver.
  - rewrite !length_app. destruct password as [password|]; [|cbn [default from_option length]; lia].
    cbn [length default from_option id]. pose proof (length_double at_sign password). lia.
Qed.

(** C32: parsing the text of a URL gives back its parts, for every combination of the
    optional ones: the user name with its doubled colons and the password with its doubled at
    signs undone, the method, the server, by name or as an IPv6 address, the port, the volume
    and the path, with nothing left over from before in the structure or in the arrays.  The
    parts are those that [location_ok] allows: each fits its field, the method is known, the
    port is from 1 to 32767, and the parts are without NULs and without the characters that
    would end them; in particular no password contains a colon, no user name ends with one,
    and one without a password has none at all, since the parser hangs then
    ([doubled_colon_hangs]). *)
Theorem url_roundtrip fuel first url l :
  location_ok l ->
  afp_parse_url (S fuel) first url (url_text l) = Done (0, located l (ur_port url)).
Proof.
  intros Hl. unfold afp_parse_url, url_text.
  change (str "afp://") with (str "afp" ++ str "://"). rewrite <- app_assoc.
  rewrite (strstr_before (str "afp") _ _ 58), strstr_here
    by (done || by apply (bool_decide_unpack (58 ∉ str "afp"))).
  cbn [fmap option_fmap option_map]. change (length (str "afp") + 0)%nat with 3%nat.
  change (decide (3 < 3)%nat) with (decide (3 < 3)%nat). rewrite decide_False by lia.
  rewrite drop_0. change (take 3 (str "afp" ++ ?s)) with (str "afp").
  change (bytes_eqb (str "afp") (str "afp")) with true. cbn [negb].
  rewrite app_assoc, drop_app_length' by done.
  rewrite scan_url_ok by done. cbn [mbind outcome_bind].
  rewrite at_sign_found by done. cbn [mbind outcome_bind].
  replace (if bool_decide (is_Some (second_text l)) then _ else None)
    with (second_text l) by (by destruct (second_text l)).
  pose proof (parse_firstpart_ok fuel l (ur_port url) Hl) as H. revert H.
  unfold first_text. destruct (lo_auth l) as [a|]; cbn [fmap option_fmap option_map]; intros H.
  - rewrite <- app_assoc. cbn [app]. rewrite take_app_length, drop_behind. exact H.
  - exact H.
Qed.

Definition sample_location : location :=
  mk_location (Some (str "us:er", Some (str "DHX2"), Some (str "p@ss"))) false (str "host")
    (Some (str "1548")) (Some (str "vol", Some (str "a/b"))).

Lemma url_roundtrip_witness :
  afp_parse_url 1 [] afp_default_url (str "afp://us::er;AUTH=DHX2:p@@ss@host:1548/vol/a/b") =
    Done (0, mk_url (str "us:er") (str "DHX2") (str "p@ss") (str "host") 1548 (str "vol")
               (str "/a/b")).
Proof.
  refine (url_roundtrip 0 [] afp_default_url sample_location _). constructor.
  - split_and!; try (by apply (bool_decide_unpack (without _ _))); try (vm_compute; lia);
      discriminate.
  - split; [discriminate|]. split; [by apply (bool_decide_unpack (without _ _))|discriminate].
  - split_and!; [repeat constructor|vm_compute; done|vm_compute; done].
  - vm_compute; lia.
  - split_and!; [by apply (bool_decide_unpack (without _ _))|vm_compute; lia|
                 by apply (bool_decide_unpack (dollar ∉ _))|vm_compute; lia].
  - by apply (bool_decide_unpack (nul_free _)).
Defined.

(** The other forms of the tests of the repository, and an IPv6 address. *)
Example parse_forms :
  map (fun s => afp_parse_url 2 [] afp_default_url (str s))
    ["afp://username@server/volume/path"; "afp://server/"; "afp://server:22/volume/"; "afp://[fe80::1]:22"]%string =
  [Done (0, mk_url (str "username") [] [] (str "server") 548 (str "volume") (str "/path"));
   Done (0, mk_url [] [] [] (str "server") 548 [] []);
   Done (0, mk_url [] [] [] (str "server") 22 (str "volume") (str "/"));
   Done (0, mk_url [] [] [] (str "fe80::1") 22 [] [])].
Proof. vm_compute. reflexivity. Qed.

(** ** A doubled colon before the last colon *)

(** The search goes back two characters and forward again to where it was. *)
Lemma escape_strrchr_loops fuel u x t k :
  colon ∉ t -> (k <= S (length u))%nat ->
  escape_strrchr fuel (u ++ x :: colon :: colon :: t) k colon [colon] = Starved.
Proof.
  intros Ht. revert k. induction fuel as [|fuel IH]; intros k Hk; [done|].
  assert (last_index_of colon (drop k (u ++ x :: colon :: colon :: t)) =
          Some (length u + 2 - k)%nat) as Hl.
  { change (u ++ x :: colon :: colon :: t) with (u ++ [x; colon] ++ colon :: t).
    rewrite app_assoc, drop_app_le by (rewrite length_app; simpl; lia).
    rewrite last_index_of_app by done. rewrite length_drop, length_app. done. }
  cbn [escape_strrchr existsb orb]. rewrite Z.eqb_refl. cbn [negb orb].
  rewrite Hl. cbn [fmap option_fmap option_map].
  replace (k + (length u + 2 - k))%nat with (length u + 2)%nat by lia.
  rewrite decide_False by lia. rewrite bool_decide_eq_true_2.
  2: { replace (pred (length u + 2)) with (length u + 1)%nat by lia.
       rewrite lookup_app_r by lia. by replace (length u + 1 - length u)%nat with 1%nat by lia. }
  rewrite decide_False by lia. replace (length u + 2 - 2)%nat with (length u) by lia.
  apply IH. lia.
Qed.

(** The parser hangs on a doubled colon with none behind it, which is how the
    comments write a colon in a user name or a password: for every user name that ends
    in an escaped colon the search for the password never ends. *)
Theorem doubled_colon_hangs fuel first url user rest server :
  without [slash; at_sign; colon] rest -> without [slash; at_sign] user -> user <> [] ->
  without [slash; at_sign; colon; open_bracket] server -> server <> [] ->
  (length (user ++ [colon; colon] ++ rest ++ [at_sign] ++ server) < 255)%nat ->
  afp_parse_url fuel first url
    (str "afp://" ++ user ++ [colon; colon] ++ rest ++ [at_sign] ++ server) = Starved.
Proof.
  intros Hr Hu Hun Hs Hsn Hl. unfold without in *. rewrite !Forall_cons in *.
  set (f := user ++ _). unfold afp_parse_url.
  change (str "afp://") with (str "afp" ++ str "://"). rewrite <- app_assoc.
  rewrite (strstr_before (str "afp") _ _ 58), strstr_here
    by (done || by apply (bool_decide_unpack (58 ∉ str "afp"))).
  cbn [fmap option_fmap option_map]. change (length (str "afp") + 0)%nat with 3%nat.
  rewrite decide_False by lia. rewrite drop_0.
  change (take 3 (str "afp" ++ ?s)) with (str "afp").
  change (bytes_eqb (str "afp") (str "afp")) with true. cbn [negb].
  rewrite app_assoc, drop_app_length' by done.
  assert (slash ∉ [colon; colon] /\ at_sign ∉ [colon; colon] /\ slash ∉ [at_sign]) as (H1 & H2 & H3)
    by (split_and!; by apply (bool_decide_unpack (_ ∉ _))).
  assert (slash ∉ f) as Hf by (unfold f; rewrite !not_elem_of_app; tauto).
  unfold scan_url. rewrite until_all by done.
  rewrite decide_False by (unfold f; by destruct user). unfold guard_lt.
  rewrite (decide_True (P := (length f < 255)%nat)) by done. cbn [mbind outcome_bind]. rewrite drop_all.
  cbn [mbind outcome_bind mret outcome_ret].
  rewrite (escape_strchr_double at_sign f 0 (user ++ [colon; colon] ++ rest) [] server); cycle 1.
  { unfold f. by rewrite drop_0, <- !app_assoc. }
  { lia. }
  { rewrite !not_elem_of_app. tauto. }
  { destruct server; [done|]. set_solver. }
  { simpl. lia. }
  cbn [double length]. unfold parse_firstpart, split_server.
  replace (0 + length (user ++ [colon; colon] ++ rest) + 0)%nat
    with (length (user ++ [colon; colon] ++ rest)) by lia.
  assert (f = (user ++ [colon; colon] ++ rest) ++ at_sign :: server) as ->
    by (unfold f; by rewrite <- !app_assoc).
  cbn [mbind outcome_bind]. rewrite take_app_length, drop_behind.
  rewrite bool_decide_eq_false_2 by (destruct server; [done|set_solver]).
  rewrite until_all by tauto. rewrite (proj2 (index_of_None colon server)) by tauto.
  cbn [fmap option_fmap option_map negb].
  rewrite (copy_field_ok 255) by (rewrite !length_app in Hl; lia).
  cbn [mbind outcome_bind]. unfold check_servername.
  rewrite (proj2 (index_of_None slash server)) by tauto. change (negb (0 =? 0)) with false.
  cbv iota. unfold parse_auth.
  destruct (exists_last Hun) as (u & x & ->). rewrite <- !app_assoc. cbn [app].
  rewrite escape_strrchr_loops by (tauto || lia). done.
Qed.

Lemma doubled_colon_hangs_witness :
  afp_parse_url 1000 [] afp_default_url (str "afp://ann::b@host") = Starved.
Proof.
  refine (doubled_colon_hangs 1000 [] afp_default_url (str "ann") (str "b") (str "host")
    _ _ _ _ _ _);
    first [by apply (bool_decide_unpack (without _ _)) | discriminate | vm_compute; lia].
Defined.

End Url.
