(* ===== verification/Status.v ===== *)
(** * Identification of a server: dsi_getstatus_reply of lib/dsi.c

    The reply to DSIGetStatus with its tables of versions and of authentication methods,
    and [afp_server_identify] of lib/afp.c. *)

From S2P Require Import Prelude Constants Types Utils Unicode Codepage Dsi ProtoFiles UamsDef.

Module Status.
Import Utils Unicode Codepage Dsi ProtoFiles UamsDef.

Definition AFP_SERVER_NAME_LEN : nat := 33.
Definition AFP_SERVER_NAME_UTF8_LEN : nat := 255.
Definition AFP_MACHINETYPE_LEN : nat := 33.
Definition AFP_SIGNATURE_LEN : nat := 16.
Definition AFP_UAM_LENGTH : nat := 24.
Definition SERVER_MAX_VERSIONS : nat := 10.
Definition SERVER_MAX_UAMS : nat := 10.

(** ** Versions *)

(** The table up to its end. *)
Definition afp_versions : list (list Z * Z) :=
  [(str "AFPVersion 1.1", 11); (str "AFPVersion 2.0", 20); (str "AFPVersion 2.1", 21);
   (str "AFP2.2", 22); (str "AFPX03", 30); (str "AFP3.1", 31); (str "AFP3.2", 32)].

(** [strcmp] of a string with the contents of an array. *)
Definition holds (buf s : list Z) : bool := bool_decide (s ++ [0] `prefix_of` buf).

Definition find_version (buf : list Z) : option Z :=
  snd <$> List.find (fun v => holds buf v.1) afp_versions.

(** [tmp] is the array [tmpversionname]. *)
Fixpoint versions_loop (n : nat) (p tmp versions : list Z) (j : nat) : option (list Z) :=
  match n with
  | O => Some versions
  | S n =>
    '(tmp, len) ← copy_from_pascal tmp (Some p) 33;
    let p := drop (Z.to_nat (u8 (len + 1))) p in
    match find_version tmp with
    | Some number => versions_loop n p tmp (<[j:=number]> versions) (S j)
    | None => versions_loop n p tmp versions j
    end
  end.

(** [junk] is what the local array holds at the start. *)
Definition dsi_parse_versions (junk versions msg : list Z) : option (list Z) :=
  num_versions ← ld8 0 msg;
  versions ← zero_fill 0 SERVER_MAX_VERSIONS versions;
  versions_loop (Nat.min (Z.to_nat num_versions) SERVER_MAX_VERSIONS) (drop 1 msg) junk versions 0.

(** ** Authentication methods *)

Fixpoint uams_loop (n : nat) (p ua_name : list Z) (supported : Z) : option Z :=
  match n with
  | O => Some supported
  | S n =>
    '(ua_name, len) ← copy_from_pascal ua_name (Some p) (Z.of_nat AFP_UAM_LENGTH);
    name ← cstr ua_name;
    uams_loop n (drop (Z.to_nat (u8 (len + 1))) p) ua_name
      (Z.lor supported (uam_string_to_bitmap name))
  end.

Definition dsi_parse_uams (msg : list Z) : option Z :=
  num_uams ← ld8 0 msg;
  uams_loop (Nat.min (Z.to_nat num_uams) SERVER_MAX_UAMS) (drop 1 msg)
    (replicate (AFP_UAM_LENGTH + 1) 0) 0.

(** ** The reply *)

(** The fields of [struct afp_server] the reply sets; strings are arrays.  [ss_block] is
    [machine_type], of 17 bytes, with [icon], of 256, behind it: the machine type is
    copied with a limit of 33. *)
Record server_status := mk_status {
  ss_server_name : list Z; ss_server_name_utf8 : list Z; ss_server_name_printable : list Z;
  ss_block : list Z; ss_signature : list Z; ss_flags : Z; ss_supported_uams : Z;
  ss_versions : list Z }.

Definition machine_type (s : server_status) : list Z := take 17 (ss_block s).
Definition icon (s : server_status) : list Z := drop 17 (ss_block s).

(** The UTF-8 name behind [p2]; its length may be off by one character. *)
Definition get_utf8_name (dest p2 : list Z) : option (list Z) :=
  '(dest, len) ← copy_from_pascal dest (Some p2) (Z.of_nat AFP_SERVER_NAME_UTF8_LEN);
  if len =? 0 then fst <$> copy_from_pascal dest (Some (drop 1 p2)) (Z.of_nat AFP_SERVER_NAME_UTF8_LEN)
  else Some dest.

(** The position behind the offsets that [flags] announces before the one of the UTF-8
    name. *)
Definition skip_offsets (flags : Z) (p : nat) : nat :=
  let p := if has flags kSupportsTCP then (p + 2)%nat else p in
  if has flags kSupportsDirServices then (p + 2)%nat else p.

(** [iconv] gives the bytes the conversion of the name writes, [None] if it cannot be
    opened; [junk] is the local array of [dsi_parse_versions].  The buffer is at an even
    address. *)
Definition dsi_getstatus_reply (iconv : option (list Z -> list Z)) (junk : list Z)
    (buf : list Z) (size : Z) (s : server_status) : option server_status :=
  if size <? 34 then Some s
  else
    let data off := drop (16 + Z.to_nat off) buf in
    let offset_at (p : nat) : option Z := ntohs <$> ld16 p buf in
    machine_offset ← offset_at 16%nat;
    '(block, _) ← copy_from_pascal (ss_block s) (Some (data machine_offset))
                    (Z.of_nat AFP_MACHINETYPE_LEN);
    version_offset ← offset_at 18%nat;
    versions ← dsi_parse_versions junk (ss_versions s) (data version_offset);
    uams_offset ← offset_at 20%nat;
    uams ← dsi_parse_uams (data uams_offset);
    icon_offset ← offset_at 22%nat;
    block ← (if 0 <? icon_offset
             then bytes ← slice 0 256 (data icon_offset); blit 17 bytes block
             else Some block);
    flags ← offset_at 24%nat;
    '(name, len) ← copy_from_pascal (ss_server_name s) (Some (drop 26 buf))
                     (Z.of_nat AFP_SERVER_NAME_LEN);
    let p := Z.to_nat (even_up (26 + len + 1)) in
    signature_offset ← offset_at p;
    signature ← slice 0 AFP_SIGNATURE_LEN (data signature_offset);
    let s := mk_status name (ss_server_name_utf8 s) (ss_server_name_printable s) block signature
               flags uams versions in
    if has flags kSupportsUTF8SrvrName then
      name_offset ← offset_at (skip_offsets flags (p + 2)%nat);
      utf8 ← get_utf8_name (ss_server_name_utf8 s) (drop 1 (data name_offset));
      printable ← convert_utf8dec_to_utf8pre utf8 (ss_server_name_printable s);
      Some (mk_status name utf8 printable block signature flags uams versions)
    else
      match iconv with
      | None => Some s
      | Some conv =>
        inbuf ← cstr name;
        printable ← blit 0 (conv inbuf) (ss_server_name_printable s);
        Some (mk_status name (ss_server_name_utf8 s) printable block signature flags uams versions)
      end.

(** [afp_server_identify]: the type of the server. *)
Definition afp_server_identify (s : server_status) : Z :=
  if holds (machine_type s) (str "Netatalk") then AFPFS_SERVER_TYPE_NETATALK
  else if holds (machine_type s) (str "AirPort") then AFPFS_SERVER_TYPE_AIRPORT
  else if holds (machine_type s) (str "Macintosh") then AFPFS_SERVER_TYPE_MACINTOSH
  else AFPFS_SERVER_TYPE_UNKNOWN.

(** ** The reply as the protocol prescribes it *)

(** What a server tells about itself.  The UTF-8 name is given by its characters, which
    go over the wire decomposed. *)
Record server_facts := mk_facts {
  sf_machine : list Z; sf_versions : list (list Z); sf_uams : list (list Z);
  sf_icon : option (list Z); sf_flags : Z; sf_name : list Z; sf_signature : list Z;
  sf_utf8 : list Z }.

Definition pascal (s : list Z) : list Z := Z.of_nat (length s) :: s.
Definition table_of (names : list (list Z)) : list Z :=
  Z.of_nat (length names) :: concat (pascal <$> names).

(** [bytes] are at the offset [off] of [data]. *)
Definition lies (data : list Z) (off : Z) (bytes : list Z) : Prop :=
  bytes `prefix_of` drop (Z.to_nat off) data.

#[export] Instance lies_dec data off bytes : Decision (lies data off bytes).
Proof. unfold lies. apply _. Defined.

Definition wire_utf8 (u : list Z) : list Z := utf8 (decompose16 u).

(** The part at the start: the offsets of the others, the flags and the name, and on an
    even boundary more offsets. *)
Definition fixed_part (i : server_facts) (mo vo uo io so no do un : Z) : list Z :=
  be_bytes 2 mo ++ be_bytes 2 vo ++ be_bytes 2 uo ++ be_bytes 2 io ++ be_bytes 2 (sf_flags i)
  ++ pascal (sf_name i) ++ (if Nat.even (length (sf_name i)) then [0] else [])
  ++ be_bytes 2 so
  ++ (if has (sf_flags i) kSupportsTCP then be_bytes 2 no else [])
  ++ (if has (sf_flags i) kSupportsDirServices then be_bytes 2 do else [])
  ++ (if has (sf_flags i) kSupportsUTF8SrvrName then be_bytes 2 un else []).

Definition in_range16 (x : Z) : Prop := 0 <= x < 65536.

Inductive status_data (i : server_facts) (data : list Z) : Prop :=
| layout mo vo uo io so no do un :
    Forall in_range16 [mo; vo; uo; io; sf_flags i; so; no; do; un] ->
    fixed_part i mo vo uo io so no do un `prefix_of` data ->
    lies data mo (pascal (sf_machine i)) ->
    lies data vo (table_of (sf_versions i)) ->
    lies data uo (table_of (sf_uams i)) ->
    match sf_icon i with Some icon => 0 < io /\ lies data io icon | None => io = 0 end ->
    lies data so (sf_signature i) ->
    (has (sf_flags i) kSupportsUTF8SrvrName = true ->
     lies data un (0 :: pascal (wire_utf8 (sf_utf8 i)))) ->
    status_data i data.

(** What fits the fields of the client. *)
Record facts_ok (i : server_facts) : Prop := {
  fo_machine : (length (sf_machine i) < 17)%nat;
  fo_versions : (length (sf_versions i) <= 10)%nat /\
                Forall (fun v => nul_free v /\ (length v < 33)%nat) (sf_versions i);
  fo_uams : (length (sf_uams i) <= 10)%nat /\
            Forall (fun u => nul_free u /\ (0 < length u <= 24)%nat) (sf_uams i);
  fo_icon : match sf_icon i with Some icon => length icon = 256%nat | None => True end;
  fo_name : nul_free (sf_name i) /\ (length (sf_name i) < 33)%nat;
  fo_signature : length (sf_signature i) = 16%nat;
  fo_utf8 : has (sf_flags i) kSupportsUTF8SrvrName = true ->
            ucs2 (sf_utf8 i) /\ precomposed (sf_utf8 i) /\
            (0 < length (wire_utf8 (sf_utf8 i)) < 255)%nat /\
            (length (utf8 (sf_utf8 i)) < 255)%nat }.

Record status_ok (s : server_status) : Prop := {
  so_name : length (ss_server_name s) = 33%nat;
  so_utf8 : length (ss_server_name_utf8 s) = 255%nat;
  so_printable : length (ss_server_name_printable s) = 255%nat;
  so_block : length (ss_block s) = 273%nat;
  so_versions : length (ss_versions s) = 10%nat }.

(** The numbers of the versions the client knows, in the order of the server. *)
Definition version_number (name : list Z) : option Z :=
  snd <$> List.find (fun v => bytes_eqb v.1 name) afp_versions.
Definition known_versions (names : list (list Z)) : list Z := omap version_number names.

Definition uam_mask (names : list (list Z)) : Z :=
  foldl Z.lor 0 (uam_string_to_bitmap <$> names).

(** A string in an array of [n] bytes. *)
Definition in_array (n : nat) (s : list Z) : list Z := resize n 0 s.

(** ** Tables *)

Lemma copy_from_pascal_in dest p s max_len :
  pascal s `prefix_of` p -> (length s <= max_len <= length dest)%nat -> (length s < 256)%nat ->
  copy_from_pascal dest (Some p) (Z.of_nat max_len) =
    Some (in_array max_len s ++ drop max_len dest, Z.of_nat (length s)).
Proof.
  intros [rest ->] Hm Hs. unfold pascal. cbn [app]. rewrite copy_from_pascal_spec by lia.
  unfold in_array. rewrite resize_ge by lia. by rewrite <- app_assoc.
Qed.

Lemma holds_array n s t name :
  nul_free s -> nul_free name -> (length s < n)%nat ->
  holds (in_array n s ++ t) name = bytes_eqb name s.
Proof.
  intros Hs Hname Hn. unfold holds, bytes_eqb, in_array. rewrite resize_ge by lia.
  apply bool_decide_ext. destruct (n - length s)%nat as [|k] eqn:Ek; [lia|].
  cbn [replicate]. rewrite <- app_assoc. cbn [app]. split.
  - intros [k' Hk]. rewrite <- app_assoc in Hk. apply (f_equal cstr) in Hk. cbn [app] in Hk.
    rewrite !cstr_app in Hk by done. by simplify_eq.
  - intros ->. exists (replicate k 0 ++ t). by rewrite <- app_assoc.
Qed.

Lemma find_ext {A} (f g : A -> bool) l :
  Forall (fun a => f a = g a) l -> List.find f l = List.find g l.
Proof. induction 1 as [|a l Ha _ IH]; [done|]. simpl. rewrite Ha, IH. done. Qed.

Lemma omap_length {A B} (f : A -> option B) l : (length (omap f l) <= length l)%nat.
Proof. induction l as [|a l IH]; csimpl; [lia|]. destruct (f a); csimpl; lia. Qed.

Lemma find_version_array v :
  nul_free v -> (length v < 33)%nat -> find_version (in_array 33 v) = version_number v.
Proof.
  intros Hv Hl. unfold find_version, version_number. f_equal. apply find_ext.
  assert (Forall (fun x => nul_free x.1) afp_versions) as Hnames
    by (apply (bool_decide_unpack (Forall _ _)); reflexivity).
  eapply Forall_impl; [exact Hnames|]. intros x Hx. cbn beta.
  rewrite <- (app_nil_r (in_array 33 v)). by apply holds_array.
Qed.

Lemma drop_pascal v rest :
  (length v < 255)%nat -> drop (Z.to_nat (u8 (Z.of_nat (length v) + 1))) (pascal v ++ rest) = rest.
Proof.
  intros Hv. rewrite u8_small by lia. unfold pascal.
  replace (Z.to_nat (Z.of_nat (length v) + 1)) with (length (Z.of_nat (length v) :: v))
    by (cbn [length]; lia). apply drop_app_length.
Qed.

Lemma versions_loop_ok names p tmp pre rest :
  concat (pascal <$> names) `prefix_of` p -> length tmp = 33%nat ->
  Forall (fun v => nul_free v /\ (length v < 33)%nat) names -> (length names <= length rest)%nat ->
  versions_loop (length names) p tmp (pre ++ rest) (length pre) =
    Some (pre ++ known_versions names ++ drop (length (known_versions names)) rest).
Proof.
  intros Hp Ht Hn. revert p tmp pre rest Hp Ht.
  induction Hn as [|v names [Hv Hl] _ IH]; intros p tmp pre rest [tail ->] Ht Hr.
  { cbn [length versions_loop known_versions omap list_omap]. by rewrite drop_0. }
  cbn [fmap list_fmap concat length versions_loop] in *.
  rewrite (copy_from_pascal_in tmp _ v 33).
  2: { exists (concat (pascal <$> names) ++ tail). by rewrite <- app_assoc. }
  2,3: lia.
  cbn [mbind option_bind]. rewrite <- app_assoc, drop_pascal by lia.
  rewrite drop_ge, app_nil_r by lia. rewrite find_version_array by done.
  unfold known_versions. cbn [omap list_omap]. fold (known_versions names).
  assert (length (in_array 33 v) = 33%nat) as Hl33 by apply length_resize.
  destruct (version_number v) as [number|].
  - destruct rest as [|r rest]; [simpl in Hr; lia|].
    rewrite (insert_app_r_alt _ _ (length pre)) by done. rewrite Nat.sub_diag. cbn [insert list_insert].
    change (number :: rest) with ([number] ++ rest). rewrite app_assoc.
    replace (S (length pre)) with (length (pre ++ [number])) by (rewrite length_app; simpl; lia).
    rewrite IH; [|by eexists|done|simpl in Hr; lia]. rewrite <- app_assoc. done.
  - apply IH; [by eexists|done|lia].
Qed.

Lemma parse_versions_ok names junk versions data :
  table_of names `prefix_of` data -> (length names <= 10)%nat -> length junk = 33%nat ->
  length versions = 10%nat -> Forall (fun v => nul_free v /\ (length v < 33)%nat) names ->
  dsi_parse_versions junk versions data =
    Some (resize 10 0 (known_versions names)).
Proof.
  intros [tail ->] Hl Hj Hv Hn. unfold dsi_parse_versions, table_of. cbn [app].
  rewrite ld8_cons. cbn [mbind option_bind]. unfold zero_fill.
  rewrite (blit_0 (replicate SERVER_MAX_VERSIONS 0)) by (rewrite length_replicate, Hv; done).
  cbn [mbind option_bind].
  rewrite (drop_ge versions), app_nil_r by (rewrite length_replicate, Hv; done).
  rewrite Nat2Z.id. rewrite Nat.min_l by done. cbn [drop].
  rewrite (versions_loop_ok names _ junk [] (replicate SERVER_MAX_VERSIONS 0)); try done.
  - cbn [app]. rewrite drop_replicate. f_equal. rewrite resize_ge; [done|].
    unfold known_versions. pose proof (omap_length version_number names). unfold SERVER_MAX_VERSIONS. lia.
  - by eexists.
Qed.

Lemma uams_loop_ok names p ua supported :
  concat (pascal <$> names) `prefix_of` p -> length ua = 25%nat -> ua !! 24%nat = Some 0 ->
  Forall (fun u => nul_free u /\ (0 < length u <= 24)%nat) names ->
  uams_loop (length names) p ua supported =
    Some (foldl Z.lor supported (uam_string_to_bitmap <$> names)).
Proof.
  intros Hp Hl H0 Hn. revert p ua supported Hp Hl H0.
  induction Hn as [|v names [Hv Hlv] _ IH]; intros p ua supported [tail ->] Hl H0; [done|].
  cbn [fmap list_fmap concat length uams_loop foldl] in *.
  rewrite (copy_from_pascal_in ua _ v 24).
  2: { exists (concat (pascal <$> names) ++ tail). by rewrite <- app_assoc. }
  2,3: lia.
  cbn [mbind option_bind]. rewrite <- app_assoc, drop_pascal by lia.
  assert (drop 24 ua = [0]) as Hd.
  { apply drop_S in H0. rewrite H0. f_equal. apply drop_ge. lia. }
  rewrite Hd. unfold in_array. rewrite resize_ge by lia.
  assert (exists k, replicate (24 - length v) 0 ++ [0] = 0 :: k) as [k Hk]
    by (destruct (24 - length v)%nat; by eexists).
  rewrite <- app_assoc, Hk, cstr_app by done. cbn [mbind option_bind].
  apply IH; [by eexists| |].
  - rewrite <- Hk, !length_app, length_replicate. simpl. lia.
  - rewrite <- Hk, app_assoc, lookup_app_r by solve_len.
    replace (24 - _)%nat with 0%nat by solve_len. done.
Qed.

Lemma parse_uams_ok names data :
  table_of names `prefix_of` data -> (length names <= 10)%nat ->
  Forall (fun u => nul_free u /\ (0 < length u <= 24)%nat) names ->
  dsi_parse_uams data = Some (uam_mask names).
Proof.
  intros [tail ->] Hl Hn. unfold dsi_parse_uams, table_of. cbn [app].
  rewrite ld8_cons. cbn [mbind option_bind]. rewrite Nat2Z.id, Nat.min_l by done. cbn [drop].
  apply uams_loop_ok; try done. by eexists.
Qed.

(** ** The whole reply *)

Definition identified_block (block machine : list Z) (icon : option (list Z)) : list Z :=
  match icon with
  | Some icon => in_array 17 machine ++ icon
  | None => in_array 33 machine ++ drop 33 block
  end.

Definition identified (conv : list Z -> list Z) (i : server_facts) (s : server_status)
    : server_status :=
  let unicode := has (sf_flags i) kSupportsUTF8SrvrName in
  let printable := if unicode then utf8 (sf_utf8 i) ++ [0] else conv (sf_name i) in
  mk_status (in_array 33 (sf_name i))
    (if unicode then in_array 255 (wire_utf8 (sf_utf8 i)) else ss_server_name_utf8 s)
    (printable ++ drop (length printable) (ss_server_name_printable s))
    (identified_block (ss_block s) (sf_machine i) (sf_icon i))
    (sf_signature i) (sf_flags i) (uam_mask (sf_uams i))
    (resize 10 0 (known_versions (sf_versions i))).

Lemma data_at hdr data behind off bytes :
  length hdr = 16%nat -> lies data off bytes -> bytes <> [] ->
  bytes `prefix_of` drop (16 + Z.to_nat off) (hdr ++ data ++ behind).
Proof.
  intros Hh [k Hk] Hb. exists (k ++ behind).
  replace (16 + Z.to_nat off)%nat with (length hdr + Z.to_nat off)%nat by lia.
  rewrite <- drop_drop, drop_app_length.
  rewrite drop_app_le; [by rewrite Hk, app_assoc|].
  destruct (decide (Z.to_nat off <= length data)%nat); [done|].
  rewrite drop_ge in Hk by lia. by destruct bytes.
Qed.

Lemma slice_prefix bytes b : bytes `prefix_of` b -> slice 0 (length bytes) b = Some bytes.
Proof. intros [k ->]. by apply slice_0. Qed.

Lemma offset_at buf pre v rest off :
  buf = pre ++ be_bytes 2 v ++ rest -> off = length pre -> in_range16 v ->
  ntohs <$> ld16 off buf = Some v.
Proof. intros -> -> Hv. by apply ntohs_ld16. Qed.

Lemma length_utf8 u : ucs2 u -> (length u <= length (utf8 u))%nat.
Proof.
  unfold utf8. induction 1 as [|c u Hc _ IH]; [done|]. cbn [fmap list_fmap concat length].
  rewrite length_app. assert (0 < length (encode_char c))%nat; [|lia].
  unfold encode_char. repeat case_match; simpl; lia.
Qed.

Lemma block_ok block machine icon :
  length block = 273%nat -> (length machine < 17)%nat -> length icon = 256%nat ->
  blit 17 icon (in_array 33 machine ++ drop 33 block) = Some (in_array 17 machine ++ icon).
Proof.
  intros Hb Hm Hi. apply blit_Some. unfold in_array. rewrite !resize_ge by lia.
  split; [rewrite !length_app, length_replicate, length_drop; lia|].
  rewrite (take_app_le (machine ++ replicate (33 - length machine) 0)) by solve_len.
  rewrite take_app_ge by lia. rewrite take_replicate.
  rewrite drop_ge, app_nil_r by (rewrite !length_app, length_replicate, length_drop; lia).
  by replace (Nat.min (17 - length machine) (33 - length machine)) with (17 - length machine)%nat by lia.
Qed.

Lemma utf8_name_ok dest u p :
  length dest = 255%nat -> 0 :: pascal (wire_utf8 u) `prefix_of` p ->
  (0 < length (wire_utf8 u) < 255)%nat ->
  get_utf8_name dest (drop 1 p) = Some (in_array 255 (wire_utf8 u)).
Proof.
  intros Hd [k ->] Hu. unfold get_utf8_name. cbn [app drop].
  rewrite (copy_from_pascal_in dest _ (wire_utf8 u) 255); [|by eexists|lia|lia].
  cbn [mbind option_bind]. rewrite (proj2 (Z.eqb_neq _ 0)) by lia.
  by rewrite drop_ge, app_nil_r by lia.
Qed.

Lemma printable_ok dest u :
  ucs2 u -> precomposed u -> (length (utf8 u) < 255)%nat -> length dest = 255%nat ->
  (length (wire_utf8 u) < 255)%nat ->
  convert_utf8dec_to_utf8pre (in_array 255 (wire_utf8 u)) dest =
    Some ((utf8 u ++ [0]) ++ drop (length (utf8 u ++ [0])) dest).
Proof.
  intros Hu Hp Hl Hd Hw. unfold in_array. rewrite resize_ge by lia.
  destruct (255 - length (wire_utf8 u))%nat as [|k] eqn:Ek; [lia|]. cbn [replicate].
  pose proof (length_utf8 u Hu). unfold wire_utf8. rewrite dec_to_pre_utf8 by (done || lia).
  by rewrite length_app, <- app_assoc, Nat.add_1_r.
Qed.

Definition padding (name : list Z) : list Z := if Nat.even (length name) then [0] else [].

Lemma behind_name (name : list Z) :
  Z.to_nat (even_up (26 + Z.of_nat (length name) + 1)) =
    (26 + length (pascal name) + length (padding name))%nat.
Proof.
  unfold even_up, padding, pascal. cbn [length].
  replace (26 + Z.of_nat (length name) + 1) with (1 + Z.of_nat (26 + length name)) by lia.
  destruct (Nat.even (length name)) eqn:E.
  - apply Nat.even_spec in E as [k Hk]. rewrite Hk.
    replace (1 + Z.of_nat (26 + 2 * k)) with (2 * (13 + Z.of_nat k) + 1) by lia.
    rewrite Z.odd_odd. cbn [length]. lia.
  - assert (Nat.odd (length name) = true) as Ho by (by rewrite <- Nat.negb_even, E).
    apply Nat.odd_spec in Ho as [k Hk]. rewrite Hk.
    replace (1 + Z.of_nat (26 + (2 * k + 1))) with (2 * (14 + Z.of_nat k)) by lia.
    rewrite Z.odd_even. cbn [length]. lia.
Qed.

(** The offsets of the fixed part, read from the packet. *)
Lemma fixed_offsets hdr i mo vo uo io so no do un tail :
  length hdr = 16%nat -> Forall in_range16 [mo; vo; uo; io; sf_flags i; so; no; do; un] ->
  let buf := hdr ++ fixed_part i mo vo uo io so no do un ++ tail in
  let at_ off := ntohs <$> ld16 off buf in
  let p := (26 + length (pascal (sf_name i)) + length (padding (sf_name i)))%nat in
  at_ 16%nat = Some mo /\ at_ 18%nat = Some vo /\ at_ 20%nat = Some uo /\ at_ 22%nat = Some io /\
  at_ 24%nat = Some (sf_flags i) /\ at_ p = Some so /\
  (has (sf_flags i) kSupportsUTF8SrvrName = true ->
   at_ (skip_offsets (sf_flags i) (p + 2)) = Some un) /\
  pascal (sf_name i) `prefix_of` drop 26 buf.
Proof.
  intros Hh Hr buf at_ p. rewrite !Forall_cons in Hr.
  destruct Hr as (H1 & H2 & H3 & H4 & H5 & H6 & H7 & H8 & H9 & _).
  unfold at_, buf, fixed_part. fold (padding (sf_name i)).
  set (head := be_bytes 2 mo ++ be_bytes 2 vo ++ be_bytes 2 uo ++ be_bytes 2 io
               ++ be_bytes 2 (sf_flags i)).
  set (tcp := if has (sf_flags i) kSupportsTCP then _ else _).
  set (dirs := if has (sf_flags i) kSupportsDirServices then _ else _).
  split_and!.
  - apply (offset_at _ hdr mo _ _ (eq_trans (f_equal (app hdr) (eq_sym (app_assoc _ _ _))) eq_refl));
      [by rewrite Hh|done].
  - eapply (offset_at _ (hdr ++ be_bytes 2 mo)); [by rewrite <- !app_assoc|solve_len|done].
  - eapply (offset_at _ (hdr ++ be_bytes 2 mo ++ be_bytes 2 vo));
      [by rewrite <- !app_assoc|solve_len|done].
  - eapply (offset_at _ (hdr ++ be_bytes 2 mo ++ be_bytes 2 vo ++ be_bytes 2 uo));
      [by rewrite <- !app_assoc|solve_len|done].
  - eapply (offset_at _ (hdr ++ be_bytes 2 mo ++ be_bytes 2 vo ++ be_bytes 2 uo ++ be_bytes 2 io));
      [by rewrite <- !app_assoc|solve_len|done].
  - eapply (offset_at _ (hdr ++ head ++ pascal (sf_name i) ++ padding (sf_name i)));
      [unfold head; by rewrite <- !app_assoc|unfold head, p; solve_len|done].
  - intros Hu. rewrite Hu.
    eapply (offset_at _ (hdr ++ head ++ pascal (sf_name i) ++ padding (sf_name i)
              ++ be_bytes 2 so ++ tcp ++ dirs)); [unfold head; by rewrite <- !app_assoc| |done].
    unfold skip_offsets, head, p, tcp, dirs.
    destruct (has (sf_flags i) kSupportsTCP), (has (sf_flags i) kSupportsDirServices); solve_len.
  - exists (padding (sf_name i) ++ be_bytes 2 so ++ tcp ++ dirs ++
      (if has (sf_flags i) kSupportsUTF8SrvrName then be_bytes 2 un else []) ++ tail).
    replace (hdr ++ _) with ((hdr ++ head) ++ pascal (sf_name i) ++ padding (sf_name i)
      ++ be_bytes 2 so ++ tcp ++ dirs ++
      (if has (sf_flags i) kSupportsUTF8SrvrName then be_bytes 2 un else []) ++ tail)
      by (unfold head; by rewrite <- !app_assoc).
    by rewrite drop_app_length' by (unfold head; solve_len).
Qed.

Lemma status_parsed hdr data behind i s conv junk :
  length hdr = 16%nat -> (18 <= length data)%nat -> length junk = 33%nat ->
  status_data i data -> facts_ok i -> status_ok s ->
  (length (conv (sf_name i)) <= 255)%nat ->
  dsi_getstatus_reply (Some conv) junk (hdr ++ data ++ behind)
    (Z.of_nat (length (hdr ++ data))) s = Some (identified conv i s).
Proof.
  intros Hh Hd Hj [mo vo uo io so no do un Hr [tail ->] Hmo Hvo Huo Hio Hso Hun] Hi Hs Hconv.
  destruct Hi as [Hm [Hv1 Hv2] [Hu1 Hu2] Hic [Hn1 Hn2] Hsig Hutf], Hs as [S1 S2 S3 S4 S5].
  destruct (fixed_offsets hdr i mo vo uo io so no do un (tail ++ behind) Hh Hr)
    as (A1 & A2 & A3 & A4 & A5 & A6 & A7 & A8).
  set (F := fixed_part i mo vo uo io so no do un) in *.
  unfold dsi_getstatus_reply. rewrite (proj2 (Z.ltb_ge _ _)) by solve_len.
  rewrite <- (app_assoc F). rewrite A1. cbn [mbind option_bind].
  pose proof (data_at hdr (F ++ tail) behind) as Hat. rewrite <- app_assoc in Hat.
  rewrite (copy_from_pascal_in (ss_block s) _ (sf_machine i) AFP_MACHINETYPE_LEN);
    [|by apply Hat|unfold AFP_MACHINETYPE_LEN; lia|lia].
  cbn [mbind option_bind]. rewrite A2. cbn [mbind option_bind].
  rewrite (parse_versions_ok (sf_versions i)); [|by apply Hat|done..].
  cbn [mbind option_bind]. rewrite A3. cbn [mbind option_bind].
  rewrite (parse_uams_ok (sf_uams i)); [|by apply Hat|done..].
  cbn [mbind option_bind]. rewrite A4. cbn [mbind option_bind].
  replace (if 0 <? io then _ else _)
    with (Some (identified_block (ss_block s) (sf_machine i) (sf_icon i))).
  2: { unfold identified_block. destruct (sf_icon i) as [icon|].
       - destruct Hio as [Hio Hlies]. rewrite (proj2 (Z.ltb_lt 0 io)) by done.
         rewrite <- Hic at 1. rewrite (slice_prefix icon) by (apply Hat; [done|done|by destruct icon]).
         cbn [mbind option_bind]. symmetry. by apply block_ok.
       - by subst io. }
  cbn [mbind option_bind]. rewrite A5. cbn [mbind option_bind].
  rewrite (copy_from_pascal_in (ss_server_name s) _ (sf_name i) AFP_SERVER_NAME_LEN);
    [|done|unfold AFP_SERVER_NAME_LEN; lia|lia].
  cbn [mbind option_bind]. rewrite behind_name, A6. cbn [mbind option_bind].
  assert (slice 0 AFP_SIGNATURE_LEN (drop (16 + Z.to_nat so) (hdr ++ F ++ tail ++ behind))
          = Some (sf_signature i)) as ->.
  { change AFP_SIGNATURE_LEN with 16%nat. rewrite <- Hsig at 1.
    apply slice_prefix, Hat; [done|done|]. by destruct (sf_signature i). }
  cbn [mbind option_bind]. unfold identified.
  cbn [ss_server_name_utf8 ss_server_name_printable].
  change AFP_SERVER_NAME_LEN with 33%nat.
  rewrite (drop_ge (ss_server_name s)), app_nil_r by (rewrite S1; done).
  destruct (has (sf_flags i) kSupportsUTF8SrvrName) eqn:E.
  - rewrite A7 by done. cbn [mbind option_bind].
    destruct (Hutf eq_refl) as (U1 & U2 & U3 & U4).
    rewrite (utf8_name_ok _ (sf_utf8 i)); [|done|by apply Hat; [done|apply Hun|]|done].
    cbn [mbind option_bind]. rewrite (printable_ok _ (sf_utf8 i)) by (done || lia). done.
  - unfold in_array. rewrite (resize_ge (sf_name i) 33) by lia.
    destruct (33 - length (sf_name i))%nat as [|k] eqn:Ek; [lia|]. cbn [replicate].
    rewrite cstr_app by done. cbn [mbind option_bind]. rewrite blit_0 by (rewrite S3; lia).
    done.
Qed.

(** C33: identifying a server.  From a status reply of the protocol, wherever the server
    puts its tables, the client stores the machine type, the numbers of the versions it
    knows in the order of the server, the mask of the authentication methods, the icon, the
    flags, the signature and the name, in UTF-8 and composed if the server has it so.
    Without an icon the field keeps what it had but for its first 16 bytes. *)
Theorem getstatus_parsed hdr data behind i s conv junk :
  length hdr = 16%nat -> (18 <= length data)%nat -> length junk = 33%nat ->
  status_data i data -> facts_ok i -> status_ok s ->
  (length (conv (sf_name i)) <= 255)%nat ->
  dsi_getstatus_reply (Some conv) junk (hdr ++ data ++ behind)
    (Z.of_nat (length (hdr ++ data))) s = Some (identified conv i s).
Proof. intros. by apply status_parsed. Qed.

Definition sample_facts : server_facts :=
  mk_facts (str "Netatalk") [str "AFP3.1"; str "AFP9.9"; str "AFP2.2"] [str "DHX2"] None
    kSupportsUTF8SrvrName (str "tc") (replicate 16 7) [0x63; 0xe9].

(** The machine type at 18, the versions at 27, the methods at 49, the signature at 55 and
    the UTF-8 name at 71. *)
Definition sample_status : list Z :=
  fixed_part sample_facts 18 27 49 0 55 0 0 71 ++ pascal (sf_machine sample_facts)
  ++ table_of (sf_versions sample_facts) ++ table_of (sf_uams sample_facts)
  ++ sf_signature sample_facts ++ 0 :: pascal (wire_utf8 (sf_utf8 sample_facts)).

Definition blank_server : server_status :=
  mk_status (replicate 33 0) (replicate 255 0) (replicate 255 0) (replicate 273 0) [] 0 0
    (replicate 10 0).

Lemma sample_facts_ok : facts_ok sample_facts.
Proof.
  constructor; first [done | by apply (bool_decide_unpack _)].
Defined.

Lemma sample_status_laid_out : status_data sample_facts sample_status.
Proof.
  refine (layout _ _ 18 27 49 0 55 0 0 71 _ _ _ _ _ _ _ _);
    first [done | by apply (bool_decide_unpack _)].
Defined.

Lemma getstatus_parsed_witness :
  dsi_getstatus_reply (Some (fun s => s)) (replicate 33 1) (replicate 16 9 ++ sample_status ++ [])
    (Z.of_nat (length (replicate 16 9 ++ sample_status))) blank_server
  = Some (identified (fun s => s) sample_facts blank_server) /\
  ss_versions (identified (fun s => s) sample_facts blank_server) = [31; 22; 0; 0; 0; 0; 0; 0; 0; 0].
Proof.
  split; [|by vm_compute].
  apply (getstatus_parsed (replicate 16 9) sample_status [] sample_facts blank_server
    (fun s => s) (replicate 33 1)); try (vm_compute; lia); try done.
  - apply sample_status_laid_out.
  - apply sample_facts_ok.
Defined.

End Status.
