(* ===== verification/Auth.v ===== *)
(** * Authentication: lib/uams.c

    The table of methods and the exchange of each, with libgcrypt behind a record of
    operations.  The library is built with libgcrypt.  A [char] is signed. *)

From S2P Require Import Prelude Constants Types Utils Dsi ReplyBlock ProtoFiles ProtoVolume.
From S2P Require Import Client Calls UamsDef.
From Stdlib Require ZArith.Zpow_facts.

Module Auth.
Import Utils Dsi ReplyBlock ProtoFiles ProtoVolume Client Calls UamsDef.

(** ** libgcrypt *)

(** DES in ECB mode and CAST5 in CBC mode. *)
Inductive cipher := DES_ECB | CAST5_CBC.

(** The functions [uams.c] calls.  [gc_open], [gc_setkey] and [gc_setiv] tell whether
    the call succeeds; the key and the vector are arguments of the operations that use
    them.  [gc_mpi_print n x] are the bytes [gcry_mpi_print] writes to a buffer of [n],
    their number is what it stores in [len]; [gc_powm] does not return with modulus 0. *)
Record gcrypt := mk_gcrypt {
  gc_open : cipher -> bool;
  gc_setkey : cipher -> list Z -> bool;
  gc_setiv : cipher -> list Z -> bool;
  gc_encrypt : cipher -> list Z -> list Z -> list Z -> option (list Z);
  gc_decrypt : cipher -> list Z -> list Z -> list Z -> option (list Z);
  gc_mpi_scan : list Z -> Z;
  gc_mpi_print : nat -> Z -> list Z;
  gc_mpi_add_ui : Z -> Z -> Z;
  gc_mpi_powm : Z -> Z -> Z -> option Z;
  gc_md5 : list Z -> list Z }.

(** The manual of libgcrypt: big-endian numbers, modular exponentiation, ciphers on
    whole blocks that decryption undoes. *)
Class GcryptLaws (G : gcrypt) : Prop := {
  scan_val bs : bytes_ok bs -> gc_mpi_scan G bs = be_val bs;
  print_val n x : 0 <= x < 256 ^ Z.of_nat n ->
    (length (gc_mpi_print G n x) <= n)%nat /\ bytes_ok (gc_mpi_print G n x) /\
    be_val (gc_mpi_print G n x) = x;
  add_ui_val x k : 0 <= x -> 0 <= k -> gc_mpi_add_ui G x k = x + k;
  powm_val b e m : 0 <= b -> 0 <= e -> 0 < m -> gc_mpi_powm G b e m = Some (b ^ e mod m);
  cast5_ready key iv : length key = 16%nat -> length iv = 8%nat ->
    gc_open G CAST5_CBC = true /\ gc_setkey G CAST5_CBC key = true /\
    gc_setiv G CAST5_CBC iv = true;
  cast5_roundtrip key iv bs : bytes_ok bs -> Z.of_nat (length bs) mod 8 = 0 ->
    exists c, gc_encrypt G CAST5_CBC key iv bs = Some c /\ length c = length bs /\
      bytes_ok c /\ gc_decrypt G CAST5_CBC key iv c = Some bs;
  md5_length bs : length (gc_md5 G bs) = 16%nat }.

(** ** FPLogin, FPLoginCont and FPChangePassword *)

Definition FPLogin (av_name ua_name userauthinfo : list Z) (rx : option afp_rx_buffer)
    : M (Z * option afp_rx_buffer) :=
  j ← junk; r ← lift (afp_login j av_name ua_name userauthinfo); a ← send r;
  rx ← handle (fun buf size => afp_login_reply buf size rx) a rx; mret (an_rc a, rx).

Definition FPLoginCont (id : Z) (userauthinfo : list Z) (rx : option afp_rx_buffer)
    : M (Z * option afp_rx_buffer) :=
  a ← send (afp_logincont id userauthinfo);
  rx ← handle (fun buf size => afp_login_reply buf size rx) a rx; mret (an_rc a, rx).

Definition FPChangePassword (ua_name userauthinfo : list Z) (rx : option afp_rx_buffer)
    : M (Z * option afp_rx_buffer) :=
  j ← junk; r ← lift (afp_changepassword j ua_name userauthinfo); a ← send r;
  rx ← handle (fun buf size => afp_changepassword_reply buf size rx) a rx; mret (an_rc a, rx).

(** The return value of a call. *)
Definition result_of {A} (m : M (Z * A)) : M Z := r ← m; mret r.1.

(** A buffer of [calloc] for a reply. *)
Definition reply_buffer (n : Z) : afp_rx_buffer := mk_rx 0 n (replicate (Z.to_nat n) 0) 0.

Definition rx_bytes (rx : option afp_rx_buffer) : list Z := default [] (rx_data <$> rx).

(** [ntohs] of the word at the start. *)
Definition transaction_id (d : list Z) : option Z := ntohs <$> ld16 0 d.

(** [strncpy] to [n] bytes. *)
Definition strncpy (n : nat) (s : list Z) : list Z := resize n 0 s.

Section uams.
Context (G : gcrypt) (av_name : list Z).

(** [gcry_mpi_print] to a buffer of [n] bytes, then right-aligned; [None] writes
    before or behind it. *)
Definition print_padded (n : nat) (x : Z) : option (list Z) :=
  let bytes := gc_mpi_print G n x in
  if decide (length bytes <= n)%nat then Some (replicate (n - length bytes) 0 ++ bytes) else None.

(** The [goto] of every error. *)
Definition or_fail (ok : bool) (k : M Z) : M Z := if ok then k else mret (-1).
Definition or_failed {A} (r : option A) (k : A -> M Z) : M Z :=
  match r with Some a => k a | None => mret (-1) end.

(** ** No authentication and clear text *)

Definition noauth_login (username passwd : list Z) : M Z :=
  result_of (FPLogin av_name (str "No User Authent") [] None).

(** The name, and the password on an even boundary behind it; [calloc] gives an even
    address. *)
Definition cleartxt_block (username passwd : list Z) : option (list Z) :=
  let len := Z.of_nat (length username) + 10 in
  '(ai, n) ← copy_to_pascal (replicate (Z.to_nat len) 0) username;
  let p := n + 1 in
  let '(p, len) := if Z.odd p then (p, len - 1) else (p + 1, len) in
  ai ← blit (Z.to_nat p) (strncpy 8 passwd) ai;
  Some (take (Z.to_nat len) ai).

Definition cleartxt_login (username passwd : list Z) : M Z :=
  ai ← lift (cleartxt_block username passwd);
  result_of (FPLogin av_name (str "Cleartxt Passwrd") ai None).

Definition cleartxt_passwd (username passwd newpasswd : list Z) : M Z :=
  ai ← lift (cleartxt_block username passwd);
  result_of (FPChangePassword (str "Cleartxt Passwrd") ai None).

(** ** Random number exchange *)

(** The user name as a Pascal string in a block of its size. *)
Definition user_block (username : list Z) : option (list Z) :=
  fst <$> copy_to_pascal (replicate (S (length username)) 0) username.

Definition randnum_login (username passwd : list Z) : M Z :=
  ai ← lift (user_block username);
  '(ret, rx) ← FPLogin av_name (str "Randnum Exchange") ai (Some (reply_buffer 10));
  if negb (ret =? kFPAuthContinue) then mret ret
  else
    id ← lift (transaction_id (rx_bytes rx));
    let p := drop 2 (rx_bytes rx) in
    or_fail (gc_open G DES_ECB)
      (let key := strncpy 8 passwd in
       or_fail (gc_setkey G DES_ECB key)
         (or_failed (gc_encrypt G DES_ECB key [] p) (fun crypted =>
            result_of (FPLoginCont id crypted None)))).

(** ** Two-way random number exchange *)

Definition schar (b : Z) : Z := if b <? 128 then b else b - 256.

(** [a << 1 | b >> 7] of two [char]s, stored in a [char]. *)
Definition shift_in (a b : Z) : Z := u8 (Z.lor (Z.shiftl (schar a) 1) (Z.shiftr (schar b) 7)).

(** The loop from index 0; the last byte takes [carry]. *)
Fixpoint rotate_loop (key : list Z) (carry : Z) : list Z :=
  match key with
  | [] => []
  | [a] => [u8 (Z.lor (Z.shiftl (schar a) 1) carry)]
  | a :: ((b :: _) as key') => shift_in a b :: rotate_loop key' carry
  end.

Definition rotate_key (key : list Z) : list Z :=
  match key with
  | [] => []
  | a :: _ => rotate_loop key (Z.shiftr (schar a) 7)
  end.

Definition randnum2_login (username passwd : list Z) : M Z :=
  ai ← lift (user_block username);
  '(ret, rx) ← FPLogin av_name (str "2-Way Randnum Exchange") ai (Some (reply_buffer 10));
  if negb (ret =? kFPAuthContinue) then mret ret
  else
    id ← lift (transaction_id (rx_bytes rx));
    let p := drop 2 (rx_bytes rx) in
    or_fail (gc_open G DES_ECB)
      (let key := rotate_key (strncpy 8 passwd) in
       or_fail (gc_setkey G DES_ECB key)
         (or_failed (gc_encrypt G DES_ECB key [] p) (fun hashed =>
            nonce ← ask (Random 8);
            '(ret, rx) ← FPLoginCont id (hashed ++ nonce) (Some (reply_buffer 8));
            if negb (ret =? kFPNoErr) then mret ret
            else
              or_failed (gc_encrypt G DES_ECB key [] nonce) (fun crypted =>
                mret (if bytes_eqb crypted (rx_bytes rx) then ret else kFPUserNotAuth))))).

(** ** DHCAST128 *)

Definition dhx_c2siv : list Z := str "LWallace".
Definition dhx_s2civ : list Z := str "CJalbert".
Definition p_binary : list Z :=
  [0xba; 0x28; 0x73; 0xdf; 0xb0; 0x60; 0x57; 0xd4; 0x3f; 0x20; 0x24; 0x74; 0x4c; 0xee; 0xe7; 0x5b].
Definition g_binary : list Z := [0x07].

(** The user name and, on an even boundary behind it, the public key. *)
Definition dhx_block (username : list Z) (Ma : Z) : option (list Z) :=
  let len := Z.of_nat (length username) + 18 in
  '(ai, n) ← copy_to_pascal (replicate (Z.to_nat len) 0) username;
  let d := n + 1 in
  let '(d, len) := if Z.odd d then (d + 1, len) else (d, len - 1) in
  key ← print_padded 16 Ma;
  ai ← blit (Z.to_nat d) key ai;
  Some (take (Z.to_nat len) ai).

(** The plain text of the last message: the server's nonce plus one and the password. *)
Definition nonce_block (n : nat) (nonce : Z) (passwd : list Z) : option (list Z) :=
  key ← print_padded 16 (gc_mpi_add_ui G nonce 1); Some (key ++ strncpy n passwd).

(** From the reply to FPLogin on. *)
Definition dhx_continue (Ra p : Z) (passwd d : list Z) : M Z :=
  id ← lift (transaction_id d);
  Mb ← lift (slice 2 16 d);
  K ← lift (gc_mpi_powm G (gc_mpi_scan G Mb) Ra p);
  key ← lift (print_padded 16 K);
  or_fail (gc_open G CAST5_CBC)
    (or_fail (gc_setkey G CAST5_CBC key)
       (or_fail (gc_setiv G CAST5_CBC dhx_s2civ)
          (crypted ← lift (slice 18 32 d);
           or_failed (gc_decrypt G CAST5_CBC key dhx_s2civ crypted) (fun plain =>
             nonce ← lift (slice 0 16 plain);
             ai ← lift (nonce_block 64 (gc_mpi_scan G nonce) passwd);
             or_fail (gc_setiv G CAST5_CBC dhx_c2siv)
               (or_failed (gc_encrypt G CAST5_CBC key dhx_c2siv ai) (fun ai =>
                  result_of (FPLoginCont id ai None))))))).

Definition dhx_login (username passwd : list Z) : M Z :=
  let p := gc_mpi_scan G p_binary in
  let g := gc_mpi_scan G g_binary in
  Ra_binary ← ask (Random 32);
  let Ra := gc_mpi_scan G Ra_binary in
  Ma ← lift (gc_mpi_powm G g Ra p);
  ai ← lift (dhx_block username Ma);
  '(ret, rx) ← FPLogin av_name (str "DHCAST128") ai (Some (reply_buffer 50));
  if negb (ret =? kFPAuthContinue) then mret ret
  else dhx_continue Ra p passwd (rx_bytes rx).

(** ** DHX2 *)

(** From the second reply on: the server's copy of the client's nonce is compared, with
    no consequence. *)
Definition dhx2_finish (key passwd d : list Z) : M Z :=
  id ← lift (transaction_id d);
  or_fail (gc_setiv G CAST5_CBC dhx_s2civ)
    (crypted ← lift (slice 2 32 d);
     or_failed (gc_decrypt G CAST5_CBC key dhx_s2civ crypted) (fun plain =>
       nonce ← lift (slice 16 16 plain);
       ai ← lift (nonce_block 256 (gc_mpi_scan G nonce) passwd);
       or_fail (gc_setiv G CAST5_CBC dhx_c2siv)
         (or_failed (gc_encrypt G CAST5_CBC key dhx_c2siv ai) (fun ai =>
            result_of (FPLoginCont id ai None))))).

(** From the first reply on: the parameters of the server, the keys and the client's
    nonce. *)
Definition dhx2_continue (passwd d : list Z) : M Z :=
  id ← lift (transaction_id d);
  g ← lift (slice 2 4 d);
  len ← lift (ntohs <$> ld16 6 d);
  let n := Z.to_nat len in
  p ← lift (slice 8 n d);
  Mb ← lift (slice (8 + n) n d);
  let g := gc_mpi_scan G g in
  let p := gc_mpi_scan G p in
  Ra_binary ← ask (Random len);
  let Ra := gc_mpi_scan G Ra_binary in
  Ma ← lift (gc_mpi_powm G g Ra p);
  K ← lift (gc_mpi_powm G (gc_mpi_scan G Mb) Ra p);
  K_binary ← lift (print_padded n K);
  let key := gc_md5 G K_binary in
  nonce ← ask (Random 16);
  or_fail (gc_open G CAST5_CBC)
    (or_fail (gc_setkey G CAST5_CBC key)
       (or_fail (gc_setiv G CAST5_CBC dhx_c2siv)
          (Ma ← lift (print_padded n Ma);
           or_failed (gc_encrypt G CAST5_CBC key dhx_c2siv nonce) (fun crypted =>
             '(ret, rx) ← FPLoginCont id (Ma ++ crypted) (Some (reply_buffer 34));
             if negb (ret =? kFPAuthContinue) then mret ret
             else dhx2_finish key passwd (rx_bytes rx))))).

Definition dhx2_login (username passwd : list Z) : M Z :=
  ai ← lift (user_block username);
  '(ret, rx) ← FPLogin av_name (str "DHX2") ai (Some (reply_buffer 520));
  if negb (ret =? kFPAuthContinue) then mret ret else dhx2_continue passwd (rx_bytes rx).

(** ** The table of methods *)

Inductive uam_method := Noauth | Cleartxt | Randnum | Randnum2 | Dhx | Dhx2.

Record afp_uam := mk_uam { um_bitmap : Z; um_name : list Z; um_method : uam_method }.

Definition do_server_login (m : uam_method) : list Z -> list Z -> M Z :=
  match m with
  | Noauth => noauth_login
  | Cleartxt => cleartxt_login
  | Randnum => randnum_login
  | Randnum2 => randnum2_login
  | Dhx => dhx_login
  | Dhx2 => dhx2_login
  end.

Definition do_server_passwd (m : uam_method) : option (list Z -> list Z -> list Z -> M Z) :=
  match m with Cleartxt => Some cleartxt_passwd | _ => None end.

Definition uam_noauth : afp_uam := mk_uam UAM_NOUSERAUTHENT (str "No User Authent") Noauth.
Definition uam_cleartxt : afp_uam := mk_uam UAM_CLEARTXTPASSWRD (str "Cleartxt Passwrd") Cleartxt.
Definition uam_randnum : afp_uam := mk_uam UAM_RANDNUMEXCHANGE (str "Randnum Exchange") Randnum.
Definition uam_randnum2 : afp_uam := mk_uam UAM_2WAYRANDNUM (str "2-Way Randnum Exchange") Randnum2.
Definition uam_dhx : afp_uam := mk_uam UAM_DHCAST128 (str "DHCAST128") Dhx.
Definition uam_dhx2 : afp_uam := mk_uam UAM_DHX2 (str "DHX2") Dhx2.

(** [uam_base] with [uam_names_list]. *)
Record registry := mk_registry { uam_base : list afp_uam; uam_names_list : list Z }.

Definition UAMS_MAX_NAMES_LIST : Z := 255.

Definition get_uam_names_list (r : registry) : list Z := uam_names_list r.

Definition default_uams_mask : Z :=
  Z.lor (Z.lor UAM_CLEARTXTPASSWRD (Z.lor UAM_RANDNUMEXCHANGE UAM_2WAYRANDNUM))
    (Z.lor UAM_DHCAST128 UAM_DHX2).

(** A method that is not in the table yet. *)
Definition register_uam (uam : afp_uam) (r : registry) : Z * registry :=
  let bitmap := uam_string_to_bitmap (um_name uam) in
  if bitmap =? 0 then (-1, r)
  else
    let base := uam_base r ++ [mk_uam bitmap (um_name uam) (um_method uam)] in
    let names := uam_names_list r in
    if UAMS_MAX_NAMES_LIST <? Z.of_nat (length names) + 20 then (-1, mk_registry base names)
    else
      (0, mk_registry base (names ++ match names with [] => [] | _ => str ", " end ++ um_name uam)).

Definition find_uam_by_bitmap (r : registry) (i : Z) : option afp_uam :=
  List.find (fun u => um_bitmap u =? i) (uam_base r).

Definition find_uam_by_name (r : registry) (name : list Z) : Z :=
  match List.find (fun u => bytes_eqb (um_name u) name) (uam_base r) with
  | Some u => um_bitmap u
  | None => 0
  end.

(** At the start nothing is registered. *)
Definition init_uams : registry :=
  foldl (fun r uam => (register_uam uam r).2) (mk_registry [] [])
    [uam_cleartxt; uam_noauth; uam_randnum; uam_randnum2; uam_dhx; uam_dhx2].

Definition afp_dologin (r : registry) (uam : Z) (username passwd : list Z) : M Z :=
  match find_uam_by_bitmap r uam with
  | None => mret (-1)
  | Some u => do_server_login (um_method u) username passwd
  end.

Definition afp_dopasswd (r : registry) (uam : Z) (username oldpasswd newpasswd : list Z) : M Z :=
  match find_uam_by_bitmap r uam with
  | None => mret (-1)
  | Some u =>
    match do_server_passwd (um_method u) with
    | Some change => change username oldpasswd newpasswd
    | None => mret 0
    end
  end.

End uams.

(** ** Numbers and blocks under the laws of libgcrypt *)

Lemma be_val_zeros k bs : be_val (replicate k 0 ++ bs) = be_val bs.
Proof.
  unfold be_val. rewrite reverse_app, le_val_app, reverse_replicate.
  replace (le_val (replicate k 0)) with 0; [lia|]. induction k; simpl; lia.
Qed.

Lemma key_agreement g a b p :
  0 <= a -> 0 <= b -> 0 < p -> (g ^ a mod p) ^ b mod p = (g ^ b mod p) ^ a mod p.
Proof.
  intros Ha Hb Hp. rewrite <- !Zpow_facts.Zpower_mod by done.
  rewrite <- !Z.pow_mul_r by done. by rewrite (Z.mul_comm a b).
Qed.

Section blocks.
Context (G : gcrypt) `{!GcryptLaws G}.

Lemma print_padded_be n x :
  0 <= x < 256 ^ Z.of_nat n -> print_padded G n x = Some (be_bytes n x).
Proof using All.
  intros Hx. destruct (print_val n x Hx) as (Hl & Hb & Hv). unfold print_padded.
  rewrite decide_True by done. f_equal.
  set (bs := replicate _ 0 ++ _). replace n with (length bs) by (unfold bs; solve_len).
  replace x with (be_val bs) by (unfold bs; by rewrite be_val_zeros).
  symmetry. apply be_bytes_val. apply Forall_app; split; [|done].
  apply Forall_replicate. unfold byte_ok; lia.
Qed.

Lemma nonce_block_ok n nonce passwd :
  0 <= nonce < 256 ^ 16 - 1 ->
  nonce_block G n nonce passwd = Some (be_bytes 16 (nonce + 1) ++ strncpy n passwd).
Proof using All.
  intros Hn. unfold nonce_block. rewrite add_ui_val by lia.
  rewrite print_padded_be by lia. done.
Qed.

End blocks.

Lemma bytes_ok_strncpy n s : bytes_ok s -> bytes_ok (strncpy n s).
Proof. intros Hs. apply Forall_resize; [unfold byte_ok; lia|done]. Qed.

(** ** The calls against a server *)

(** A server with a state, and a supply of random blocks. *)
Definition supplied {W} (f : request -> W -> answer * W) (mem : Z -> list Z)
    : handler (W * list (list Z)) :=
  fun X e w =>
    match e in env X return X * (W * list (list Z)) with
    | Exchange r => let '(a, s) := f r w.1 in (a, (s, w.2))
    | Memory n => (mem n, w)
    | Random n => (default [] (head w.2), (w.1, tail w.2))
    | Uninitialised => (zero_file_info, w)
    | Unset | Address | Gettimeofday | Getgid | Geteuid => (0, w)
    | Free _ | Sleep _ => (tt, w)
    | Local _ => (mk_local 0 0 [], w)
    | Getaddrinfo _ _ => (None, w)
    | OpenSocket _ _ _ | ConnectSocket _ _ | CloseSocket _ | Timeofday => ((0, 0), w)
    | Getpwuid _ => (Some (0, 0), w)
    end.

Definition login_request (av_name ua_name userauthinfo : list Z) : request :=
  call_with DSI_BLOCK_TIMEOUT
    ([afpLogin] ++ pascal av_name ++ pascal ua_name ++ userauthinfo) afpLogin.

(** A reply with authentication data, and one with a code alone. *)
Definition replied (rid rc : Z) (data : list Z) : answer :=
  mk_answer rc
    (Some (wire_header DSI_REPLY DSI_DSICommand rid rc (Z.of_nat (length data)) ++ data, [])) [].

Lemma login_reply_ok h data n :
  length h = 16%nat -> (length data <= Z.to_nat n)%nat -> 0 <= n < 2 ^ 31 ->
  afp_login_reply ((h ++ data) ++ []) (Z.of_nat (length (h ++ data))) (Some (reply_buffer n)) =
    Some (0, Some (mk_rx 0 n (strncpy (Z.to_nat n) data) 0)).
Proof.
  intros Hh Hd Hn. unfold afp_login_reply, reply_buffer, strncpy.
  cbn [rx_maxsize rx_data rx_size rx_errorcode].
  rewrite u32_small by solve_len.
  replace (Z.of_nat (length (h ++ data)) - 16) with (Z.of_nat (length data)) by solve_len.
  rewrite <- app_assoc, resize_ge by lia. destruct (Z.ltb_spec 0 (Z.of_nat (length data))).
  - rewrite (proj2 (Z.ltb_ge _ _)) by lia. rewrite Nat2Z.id, <- Hh.
    rewrite (slice_at h data []) by done.
    cbn [mbind option_bind].
    replace (replicate (Z.to_nat n) 0)
      with (replicate (length data) 0 ++ replicate (Z.to_nat n - length data) 0)
      by (rewrite <- replicate_add; f_equal; lia).
    rewrite blit_0 by solve_len. cbn [mbind option_bind].
    by rewrite drop_app_length' by solve_len.
  - destruct data; [|simpl in *; lia]. cbn [length app]. by rewrite Nat.sub_0_r.
Qed.

Section serving.
Context {W : Type} (f : request -> W -> answer * W) (mem : Z -> list Z).
Abbreviation h := (supplied f mem).

Lemma runs_lift {A B} (o : option A) (k : A -> M B) c w rs b w' a :
  o = Some a -> runs h (k a) c w rs b w' -> runs h (lift o ≫= k) c w rs b w'.
Proof. by intros ->. Qed.

Lemma runs_random {B} n (k : list Z -> M B) c s x xs rs b w' :
  runs h (k x) c (s, xs) rs b w' -> runs h (ask (Random n) ≫= k) c (s, x :: xs) rs b w'.
Proof.
  unfold runs. intros Hk. change (run h ((ask (Random n) ≫= k) c) (s, x :: xs))
    with (let '(rs, o, w) := run h (k x c) (s, xs) in ([] ++ rs, o, w)). by rewrite Hk.
Qed.

Lemma runs_memory {B} n (k : list Z -> M B) c w rs b w' :
  runs h (k (mem n)) c w rs b w' -> runs h (ask (Memory n) ≫= k) c w rs b w'.
Proof.
  unfold runs. intros Hk. change (run h ((ask (Memory n) ≫= k) c) w)
    with (let '(rs, o, w) := run h (k (mem n) c) w in ([] ++ rs, o, w)). by rewrite Hk.
Qed.

Lemma runs_send {B} r (k : answer -> M B) c s xs a s' rs b w' :
  f r s = (a, s') -> runs h (k a) c (s', xs) rs b w' ->
  runs h (send r ≫= k) c (s, xs) (r :: rs) b w'.
Proof.
  unfold runs. intros Hf Hk. change (run h ((send r ≫= k) c) (s, xs))
    with (let '(x, w) := let '(a, s) := f r s in (a, (s, xs)) in
          let '(rs, o, w) := run h (k x c) w in ([r] ++ rs, o, w)).
  by rewrite Hf, Hk.
Qed.

Lemma login_runs av_name ua_name ai c s xs rid rc data n s' :
  (length av_name < 256)%nat -> (length ua_name < 256)%nat ->
  f (login_request av_name ua_name ai) s = (replied rid rc data, s') ->
  (length data <= Z.to_nat n)%nat -> 0 <= n < 2 ^ 31 ->
  runs h (FPLogin av_name ua_name ai (Some (reply_buffer n))) c (s, xs)
    [login_request av_name ua_name ai]
    (rc, Some (mk_rx 0 n (strncpy (Z.to_nat n) data) 0)) (s', xs).
Proof.
  intros Ha Hu Hf Hd Hn. apply runs_memory.
  eapply runs_lift; [by apply login_wire|]. eapply runs_send; [exact Hf|].
  unfold handle, replied. cbn [an_packet].
  rewrite login_reply_ok by (done || apply length_wire_header). apply runs_ret.
Qed.

Lemma logincont_runs id ai c s xs rid rc data n s' :
  f (afp_logincont id ai) s = (replied rid rc data, s') ->
  (length data <= Z.to_nat n)%nat -> 0 <= n < 2 ^ 31 ->
  runs h (FPLoginCont id ai (Some (reply_buffer n))) c (s, xs) [afp_logincont id ai]
    (rc, Some (mk_rx 0 n (strncpy (Z.to_nat n) data) 0)) (s', xs).
Proof.
  intros Hf Hd Hn. eapply runs_send; [exact Hf|].
  unfold handle, replied. cbn [an_packet].
  rewrite login_reply_ok by (done || apply length_wire_header). apply runs_ret.
Qed.

(** The last message, whose reply carries nothing. *)
Lemma last_runs id ai c s xs rid rc s' :
  f (afp_logincont id ai) s = (replied rid rc [], s') ->
  runs h (result_of (FPLoginCont id ai None)) c (s, xs) [afp_logincont id ai] rc (s', xs).
Proof.
  intros Hf.
  apply (runs_bind h (FPLoginCont id ai None) (fun r => mret r.1) c _ [afp_logincont id ai]
    (rc, None) (s', xs) [] rc (s', xs)); [|apply runs_ret].
  eapply runs_send; [exact Hf|]. apply runs_ret.
Qed.

End serving.

(** ** Blocks with the user name *)

Lemma copied_user user n :
  (length user < 256)%nat -> (S (length user) <= n)%nat ->
  copy_to_pascal (replicate n 0) user =
    Some (pascal user ++ replicate (n - S (length user)) 0, Z.of_nat (length user)).
Proof. intros Hu Hn. rewrite copy_to_pascal_spec by solve_len. by rewrite drop_replicate. Qed.

Lemma user_block_ok user : (length user < 256)%nat -> user_block user = Some (pascal user).
Proof.
  intros Hu. unfold user_block. rewrite copied_user by lia. rewrite Nat.sub_diag.
  cbn [fmap option_fmap option_map fst]. by rewrite app_nil_r.
Qed.

Lemma odd_pascal (user : list Z) : Z.odd (Z.of_nat (length user) + 1) = Nat.even (length user).
Proof.
  destruct (Nat.even (length user)) eqn:E.
  - apply Nat.even_spec in E as [k ->]. rewrite Nat2Z.inj_mul. apply Z.odd_odd.
  - assert (Nat.odd (length user) = true) as Ho by (by rewrite <- Nat.negb_even, E).
    apply Nat.odd_spec in Ho as [k ->].
    replace (Z.of_nat (2 * k + 1) + 1) with (2 * (Z.of_nat k + 1)) by lia. apply Z.odd_even.
Qed.

(** [data] behind the user name, with [pad] between, in a block of zeros. *)
Lemma behind_user (user pad data : list Z) off n :
  pad = replicate (length pad) 0 -> off = (S (length user) + length pad)%nat ->
  (length data + length pad <= n)%nat ->
  blit off data (pascal user ++ replicate n 0) =
    Some ((pascal user ++ pad ++ data) ++ replicate (n - length data - length pad) 0).
Proof.
  intros Hz -> Hn. replace n with (length pad + (n - length pad))%nat at 1 by lia.
  rewrite replicate_add, <- Hz, app_assoc.
  rewrite blit_app by (unfold pascal; clear Hz; solve_len).
  rewrite drop_replicate, <- !app_assoc. do 5 f_equal. lia.
Qed.

(** Where the name has an odd length, the key is on an even address. *)
Definition even_pad (user : list Z) : list Z := if Nat.even (length user) then [0] else [].
Definition odd_pad (user : list Z) : list Z := if Nat.even (length user) then [] else [0].

Lemma cleartxt_block_ok user passwd :
  (length user < 256)%nat ->
  cleartxt_block user passwd = Some (pascal user ++ odd_pad user ++ strncpy 8 passwd).
Proof.
  intros Hu. unfold cleartxt_block. rewrite copied_user by lia. cbn [mbind option_bind].
  rewrite odd_pascal. unfold odd_pad.
  assert (length (strncpy 8 passwd) = 8%nat) as H8 by apply length_resize.
  destruct (Nat.even (length user)).
  - rewrite (behind_user user []) by (done || simpl; lia). cbn [mbind option_bind].
    by rewrite take_app_length' by (unfold pascal; solve_len).
  - rewrite (behind_user user [0]) by (done || simpl; lia). cbn [mbind option_bind].
    by rewrite take_app_length' by (unfold pascal; solve_len).
Qed.

Lemma dhx_block_ok G `{!GcryptLaws G} user Ma :
  (length user < 256)%nat -> 0 <= Ma < 256 ^ 16 ->
  dhx_block G user Ma = Some (pascal user ++ even_pad user ++ be_bytes 16 Ma).
Proof.
  intros Hu HM. unfold dhx_block. rewrite copied_user by lia. cbn [mbind option_bind].
  rewrite odd_pascal. unfold even_pad.
  pose proof (length_be_bytes 16 Ma) as Hk.
  destruct (Nat.even (length user)); rewrite print_padded_be by done; cbn [mbind option_bind].
  - rewrite (behind_user user [0]) by (done || simpl; lia). cbn [mbind option_bind].
    by rewrite take_app_length' by (unfold pascal; solve_len).
  - rewrite (behind_user user []) by (done || simpl; lia). cbn [mbind option_bind].
    by rewrite take_app_length' by (unfold pascal; solve_len).
Qed.

(** ** DHCAST128 against a server *)

Definition dhx_p : Z := be_val p_binary.

Lemma dhx_small x : 0 <= x mod dhx_p < 256 ^ 16.
Proof.
  assert (0 < dhx_p < 256 ^ 16) by by vm_compute. pose proof (Z.mod_pos_bound x dhx_p). lia.
Qed.

Lemma scan_be G `{!GcryptLaws G} n x :
  0 <= x < 256 ^ Z.of_nat n -> gc_mpi_scan G (be_bytes n x) = x.
Proof. intros Hx. rewrite scan_val by apply be_bytes_ok. by rewrite be_val_bytes, Z.mod_small. Qed.

Lemma bytes_eqb_app pre a b : bytes_eqb (pre ++ a) (pre ++ b) = bytes_eqb a b.
Proof. apply bool_decide_ext. split; [apply (inj (pre ++.))|by intros ->]. Qed.

Lemma bytes_eqb_refl s : bytes_eqb s s = true.
Proof. by apply bool_decide_eq_true. Qed.

Lemma slice_end pre mid off len :
  off = length pre -> len = length mid -> slice off len (pre ++ mid) = Some mid.
Proof. intros Ho Hl. rewrite <- (app_nil_r mid) at 1. by apply slice_at. Qed.

Lemma transaction_id_be id rest :
  0 <= id < 65536 -> transaction_id (be_bytes 2 id ++ rest) = Some id.
Proof. apply ntohs_ld16_0. Qed.

Lemma logincont_body id ai :
  rq_body (afp_logincont id ai) = ([afpLoginCont; 0] ++ be_bytes 2 id) ++ ai.
Proof. unfold afp_logincont, call_with. cbn [rq_body]. by rewrite st16_htons, <- !app_assoc. Qed.

(** A server that knows the password of [user], with its secret number, the nonce, and
    the session key once it has one. *)
Section dhx_server.
Context (G : gcrypt) (av_name user password : list Z) (Rb nonce id rid : Z) (signature : list Z).

Definition dhx_prefix : list Z :=
  [afpLogin] ++ pascal av_name ++ pascal (str "DHCAST128") ++ pascal user ++ even_pad user.

Definition dhx_key (Ma : Z) : list Z := be_bytes 16 (Ma ^ Rb mod dhx_p).

(** What it makes of the last message. *)
Definition dhx_verdict (key ai : list Z) : Z :=
  match gc_decrypt G CAST5_CBC key dhx_c2siv ai with
  | Some plain =>
    if bytes_eqb plain (be_bytes 16 (nonce + 1) ++ strncpy 64 password) then kFPNoErr
    else kFPUserNotAuth
  | None => kFPUserNotAuth
  end.

Definition dhx_answer (r : request) (key : option (list Z)) : answer * option (list Z) :=
  let body := rq_body r in
  if bytes_eqb (take (length dhx_prefix) body) dhx_prefix then
    let key := dhx_key (be_val (drop (length dhx_prefix) body)) in
    let crypted := gc_encrypt G CAST5_CBC key dhx_s2civ (be_bytes 16 nonce ++ signature) in
    (replied rid kFPAuthContinue
       (be_bytes 2 id ++ be_bytes 16 (7 ^ Rb mod dhx_p) ++ default [] crypted), Some key)
  else
    match key with
    | Some key =>
      let rc := if bytes_eqb (take 4 body) ([afpLoginCont; 0] ++ be_bytes 2 id)
                then dhx_verdict key (drop 4 body) else kFPParamErr in
      (replied rid rc [], None)
    | None => (replied rid kFPParamErr [], None)
    end.

Context `{!GcryptLaws G}.
Context (Hav : (length av_name < 256)%nat) (Huser : (length user < 256)%nat).
Context (HRb : 0 <= Rb) (Hnonce : 0 <= nonce < 256 ^ 16 - 1) (Hid : 0 <= id < 65536).
Context (Hsig : bytes_ok signature) (Hsiglen : length signature = 16%nat).

(** From the reply on, the client sends what the server expects of a client that knows
    the password. *)
Lemma dhx_continue_ok mem Ra passwd c key xs crypted :
  0 <= Ra -> bytes_ok passwd -> key = dhx_key (7 ^ Ra mod dhx_p) ->
  gc_encrypt G CAST5_CBC key dhx_s2civ (be_bytes 16 nonce ++ signature) = Some crypted ->
  length crypted = 32%nat ->
  gc_decrypt G CAST5_CBC key dhx_s2civ crypted = Some (be_bytes 16 nonce ++ signature) ->
  exists ai,
  runs (supplied dhx_answer mem)
    (dhx_continue G Ra dhx_p passwd (be_bytes 2 id ++ be_bytes 16 (7 ^ Rb mod dhx_p) ++ crypted))
    c (Some key, xs) [afp_logincont id ai]
    (if bytes_eqb (strncpy 64 passwd) (strncpy 64 password) then kFPNoErr else kFPUserNotAuth)
    (None, xs).
Proof using All.
  intros HRa Hpw Hkey Henc Hlen Hdec.
  assert (length key = 16%nat) as Hk by (rewrite Hkey; apply length_be_bytes).
  destruct (cast5_ready key dhx_s2civ Hk eq_refl) as (R1 & R2 & R3).
  destruct (cast5_ready key dhx_c2siv Hk eq_refl) as (_ & _ & R4).
  destruct (cast5_roundtrip key dhx_c2siv (be_bytes 16 (nonce + 1) ++ strncpy 64 passwd))
    as (ai & Eai & _ & _ & Dai).
  { apply Forall_app; split; [apply be_bytes_ok|by apply bytes_ok_strncpy]. }
  { rewrite length_app, length_be_bytes. unfold strncpy. by rewrite length_resize. }
  exists ai. unfold dhx_continue.
  eapply runs_lift; [by apply transaction_id_be|].
  eapply runs_lift; [by apply slice_at; rewrite length_be_bytes|].
  rewrite (scan_be G) by apply dhx_small.
  assert (0 < dhx_p) as Hp by by vm_compute.
  eapply runs_lift; [apply powm_val; (done || apply Z.mod_pos_bound; lia)|].
  rewrite key_agreement by done.
  eapply runs_lift; [apply (print_padded_be G), dhx_small|].
  fold (dhx_key (7 ^ Ra mod dhx_p)). rewrite <- Hkey, R1, R2, R3. unfold or_fail.
  assert (slice 18 32 (be_bytes 2 id ++ be_bytes 16 (7 ^ Rb mod dhx_p) ++ crypted) = Some crypted)
    as Hc.
  { rewrite app_assoc. apply slice_end; solve_len. }
  eapply runs_lift; [exact Hc|]. rewrite Hdec. cbn [or_failed].
  eapply runs_lift; [apply slice_0; by rewrite length_be_bytes|].
  rewrite (scan_be G) by lia.
  eapply runs_lift; [by apply nonce_block_ok|]. rewrite R4, Eai. cbn [or_failed].
  apply last_runs with (rid := rid). unfold dhx_answer. rewrite logincont_body.
  unfold bytes_eqb at 1. rewrite bool_decide_false by done.
  rewrite take_app_length' by done. rewrite drop_app_length' by done.
  rewrite bytes_eqb_refl. unfold dhx_verdict. rewrite Dai, bytes_eqb_app. done.
Qed.

Lemma dhx_first_answer Ma key :
  0 <= Ma < 256 ^ 16 ->
  exists crypted,
  dhx_answer (login_request av_name (str "DHCAST128") (pascal user ++ even_pad user ++ be_bytes 16 Ma))
    key =
    (replied rid kFPAuthContinue (be_bytes 2 id ++ be_bytes 16 (7 ^ Rb mod dhx_p) ++ crypted),
     Some (dhx_key Ma)) /\
  gc_encrypt G CAST5_CBC (dhx_key Ma) dhx_s2civ (be_bytes 16 nonce ++ signature) = Some crypted /\
  length crypted = 32%nat /\
  gc_decrypt G CAST5_CBC (dhx_key Ma) dhx_s2civ crypted = Some (be_bytes 16 nonce ++ signature).
Proof using All.
  intros HM.
  destruct (cast5_roundtrip (dhx_key Ma) dhx_s2civ (be_bytes 16 nonce ++ signature))
    as (crypted & E & L & _ & D).
  { apply Forall_app; split; [apply be_bytes_ok|done]. }
  { by rewrite length_app, length_be_bytes, Hsiglen. }
  exists crypted. split_and!; [|done|rewrite L; solve_len|done].
  unfold dhx_answer, login_request, call_with. cbn [rq_body].
  replace ([afpLogin] ++ _) with (dhx_prefix ++ be_bytes 16 Ma)
    by (unfold dhx_prefix; by rewrite <- !app_assoc).
  rewrite take_app_length, drop_app_length, bytes_eqb_refl, be_val_bytes, (Z.mod_small Ma) by exact HM.
  by rewrite E.
Qed.

(** C19: DHCAST128 between the client and a server that holds a password for the user:
    in two messages they agree on a session key, and the server accepts exactly when the
    two passwords agree in the 64 bytes that are sent, whatever the random numbers of
    either side. *)
Theorem dhx_login_authenticates mem Ra_binary passwd c s xs :
  bytes_ok Ra_binary -> bytes_ok passwd ->
  exists r1 r2,
  runs (supplied dhx_answer mem) (dhx_login G av_name user passwd) c (s, Ra_binary :: xs)
    [r1; r2]
    (if bytes_eqb (strncpy 64 passwd) (strncpy 64 password) then kFPNoErr else kFPUserNotAuth)
    (None, xs).
Proof using All.
  intros HRa Hpw. set (Ra := be_val Ra_binary).
  assert (0 <= Ra) as HRa0 by apply (be_val_range _ HRa).
  assert (0 <= 7 ^ Ra mod dhx_p < 256 ^ 16) as HMa by apply dhx_small.
  assert (0 < dhx_p) as Hp by by vm_compute.
  destruct (dhx_first_answer (7 ^ Ra mod dhx_p) s HMa) as (crypted & Ha & Henc & Hlen & Hdec).
  destruct (dhx_continue_ok mem Ra passwd c _ xs crypted HRa0 Hpw eq_refl Henc Hlen Hdec) as [ai Hc].
  eexists _, _. unfold dhx_login. apply runs_random.
  rewrite !(scan_val (G := G)) by (done || by apply (bool_decide_unpack _)).
  change (be_val p_binary) with dhx_p. change (be_val g_binary) with 7. fold Ra.
  eapply runs_lift; [by apply powm_val|].
  eapply runs_lift; [by apply (dhx_block_ok G)|].
  eapply (runs_bind _ _ _ _ _ [_] _ _ [_]).
  { apply (login_runs dhx_answer mem) with (rid := rid); [done|by vm_compute; lia|exact Ha| |lia].
    rewrite !length_app, !length_be_bytes, Hlen. vm_compute; lia. }
  cbv beta iota. change (negb (kFPAuthContinue =? kFPAuthContinue)) with false. cbv iota.
  unfold rx_bytes, strncpy at 1. cbn [fmap option_fmap option_map default rx_data].
  rewrite resize_all_alt by (rewrite !length_app, !length_be_bytes, Hlen; done). exact Hc.
Qed.

End dhx_server.

(** ** DHX2 against a server *)

(** The prime, the generator and the length of the numbers are the server's.  [echo] is
    what it answers for the client's nonce; the protocol wants the nonce plus one. *)
Section dhx2_server.
Context (G : gcrypt) (av_name user password : list Z) (p g Rb nonce id id2 rid : Z) (n : nat).
Context (echo : list Z -> list Z).

Definition dhx2_body : list Z :=
  [afpLogin] ++ pascal av_name ++ pascal (str "DHX2") ++ pascal user.

Definition dhx2_key (Ma : Z) : list Z := gc_md5 G (be_bytes n (Ma ^ Rb mod p)).

Definition dhx2_parameters : list Z :=
  be_bytes 2 id ++ be_bytes 4 g ++ be_bytes 2 (Z.of_nat n) ++ be_bytes n p
  ++ be_bytes n (g ^ Rb mod p).

Definition dhx2_verdict (key ai : list Z) : Z :=
  match gc_decrypt G CAST5_CBC key dhx_c2siv ai with
  | Some plain =>
    if bytes_eqb plain (be_bytes 16 (nonce + 1) ++ strncpy 256 password) then kFPNoErr
    else kFPUserNotAuth
  | None => kFPUserNotAuth
  end.

(** The reply to the client's key and nonce. *)
Definition dhx2_second (key crypted : list Z) : list Z :=
  let client := default [] (gc_decrypt G CAST5_CBC key dhx_c2siv crypted) in
  be_bytes 2 id2
  ++ default [] (gc_encrypt G CAST5_CBC key dhx_s2civ (echo client ++ be_bytes 16 nonce)).

Definition dhx2_answer (r : request) (key : option (list Z)) : answer * option (list Z) :=
  let body := rq_body r in
  if bytes_eqb body dhx2_body then (replied rid kFPAuthContinue dhx2_parameters, None)
  else
    match key with
    | None =>
      if bytes_eqb (take 4 body) ([afpLoginCont; 0] ++ be_bytes 2 id) then
        let key := dhx2_key (be_val (take n (drop 4 body))) in
        (replied rid kFPAuthContinue (dhx2_second key (drop n (drop 4 body))), Some key)
      else (replied rid kFPParamErr [], None)
    | Some key =>
      let rc := if bytes_eqb (take 4 body) ([afpLoginCont; 0] ++ be_bytes 2 id2)
                then dhx2_verdict key (drop 4 body) else kFPParamErr in
      (replied rid rc [], None)
    end.

Context `{!GcryptLaws G}.
Context (Hav : (length av_name < 256)%nat) (Huser : (length user < 256)%nat).
Context (HRb : 0 <= Rb) (Hnonce : 0 <= nonce < 256 ^ 16 - 1).
Context (Hid : 0 <= id < 65536) (Hid2 : 0 <= id2 < 65536).
Context (Hn : (n <= 256)%nat) (Hp : 0 < p < 256 ^ Z.of_nat n) (Hg : 0 <= g < 256 ^ 4).
Context (Hecho : forall m, length (echo m) = 16%nat /\ bytes_ok (echo m)).

Lemma dhx2_small x : 0 <= x mod p < 256 ^ Z.of_nat n.
Proof using All. pose proof (Z.mod_pos_bound x p). lia. Qed.

(** The second half: whatever [echo] put first. *)
Lemma dhx2_finish_ok mem passwd key crypted c xs :
  bytes_ok passwd -> length key = 16%nat -> length crypted = 32%nat ->
  (exists first, length first = 16%nat /\
    gc_decrypt G CAST5_CBC key dhx_s2civ crypted = Some (first ++ be_bytes 16 nonce)) ->
  exists r,
  runs (supplied dhx2_answer mem) (dhx2_finish G key passwd (be_bytes 2 id2 ++ crypted))
    c (Some key, xs) [r]
    (if bytes_eqb (strncpy 256 passwd) (strncpy 256 password) then kFPNoErr else kFPUserNotAuth)
    (None, xs).
Proof using All.
  intros Hpw Hk Hlen (first & Hfirst & Hdec).
  destruct (cast5_ready key dhx_s2civ Hk eq_refl) as (_ & _ & R3).
  destruct (cast5_ready key dhx_c2siv Hk eq_refl) as (_ & _ & R4).
  destruct (cast5_roundtrip key dhx_c2siv (be_bytes 16 (nonce + 1) ++ strncpy 256 passwd))
    as (ai & Eai & _ & _ & Dai).
  { apply Forall_app; split; [apply be_bytes_ok|by apply bytes_ok_strncpy]. }
  { rewrite length_app, length_be_bytes. unfold strncpy. by rewrite length_resize. }
  eexists. unfold dhx2_finish. eapply runs_lift; [by apply transaction_id_be|].
  rewrite R3. unfold or_fail.
  eapply runs_lift; [by apply slice_end; rewrite ?length_be_bytes|].
  rewrite Hdec. cbn [or_failed].
  eapply runs_lift; [by apply slice_end; rewrite ?length_be_bytes|].
  rewrite (scan_be G) by lia.
  eapply runs_lift; [by apply nonce_block_ok|]. rewrite R4, Eai. cbn [or_failed].
  apply last_runs with (rid := rid). unfold dhx2_answer. rewrite logincont_body.
  unfold bytes_eqb at 1. rewrite bool_decide_false by done.
  rewrite take_app_length' by done. rewrite drop_app_length' by done.
  rewrite bytes_eqb_refl. unfold dhx2_verdict. rewrite Dai, bytes_eqb_app. done.
Qed.

(** What the second reply decrypts to. *)
Lemma dhx2_second_ok key nonce' crypted :
  length key = 16%nat -> gc_decrypt G CAST5_CBC key dhx_c2siv crypted = Some nonce' ->
  exists crypted',
  dhx2_second key crypted = be_bytes 2 id2 ++ crypted' /\ length crypted' = 32%nat /\
  gc_decrypt G CAST5_CBC key dhx_s2civ crypted' = Some (echo nonce' ++ be_bytes 16 nonce).
Proof using All.
  intros Hk Hd. unfold dhx2_second. rewrite Hd. change (default [] (Some nonce')) with nonce'.
  destruct (Hecho nonce') as [He1 He2].
  destruct (cast5_roundtrip key dhx_s2civ (echo nonce' ++ be_bytes 16 nonce))
    as (crypted' & E & L & _ & D).
  { apply Forall_app; split; [done|apply be_bytes_ok]. }
  { by rewrite length_app, length_be_bytes, He1. }
  exists crypted'. rewrite E. split_and!; [done| |done].
  by rewrite L, length_app, length_be_bytes, He1.
Qed.

(** From the parameters on. *)
Lemma dhx2_continue_ok mem Ra_binary nonce' passwd c xs behind :
  bytes_ok Ra_binary -> bytes_ok nonce' -> length nonce' = 16%nat -> bytes_ok passwd ->
  exists r1 r2,
  runs (supplied dhx2_answer mem) (dhx2_continue G passwd (dhx2_parameters ++ behind))
    c (None, Ra_binary :: nonce' :: xs) [r1; r2]
    (if bytes_eqb (strncpy 256 passwd) (strncpy 256 password) then kFPNoErr else kFPUserNotAuth)
    (None, xs).
Proof using All.
  intros HRa Hn' Hl' Hpw. set (Ra := be_val Ra_binary).
  assert (0 <= Ra) as HRa0 by apply (be_val_range _ HRa).
  set (Ma := g ^ Ra mod p). assert (0 <= Ma < 256 ^ Z.of_nat n) as HMa by apply dhx2_small.
  set (key := dhx2_key Ma). assert (length key = 16%nat) as Hk by apply md5_length.
  destruct (cast5_ready key dhx_c2siv Hk eq_refl) as (R1 & R2 & R3).
  destruct (cast5_roundtrip key dhx_c2siv nonce') as (crypted & E & L & _ & D);
    [done|by rewrite Hl'|].
  destruct (dhx2_second_ok key nonce' crypted Hk D) as (crypted' & E2 & L2 & D2).
  destruct (dhx2_finish_ok mem passwd key crypted' c xs Hpw Hk L2) as [r2 Hf];
    [by exists (echo nonce'); split; [apply Hecho|]|].
  eexists _, r2. unfold dhx2_continue, dhx2_parameters. rewrite <- !app_assoc.
  eapply runs_lift; [by apply transaction_id_be|].
  eapply runs_lift; [by apply slice_at; rewrite length_be_bytes|].
  eapply runs_lift; [rewrite app_assoc; apply ntohs_ld16; [solve_len|lia]|].
  rewrite Nat2Z.id.
  eapply runs_lift; [do 2 rewrite app_assoc; apply slice_at; solve_len|].
  eapply runs_lift; [do 3 rewrite app_assoc; apply slice_at; solve_len|].
  rewrite !(scan_be G) by (lia || apply dhx2_small).
  apply runs_random. rewrite !(scan_val (G := G)) by done. fold Ra.
  eapply runs_lift; [apply powm_val; lia|].
  eapply runs_lift; [apply powm_val; (lia || apply dhx2_small)|].
  eapply runs_lift; [apply (print_padded_be G), dhx2_small|].
  rewrite key_agreement by lia. apply runs_random.
  fold Ma. fold (dhx2_key Ma). fold key. rewrite R1, R2, R3. unfold or_fail.
  eapply runs_lift; [by apply (print_padded_be G)|]. rewrite E. cbn [or_failed].
  eapply (runs_bind _ _ _ _ _ [_] _ _ [_]).
  { apply (logincont_runs dhx2_answer mem) with (rid := rid) (data := be_bytes 2 id2 ++ crypted');
      [|by rewrite length_app, L2|lia].
    unfold dhx2_answer. rewrite logincont_body.
    unfold bytes_eqb at 1. rewrite bool_decide_false by done.
    rewrite take_app_length' by done. rewrite drop_app_length' by done. rewrite bytes_eqb_refl.
    rewrite take_app_length' by solve_len. rewrite drop_app_length' by solve_len.
    rewrite be_val_bytes, Z.mod_small by done. fold key. by rewrite E2. }
  cbv beta iota. change (negb (kFPAuthContinue =? kFPAuthContinue)) with false. cbv iota.
  unfold rx_bytes, strncpy at 1. cbn [fmap option_fmap option_map default rx_data].
  by rewrite resize_all_alt by (by rewrite length_app, L2).
Qed.

(** C20: DHX2 between the client and a server that holds a password for the user: in
    three messages they agree on a key, and the server accepts exactly when the two
    passwords agree in the 256 bytes that are sent.  The client does not check what the
    server answers for its nonce: with any [echo] it goes on and sends the password. *)
Theorem dhx2_login_authenticates mem Ra_binary nonce' passwd c s xs :
  bytes_ok Ra_binary -> bytes_ok nonce' -> length nonce' = 16%nat -> bytes_ok passwd ->
  exists r1 r2 r3,
  runs (supplied dhx2_answer mem) (dhx2_login G av_name user passwd) c
    (s, Ra_binary :: nonce' :: xs) [r1; r2; r3]
    (if bytes_eqb (strncpy 256 passwd) (strncpy 256 password) then kFPNoErr else kFPUserNotAuth)
    (None, xs).
Proof using All.
  intros HRa Hn' Hl' Hpw. unfold dhx2_login. rewrite user_block_ok by done.
  set (behind := replicate (520 - length dhx2_parameters) 0).
  destruct (dhx2_continue_ok mem Ra_binary nonce' passwd c xs behind HRa Hn' Hl' Hpw)
    as (r2 & r3 & Hc).
  assert (length dhx2_parameters <= 520)%nat as Hl by (unfold dhx2_parameters; solve_len).
  eexists _, r2, r3. eapply runs_lift; [done|].
  eapply (runs_bind _ _ _ _ _ [_] _ _ [_; _]).
  { apply (login_runs dhx2_answer mem) with (rid := rid) (data := dhx2_parameters);
      [done|by vm_compute; lia| |done|lia].
    unfold dhx2_answer, login_request, call_with. cbn [rq_body].
    fold dhx2_body. by rewrite bytes_eqb_refl. }
  cbv beta iota. change (negb (kFPAuthContinue =? kFPAuthContinue)) with false. cbv iota.
  unfold rx_bytes, strncpy at 1. cbn [fmap option_fmap option_map default rx_data].
  by rewrite resize_ge by done.
Qed.

End dhx2_server.

(** ** The two-way exchange *)

Lemma schar_ascii b : 0 <= b < 128 -> schar b = b.
Proof. intros Hb. unfold schar. by rewrite (proj2 (Z.ltb_lt b 128)) by lia. Qed.

Lemma shift_in_ascii a b : 0 <= a < 128 -> 0 <= b < 128 -> shift_in a b = 2 * a.
Proof.
  intros Ha Hb. unfold shift_in. rewrite !schar_ascii by done.
  rewrite (Z.shiftr_div_pow2 b), Z.div_small by lia. rewrite Z.lor_0_r, Z.shiftl_mul_pow2 by lia.
  rewrite u8_small; lia.
Qed.

(** For a password in ASCII the key has the bytes of the password, shifted. *)
Lemma rotate_key_ascii key :
  Forall (fun b => 0 <= b < 128) key -> rotate_key key = (fun b => 2 * b) <$> key.
Proof.
  intros Hk. destruct Hk as [|a key Ha Hk]; [done|]. unfold rotate_key.
  rewrite schar_ascii by done. rewrite (Z.shiftr_div_pow2 a), Z.div_small by lia.
  revert a Ha. induction Hk as [|b key Hb Hk IH]; intros a Ha; cbn [rotate_loop fmap list_fmap].
  - f_equal. rewrite schar_ascii by done. rewrite Z.lor_0_r, Z.shiftl_mul_pow2 by lia.
    rewrite u8_small; lia.
  - f_equal; [by apply shift_in_ascii|by apply IH].
Qed.

(** A byte from 128 on fills the byte of the key before it with ones: the character there
    no longer matters. *)
Lemma shift_in_high a b : 128 <= b < 256 -> shift_in a b = 255.
Proof.
  intros Hb. unfold shift_in, schar at 2. rewrite (proj2 (Z.ltb_ge b 128)) by lia.
  replace (Z.shiftr (b - 256) 7) with (-1) by (rewrite Z.shiftr_div_pow2; dlia).
  by rewrite Z.lor_m1_r.
Qed.

Example rotate_key_collision :
  rotate_key (strncpy 8 [97; 233; 97]) = rotate_key (strncpy 8 [98; 233; 97]).
Proof. reflexivity. Qed.

(** The two-way exchange proves both sides: the client sends the server's challenge
    encrypted with the password, and takes a server for authenticated only if that
    answers its own nonce encrypted with the same key; otherwise it reports
    kFPUserNotAuth although the server accepted it. *)
Theorem randnum2_checks_server G av_name {W} (f : request -> W -> answer * W) mem user passwd
    id challenge response nonce hashed crypted rid rc s s1 s2 xs c :
  let key := rotate_key (strncpy 8 passwd) in
  (length av_name < 256)%nat -> (length user < 256)%nat -> 0 <= id < 65536 ->
  length challenge = 8%nat -> length response = 8%nat -> length crypted = 8%nat ->
  gc_open G DES_ECB = true -> gc_setkey G DES_ECB key = true ->
  gc_encrypt G DES_ECB key [] challenge = Some hashed ->
  gc_encrypt G DES_ECB key [] nonce = Some crypted ->
  f (login_request av_name (str "2-Way Randnum Exchange") (pascal user)) s =
    (replied rid kFPAuthContinue (be_bytes 2 id ++ challenge), s1) ->
  f (afp_logincont id (hashed ++ nonce)) s1 = (replied rid rc response, s2) ->
  runs (supplied f mem) (randnum2_login G av_name user passwd) c (s, nonce :: xs)
    [login_request av_name (str "2-Way Randnum Exchange") (pascal user);
     afp_logincont id (hashed ++ nonce)]
    (if negb (rc =? kFPNoErr) then rc
     else if bytes_eqb crypted response then kFPNoErr else kFPUserNotAuth) (s2, xs).
Proof.
  intros key Hav Hu Hid Hc Hr Hcl Ho Hk Eh Ec Hf1 Hf2. unfold randnum2_login.
  rewrite user_block_ok by done. eapply runs_lift; [done|].
  eapply (runs_bind _ _ _ _ _ [_] _ _ [_]).
  { apply (login_runs f mem) with (rid := rid) (data := be_bytes 2 id ++ challenge);
      [done|by vm_compute; lia|done|solve_len|lia]. }
  cbv beta iota. change (negb (kFPAuthContinue =? kFPAuthContinue)) with false. cbv iota.
  unfold rx_bytes. cbn [fmap option_fmap option_map default from_option Datatypes.id rx_data].
  change (strncpy (Z.to_nat 10)) with (resize 10 0).
  rewrite !(resize_all_alt (be_bytes 2 id ++ challenge)) by solve_len.
  eapply runs_lift; [by apply transaction_id_be|].
  cbv zeta. rewrite drop_app_length' by done. fold key. rewrite Ho, Hk, Eh. cbn [or_fail or_failed].
  apply runs_random. eapply (runs_bind _ _ _ _ _ [_] _ _ []).
  { apply (logincont_runs f mem) with (rid := rid) (data := response);
      [exact Hf2|by rewrite Hr|lia]. }
  cbv beta iota. destruct (Z.eqb_spec rc kFPNoErr) as [->|Hrc]; cbn [negb]; [|apply runs_ret].
  rewrite Ec. cbn [or_failed]. unfold strncpy.
  cbn [fmap option_fmap option_map default from_option Datatypes.id rx_data].
  rewrite resize_all_alt by done. apply runs_ret.
Qed.

(** ** The table *)

Lemma uams_registered :
  uam_base init_uams =
    [uam_cleartxt; uam_noauth; uam_randnum; uam_randnum2; uam_dhx; uam_dhx2] /\
  uam_names_list init_uams =
    str "Cleartxt Passwrd, No User Authent, Randnum Exchange, 2-Way Randnum Exchange, DHCAST128, DHX2".
Proof. split; reflexivity. Qed.

Lemma uams_found :
  Forall (fun u => find_uam_by_bitmap init_uams (um_bitmap u) = Some u /\
                   find_uam_by_name init_uams (um_name u) = um_bitmap u) (uam_base init_uams).
Proof. rewrite (proj1 uams_registered). repeat constructor. Qed.

(** ** An instance of the laws *)

Fixpoint drop_zeros (bs : list Z) : list Z :=
  match bs with b :: bs' => if b =? 0 then drop_zeros bs' else bs | [] => [] end.

(** A cipher that flips bits. *)
Definition toy_gcrypt : gcrypt :=
  {| gc_open := fun _ => true; gc_setkey := fun _ _ => true; gc_setiv := fun _ _ => true;
     gc_encrypt := fun _ _ _ bs => Some (Z.lxor 0x55 <$> bs);
     gc_decrypt := fun _ _ _ bs => Some (Z.lxor 0x55 <$> bs);
     gc_mpi_scan := be_val; gc_mpi_print := fun n x => drop_zeros (be_bytes n x);
     gc_mpi_add_ui := Z.add; gc_mpi_powm := fun b e m => Some (b ^ e mod m);
     gc_md5 := fun bs => resize 16 0 bs |}.

Lemma drop_zeros_spec bs :
  exists k, bs = replicate k 0 ++ drop_zeros bs.
Proof.
  induction bs as [|b bs [k IH]]; [by exists 0%nat|]. cbn [drop_zeros].
  destruct (Z.eqb_spec b 0) as [->|]; [|by exists 0%nat].
  exists (S k). cbn [replicate app]. by rewrite <- IH.
Qed.

#[export] Instance toy_laws : GcryptLaws toy_gcrypt.
Proof.
  split; cbn [toy_gcrypt gc_mpi_scan gc_mpi_print gc_mpi_add_ui gc_mpi_powm gc_encrypt gc_decrypt
              gc_open gc_setkey gc_setiv gc_md5]; try done.
  - intros n x Hx. destruct (drop_zeros_spec (be_bytes n x)) as [k Hk].
    pose proof (length_be_bytes n x) as Hl. pose proof (be_bytes_ok n x) as Hb.
    rewrite Hk in Hl, Hb. rewrite length_app in Hl. apply Forall_app in Hb as [_ Hb].
    split_and!; [lia|done|].
    rewrite <- (be_val_zeros k), <- Hk, be_val_bytes. by apply Z.mod_small.
  - intros _ _ bs Hb _. eexists. split_and!; [done|by rewrite length_fmap| |].
    + apply Forall_fmap. eapply Forall_impl; [exact Hb|]. intros b H.
      pose proof (byte_forall (fun b => (0 <=? Z.lxor 0x55 b) && (Z.lxor 0x55 b <? 256)) eq_refl b H).
      cbn in *. unfold byte_ok. lia.
    + f_equal. rewrite <- list_fmap_compose. etransitivity; [|apply list_fmap_id].
      apply list_fmap_ext. intros _ b _. cbn [compose].
      by rewrite <- Z.lxor_assoc, Z.lxor_nilpotent, Z.lxor_0_l.
  - intros bs. apply length_resize.
Qed.

Definition sample_client : client :=
  mk_client (mk_afp_server 0 31 0 0 0 0 0 0 0 0 0)
    (mk_afp_volume 7 0 0 0 0 0 0 0 0 0 [] [] 0 0 0) [] 0 0 0 0 [].

Lemma dhx_login_authenticates_witness :
  exists r1 r2,
  runs (supplied (dhx_answer toy_gcrypt (str "AFP3.1") (str "ann") (str "secret") 3 77 1 4
                    (replicate 16 0)) (fun _ => []))
    (dhx_login toy_gcrypt (str "AFP3.1") (str "ann") (str "secret")) sample_client
    (None, [replicate 31 0 ++ [5]]) [r1; r2] kFPNoErr (None, []).
Proof.
  apply (dhx_login_authenticates toy_gcrypt (str "AFP3.1") (str "ann") (str "secret") 3 77 1 4
    (replicate 16 0)); first [by apply (bool_decide_unpack _) | lia].
Defined.

(** A server that sends zeros for the client's nonce is not noticed. *)
Lemma dhx2_login_authenticates_witness :
  exists r1 r2 r3,
  runs (supplied (dhx2_answer toy_gcrypt (str "AFP3.1") (str "ann") (str "secret") 251 6 3 77 1 2 4
                    16 (fun _ => replicate 16 0)) (fun _ => []))
    (dhx2_login toy_gcrypt (str "AFP3.1") (str "ann") (str "other")) sample_client
    (None, [[5]; replicate 16 9]) [r1; r2; r3] kFPUserNotAuth (None, []).
Proof.
  apply (dhx2_login_authenticates toy_gcrypt (str "AFP3.1") (str "ann") (str "secret") 251 6 3 77
    1 2 4 16 (fun _ => replicate 16 0));
    first [by apply (bool_decide_unpack _) | lia | idtac].
  intros _. split; by apply (bool_decide_unpack _).
Defined.

(** The password of the client is right, the server does not know it. *)
Lemma randnum2_checks_server_witness :
  runs (supplied (fun r (w : bool) =>
          (if w then replied 4 kFPNoErr (replicate 8 0)
           else replied 4 kFPAuthContinue (be_bytes 2 9 ++ replicate 8 1), true)) (fun _ => []))
    (randnum2_login toy_gcrypt (str "AFP3.1") (str "ann") (str "secret")) sample_client
    (false, [replicate 8 2])
    [login_request (str "AFP3.1") (str "2-Way Randnum Exchange") (pascal (str "ann"));
     afp_logincont 9 (replicate 8 0x54 ++ replicate 8 2)] kFPUserNotAuth (true, []).
Proof.
  apply (randnum2_checks_server toy_gcrypt (str "AFP3.1") (fun r (w : bool) =>
          (if w then replied 4 kFPNoErr (replicate 8 0)
           else replied 4 kFPAuthContinue (be_bytes 2 9 ++ replicate 8 1), true)) (fun _ => [])
    (str "ann") (str "secret") 9 (replicate 8 1) (replicate 8 0) (replicate 8 2)
    (replicate 8 0x54) (replicate 8 0x57) 4 0 false true true [] sample_client);
    first [reflexivity | lia | by vm_compute; lia].
Defined.

End Auth.
