(* ===== verification/Lowlevel.v ===== *)
(** * Locking, reading, writing and listing: lib/lowlevel.c

    Everything of the file but [ll_open], which calls [ml_creat] and is in [Create].
    Return values are as in the code: 0 or a count, or a negated [errno]. *)

From S2P Require Import Prelude Constants Types Utils Codepage Dsi ReplyBlock ProtoFiles.
From S2P Require Import ProtoVolume Client Calls Did Users.

Module Lowlevel.
Import Utils Codepage Dsi ReplyBlock ProtoFiles ProtoVolume Client Calls Did Users.

Definition version : M Z := s ← server; mret (sv_av_number s).
Definition extra_flags : M Z := v ← volume; mret (vo_extra_flags v).

(** The macro [volume_is_readonly] of include/afpfs-ng/afp.h. *)
Definition volume_readonly (v : afp_volume) : bool :=
  has (vo_attributes v) kReadOnly || has (vo_extra_flags v) VOLUME_EXTRA_FLAGS_READONLY.
Definition volume_is_readonly : M bool := v ← volume; mret (volume_readonly v).

(** [invalid_filename] on a C string. *)
Definition name_too_long (path : list Z) : M bool := s ← server; lift (invalid_filename s path).

(** A string in an array of [AFP_MAX_PATH] bytes. *)
Definition as_array (s : list Z) : list Z := resize 768 0 s.

Definition set_permissions (mode : Z) (fp : afp_file_info) : afp_file_info :=
  set_fi_unixprivs (set_up_permissions mode (fi_unixprivs fp)) fp.

Definition nonunix_perms (fp : afp_file_info) : Z :=
  if negb (fi_isdir fp =? 0) then Z.lor 0x1c0 S_IFDIR else Z.lor 0x180 S_IFREG.
Definition set_nonunix_perms (fp : afp_file_info) : afp_file_info :=
  set_permissions (nonunix_perms fp) fp.

(** ** Byte range locks *)

Definition byterangelock (flag forkid offset size : Z) : M Z :=
  av ← version;
  if av <? 30 then FPByteRangeLock flag forkid offset size
  else FPByteRangeLockExt flag forkid offset size.

Definition ll_handle_unlocking (forkid offset sizetorequest : Z) : M Z :=
  flags ← extra_flags;
  if has flags VOLUME_EXTRA_FLAGS_NO_LOCKING then mret 0
  else
    rc ← byterangelock ByteRangeLock_Unlock forkid offset sizetorequest;
    mret (if rc =? kFPNoErr then 0 else -1).

(** The loop with [tries] left: a lock that is still refused after the last of them
    counts as held. *)
Fixpoint lock_loop (tries : nat) (forkid offset sizetorequest : Z) : M Z :=
  match tries with
  | O => mret 0
  | S tries =>
    rc ← byterangelock ByteRangeLock_Lock forkid offset sizetorequest;
    if rc =? kFPNoErr then mret 0
    else if (rc =? kFPNoMoreLocks) || (rc =? kFPLockErr) then
      ask (Sleep 1);; lock_loop tries forkid offset sizetorequest
    else mret (-1)
  end.

Definition MAX_LOCKTRYCOUNT : nat := 10.

Definition ll_handle_locking (forkid offset sizetorequest : Z) : M Z :=
  flags ← extra_flags;
  if has flags VOLUME_EXTRA_FLAGS_NO_LOCKING then mret 0
  else lock_loop MAX_LOCKTRYCOUNT forkid offset sizetorequest.

(** ** Forks *)

(** A positive [errno], or 0 for every other return code. *)
Definition ll_zero_file (forkid resource : Z) : M Z :=
  s ← server;
  let bitmap :=
    if (sv_av_number s <? 30) || (sv_server_type s =? AFPFS_SERVER_TYPE_NETATALK)
    then (if negb (resource =? 0) then kFPRsrcForkLenBit else kFPDataForkLenBit)
    else (if negb (resource =? 0) then kFPExtRsrcForkLenBit else kFPExtDataForkLenBit) in
  ret ← FPSetForkParms forkid bitmap 0;
  mret (switch ret
    [([kFPAccessDenied], EACCES);
     ([kFPVolLocked; kFPLockErr], EBUSY);
     ([kFPDiskFull], ENOSPC);
     ([kFPBitmapErr; kFPMiscErr; kFPParamErr], EIO)] 0).

(** The base name survives the structure being filled in anew. *)
Definition ll_get_directory_entry (basename : list Z) (dirid filebitmap dirbitmap : Z)
    (p : afp_file_info) : M (Z * afp_file_info) :=
  '(ret, p') ← FPGetFileDirParms dirid filebitmap dirbitmap basename p;
  mret (ret, set_fi_basename (fi_basename p) p').

(** The return value, the caller's buffer and [eof].  A return code without a case
    is no error. *)
Definition ll_read (buf : list Z) (size offset : Z) (fp : afp_file_info)
    : M (Z * list Z * Z) :=
  s ← server;
  let buffer := mk_rx 0 (Z.min (sv_rx_quantum s) size) buf 0 in
  lock ← ll_handle_locking (fi_forkid fp) offset size;
  if negb (lock =? 0) then mret (- EBUSY, buf, 0)
  else
    '(rc, buffer) ← (if sv_av_number s <? 30 then FPRead (fi_forkid fp) offset size buffer
                     else FPReadExt (fi_forkid fp) offset size buffer);
    unlock ← ll_handle_unlocking (fi_forkid fp) offset size;
    if negb (unlock =? 0) then mret (- EIO, rx_data buffer, 0)
    else
      let done := rx_size buffer in
      mret (switch rc
        [([kFPAccessDenied], (- EACCES, rx_data buffer, 0));
         ([kFPLockErr], (- EBUSY, rx_data buffer, 0));
         ([kFPMiscErr; kFPParamErr], (- EIO, rx_data buffer, 0));
         ([kFPEOFErr], (done, rx_data buffer, 1))] (done, rx_data buffer, 0)).

(** The [while ( *totalwritten < size)] loop; [o] is both the offset in [data] and
    [ *totalwritten].  The return code of a write is overwritten with 0. *)
Fixpoint write_loop (fuel : nat) (data : list Z) (size offset : Z) (forkid max_packet_size o : Z)
    : M Z :=
  if size <=? o then mret o
  else
    match fuel with
    | O => out_of_fuel
    | S fuel =>
      av ← version;
      let sizetowrite := if size - o <? max_packet_size then size - o else max_packet_size in
      _ ← (if av <? 30 then FPWrite forkid (offset + o) sizetowrite (drop (Z.to_nat o) data)
           else FPWriteExt forkid (offset + o) sizetowrite (drop (Z.to_nat o) data));
      write_loop fuel data size offset forkid max_packet_size (o + sizetowrite)
    end.

(** The return value and [ *totalwritten].  Both error exits return [-err], which is
    0. *)
Definition ll_write (fuel : nat) (data : list Z) (size offset : Z)
    (fp : option afp_file_info) : M (Z * Z) :=
  s ← server;
  match fp with
  | None => mret (- EBADF, 0)
  | Some fp =>
    lock ← ll_handle_locking (fi_forkid fp) offset size;
    if negb (lock =? 0) then mret (0, 0)
    else
      totalwritten ← write_loop fuel data size offset (fi_forkid fp) (sv_tx_quantum s) 0;
      unlock ← ll_handle_unlocking (fi_forkid fp) offset size;
      mret (0, totalwritten)
  end.

(** ** Directories *)

Definition lor_if (b : bool) (x y : Z) : Z := if b then Z.lor x y else x.

(** The two bitmaps of [ll_readdir]. *)
Definition readdir_bitmaps (v : afp_volume) (s : afp_server) (resource : Z) : Z * Z :=
  let unix := has (vo_extra_flags v) VOLUME_EXTRA_FLAGS_VOL_SUPPORTS_UNIX in
  let names := if has (vo_attributes v) kSupportsUTF8Names then kFPUTF8NameBit
               else Z.lor kFPLongNameBit kFPShortNameBit in
  let common := Z.lor kFPAttributeBit (Z.lor kFPParentDirIDBit (Z.lor kFPCreateDateBit
                 (Z.lor kFPModDateBit (Z.lor kFPBackupDateBit kFPNodeIDBit)))) in
  let dirbitmap := Z.lor common (Z.lor kFPOffspringCountBit
                     (Z.lor kFPOwnerIDBit kFPGroupIDBit)) in
  let filebitmap := Z.lor (lor_if unix common kFPUnixPrivsBit) names in
  let forklen := if negb (resource =? 0) then kFPRsrcForkLenBit
                 else if sv_av_number s <? 30 then kFPDataForkLenBit
                 else kFPExtDataForkLenBit in
  (Z.lor filebitmap forklen, Z.lor (lor_if unix dirbitmap kFPUnixPrivsBit) names).

(** The [while (!exit)] loop: the list so far grows by each batch, and the next one
    starts behind it.  The result is a negated [errno] or 0, and the list.  A return
    code without a case goes round again. *)
Fixpoint readdir_loop (fuel : nat) (dirid filebitmap dirbitmap startindex : Z)
    (basename : list Z) (files : list afp_file_info) : M (Z * list afp_file_info) :=
  match fuel with
  | O => out_of_fuel
  | S fuel =>
    av ← version;
    '(rc, base) ← (if av <? 30
                   then FPEnumerate dirid filebitmap dirbitmap 20 startindex basename
                   else FPEnumerateExt2 dirid filebitmap dirbitmap 20 startindex basename);
    if (rc =? 0) || (rc =? kFPObjectNotFound) then
      let files := files ++ base in
      if rc =? kFPObjectNotFound then mret (0, files)
      else readdir_loop fuel dirid filebitmap dirbitmap
             (startindex + Z.of_nat (length base)) basename files
    else
      switch rc
        [([-1], mret (- EIO, []));
         ([kFPAccessDenied], mret (- EACCES, []));
         ([kFPDirNotFound], mret (0, files));
         ([kFPBitmapErr; kFPMiscErr; kFPObjectTypeErr; kFPParamErr; kFPCallNotSupported],
          mret (- EIO, []))]
        (readdir_loop fuel dirid filebitmap dirbitmap startindex basename files)
  end.

(** The converted names go to a local array and are dropped. *)
Fixpoint convert_names (files : list afp_file_info) : M unit :=
  match files with
  | [] => mret tt
  | p :: files =>
    s ← server;
    _ ← lift (convert_path_to_unix (sv_path_encoding s) (replicate 768 0) (fi_name p) 768);
    convert_names files
  end.

Definition ll_readdir (fuel : nat) (path : list Z) (resource : Z)
    : M (Z * list afp_file_info) :=
  toolong ← name_too_long path;
  if toolong : bool then mret (- ENAMETOOLONG, [])
  else
    '(ret, (basename, dirid)) ← get_dirid path;
    if ret <? 0 then mret (- ENOENT, [])
    else
      s ← server; v ← volume;
      let '(filebitmap, dirbitmap) := readdir_bitmaps v s resource in
      '(ret, files) ← readdir_loop fuel dirid filebitmap dirbitmap 1 basename [];
      if ret <? 0 then mret (ret, [])
      else
        convert_names files;;
        mret (0, if sv_av_number s <? 30 then set_nonunix_perms <$> files else files).

(** ** Attributes *)

(** The fields of [struct stat] the code fills in. *)
Record stat := mk_stat {
  st_mode : Z; st_nlink : Z; st_uid : Z; st_gid : Z; st_size : Z;
  st_blksize : Z; st_blocks : Z; st_ctime : Z; st_mtime : Z }.

Definition zero_stat : stat := mk_stat 0 0 0 0 0 0 0 0 0.

Definition getattr_bitmaps (v : afp_volume) (s : afp_server) (resource : Z) : Z * Z :=
  let unix := has (vo_extra_flags v) VOLUME_EXTRA_FLAGS_VOL_SUPPORTS_UNIX in
  let common := Z.lor kFPAttributeBit (Z.lor kFPCreateDateBit (Z.lor kFPModDateBit
                 (Z.lor kFPNodeIDBit kFPParentDirIDBit))) in
  let forklen := if sv_av_number s <? 30
    then (if negb (resource =? 0) then kFPRsrcForkLenBit else kFPDataForkLenBit)
    else (if negb (resource =? 0) then kFPExtRsrcForkLenBit else kFPExtDataForkLenBit) in
  (lor_if unix (Z.lor (Z.lor common kFPFinderInfoBit) forklen) kFPUnixPrivsBit,
   Z.lor (Z.lor common kFPOffspringCountBit)
         (if unix then kFPUnixPrivsBit else Z.lor kFPOwnerIDBit kFPGroupIDBit)).

(** The structure [ll_getattr] makes of the parameters of an object and the
    translated ids. *)
Definition fill_stat (s : afp_server) (fp : afp_file_info) (resource uid gid : Z) : stat :=
  let permissions := up_permissions (fi_unixprivs fp) in
  let mode := if (30 <=? sv_av_number s) && negb (permissions =? 0) then permissions
              else nonunix_perms fp in
  let old_dir := (sv_av_number s <? 30) && has mode S_IFDIR in
  let size := if negb (resource =? 0) then fi_resourcesize fp else fi_size fp in
  let ctime := if old_dir then sv_connect_time s else fi_creation_date fp in
  let mtime := if old_dir then sv_connect_time s else fi_modification_date fp in
  if has mode S_IFDIR
  then mk_stat mode (fi_offspring fp + 2) uid gid (fi_offspring fp * 34 + 24) 0 0 ctime mtime
  else mk_stat mode 1 uid gid size 4096 (size / 4096) ctime mtime.

Definition ll_getattr (path : list Z) (resource : Z) : M (Z * stat) :=
  toolong ← name_too_long path;
  if toolong : bool then mret (- ENAMETOOLONG, zero_stat)
  else
    '(ret, (basename, dirid)) ← get_dirid path;
    if ret <? 0 then mret (- ENOENT, zero_stat)
    else
      s ← server; v ← volume;
      let '(filebitmap, dirbitmap) := getattr_bitmaps v s resource in
      '(basename, dirid) ←
        (if (sv_av_number s <? 30) && bytes_eqb path [slash]
         then name ← lift (cstr (vo_volume_name v)); mret (name, 1)
         else mret (basename, dirid));
      fp ← ask Uninitialised;
      '(rc, fp) ← FPGetFileDirParms dirid filebitmap dirbitmap basename fp;
      if negb (rc =? kFPNoErr) then
        mret (switch rc [([kFPAccessDenied], - EACCES); ([kFPObjectNotFound], - ENOENT)] (- EIO),
              zero_stat)
      else
        let u := fi_unixprivs fp in
        '(ret, (uid, gid)) ← translate_uidgid_to_client (up_uid u) (up_gid u);
        if negb (ret =? 0) then
          let st := fill_stat s fp resource uid gid in
          mret (- EIO, mk_stat (st_mode st) 0 uid gid 0 0 0 0 0)
        else mret (0, fill_stat s fp resource uid gid).

(** ** Locks: what is sent and what comes back *)

Definition is_lock (r : request) : Prop :=
  head (rq_body r) = Some afpByteRangeLock \/ head (rq_body r) = Some afpByteRangeLockExt.

Section locks.
Context {W : Type} (h : handler W) `{!Transport h}.

Lemma runs_version c w : runs h version c w [] (sv_av_number (cl_server c)) w.
Proof using Type. done. Qed.

Lemma runs_extra_flags c w : runs h extra_flags c w [] (vo_extra_flags (cl_volume c)) w.
Proof using Type. done. Qed.

(** A handler that copes with every packet of at least a header. *)
Lemma runs_handle {A} (f : list Z -> Z -> option (Z * A)) r c w (x : A) w' :
  (forall packet behind, (16 <= length packet)%nat ->
     is_Some (f (packet ++ behind) (Z.of_nat (length packet)))) ->
  exists y, runs h (handle f (h answer (Exchange r) w).1 x) c w' [] y w'.
Proof using Type*.
  intros Hf. unfold handle.
  destruct (an_packet (h answer (Exchange r) w).1) as [[packet behind]|] eqn:E; [|by exists x].
  destruct (Hf packet behind (framed r w packet behind E)) as [[e y] Hy]. rewrite Hy.
  by exists y.
Qed.

Lemma lock_reply_total packet behind :
  (16 <= length packet)%nat ->
  is_Some (afp_byterangelock_reply (packet ++ behind) (Z.of_nat (length packet))) /\
  is_Some (afp_byterangelockext_reply (packet ++ behind) (Z.of_nat (length packet))).
Proof using Type.
  intros Hp. unfold afp_byterangelock_reply, afp_byterangelockext_reply, raw_error, ld32, ld64.
  rewrite (slice_in_range 4 4) by (rewrite length_app; lia). cbn [fmap option_fmap option_map mbind option_bind].
  destruct (Z.ltb_spec (Z.of_nat (length packet)) 24); [by split; eexists|].
  rewrite slice_in_range by (rewrite length_app; lia). by split; eexists.
Qed.

Lemma runs_byterangelock flag forkid offset size c w :
  exists r rc w', runs h (byterangelock flag forkid offset size) c w [r] rc w' /\ is_lock r /\
    rc = an_rc (h answer (Exchange r) w).1 /\ w' = (h answer (Exchange r) w).2.
Proof using Type*.
  unfold byterangelock.
  destruct (sv_av_number (cl_server c) <? 30) eqn:Eav.
  - set (r := afp_byterangelock flag forkid offset size).
    destruct (runs_handle afp_byterangelock_reply r c w 0 (h answer (Exchange r) w).2) as [y Hy].
    { intros. by apply lock_reply_total. }
    exists r, (an_rc (h answer (Exchange r) w).1), (h answer (Exchange r) w).2.
    split; [|split_and!; [by left|done|done]].
    eapply (runs_bind h _ _ _ _ []); [apply runs_version|]. cbn beta. rewrite Eav.
    eapply (runs_bind h _ _ _ _ [r]); [apply (runs_ask h (Exchange r))|].
    by eapply (runs_bind h _ _ _ _ []).
  - set (r := afp_byterangelockext flag forkid offset size).
    destruct (runs_handle afp_byterangelockext_reply r c w 0 (h answer (Exchange r) w).2)
      as [y Hy].
    { intros. by apply lock_reply_total. }
    exists r, (an_rc (h answer (Exchange r) w).1), (h answer (Exchange r) w).2.
    split; [|split_and!; [by right|done|done]].
    eapply (runs_bind h _ _ _ _ []); [apply runs_version|]. cbn beta. rewrite Eav.
    eapply (runs_bind h _ _ _ _ [r]); [apply (runs_ask h (Exchange r))|].
    by eapply (runs_bind h _ _ _ _ []).
Qed.

(** The codes after which a lock counts as held, or is asked for again. *)
Definition lock_error (rc : Z) : Prop := rc ∉ [kFPNoErr; kFPNoMoreLocks; kFPLockErr].

(** Why locking failed: the last lock request was answered with an error, which left the
    environment in [w']. *)
Definition lock_failed (locks : list request) (w' : W) : Prop :=
  exists r w, last locks = Some r /\ lock_error (an_rc (h answer (Exchange r) w).1) /\
    w' = (h answer (Exchange r) w).2.

Lemma runs_lock_loop n forkid offset size c w :
  exists rs ret w', runs h (lock_loop n forkid offset size) c w rs ret w' /\
    Forall is_lock rs /\ (length rs <= n)%nat /\ (ret = 0 \/ ret = -1 /\ lock_failed rs w').
Proof using Type*.
  revert w. induction n as [|n IH]; intros w; cbn [lock_loop].
  { exists [], 0, w. split_and!; [apply runs_ret|constructor|simpl; lia|by left]. }
  destruct (runs_byterangelock ByteRangeLock_Lock forkid offset size c w)
    as (r & rc & w1 & Hr & Hl & Hrc & Hw1).
  destruct (rc =? kFPNoErr) eqn:E0.
  { exists ([r] ++ []), 0, w1. split_and!; [|by apply Forall_singleton|simpl; lia|by left].
    eapply runs_bind; [exact Hr|]. cbn beta. rewrite E0. apply runs_ret. }
  destruct ((rc =? kFPNoMoreLocks) || (rc =? kFPLockErr)) eqn:E1.
  - destruct (IH (h unit (Sleep 1) w1).2) as (rs & ret & w2 & Hrs & Hls & Hn & Hret).
    exists ([r] ++ [] ++ rs), ret, w2.
    split_and!; [|by constructor|simpl; lia|].
    2:{ destruct Hret as [->|[-> (r' & w0 & Hr' & He)]]; [by left|right; split; [done|]].
        exists r', w0. split; [|done]. by destruct rs. }
    eapply runs_bind; [exact Hr|]. cbn beta. rewrite E0, E1.
    eapply (runs_bind h _ _ _ _ []); [apply (runs_ask h (Sleep 1))|done].
  - exists ([r] ++ []), (-1), w1. split_and!; [|by apply Forall_singleton|simpl; lia|].
    2:{ right. split; [done|]. exists r, w. rewrite <- Hrc. split_and!; [done| |done]. unfold lock_error.
        apply Z.eqb_neq in E0. apply orb_false_iff in E1 as [E1%Z.eqb_neq E2%Z.eqb_neq]. set_solver. }
    eapply runs_bind; [exact Hr|]. cbn beta. rewrite E0, E1. apply runs_ret.
Qed.

Lemma runs_locking forkid offset size c w :
  exists rs ret w', runs h (ll_handle_locking forkid offset size) c w rs ret w' /\
    Forall is_lock rs /\ (length rs <= 10)%nat /\ (ret = 0 \/ ret = -1 /\ lock_failed rs w').
Proof using Type*.
  unfold ll_handle_locking.
  destruct (has (vo_extra_flags (cl_volume c)) VOLUME_EXTRA_FLAGS_NO_LOCKING) eqn:E.
  { exists [], 0, w. split_and!; [|constructor|simpl; lia|by left].
    eapply (runs_bind h _ _ _ _ []); [apply runs_extra_flags|]. cbn beta. by rewrite E. }
  destruct (runs_lock_loop 10 forkid offset size c w) as (rs & ret & w' & H & ?).
  exists rs, ret, w'. split; [|done].
  eapply (runs_bind h _ _ _ _ []); [apply runs_extra_flags|]. cbn beta. by rewrite E.
Qed.

Lemma runs_unlocking forkid offset size c w :
  exists rs ret w', runs h (ll_handle_unlocking forkid offset size) c w rs ret w' /\
    Forall is_lock rs.
Proof using Type*.
  unfold ll_handle_unlocking.
  destruct (has (vo_extra_flags (cl_volume c)) VOLUME_EXTRA_FLAGS_NO_LOCKING) eqn:E.
  { exists [], 0, w. split; [|constructor].
    eapply (runs_bind h _ _ _ _ []); [apply runs_extra_flags|]. cbn beta. by rewrite E. }
  destruct (runs_byterangelock ByteRangeLock_Unlock forkid offset size c w)
    as (r & rc & w1 & Hr & Hl & _ & _).
  eexists ([r] ++ []), _, w1. split; [|by apply Forall_singleton].
  eapply (runs_bind h _ _ _ _ []); [apply runs_extra_flags|]. cbn beta. rewrite E.
  eapply (runs_bind h _ _ _ _ [r]); [exact Hr|apply runs_ret].
Qed.

(** ** Writes: the pieces cover the data *)

(** The message of one write. *)
Definition write_message (av forkid offset : Z) (bytes : list Z) : request :=
  let n := Z.of_nat (length bytes) in
  if av <? 30
  then mk_req DSI_DSIWrite 12 ([afpWrite; 0] ++ be_bytes 2 forkid ++ be_bytes 4 offset
         ++ be_bytes 4 n ++ bytes) DSI_DEFAULT_TIMEOUT afpWrite
  else mk_req DSI_DSIWrite 20 ([afpWriteExt; 0] ++ be_bytes 2 forkid ++ be_bytes 8 offset
         ++ be_bytes 8 n ++ bytes) DSI_DEFAULT_TIMEOUT afpWriteExt.

(** Consecutive writes from [offset] on. *)
Fixpoint write_messages (av forkid offset : Z) (pieces : list (list Z)) : list request :=
  match pieces with
  | [] => []
  | bytes :: pieces =>
    write_message av forkid offset bytes
    :: write_messages av forkid (offset + Z.of_nat (length bytes)) pieces
  end.

Lemma runs_write forkid offset bytes rest c w :
  0 <= offset < 2 ^ 64 -> Z.of_nat (length bytes) < 4294967260 ->
  exists rc w', runs h (if sv_av_number (cl_server c) <? 30
      then FPWrite forkid offset (Z.of_nat (length bytes)) (bytes ++ rest)
      else FPWriteExt forkid offset (Z.of_nat (length bytes)) (bytes ++ rest)) c w
    [write_message (sv_av_number (cl_server c)) forkid offset bytes] rc w'.
Proof using Type*.
  intros Ho Hb. unfold write_message.
  assert (forall packet behind, (16 <= length packet)%nat ->
    is_Some (afp_write_reply (packet ++ behind) (Z.of_nat (length packet))) /\
    is_Some (afp_writeext_reply (packet ++ behind) (Z.of_nat (length packet)))) as Htot.
  { intros packet behind Hp. unfold afp_write_reply, afp_writeext_reply, ld64.
    destruct (Z.ltb_spec (Z.of_nat (length packet)) 24); [by split; eexists|].
    rewrite slice_in_range by (rewrite length_app; lia). by split; eexists. }
  set (w1 := (h (list Z) (Memory AFP_MAX_PATH) w).2).
  set (j := (h (list Z) (Memory AFP_MAX_PATH) w).1).
  destruct (write_requests_spec j forkid offset bytes rest Ho Hb) as [H1 H2].
  destruct (sv_av_number (cl_server c) <? 30);
  lazymatch goal with |- context [runs h _ c w [?r] _ _] =>
    exists (an_rc (h answer (Exchange r) w1).1), (h answer (Exchange r) w1).2;
    eapply (runs_bind h _ _ _ _ []); [apply (runs_ask h (Memory AFP_MAX_PATH))|]; cbn beta;
    fold j w1; rewrite ?H1, ?H2;
    eapply (runs_bind h _ _ _ _ []); [apply runs_ret|]; cbn beta;
    eapply (runs_bind h _ _ _ _ [r]); [apply (runs_ask h (Exchange r))|]
  end.
  - edestruct (runs_handle afp_write_reply) as [y Hy]; [intros; by apply Htot|].
    by eapply (runs_bind h _ _ _ _ []).
  - edestruct (runs_handle afp_writeext_reply) as [y Hy]; [intros; by apply Htot|].
    by eapply (runs_bind h _ _ _ _ []).
Qed.

Lemma runs_write_loop fuel forkid offset q pre rest c w :
  0 < q < 4294967260 -> 0 <= offset -> (length rest <= fuel)%nat ->
  offset + Z.of_nat (length pre + length rest) < 2 ^ 64 ->
  exists pieces w', concat pieces = rest /\
    Forall (fun b => 0 < Z.of_nat (length b) <= q) pieces /\
    runs h (write_loop fuel (pre ++ rest) (Z.of_nat (length (pre ++ rest))) offset forkid q
              (Z.of_nat (length pre))) c w
      (write_messages (sv_av_number (cl_server c)) forkid
         (offset + Z.of_nat (length pre)) pieces) (Z.of_nat (length (pre ++ rest))) w'.
Proof using Type*.
  intros Hq Ho. revert pre rest w. induction fuel as [|fuel IH]; intros pre rest w Hf Hb.
  { destruct rest; [|simpl in Hf; lia]. exists [], w. rewrite app_nil_r.
    split_and!; [done|constructor|]. cbn [write_loop]. by rewrite Z.leb_refl. }
  cbn [write_loop]. destruct rest as [|b rest'] eqn:Er.
  { exists [], w. rewrite app_nil_r. split_and!; [done|constructor|]. by rewrite Z.leb_refl. }
  rewrite <- Er in *. assert (0 < length rest)%nat as Hr by (subst; simpl; lia). clear Er.
  rewrite (proj2 (Z.leb_gt _ _)) by (rewrite length_app; lia).
  set (n := if Z.of_nat (length (pre ++ rest)) - Z.of_nat (length pre) <? q
            then Z.of_nat (length (pre ++ rest)) - Z.of_nat (length pre) else q).
  assert (0 < n <= q /\ n <= Z.of_nat (length rest)) as Hn.
  { unfold n. rewrite length_app.
    destruct (Z.ltb_spec (Z.of_nat (length pre + length rest) - Z.of_nat (length pre)) q); lia. }
  clearbody n. set (bytes := take (Z.to_nat n) rest). set (rest2 := drop (Z.to_nat n) rest).
  assert (rest = bytes ++ rest2) as Hsplit by (symmetry; apply take_drop).
  assert (Z.of_nat (length bytes) = n) as Hlb by (unfold bytes; rewrite length_take; lia).
  assert (length rest = length bytes + length rest2)%nat as Hlr by (rewrite Hsplit; apply length_app).
  destruct (runs_write forkid (offset + Z.of_nat (length pre)) bytes rest2 c w) as (rc & w1 & H1);
    [lia|lia|].
  destruct (IH (pre ++ bytes) rest2 w1) as (pieces & w2 & Hc & Hp & H2);
    [lia|rewrite length_app; lia|].
  exists (bytes :: pieces), w2. split_and!.
  - simpl. by rewrite Hc.
  - constructor; [lia|done].
  - eapply (runs_bind h _ _ _ _ []); [apply runs_version|]. cbn beta. rewrite Nat2Z.id, drop_app_length.
    rewrite <- Hsplit, Hlb in H1. cbn [write_messages].
    eapply (runs_bind h _ _ _ _ [_]); [exact H1|].
    rewrite <- app_assoc, <- Hsplit, (length_app pre bytes) in H2.
    replace (offset + Z.of_nat (length pre) + Z.of_nat (length bytes))
      with (offset + Z.of_nat (length pre + length bytes)) by lia.
    replace (Z.of_nat (length pre) + n) with (Z.of_nat (length pre + length bytes)) by lia.
    exact H2.
Qed.

Lemma runs_lock_refused n forkid offset size c w :
  (forall r w, an_rc (h answer (Exchange r) w).1 = kFPLockErr) ->
  exists rs w', runs h (lock_loop n forkid offset size) c w rs 0 w' /\ length rs = n.
Proof using Type*.
  intros Hh. revert w. induction n as [|n IH]; intros w; cbn [lock_loop].
  { exists [], w. split; [apply runs_ret|done]. }
  destruct (runs_byterangelock ByteRangeLock_Lock forkid offset size c w)
    as (r & rc & w1 & Hr & _ & Hrc & _).
  destruct (IH (h unit (Sleep 1) w1).2) as (rs & w2 & Hrs & Hn).
  exists ([r] ++ [] ++ rs), w2. split; [|simpl; lia].
  eapply runs_bind; [exact Hr|]. cbn beta. rewrite Hrc, Hh.
  eapply (runs_bind h _ _ _ _ []); [apply (runs_ask h (Sleep 1))|done].
Qed.


(** A lock that the server refuses ten times in a row is taken to be held:
    [ll_handle_locking] returns 0. *)
Theorem refused_lock_held forkid offset size c w :
  (forall r w, an_rc (h answer (Exchange r) w).1 = kFPLockErr) ->
  has (vo_extra_flags (cl_volume c)) VOLUME_EXTRA_FLAGS_NO_LOCKING = false ->
  exists rs w', run h (ll_handle_locking forkid offset size c) w = (rs, Done (0, c), w') /\
    length rs = 10%nat.
Proof using Type*.
  intros Hh E. destruct (runs_lock_refused 10 forkid offset size c w Hh) as (rs & w' & H & Hn).
  exists rs, w'. split; [|done]. unfold ll_handle_locking.
  eapply (runs_bind h _ _ _ _ []); [apply runs_extra_flags|]. cbn beta. by rewrite E.
Qed.

End locks.

(** ** Listings: the batches make up the directory *)

Lemma enumerate_request_spec junk server fixed name command :
  known_encoding server -> (length name <= path_limit server)%nat ->
  Z.of_nat (length fixed) < 1000 ->
  enumerate_request junk server fixed name command =
    Some (afp_call (fixed ++ path_field server name) command).
Proof.
  intros Hk Hn Hf. unfold enumerate_request. destruct (path_len_nat server name) as [Hp Hp0].
  assert (path_len server name < 1000) as Hpl.
  { unfold path_len, sizeof_path_header. unfold path_limit in Hn. repeat case_match; lia. }
  rewrite u16_small by lia.
  replace (path_len server name + 16 + Z.of_nat (length fixed) - 16)
    with (Z.of_nat (length fixed) + path_len server name) by lia.
  destruct (blit_malloc junk (Z.of_nat (length fixed) + path_len server name) fixed)
    as (rest & -> & Hr); [lia|lia|]. cbn [mbind option_bind].
  rewrite <- (app_nil_r rest), put_path_spec; [|done|done|lia].
  cbn [mbind option_bind]. by rewrite app_nil_r.
Qed.

Section listing.
Context (s0 : afp_server) (v0 : afp_volume) (dirid fb db : Z) (basename : list Z).
Context (es : list entry).

Definition enumerate_message (startindex : Z) : request :=
  afp_call ([afpEnumerateExt2; 0] ++ be_bytes 2 (vo_volid v0) ++ be_bytes 4 dirid
    ++ be_bytes 2 fb ++ be_bytes 2 db ++ be_bytes 2 20 ++ be_bytes 4 startindex
    ++ be_bytes 4 5280 ++ path_field s0 basename) afpEnumerateExt2.

(** A directory with the entries [es]: the server answers a request for those from the
    [i]-th on with at least one of them, and kFPObjectNotFound when there are no more. *)
Definition listing_server : contract :=
  {| guarantee := fun _ => True;
     rely := fun X e =>
       match e in env X return X -> Prop with
       | Exchange r => fun a =>
         forall i : nat, Z.of_nat i + 1 < 4294967296 ->
         r = enumerate_message (Z.of_nat i + 1) ->
         ((i < length es)%nat -> an_rc a = 0 /\ exists n id behind, (0 < n)%nat /\
            an_packet a = Some (encode_listing id fb db (take n (drop i es)), behind)) /\
         ((length es <= i)%nat -> an_rc a = kFPObjectNotFound /\ exists id behind,
            an_packet a = Some (wire_header DSI_REPLY DSI_DSICommand id kFPObjectNotFound 0,
                                behind))
       | _ => fun _ => True
       end;
     may_crash := False; may_starve := False |}.

Context (Hk : known_encoding s0) (Hn : (length basename <= path_limit s0)%nat).
Context (Hfb : 0 <= fb < 65536) (Hdb : 0 <= db < 65536).
Context (Hes : Forall (entry_ok fb db) es) (Hlen : Z.of_nat (length es) < 65536).

Lemma enumerate_batch c i (Q : Z * list afp_file_info -> client -> Prop) :
  cl_server c = s0 -> cl_volume c = v0 -> Z.of_nat i < 65536 ->
  ((i < length es)%nat -> forall n, (0 < n)%nat ->
     Q (0, entry_result fb db <$> take n (drop i es)) c) ->
  ((length es <= i)%nat -> Q (kFPObjectNotFound, []) c) ->
  hoare listing_server c (FPEnumerateExt2 dirid fb db 20 (Z.of_nat i + 1) basename) Q.
Proof using Hk Hn Hfb Hdb Hes Hlen.
  intros Hs Hv Hi0 HQ1 HQ2. unfold FPEnumerateExt2.
  apply hoare_bind, hoare_ask; [constructor|]. intros j _.
  apply hoare_bind, hoare_bind, hoare_get, hoare_ret. rewrite Hs.
  apply hoare_bind, hoare_bind, hoare_get, hoare_ret. rewrite Hv.
  apply hoare_bind. unfold afp_enumerateext2. rewrite enumerate_request_spec by (done || solve_len).
  cbn [lift]. apply hoare_ret, hoare_bind, hoare_ask; [by constructor|].
  intros a Ha. cbn [rely listing_server] in Ha. destruct (Ha i) as [H1 H2]; [lia| |].
  { unfold enumerate_message. rewrite !st16_htons, !st32_htonl, <- !app_assoc. done. }
  apply hoare_bind. unfold listing, handle. apply hoare_bind.
  destruct (decide (i < length es)%nat) as [Hi|Hi].
  - destruct (H1 Hi) as (Hrc & n & id & behind & Hn0 & ->). apply hoare_bind.
    rewrite listing_parsed; try done.
    + cbn [lift]. apply hoare_ret, hoare_ret, hoare_ret, hoare_ret. rewrite Hrc. by apply HQ1.
    + rewrite length_take, length_drop. lia.
    + unfold encode_listing. rewrite length_app, length_wire_header. solve_len.
    + by apply Forall_take, Forall_drop.
  - destruct (H2 ltac:(lia)) as (Hrc & id & behind & ->). apply hoare_bind.
    unfold afp_enumerateext2_reply.
    destruct (raw_error_refused DSI_REPLY DSI_DSICommand id kFPObjectNotFound 0 behind)
      as (e & He & ->); [done|]. cbn [mbind option_bind].
    rewrite (proj2 (Z.eqb_neq e 0) He). cbn [negb lift].
    apply hoare_ret, hoare_ret, hoare_ret, hoare_ret. rewrite Hrc. apply HQ2. lia.
Qed.

Lemma readdir_loop_ok fuel c i :
  cl_server c = s0 -> cl_volume c = v0 -> 30 <= sv_av_number s0 ->
  (i <= length es)%nat -> (length es - i < fuel)%nat ->
  hoare listing_server c
    (readdir_loop fuel dirid fb db (Z.of_nat i + 1) basename (entry_result fb db <$> take i es))
    (fun r c' => r = (0, entry_result fb db <$> es) /\ c' = c).
Proof using Hk Hn Hfb Hdb Hes Hlen.
  intros Hs Hv Hav. revert i. induction fuel as [|fuel IH]; intros i Hi Hf; [lia|].
  cbn [readdir_loop]. apply hoare_bind, hoare_bind, hoare_bind, hoare_get, hoare_ret, hoare_ret.
  rewrite Hs, (proj2 (Z.ltb_ge _ _)) by done.
  apply hoare_bind, enumerate_batch; try done; [lia|..].
  - intros Hi' n Hn0. change ((0 =? 0) || _) with true. cbv iota.
    change (0 =? kFPObjectNotFound) with false. cbv iota.
    rewrite <- fmap_app, take_take_drop, length_fmap, length_take, length_drop.
    destruct (decide (i + n <= length es)%nat) as [Hle|Hle].
    + replace (Z.of_nat i + 1 + Z.of_nat (n `min` (length es - i)))
        with (Z.of_nat (i + n) + 1) by lia. apply IH; lia.
    + replace (Z.of_nat i + 1 + Z.of_nat (n `min` (length es - i)))
        with (Z.of_nat (length es) + 1) by lia.
      rewrite (take_ge es (i + n)) by lia. rewrite <- (firstn_all es) at 2. apply IH; lia.
  - intros Hi'. change ((kFPObjectNotFound =? 0) || _) with true. cbv iota.
    change (kFPObjectNotFound =? kFPObjectNotFound) with true. cbv iota.
    apply hoare_ret. rewrite app_nil_r, take_ge by lia. done.
Qed.

End listing.

(** C11: the loop of [ll_readdir] collects a directory completely and in order,
    however many entries the server puts into each batch, and ends after at most one
    request per entry and one more. *)
Theorem readdir_collects {W} (h : handler W) (I : W -> Prop) w c dirid fb db basename es fuel :
  keeps (listing_server (cl_server c) (cl_volume c) dirid fb db basename es) h I -> I w ->
  known_encoding (cl_server c) -> (length basename <= path_limit (cl_server c))%nat ->
  0 <= fb < 65536 -> 0 <= db < 65536 -> Forall (entry_ok fb db) es ->
  Z.of_nat (length es) < 65536 -> 30 <= sv_av_number (cl_server c) -> (length es < fuel)%nat ->
  (run h (readdir_loop fuel dirid fb db 1 basename [] c) w).1.2 =
    Done (0, entry_result fb db <$> es, c).
Proof.
  intros Hh Hw Hk Hn Hfb Hdb Hes Hlen Hav Hf.
  destruct (wp_run _ h I _ _ w Hh Hw (readdir_loop_ok (cl_server c) (cl_volume c) dirid fb db
    basename es Hk Hn Hfb Hdb Hes Hlen fuel c 0 eq_refl eq_refl Hav ltac:(lia) ltac:(lia)))
    as (_ & Ha & _).
  change (Z.of_nat 0 + 1) with 1 in Ha. change (entry_result fb db <$> take 0 es) with
    (@nil afp_file_info) in Ha.
  destruct (run h _ w) as [[rs o] w']. cbn in Ha |- *.
  destruct o as [[r c']| |]; [|done|done]. destruct Ha as [Hr Hc]. cbn in *. by subst.
Qed.

(** ** Examples *)

#[export] Instance serving_transport {W} (f : request -> W -> answer * W) :
  (forall r w packet behind, an_packet (f r w).1 = Some (packet, behind) ->
     (16 <= length packet)%nat) -> Transport (serving f).
Proof. intros Hf r w. apply Hf. Defined.

Definition always (a : answer) : handler unit := serving (fun _ w => (a, w)).

Lemma refused_transport rc : Transport (always (refused rc)).
Proof. apply serving_transport. intros r w packet behind [= <- _]. vm_compute. lia. Qed.

(** A server with a quantum of 3 bytes. *)
Definition small_client : client :=
  mk_client (set_sv_tx_quantum 3 utf8_server) sample_volume [] 0 0 0 0 [].


Lemma refused_lock_held_witness :
  exists rs w', run (always (refused kFPLockErr)) (ll_handle_locking 5 0 100 small_client) tt =
      (rs, Done (0, small_client), w') /\ length rs = 10%nat.
Proof.
  apply (refused_lock_held (always (refused kFPLockErr))
           (Transport0 := refused_transport kFPLockErr)); [|reflexivity].
  intros r w. reflexivity.
Defined.

Definition listing_answer (r : request) : answer :=
  let message := enumerate_message utf8_server sample_volume 2 0x8100 0x9300 [97] in
  if decide (r = message 1) then accepted (encode_listing 9 0x8100 0x9300 (take 1 sample_listing))
  else if decide (r = message 2)
  then accepted (encode_listing 9 0x8100 0x9300 (take 1 (drop 1 sample_listing)))
  else refused kFPObjectNotFound.

Lemma enumerate_message_inj s v did fb db name i j :
  0 <= i < 4294967296 -> 0 <= j < 4294967296 ->
  enumerate_message s v did fb db name i = enumerate_message s v did fb db name j -> i = j.
Proof.
  intros Hi Hj H. apply (f_equal rq_body) in H. unfold enumerate_message, afp_call in H.
  cbn [rq_body] in H. rewrite !app_assoc in H. do 2 apply app_inv_tail in H.
  rewrite <- !app_assoc in H.
  repeat (apply app_inv_head in H). apply (f_equal be_val) in H. rewrite !be_val_bytes in H.
  change (256 ^ Z.of_nat 4) with 4294967296 in H. by rewrite !Z.mod_small in H by done.
Qed.

Lemma listing_keeps :
  keeps (listing_server utf8_server sample_volume 2 0x8100 0x9300 [97] sample_listing)
    (serving (fun r (w : unit) => (listing_answer r, w))) (fun _ => True).
Proof.
  intros X e w _ _. split; [|done]. destruct e; cbn [rely listing_server serving fst]; try done.
  intros i Hi ->. unfold listing_answer. case_decide as H1.
  { apply enumerate_message_inj in H1; [|lia|lia]. assert (i = 0)%nat as -> by lia.
    split; [|simpl; lia]. intros _. split; [done|]. exists 1%nat, 9, []. split; [lia|done]. }
  case_decide as H2.
  { apply enumerate_message_inj in H2; [|lia|lia]. assert (i = 1)%nat as -> by lia.
    split; [|simpl; lia]. intros _. split; [done|]. exists 1%nat, 9, []. split; [lia|done]. }
  destruct i as [|[|i]]; [done|done|]. split; [simpl; lia|]. intros _. split; [done|].
  by exists 9, [].
Qed.

Lemma readdir_collects_witness :
  (run (serving (fun r (w : unit) => (listing_answer r, w)))
     (readdir_loop 3 2 0x8100 0x9300 1 [97] [] sample_client) tt).1.2 =
    Done (0, entry_result 0x8100 0x9300 <$> sample_listing, sample_client).
Proof.
  apply (readdir_collects _ (fun _ => True) tt sample_client 2 0x8100 0x9300 [97] sample_listing
           3 listing_keeps I).
  - by left.
  - vm_compute; lia.
  - done.
  - done.
  - exact sample_listing_ok.
  - done.
  - done.
  - simpl; lia.
Defined.

End Lowlevel.
