(* ===== verification/Create.v ===== *)
(** * Creating and opening files

    The AppleDouble view of paths ([extra_translate] of lib/resource.c), Unix
    privileges and [ml_creat] of lib/midlevel.c, [ll_open] of lib/lowlevel.c and the
    list of open forks of lib/forklist.c. *)

From S2P Require Import Prelude Constants Types Utils Codepage Dsi ReplyBlock ProtoFiles.
From S2P Require Import ProtoVolume Client Calls Did Users Lowlevel.

Module Create.
Import Utils Codepage Dsi ReplyBlock ProtoFiles ProtoVolume Client Calls Did Users Lowlevel.

(** ** Open forks *)

(** [p] is the address of the [struct afp_file_info]. *)
Definition add_opened_fork (p : Z) : M unit := modify (fun c => set_forks (p :: cl_forks c) c).

Fixpoint unlink_fork (p : Z) (l : list Z) : list Z :=
  match l with
  | [] => []
  | x :: l => if x =? p then l else x :: unlink_fork p l
  end.

Definition remove_opened_fork (p : Z) : M unit :=
  modify (fun c => set_forks (unlink_fork p (cl_forks c)) c).

(** [forkid_of] gives the fork of an entry. *)
Fixpoint close_forks (forkid_of : Z -> Z) (l : list Z) : M unit :=
  match l with
  | [] => mret tt
  | p :: l =>
    FPFlushFork (forkid_of p);; FPCloseFork (forkid_of p);;
    modify (set_forks l);; ask (Free p);; close_forks forkid_of l
  end.

Definition remove_fork_list (forkid_of : Z -> Z) : M unit :=
  c ← get; close_forks forkid_of (cl_forks c).

(** ** AppleDouble paths *)

Definition AFP_META_NONE : Z := 0.
Definition AFP_META_RESOURCE : Z := 1.
Definition AFP_META_APPLEDOUBLE : Z := 2.
Definition AFP_META_FINDERINFO : Z := 3.
Definition AFP_META_COMMENT : Z := 4.
Definition AFP_META_SERVER_ICON : Z := 5.

(** ".AppleDouble", ".finderinfo", ".comment" and "/.servericon". *)
Definition appledouble : list Z := [46; 65; 112; 112; 108; 101; 68; 111; 117; 98; 108; 101].
Definition finderinfo_string : list Z := [46; 102; 105; 110; 100; 101; 114; 105; 110; 102; 111].
Definition comment_string : list Z := [46; 99; 111; 109; 109; 101; 110; 116].
Definition servericon_string : list Z :=
  [47; 46; 115; 101; 114; 118; 101; 114; 105; 99; 111; 110].

(** The string without a suffix it is longer than. *)
Definition cut_suffix (suffix s : list Z) : option (list Z) :=
  let n := (length s - length suffix)%nat in
  if decide (length suffix < length s)%nat
  then if bytes_eqb (drop n s) suffix then Some (take n s) else None
  else None.

(** The kind of the object and the path it belongs to; [None] outside is a read
    behind the end of the path. *)
Definition extra_translate_path (path : list Z) : option (Z * list Z) :=
  if bytes_eqb path servericon_string then Some (AFP_META_SERVER_ICON, [])
  else if decide (length path < length appledouble + 1)%nat then Some (AFP_META_NONE, [])
  else
    match last_index_of slash path with
    | None => Some (AFP_META_NONE, [])
    | Some p =>
      if bytes_eqb (drop (S p) path) appledouble then
        Some (AFP_META_APPLEDOUBLE,
              if decide (length path = length appledouble + 1)%nat then [slash]
              else take (length path - (length appledouble + 1)) path)
      else
        match strstr path appledouble with
        | None => Some (AFP_META_NONE, [])
        | Some p =>
          let q := (p + length appledouble)%nat in
          if decide (q = length path) then None
          else
            let newpath := take p path ++ drop (S q) path in
            Some (match cut_suffix finderinfo_string newpath with
                  | Some newpath => (AFP_META_FINDERINFO, newpath)
                  | None =>
                    match cut_suffix comment_string newpath with
                    | Some newpath => (AFP_META_COMMENT, newpath)
                    | None => (AFP_META_RESOURCE, newpath)
                    end
                  end)
        end
    end.

Definition extra_translate (path : list Z) : M (Z * list Z) :=
  flags ← extra_flags;
  if negb (has flags VOLUME_EXTRA_FLAGS_SHOW_APPLEDOUBLE) then mret (AFP_META_NONE, [])
  else lift (extra_translate_path path).

(** 0 to go on with the plain path, 1 when everything is done, or an error. *)
Definition appledouble_creat (path : list Z) : M Z :=
  '(resource, _) ← extra_translate path;
  mret (switch resource
    [([AFP_META_RESOURCE], 1); ([AFP_META_APPLEDOUBLE], - EBADF);
     ([AFP_META_SERVER_ICON], - EPERM); ([AFP_META_FINDERINFO], 1)] 0).

(** ** Paths of the caller *)

(** [convert_path_to_afp] of a C string into an array of [AFP_MAX_PATH] bytes: [None]
    is a failure, otherwise the string in the array.  With long names the conversion
    copies what lies behind the string as well. *)
Definition to_afp (path : list Z) : M (option (list Z)) :=
  s ← server;
  behind ← ask (Memory AFP_MAX_PATH);
  '(dest, ret) ← lift (convert_path_to_afp (sv_path_encoding s) (replicate 768 0)
                         (path ++ [0] ++ behind) 768);
  if negb (ret =? 0) then mret None else converted ← lift (cstr dest); mret (Some converted).

(** [get_dirid] of a caller that does not look at its return value: without a slash
    in the path the base name is not set. *)
Definition parent_of (path : list Z) : M (list Z * Z) :=
  '(ret, r) ← get_dirid path; if ret <? 0 then crash else mret r.

(** ** Unix privileges *)

Definition AFP_CHMOD_ALLOWED_BITS_22 : Z := 0x81b6.
Definition TOCHECK_BITS : Z := 0x1ff.

Definition get_unixprivs (dirid : Z) (path : list Z) (fp : afp_file_info)
    : M (Z * afp_file_info) :=
  '(rc, fp) ← ll_get_directory_entry path dirid kFPUnixPrivsBit kFPUnixPrivsBit fp;
  mret (switch rc [([kFPAccessDenied], - EACCES); ([kFPObjectNotFound], - ENOENT);
                   ([kFPNoErr], 0)] (- EIO), fp).

Definition set_ua_permissions (x : Z) (fp : afp_file_info) : afp_file_info :=
  set_fi_unixprivs (set_up_ua_permissions x (fi_unixprivs fp)) fp.

Definition update_extra_flags (f : Z -> Z) : M unit :=
  modify (fun c => set_volume (set_vo_extra_flags (f (vo_extra_flags (cl_volume c)))
                                 (cl_volume c)) c).

(** [x & ~(AFP_CHMOD_ALLOWED_BITS_22)] as a condition. *)
Definition other_bits (x : Z) : bool := negb (Z.ldiff x AFP_CHMOD_ALLOWED_BITS_22 =? 0).

(** The return value; [fp] is the caller's and is not used by it afterwards. *)
Definition set_unixprivs (dirid : Z) (basename : list Z) (fp : afp_file_info) : M Z :=
  let fp := set_ua_permissions 0 fp in
  v ← volume; s ← server;
  let flags := vo_extra_flags v in
  let netatalk := sv_server_type s =? AFPFS_SERVER_TYPE_NETATALK in
  if negb (has flags VOLUME_EXTRA_FLAGS_VOL_SUPPORTS_UNIX) then mret 0
  else
    let perms := up_permissions (fi_unixprivs fp) in
    let fp :=
      if (fi_isdir fp =? 0) && other_bits perms && netatalk
         && has flags VOLUME_EXTRA_FLAGS_VOL_CHMOD_KNOWN
         && has flags VOLUME_EXTRA_FLAGS_VOL_CHMOD_BROKEN
      then set_permissions (Z.land perms AFP_CHMOD_ALLOWED_BITS_22) fp else fp in
    rc ← (if negb (fi_isdir fp =? 0) then FPSetDirParms dirid basename kFPUnixPrivsBit fp
          else FPSetFileDirParms dirid basename kFPUnixPrivsBit fp);
    let ret := switch rc [([kFPAccessDenied], EPERM); ([kFPBitmapErr], ENOSYS);
                          ([kFPObjectNotFound], ENOENT); ([0], 0)] EIO in
    let perms := up_permissions (fi_unixprivs fp) in
    if other_bits perms && negb (has flags VOLUME_EXTRA_FLAGS_VOL_CHMOD_KNOWN) && netatalk then
      fp2 ← ask Uninitialised;
      '(rc2, fp2) ← get_unixprivs dirid basename fp2;
      if negb (rc2 =? 0) then mret rc2
      else
        update_extra_flags (fun f => Z.lor f VOLUME_EXTRA_FLAGS_VOL_CHMOD_KNOWN);;
        if Z.land (up_permissions (fi_unixprivs fp2)) TOCHECK_BITS =? Z.land perms TOCHECK_BITS
        then
          update_extra_flags (fun f => Z.ldiff f VOLUME_EXTRA_FLAGS_VOL_CHMOD_BROKEN);;
          mret (- ret)
        else
          update_extra_flags (fun f => Z.lor f VOLUME_EXTRA_FLAGS_VOL_CHMOD_BROKEN);;
          mret (- EFAULT)
    else mret (- ret).

(** ** Creating a file *)

(** When the privileges of the new file cannot be read, the return value is that of
    the creation. *)
Definition ml_creat (path : list Z) (mode : Z) : M Z :=
  converted ← to_afp path;
  match converted with
  | None => mret (- EINVAL)
  | Some converted_path =>
    ro ← volume_is_readonly;
    if ro : bool then mret (- EACCES)
    else
      ret ← appledouble_creat path;
      if ret <? 0 then mret ret else if ret =? 1 then mret 0
      else
        toolong ← name_too_long converted_path;
        if toolong : bool then mret (- ENAMETOOLONG)
        else
          '(basename, dirid) ← parent_of converted_path;
          rc ← FPCreateFile kFPSoftCreate dirid basename;
          let ret := switch rc [([kFPAccessDenied], EACCES); ([kFPDiskFull], ENOSPC);
                                ([kFPObjectExists], EEXIST); ([kFPObjectNotFound], ENOENT);
                                ([kFPFileBusy; kFPVolLocked], EBUSY); ([kFPNoErr], 0)] EIO in
          if negb (ret =? 0) then mret (- ret)
          else
            flags ← extra_flags;
            if negb (has flags VOLUME_EXTRA_FLAGS_VOL_SUPPORTS_UNIX) then mret 0
            else
              fp ← ask Uninitialised;
              '(ret, fp) ← get_unixprivs dirid basename fp;
              if negb (ret =? 0) then mret rc
              else if up_permissions (fi_unixprivs fp) =? mode then mret 0
              else
                let fp := set_fi_isdir 0 (set_permissions mode (set_ua_permissions 0 fp)) in
                rc ← set_unixprivs dirid basename fp;
                mret (switch rc [([kFPAccessDenied], - EPERM); ([kFPObjectNotFound], - ENOENT);
                                 ([0], 0)] (- EIO))
  end.

(** ** Opening a fork *)

Definition O_SYNC : Z := 0x101000.
Definition O_DIRECT : Z := 0x4000.
Definition O_LARGEFILE : Z := 0x8000.

Definition open_aflags (flags : Z) : Z :=
  let aflags := AFP_OPENFORK_ALLOWREAD in
  let aflags := lor_if (has flags O_RDONLY) aflags AFP_OPENFORK_ALLOWREAD in
  let aflags := lor_if (has flags O_WRONLY) aflags AFP_OPENFORK_ALLOWWRITE in
  lor_if (has flags O_RDWR) aflags (Z.lor AFP_OPENFORK_ALLOWREAD AFP_OPENFORK_ALLOWWRITE).

(** From [try_again] to the end of the [switch]: a positive [errno], or 0 with the fork
    open. *)
Fixpoint open_loop (fuel : nat) (path : list Z) (flags aflags : Z) (fp : afp_file_info)
    : M (Z * afp_file_info) :=
  match fuel with
  | O => out_of_fuel
  | S fuel =>
    basename ← lift (cstr (fi_basename fp));
    '(dsi_ret, fp) ← FPOpenFork (if fi_resource fp =? 0 then 0 else 1) (fi_did fp) aflags
                       basename fp;
    if dsi_ret =? kFPObjectNotFound then
      if has flags O_CREAT then
        ret ← ml_creat path 0x1a4;
        if ret =? 0 then open_loop fuel path flags aflags fp else mret (ENOENT, fp)
      else mret (ENOENT, fp)
    else
      mret (switch dsi_ret
        [([kFPAccessDenied], EACCES); ([kFPObjectLocked], EROFS); ([kFPObjectTypeErr], EISDIR);
         ([kFPParamErr], EACCES); ([kFPTooManyFilesOpen], EMFILE); ([0], 0)] EFAULT, fp)
  end.

(** [p] is the address of [fp].  [create_file] is always 0, so no file is created before
    [try_again]; the test for a read-only volume is a bitwise "and" of 2 and 1. *)
Definition ll_open (fuel : nat) (path : list Z) (flags p : Z) (fp : afp_file_info)
    : M (Z * afp_file_info) :=
  let aflags := open_aflags flags in
  ro ← volume_is_readonly;
  if negb (Z.land (Z.land aflags AFP_OPENFORK_ALLOWWRITE) (if ro : bool then 1 else 0) =? 0)
  then mret (- EPERM, fp)
  else
    let fp := set_fi_sync (u8 (Z.land flags (Z.lor O_SYNC O_DIRECT))) fp in
    av ← version;
    '(ret, fp) ←
      (if has flags O_LARGEFILE && (av <? 30) then
         basename ← lift (cstr (fi_basename fp));
         '(rc, fp) ← ll_get_directory_entry basename (fi_did fp)
             (Z.lor kFPParentDirIDBit (Z.lor kFPNodeIDBit
                (if fi_resource fp =? 0 then kFPDataForkLenBit else kFPRsrcForkLenBit))) 0 fp;
         let size := if fi_resource fp =? 0 then fi_size fp else fi_resourcesize fp in
         mret (switch rc
           [([kFPAccessDenied], EACCES); ([kFPObjectNotFound], ENOENT);
            ([kFPNoErr], if AFP_MAX_AFP2_FILESIZE - 1 <=? size then EOVERFLOW else 0)] EIO, fp)
       else mret (0, fp));
    if negb (ret =? 0) then mret (- ret, fp)
    else
      '(ret, fp) ← open_loop fuel path flags aflags fp;
      if negb (ret =? 0) then mret (- ret, fp)
      else
        add_opened_fork p;;
        if has flags O_TRUNC then
          ret ← ll_zero_file (fi_forkid fp) (fi_resource fp);
          mret (- ret, fp)
        else mret (0, fp).

(** ** AppleDouble paths: what they stand for *)

Lemma appledouble_no_slash : slash ∉ appledouble.
Proof. by apply (bool_decide_unpack (slash ∉ appledouble)). Qed.

Lemma cut_suffix_app s suffix : s <> [] -> cut_suffix suffix (s ++ suffix) = Some s.
Proof.
  intros Hs. assert (0 < length s)%nat by (destruct s; simpl; [done|lia]).
  unfold cut_suffix. rewrite length_app. rewrite decide_True by lia.
  replace (length s + length suffix - length suffix)%nat with (length s) by lia.
  rewrite drop_app_length, take_app_length. unfold bytes_eqb. by rewrite bool_decide_eq_true_2.
Qed.

Lemma cut_suffix_last s suffix x y :
  last s = Some x -> last suffix = Some y -> x <> y -> cut_suffix suffix s = None.
Proof.
  intros Hs Hf Hxy. unfold cut_suffix, bytes_eqb. case_decide; [|done].
  case_bool_decide as E; [|done]. exfalso. apply Hxy.
  apply (f_equal last) in E. rewrite Hf in E.
  rewrite <- (take_drop (length s - length suffix) s), last_app, E in Hs. by simplify_eq.
Qed.

(** The path of an AppleDouble file without suffix tests. *)
Lemma translate_below d name :
  strstr d appledouble = None -> slash ∉ name -> name <> appledouble ->
  let newpath := d ++ [slash] ++ name in
  extra_translate_path (d ++ [slash] ++ appledouble ++ [slash] ++ name) =
    Some (match cut_suffix finderinfo_string newpath with
          | Some newpath => (AFP_META_FINDERINFO, newpath)
          | None =>
            match cut_suffix comment_string newpath with
            | Some newpath => (AFP_META_COMMENT, newpath)
            | None => (AFP_META_RESOURCE, newpath)
            end
          end).
Proof.
  intros Hd Hn Hne newpath. unfold extra_translate_path.
  set (path := d ++ [slash] ++ appledouble ++ [slash] ++ name).
  assert (length path = length d + 14 + length name)%nat as Hl by (unfold path; solve_len).
  unfold bytes_eqb at 1. rewrite bool_decide_eq_false_2
    by (intros E; apply (f_equal length) in E; simpl in E; lia).
  rewrite decide_False by (simpl; lia).
  assert (path = (d ++ slash :: appledouble) ++ slash :: name) as Hp
    by (unfold path; by rewrite <- app_assoc).
  rewrite Hp at 1. rewrite last_index_of_app by done.
  assert (drop (S (length (d ++ slash :: appledouble))) path = name) as ->.
  { rewrite Hp. change (slash :: name) with ([slash] ++ name). rewrite app_assoc.
    apply drop_app_length'. solve_len. }
  unfold bytes_eqb at 1. rewrite bool_decide_eq_false_2 by done.
  assert (strstr path appledouble = Some (S (length d))) as ->.
  { unfold path. cbn [app]. rewrite strstr_skip by (done || apply appledouble_no_slash).
    cbn [strstr app appledouble]. rewrite bool_decide_eq_true_2.
    - cbn [fmap option_fmap option_map]. f_equal. lia.
    - by exists (slash :: name). }
  rewrite decide_False by (simpl; lia).
  assert (take (S (length d)) path ++ drop (S (S (length d) + length appledouble)) path = newpath)
    as -> .
  { unfold newpath. rewrite app_assoc. f_equal.
    - unfold path. rewrite app_assoc. apply take_app_length'. solve_len.
    - rewrite Hp. change (slash :: name) with ([slash] ++ name). rewrite app_assoc.
      apply drop_app_length'. solve_len. }
  done.
Qed.

(** The files of the AppleDouble view stand for the parts of the file beside
    it: below "dir/.AppleDouble", "name.finderinfo" is the Finder info, "name.comment"
    the comment and any other name the resource fork of "dir/name", and
    "dir/.AppleDouble" itself is the view of "dir". *)
Theorem appledouble_paths d name :
  strstr d appledouble = None -> slash ∉ name ->
  extra_translate_path (d ++ [slash] ++ appledouble ++ [slash] ++ name ++ finderinfo_string) =
    Some (AFP_META_FINDERINFO, d ++ [slash] ++ name) /\
  extra_translate_path (d ++ [slash] ++ appledouble ++ [slash] ++ name ++ comment_string) =
    Some (AFP_META_COMMENT, d ++ [slash] ++ name) /\
  (name <> appledouble -> cut_suffix finderinfo_string (d ++ [slash] ++ name) = None ->
   cut_suffix comment_string (d ++ [slash] ++ name) = None ->
   extra_translate_path (d ++ [slash] ++ appledouble ++ [slash] ++ name) =
     Some (AFP_META_RESOURCE, d ++ [slash] ++ name)) /\
  (d <> [] -> extra_translate_path (d ++ [slash] ++ appledouble) =
     Some (AFP_META_APPLEDOUBLE, d)).
Proof.
  intros Hd Hn.
  assert (forall suffix, d ++ [slash] ++ name ++ suffix = (d ++ [slash] ++ name) ++ suffix)
    as Ha by (intros; by rewrite <- !app_assoc).
  assert (d ++ [slash] ++ name <> []) as Hne by (by destruct d).
  assert (forall suffix x, last suffix = Some x -> x <> 101 -> name ++ suffix <> appledouble)
    as Hsuf.
  { intros suffix x Hx H E. apply (f_equal last) in E. rewrite last_app, Hx in E.
    injection E as E. done. }
  split_and!.
  - rewrite translate_below; [|done| |by apply (Hsuf _ 111)].
    + by rewrite Ha, cut_suffix_app.
    + rewrite not_elem_of_app. split; [done|]. by apply (bool_decide_unpack (_ ∉ _)).
  - rewrite translate_below; [|done| |by apply (Hsuf _ 116)].
    + rewrite Ha. rewrite (cut_suffix_last _ finderinfo_string 116 111), cut_suffix_app; try done.
      by rewrite last_app.
    + rewrite not_elem_of_app. split; [done|]. by apply (bool_decide_unpack (_ ∉ _)).
  - intros H1 H2 H3. rewrite translate_below by done. by rewrite H2, H3.
  - intros H1. assert (0 < length d)%nat by (destruct d; simpl; [done|lia]).
    unfold extra_translate_path, bytes_eqb at 1.
    assert (length (d ++ [slash] ++ appledouble) = length d + 13)%nat as Hl by solve_len.
    rewrite bool_decide_eq_false_2 by (intros E; apply (f_equal length) in E; simpl in *; lia).
    rewrite decide_False by (simpl in *; lia).
    rewrite (last_index_of_app slash d appledouble appledouble_no_slash
      : last_index_of slash (d ++ [slash] ++ appledouble) = _).
    assert (drop (S (length d)) (d ++ [slash] ++ appledouble) = appledouble) as ->
      by (rewrite app_assoc; apply drop_app_length'; solve_len).
    unfold bytes_eqb. rewrite bool_decide_eq_true_2 by done. rewrite decide_False by (simpl in *; lia).
    rewrite Hl. replace (length d + 13 - (length appledouble + 1))%nat with (length d) by (simpl; lia).
    by rewrite take_app_length.
Qed.

(** "/d/.AppleDouble/f" and the two kinds of file beside it. *)
Lemma appledouble_paths_witness :
  extra_translate_path ([47; 100; 47] ++ appledouble ++ [47; 102]) =
    Some (AFP_META_RESOURCE, [47; 100; 47; 102]).
Proof.
  refine (proj1 (proj2 (proj2 (appledouble_paths [47; 100] [102] eq_refl _))) _ _ _);
    [|discriminate|reflexivity|reflexivity].
  intros H. by apply list_elem_of_singleton in H.
Defined.

(** A name that only ends in ".AppleDouble" is read behind its end. *)
Lemma appledouble_overread : extra_translate_path ([47; 102; 111; 111] ++ appledouble) = None.
Proof. done. Qed.

End Create.
