(* ===== verification/Session.v ===== *)
(** * Sessions and volumes: lib/afp.c

    The table of reply handlers, the choice of a protocol version and of an
    authentication method, logging in, and opening and unmounting volumes. *)

From S2P Require Import Prelude Constants Types Utils Unicode Codepage Dsi ReplyBlock ProtoFiles.
From S2P Require Import ProtoVolume Client Calls Did UamsDef Status Auth Create.

Module Session.
Import Utils Unicode Codepage Dsi ReplyBlock ProtoFiles ProtoVolume.
Import Client Calls Did UamsDef Status Auth Create.

(** ** Handlers of replies *)

Inductive reply_handler :=
| ByteRangeLock | Blank | CreateDir | Enumerate | GetSrvrParms | GetVolParms | Login | MapID
| MapName | VolOpen | OpenFork | Read | Write | GetFileDirParms | ChangePassword | GetUserInfo
| GetSrvrMsg | OpenDT | GetIcon | GetComment | ByteRangeLockExt | ReadExt | WriteExt
| GetSessionToken | EnumerateExt2 | ListExtAttrs.

(** By the subcommand of the request; the table has 256 entries. *)
Definition afp_replies : list (option reply_handler) :=
  [None; Some ByteRangeLock; Some Blank; None;
   Some Blank; None; Some CreateDir; Some Blank;
   Some Blank; Some Enumerate; Some Blank; Some Blank;
   None; None; None; None;
   Some GetSrvrParms; Some GetVolParms; Some Login; Some Login;
   Some Blank; Some MapID; Some MapName; Some Blank;
   Some VolOpen; None; Some OpenFork; Some Read;
   Some Blank; Some Blank; Some Blank; Some Blank;
   None; Some Write; Some GetFileDirParms; Some Blank;
   Some ChangePassword; Some GetUserInfo; Some GetSrvrMsg; None;
   None; None; None; None; None; None; None; None;
   Some OpenDT; Some Blank; None; Some GetIcon;
   None; None; None; None;
   Some Blank; None; Some GetComment; Some ByteRangeLockExt;
   Some ReadExt; Some WriteExt; None; None;
   Some GetSessionToken; Some Blank; None; None;
   Some EnumerateExt2; None; None; None;
   Some ListExtAttrs; None; None; None;
   Some Blank; None; Some Blank; Some Blank] ++ replicate 176 None.

Definition afp_blank_reply (buf : list Z) : option Z := raw_error buf.

(** [afp_reply]: the handler to run on the packet of [size] bytes, or the return value
    without one; [None] reads behind the table. *)
Definition afp_reply (subcommand size : Z) : option (Z + reply_handler) :=
  if size <? 16 then Some (inl (-1))
  else
    entry ← afp_replies !! Z.to_nat subcommand;
    Some (match entry with Some handler => inr handler | None => inl 0 end).

(** ** Version and method *)

Definition AFP_MAX_SUPPORTED_VERSION : Z := 32.

(** The loop over the versions of the server: whether the requested one was found, the
    last one looked at, and the highest.  [None] reads behind the array. *)
Fixpoint pick_loop (versions : list Z) (i : nat) (requested version_num highest : Z)
    : option (bool * Z * Z) :=
  match versions with
  | [] => None
  | v :: versions =>
    if (v =? 0) || (SERVER_MAX_VERSIONS <=? i)%nat then Some (false, version_num, highest)
    else
      let version_num := schar v in
      let highest := Z.max highest version_num in
      if v =? requested then Some (true, version_num, highest)
      else pick_loop versions (S i) requested version_num highest
  end.

(** The entry of [afp_versions], or NULL. *)
Definition pick_version (versions : list Z) (requested : Z) : option (option (list Z * Z)) :=
  let requested := if requested =? 0 then 0 else Z.min requested AFP_MAX_SUPPORTED_VERSION in
  '(found_version, version_num, highest) ← pick_loop versions 0 requested 0 0;
  let version_num := if found_version : bool then version_num else highest in
  Some (List.find (fun p => p.2 =? version_num) afp_versions).

Fixpoint pick_bit (i : nat) (mask : Z) : Z :=
  match i with
  | O => -1
  | S i => if has mask (Z.shiftl 1 (Z.of_nat i)) then Z.shiftl 1 (Z.of_nat i) else pick_bit i mask
  end.

Definition pick_uam (uam2 uam1 : Z) : Z := pick_bit 16 (Z.land uam2 uam1).

(** ** Messages for the user *)

(** The buffer and [*l]. *)
Record message := mk_message { ms_mesg : list Z; ms_l : Z }.

(** [snprintf(mesg+off,n,"%s",text)] *)
Definition snprintf (off : nat) (n : Z) (text mesg : list Z) : option (list Z) :=
  blit off (if n =? 0 then [] else take (Z.to_nat (n - 1)) text ++ [0]) mesg.

(** [*l+=snprintf(mesg,max-*l,...)]: the text always goes to the start of the buffer. *)
Definition report (max : Z) (text : list Z) (m : message) : option message :=
  mesg ← snprintf 0 (u32 (max - ms_l m)) text (ms_mesg m);
  Some (mk_message mesg (u32 (ms_l m + Z.of_nat (length text)))).

(** ** Logging in *)

Definition setup_default_outgoing_token : afp_token :=
  mk_token 16 ([0x54; 0xc0; 0x75; 0xb0; 0x15; 0xe6; 0x1c; 0x13;
                0x86; 0x75; 0xd2; 0xc2; 0xfd; 0x03; 0x4e; 0x3b] ++ replicate 240 0).

(** The return value and the token of the server. *)
Definition FPGetSessionToken (type timestamp : Z) (outgoing token : afp_token)
    : M (Z * afp_token) :=
  r ← lift (afp_getsessiontoken type timestamp outgoing);
  match r with
  | None => mret (-1, token)
  | Some r =>
    a ← send r;
    token' ← handle (fun buf _ => afp_getsessiontoken_reply buf (Some token)) a (Some token);
    mret (0, default token token')
  end.

Definition resume_token (token : afp_token) : M (Z * afp_token) :=
  now ← ask Gettimeofday;
  FPGetSessionToken kReconnWithTimeAndID (u32 now) setup_default_outgoing_token token.

Definition setup_token (token : afp_token) : M (Z * afp_token) :=
  now ← ask Gettimeofday;
  FPGetSessionToken kLoginWithTimeAndID (u32 now) setup_default_outgoing_token token.

(** What the switch makes of the result of the method: the texts and whether it goes on
    to the session. *)
Definition login_result (rc : Z) : list (list Z) * bool :=
  let nl := [10] in
  switch rc
    [([-1], ([str "Could not find a valid UAM" ++ nl], false));
     ([kFPAuthContinue], ([str "Authentication method unsupported by AFPFS" ++ nl], false));
     ([kFPBadUAM], ([str "Specified UAM is unknown" ++ nl], false));
     ([kFPBadVersNum], ([str "Server does not support this AFP version" ++ nl;
                         str "Already logged in" ++ nl], true));
     ([kFPCallNotSupported; kFPMiscErr], ([str "Already logged in" ++ nl], true));
     ([kFPNoServer], ([str "Authentication server not responding" ++ nl], false));
     ([kFPPwdExpiredErr; kFPPwdNeedsChangeErr],
      ([str "Warning: password needs changing" ++ nl], false));
     ([kFPServerGoingDown], ([str "Server going down, so I can't log you in." ++ nl], false));
     ([kFPUserNotAuth], ([str "Authentication failed" ++ nl], false));
     ([0], ([], true))]
    ([str "Unknown error, maybe username/passwd needed?" ++ nl], false).

Fixpoint reports (max : Z) (texts : list (list Z)) (m : message) : option message :=
  match texts with
  | [] => Some m
  | text :: texts => m ← report max text m; reports max texts m
  end.

(** The fields of [struct afp_server] for the session. *)
Record session := mk_session {
  ss_using_uam : Z; ss_username : list Z; ss_password : list Z; ss_server_flags : Z;
  ss_need_resume : Z; ss_token : afp_token }.

Definition set_session_token (token : afp_token) (need_resume : Z) (s : session) : session :=
  mk_session (ss_using_uam s) (ss_username s) (ss_password s) (ss_server_flags s) need_resume
    token.

Definition afp_server_login (G : gcrypt) (av_name : list Z) (r : registry) (s : session)
    (max : Z) (m : message) : M (Z * session * message) :=
  rc ← afp_dologin G av_name r (ss_using_uam s) (ss_username s) (ss_password s);
  m ← lift (reports max (login_result rc).1 m);
  if negb (login_result rc).2 then mret (1, s, m)
  else if has (ss_server_flags s) kSupportsReconnect then
    if negb (ss_need_resume s =? 0)
    then '(_, token) ← resume_token (ss_token s); mret (0, set_session_token token 0 s, m)
    else '(_, token) ← setup_token (ss_token s);
         mret (0, set_session_token token (ss_need_resume s) s, m)
  else mret (0, s, m).

(** ** Volumes *)

Definition AFP_VOL_FIXED : Z := 2.
Definition AFP_VOLUME_UNMOUNTED : Z := 0.
Definition AFP_VOLUME_MOUNTED : Z := 1.
Definition AFP_VOLUME_UNMOUNTING : Z := 2.

(** The first volume whose printable name is [volname], decomposed. *)
Definition find_volume_by_name (volumes : list afp_volume) (volname : list Z)
    : option (option afp_volume) :=
  '(converted, _) ← convert_utf8pre_to_utf8dec (volname ++ [0]) (length volname)
                      (replicate (Z.to_nat AFP_VOLUME_NAME_LEN) 0) (Z.to_nat AFP_VOLUME_NAME_LEN);
  name ← cstr converted;
  Some (List.find (fun v => holds (vo_volume_name_printable v) name) volumes).

Definition something_is_mounted (mounted : list Z) : bool :=
  existsb (fun m => negb (m =? AFP_VOLUME_UNMOUNTED)) mounted.

(** [afp_volopen] with the name of the volume; the handler updates the volume. *)
Definition FPOpenVol (bitmap : Z) (password : option (list Z)) : M Z :=
  j ← junk; v ← volume;
  name ← lift (cstr (vo_volume_name v ++ vo_volume_name_printable v));
  r ← lift (afp_volopen j name bitmap password);
  a ← send r;
  v ← handle (fun buf size => afp_volopen_reply buf size v) a v;
  modify (set_volume v);; mret (an_rc a).

Definition FPFlush : M Z := v ← volume; a ← send (afp_flush (vo_volid v)); mret (an_rc a).
Definition FPCloseDT (refnum : Z) : M Z := a ← send (afp_closedt refnum); mret (an_rc a).
Definition FPLogout (wait : Z) : M Z := a ← send (afp_logout wait); mret (an_rc a).

(** The volume of the client state has the field [mounted] as an argument; [others] are
    those of the other volumes of the server.  [forkid_of] gives the fork of an open
    file and [unmount] is the client's own part.  The result is the return value, the new
    [mounted] and whether the server was removed. *)
Definition afp_unmount_volume (forkid_of : Z -> Z) (unmount : M unit) (others : list Z)
    (mounted : Z) : M (Z * Z * bool) :=
  if negb (mounted =? AFP_VOLUME_MOUNTED) then mret (-1, mounted, false)
  else
    FPFlush;;
    free_entire_did_cache;;
    remove_fork_list forkid_of;;
    v ← volume;
    (if negb (vo_dtrefnum v =? 0) then FPCloseDT (vo_dtrefnum v);; mret tt else mret tt);;
    v ← volume;
    modify (set_volume (set_vo_dtrefnum 0 v));;
    unmount;;
    if something_is_mounted others then mret (0, AFP_VOLUME_UNMOUNTED, false)
    else FPLogout DSI_DONT_WAIT;; mret (-1, AFP_VOLUME_UNMOUNTED, true).

Definition volume_bitmap (av_number : Z) : Z :=
  let bitmap := foldr Z.lor 0 [kFPVolAttributeBit; kFPVolSignatureBit; kFPVolCreateDateBit;
                               kFPVolIDBit; kFPVolNameBit] in
  if 30 <=? av_number then Z.lor bitmap (Z.lor kFPVolNameBit kFPVolBlockSizeBit) else bitmap.

Definition open_failed (ret : Z) : option (list Z) :=
  switch ret
    [([kFPAccessDenied], Some (str "Incorrect volume password" ++ [10]));
     ([kFPNoErr], None);
     ([kFPBitmapErr; kFPMiscErr; kFPObjectNotFound; kFPParamErr],
      Some (str "Could not open volume" ++ [10]));
     ([ETIMEDOUT], Some (str "Timed out waiting to open volume" ++ [10]))] None.

Definition volume_encoding (v : afp_volume) : Z :=
  if has (vo_attributes v) kSupportsUTF8Names then kFPUTF8Name else kFPLongName.

(** Whether the volume has Unix privileges; before AFP 3.0 the flags stay. *)
Definition unix_flags (s : afp_server) (v : afp_volume) : Z :=
  let flags := vo_extra_flags v in
  if 30 <=? sv_av_number s then
    if (sv_server_type s =? AFPFS_SERVER_TYPE_NETATALK)
       && negb (has (vo_attributes v) kSupportsUnixPrivs)
    then Z.ldiff flags VOLUME_EXTRA_FLAGS_VOL_SUPPORTS_UNIX
    else Z.lor flags VOLUME_EXTRA_FLAGS_VOL_SUPPORTS_UNIX
  else flags.

(** The volume is closed by [afp_unmount_volume] where it has no fixed directories.  The
    result is the return value, the new [mounted], whether the server was removed then, and
    the message. *)
Definition afp_connect_volume (forkid_of : Z -> Z) (unmount : M unit) (others : list Z)
    (volpassword : list Z) (mounted max : Z) (m : message) : M (Z * Z * bool * message) :=
  s ← server;
  ret ← FPOpenVol (volume_bitmap (sv_av_number s))
          (match volpassword with [] => None | _ => Some volpassword end);
  match open_failed ret with
  | Some text => m ← lift (report max text m); mret (1, mounted, false, m)
  | None =>
    v ← volume;
    name ← lift (cstr (vo_volume_name_printable v));
    m ← (if negb (volume_encoding v =? sv_path_encoding s)
         then lift (report max (str "Volume " ++ name ++ str " changes the server's encoding"
                                ++ [10]) m)
         else mret m);
    modify (fun c => Client.set_server (set_sv_path_encoding (volume_encoding v) (cl_server c)) c);;
    if negb (vo_signature v =? AFP_VOL_FIXED) then
      m ← lift (report max (str "Volume " ++ name ++ str " does not support fixed directories"
                            ++ [10]) m);
      '(_, mounted, last) ← afp_unmount_volume forkid_of unmount others mounted;
      mret (1, mounted, last, m)
    else
      modify (set_volume (set_vo_extra_flags (unix_flags s v) v));;
      mret (0, AFP_VOLUME_MOUNTED, false, m)
  end.

(** "%s, " for every volume but the last; [len] is the length of the text so far, also
    where that did not fit. *)
Fixpoint list_volnames (names : list (list Z)) (max len : Z) (buf : list Z)
    : option (Z * list Z) :=
  match names with
  | [] => Some (len, buf)
  | name :: rest =>
    let text := name ++ match rest with [] => [] | _ => str ", " end in
    buf ← snprintf (Z.to_nat len) (u64 (max - len)) text buf;
    list_volnames rest max (len + Z.of_nat (length text)) buf
  end.

Definition afp_list_volnames (volumes : list afp_volume) (max : Z) (names : list Z)
    : option (Z * list Z) :=
  printable ← mapM (fun v => cstr (vo_volume_name_printable v)) volumes;
  list_volnames printable max 0 names.

(** ** The version *)

Lemma pick_loop_spec vs rest i requested vn hi :
  Forall (fun v => 0 < v < 128) vs -> (i + length vs < 10)%nat ->
  exists found vn' hi', pick_loop (vs ++ 0 :: rest) i requested vn hi = Some (found, vn', hi') /\
    (requested ∈ vs -> found = true /\ vn' = requested) /\
    (requested ∉ vs -> found = false /\ hi' = foldl Z.max hi vs).
Proof.
  intros Hvs. revert i vn hi. induction Hvs as [|v vs Hv _ IH]; intros i vn hi Hi.
  { exists false, vn, hi. split_and!; [done| |done]. by intros ?%not_elem_of_nil. }
  cbn [app pick_loop length foldl] in *.
  rewrite (proj2 (Z.eqb_neq v 0)) by lia. rewrite (proj2 (Nat.leb_gt _ _)) by (unfold SERVER_MAX_VERSIONS; lia).
  cbn [orb]. rewrite schar_ascii by lia. destruct (Z.eqb_spec v requested) as [->|Hne].
  { eexists _, _, _. split_and!; [done|done|]. intros H. exfalso. apply H. by left. }
  destruct (IH (S i) v (Z.max hi v)) as (found & vn' & hi' & -> & H1 & H2); [lia|].
  eexists _, _, _. split_and!; [done| |].
  - intros [?|?]%elem_of_cons; [done|by apply H1].
  - intros [_ ?]%not_elem_of_cons. by apply H2.
Qed.

Lemma foldl_max_ge vs hi : hi <= foldl Z.max hi vs /\ Forall (fun v => v <= foldl Z.max hi vs) vs.
Proof.
  revert hi. induction vs as [|v vs IH]; intros hi; cbn [foldl]; [by split; [|constructor]|].
  destruct (IH (Z.max hi v)) as [H1 H2]. split; [lia|constructor; [lia|done]].
Qed.

Lemma foldl_max_elem vs hi : foldl Z.max hi vs = hi \/ foldl Z.max hi vs ∈ vs.
Proof.
  revert hi. induction vs as [|v vs IH]; intros hi; cbn [foldl]; [by left|].
  destruct (IH (Z.max hi v)) as [->|H]; [|by right; right].
  destruct (Z.max_spec hi v) as [[_ ->]|[_ ->]]; [by right; left|by left].
Qed.

Lemma versions_found :
  Forall (fun p => 0 < p.2 < 128 /\
    exists name, List.find (fun q => q.2 =? p.2) afp_versions = Some (name, p.2)) afp_versions.
Proof. repeat constructor; eexists; reflexivity. Qed.

Lemma known_version v names :
  v ∈ known_versions names ->
  0 < v < 128 /\ exists name, List.find (fun p => p.2 =? v) afp_versions = Some (name, v).
Proof.
  intros (name & _ & Hv)%list_elem_of_omap. unfold version_number in Hv.
  destruct (List.find _ afp_versions) as [p|] eqn:E; [|done]. cbn in Hv. simplify_eq.
  apply find_some in E as [Hin%list_elem_of_In _].
  by apply (proj1 (Forall_forall _ _) versions_found).
Qed.

(** The version of the session: from what the client stored of the server's table,
    the version the user asked for if the server has it, and the highest one otherwise;
    a table of unknown versions gives none. *)
Theorem version_negotiated names requested :
  let numbers := known_versions names in
  let wanted := Z.min requested AFP_MAX_SUPPORTED_VERSION in
  0 <= requested -> (length numbers < 10)%nat ->
  match pick_version (resize 10 0 numbers) requested with
  | None => False
  | Some None => numbers = []
  | Some (Some (_, v)) =>
    v ∈ numbers /\ (wanted ∈ numbers -> v = wanted) /\
    (wanted ∉ numbers -> Forall (fun n => n <= v) numbers)
  end.
Proof.
  intros numbers wanted Hr Hl. unfold pick_version.
  replace (if requested =? 0 then 0 else Z.min requested AFP_MAX_SUPPORTED_VERSION) with wanted.
  2: { unfold wanted, AFP_MAX_SUPPORTED_VERSION. destruct (Z.eqb_spec requested 0); lia. }
  assert (Forall (fun v => 0 < v < 128) numbers) as Hn.
  { apply Forall_forall. intros v Hv. by eapply known_version. }
  rewrite resize_ge by lia. destruct (10 - length numbers)%nat as [|k] eqn:Ek; [lia|].
  cbn [replicate].
  destruct (pick_loop_spec numbers (replicate k 0) 0 wanted 0 0 Hn Hl)
    as (found & vn & hi & -> & H1 & H2).
  cbn [mbind option_bind].
  destruct (decide (wanted ∈ numbers)) as [Hw|Hw].
  - destruct (H1 Hw) as [-> ->]. destruct (known_version wanted names Hw) as (_ & name & ->). done.
  - destruct (H2 Hw) as [-> ->]. destruct (foldl_max_ge numbers 0) as [_ Hmax].
    destruct (foldl_max_elem numbers 0) as [Hz|He].
    + rewrite Hz in *. destruct numbers as [|v vs]; [done|].
      rewrite !Forall_cons in *. lia.
    + destruct (known_version _ names He) as (_ & name & ->). done.
Qed.

Lemma version_negotiated_witness :
  pick_version (resize 10 0 (known_versions [str "AFP2.2"; str "AFP9.9"; str "AFP3.1"])) 30
  = Some (Some (str "AFP3.1", 31)) /\
  let v := 31 in v ∈ known_versions [str "AFP2.2"; str "AFP9.9"; str "AFP3.1"].
Proof.
  split; [by vm_compute|].
  pose proof (version_negotiated [str "AFP2.2"; str "AFP9.9"; str "AFP3.1"] 30) as H.
  refine (proj1 (H _ _)); [lia|by vm_compute; lia].
Defined.

(** ** The method *)

Lemma has_pow2 x i : 0 <= i -> has x (2 ^ i) = Z.testbit x i.
Proof.
  intros Hi. unfold has. destruct (Z.testbit x i) eqn:E.
  - rewrite (proj2 (Z.eqb_neq _ 0)); [done|]. intros H0.
    apply (f_equal (fun y => Z.testbit y i)) in H0.
    by rewrite Z.land_spec, E, Z.pow2_bits_true, Z.bits_0 in H0 by lia.
  - replace (Z.land x (2 ^ i)) with 0; [done|]. apply Z.bits_inj'. intros j Hj.
    rewrite Z.land_spec, Z.bits_0, Z.pow2_bits_eqb by lia.
    destruct (Z.eqb_spec i j) as [<-|]; [by rewrite E|by rewrite andb_false_r].
Qed.

Lemma pick_bit_spec n mask :
  pick_bit n mask = -1 /\ (forall i, 0 <= i < Z.of_nat n -> Z.testbit mask i = false) \/
  exists k, 0 <= k < Z.of_nat n /\ pick_bit n mask = 2 ^ k /\ Z.testbit mask k = true /\
    forall i, k < i < Z.of_nat n -> Z.testbit mask i = false.
Proof.
  induction n as [|n IH]; cbn [pick_bit]; [left; split; [done|lia]|].
  rewrite Z.shiftl_1_l, has_pow2 by lia. destruct (Z.testbit mask (Z.of_nat n)) eqn:Eb.
  - right. exists (Z.of_nat n). split_and!; [lia..|done|done|lia].
  - destruct IH as [[-> H]|(k & Hk & -> & Hb & H)].
    + left. split; [done|]. intros i Hi. destruct (decide (i = Z.of_nat n)) as [->|]; [done|].
      apply H. lia.
    + right. exists k. split_and!; [lia..|done|done|]. intros i Hi.
      destruct (decide (i = Z.of_nat n)) as [->|]; [done|]. apply H. lia.
Qed.

(** The strongest of the methods both sides allow, if there is one, is found in the
    table. *)
Lemma uam_negotiated supported mask :
  let u := pick_uam supported (Z.land mask default_uams_mask) in
  (u = -1 /\ forall i, 0 <= i < 16 ->
     Z.testbit supported i && Z.testbit (Z.land mask default_uams_mask) i = false) \/
  exists uam, find_uam_by_bitmap init_uams u = Some uam /\ um_bitmap uam = u.
Proof.
  intros u. unfold u, pick_uam.
  destruct (pick_bit_spec 16 (Z.land supported (Z.land mask default_uams_mask)))
    as [[-> H]|(k & Hk & -> & Hb & _)].
  - left. split; [done|]. intros i Hi. rewrite <- Z.land_spec. apply H. lia.
  - right. rewrite !Z.land_spec in Hb. apply andb_true_iff in Hb as [_ Hb].
    apply andb_true_iff in Hb as [_ Hb].
    assert (k = 1 \/ k = 2 \/ k = 3 \/ k = 4 \/ k = 6) as Hk'.
    { assert (k ∈ seqZ 0 16) as Hin by (apply elem_of_seqZ; lia).
      repeat (apply elem_of_cons in Hin as [->|Hin]; [try (vm_compute in Hb; done); auto|]).
      by apply not_elem_of_nil in Hin. }
    repeat destruct Hk' as [->|Hk']; subst; by eexists.
Qed.

(** ** The calls and their handlers *)

(** What a function that ends with [Some r] returned. *)
Ltac returned H :=
  cbv zeta in H;
  repeat lazymatch type of H with
  | _ ≫= _ = Some _ => apply bind_Some in H as (? & _ & H)
  | (match ?x with _ => _ end) = Some _ => destruct x
  end; simplify_eq.

(** A request and the handler its call counts on. *)
Inductive sent : request -> reply_handler -> Prop :=
| sent_getfiledirparms j s v d fb db p r :
    afp_getfiledirparms j s v d fb db p = Some (Some r) -> sent r GetFileDirParms
| sent_createfile j s v f d p r : afp_createfile j s v f d p = Some r -> sent r Blank
| sent_delete j s v d p r : afp_delete j s v d p = Some r -> sent r Blank
| sent_createdir j s v d p r : afp_createdir j s v d p = Some r -> sent r CreateDir
| sent_moveandrename j s v sd dd sp dp n r :
    afp_moveandrename j s v sd dd sp dp n = Some r -> sent r Blank
| sent_setparms s v d p b fi r :
    afp_setfileparms s v d p b fi = Some r \/ afp_setdirparms s v d p b fi = Some r \/
    afp_setfiledirparms s v d p b fi = Some r -> sent r Blank
| sent_enumerate j s v d fb db n i p r :
    afp_enumerate j s v d fb db n i p = Some r -> sent r Enumerate
| sent_enumerateext2 j s v d fb db n i p r :
    afp_enumerateext2 j s v d fb db n i p = Some r -> sent r EnumerateExt2
| sent_openfork j s v ft d a n r : afp_openfork j s v ft d a n = Some r -> sent r OpenFork
| sent_closefork id : sent (afp_closefork id) Blank
| sent_flushfork id : sent (afp_flushfork id) Blank
| sent_setforkparms id b n : sent (afp_setforkparms id b n) Blank
| sent_byterangelock f id o n : sent (afp_byterangelock f id o n) ByteRangeLock
| sent_byterangelockext f id o n : sent (afp_byterangelockext f id o n) ByteRangeLockExt
| sent_read id o n : sent (afp_read id o n) Read
| sent_readext id o n : sent (afp_readext id o n) ReadExt
| sent_write j id o n data r : afp_write j id o n data = Some r -> sent r Write
| sent_writeext j id o n data r : afp_writeext j id o n data = Some r -> sent r WriteExt
| sent_volopen j n b p r : afp_volopen j n b p = Some r -> sent r VolOpen
| sent_getvolparms v b : sent (afp_getvolparms v b) GetVolParms
| sent_flush v : sent (afp_flush v) Blank
| sent_opendt v : sent (afp_opendt v) OpenDT
| sent_closedt n : sent (afp_closedt n) Blank
| sent_getcomment j s n d p r : afp_getcomment j s n d p = Some r -> sent r GetComment
| sent_addcomment s n d p c r : afp_addcomment s n d p c = Some r -> sent r.1 Blank
| sent_getsrvrparms : sent afp_getsrvrparms GetSrvrParms
| sent_getsrvrmsg m u b : sent (afp_getsrvrmsg m u b) GetSrvrMsg
| sent_getuserinfo t u b : sent (afp_getuserinfo t u b) GetUserInfo
| sent_mapid f id : sent (afp_mapid f id) MapID
| sent_mapname f n r : afp_mapname f n = Some r -> sent r MapName
| sent_geticon n c t i l : sent (afp_geticon n c t i l) GetIcon
| sent_login j v u a r : afp_login j v u a = Some r -> sent r Login
| sent_logincont id a : sent (afp_logincont id a) Login
| sent_logout w : sent (afp_logout w) Blank
| sent_changepassword j u a r : afp_changepassword j u a = Some r -> sent r ChangePassword
| sent_getsessiontoken ty t o r :
    afp_getsessiontoken ty t o = Some (Some r) -> sent r GetSessionToken
| sent_disconnectoldsession j ty t r :
    afp_disconnectoldsession j ty t = Some (Some r) -> sent r Blank
| sent_listextattr j s v d b p n r :
    afp_listextattr j s v d b p n = Some r -> sent r ListExtAttrs.

(** On every reply that has a DSI header the dispatch finds, by the subcommand the
    call stored with its request, the handler that call counts on. *)
Theorem calls_dispatched r handler size :
  sent r handler -> 16 <= size -> afp_reply (rq_sub r) size = Some (inr handler).
Proof.
  intros Hs Hsize. unfold afp_reply. rewrite (proj2 (Z.ltb_ge _ _)) by done.
  destruct Hs as [j s v d fb db p r H|j s v f d p r H|j s v d p r H|j s v d p r H
    |j s v sd dd sp dp n r H|s v d p b fi r H|j s v d fb db n i p r H|j s v d fb db n i p r H
    |j s v ft d a n r H| | | | | | | |j id o n data r H|j id o n data r H|j n b p r H| | | | |
    j s n d p r H|s n d p c r H| | | | |f n r H| |j v u a r H| | |j u a r H|ty t o r H|j ty t r H
    |j s v d b p n r H]; try done.
  all: try (destruct H as [H|[H|H]]).
  all: unfold afp_getfiledirparms, afp_createfile, afp_delete, afp_createdir, afp_moveandrename,
    afp_setfileparms, afp_setdirparms, afp_setfiledirparms, afp_setparms_lowlevel, afp_enumerate,
    afp_enumerateext2, enumerate_request, afp_openfork, afp_write, afp_writeext, write_request,
    afp_volopen, afp_getcomment, afp_addcomment, afp_mapname, afp_login, afp_changepassword,
    afp_getsessiontoken, afp_disconnectoldsession, afp_listextattr in H;
    by returned H.
Qed.

Lemma calls_dispatched_witness :
  sent (afp_readext 3 0 512) ReadExt /\ afp_reply (rq_sub (afp_readext 3 0 512)) 528 = Some (inr ReadExt).
Proof. split; [constructor|]. apply calls_dispatched; [constructor|lia]. Defined.

(** ** Volumes by name *)

Lemma find_first {A} (f : A -> bool) l pre x post :
  l = pre ++ x :: post -> Forall (fun y => f y = false) pre -> f x = true ->
  List.find f l = Some x.
Proof.
  intros -> Hpre Hx. induction Hpre as [|y pre Hy _ IH]; simpl; [by rewrite Hx|by rewrite Hy].
Qed.

(** A printable name of the volume, as the handlers of the replies store it. *)
Definition printable (v : afp_volume) (name : list Z) : Prop :=
  exists rest, vo_volume_name_printable v = name ++ 0 :: rest.

Lemma holds_printable v name s :
  nul_free name -> nul_free s -> printable v name ->
  holds (vo_volume_name_printable v) s = bytes_eqb s name.
Proof.
  intros Hn Hs [rest ->]. unfold holds, bytes_eqb. apply bool_decide_ext. split.
  - intros [k Hk]. rewrite <- app_assoc in Hk. apply (f_equal cstr) in Hk. cbn [app] in Hk.
    rewrite !cstr_app in Hk by done. by simplify_eq.
  - intros ->. exists rest. by rewrite <- app_assoc.
Qed.

(** The search for a volume decomposes the name and compares it with the composed
    names of the volumes: a name without composed characters finds a volume of that name
    if there is one, a name with one never finds the volume it names. *)
Theorem volume_by_name s volumes names :
  nul_free s -> (length (decompose s) < 33)%nat ->
  Forall2 printable volumes names -> Forall nul_free names ->
  exists r, find_volume_by_name volumes s = Some r /\
  (decompose s = s -> s ∈ names -> exists v, r = Some v /\ printable v s) /\
  (decompose s <> s -> forall v, r = Some v -> ~ printable v s).
Proof.
  intros Hs Hl Hv Hn. unfold find_volume_by_name, convert_utf8pre_to_utf8dec.
  change (Z.to_nat AFP_VOLUME_NAME_LEN) with 33%nat.
  assert (nul_free (decompose s)) as Hd by by apply decompose_nul_free.
  rewrite pre_to_dec_loop_spec by solve_len. cbn [mbind option_bind].
  rewrite drop_replicate. destruct (33 - length (decompose s))%nat as [|k] eqn:Ek; [lia|].
  cbn [replicate]. rewrite cstr_app by done. cbn [mbind option_bind].
  eexists. split; [done|]. split.
  - intros Heq Hin. rewrite Heq. clear Ek Hl Hd.
    induction Hv as [|v name volumes names Hp Hv IH]; [by apply not_elem_of_nil in Hin|].
    apply Forall_cons in Hn as [Hn1 Hn]. cbn [List.find].
    rewrite (holds_printable v name s) by done. unfold bytes_eqb.
    case_bool_decide as E; [subst name; by exists v|].
    apply IH; [done|]. by apply elem_of_cons in Hin as [->|].
  - intros Hne v [Hin%list_elem_of_In Hh]%find_some Hp. apply Hne.
    rewrite (holds_printable v s) in Hh by done. by apply bool_decide_eq_true in Hh.
Qed.

Definition volume_named (name : list Z) : afp_volume :=
  set_vo_volume_name_printable (name ++ [0]) zero_volume.

(** The volume of the name U+00E4 is on the list and is not found. *)
Lemma volume_by_name_witness :
  let volumes := [volume_named (str "Disk"); volume_named [0xc3; 0xa4]] in
  exists r, find_volume_by_name volumes [0xc3; 0xa4] = Some r /\
    (decompose [0xc3; 0xa4] = [0xc3; 0xa4] -> [0xc3; 0xa4] ∈ [str "Disk"; [0xc3; 0xa4]] ->
     exists v, r = Some v /\ printable v [0xc3; 0xa4]) /\
    (decompose [0xc3; 0xa4] <> [0xc3; 0xa4] -> forall v, r = Some v -> ~ printable v [0xc3; 0xa4]).
Proof.
  apply (volume_by_name [0xc3; 0xa4] [volume_named (str "Disk"); volume_named [0xc3; 0xa4]]
    [str "Disk"; [0xc3; 0xa4]]);
    [by apply (bool_decide_unpack _)|vm_compute; lia| |by apply (bool_decide_unpack _)].
  repeat constructor; by exists [].
Defined.

Example accented_volume_not_found :
  find_volume_by_name [volume_named [0xc3; 0xa4]] [0xc3; 0xa4] = Some None.
Proof. by vm_compute. Qed.

(** ** Opening a volume *)

Lemma volopen_built j name bitmap password :
  (length name < 33)%nat ->
  exists r, afp_volopen j name bitmap password = Some r /\
    rq_dsi r = DSI_DSICommand /\ rq_sub r = afpOpenVol.
Proof.
  intros Hl. unfold afp_volopen.
  set (len := match password with Some _ => _ | None => _ end).
  assert (20 + Z.of_nat (length name) + 1 + match password with Some _ => 8 | None => 0 end <= len)
    as Hlen.
  { unfold len, even_up, AFP_VOLPASS_LEN. destruct password; [|lia]. destruct (Z.odd _); lia. }
  rewrite st8_byte by done. rewrite st16_htons.
  destruct (blit_malloc j (len - 16) ([afpOpenVol] ++ st8 0 ++ be_bytes 2 bitmap))
    as (rest & -> & Hr); [destruct password; solve_len|destruct password; lia|].
  cbn [mbind option_bind]. rewrite drop_app_length' by done. rewrite take_app_length' by done.
  rewrite copy_to_pascal_spec by (destruct password; solve_len). cbn [mbind option_bind].
  set (msg := _ ++ Z.of_nat _ :: _).
  assert (Z.of_nat (length msg) = len - 16) as Hm.
  { unfold msg. destruct password; solve_len. }
  destruct password as [pw|]; [|by eexists].
  change AFP_VOLPASS_LEN with 8.
  rewrite (blit_in_range _ (replicate 8 0)) by (rewrite length_replicate; lia).
  cbn [mbind option_bind]. rewrite blit_in_range; [by eexists|].
  set (len2 := if _ <? _ then _ else _).
  assert (Z.to_nat len2 <= 8)%nat by (unfold len2; case_match; lia).
  rewrite !length_app, !length_take, length_drop, length_replicate. lia.
Qed.

(** A server that opens the volume with the parameters [w], and nothing else. *)
Definition volume_server (bitmap : Z) (w : afp_volume) (name_off : Z) : contract :=
  {| guarantee := fun r => rq_dsi r = DSI_DSICommand /\ rq_sub r = afpOpenVol;
     rely := fun X e =>
       match e in env X return X -> Prop with
       | Exchange r => fun a =>
         an_rc a = 0 /\ exists rid behind,
         let data := be_bytes 2 bitmap ++ encode_volume bitmap w name_off in
         an_packet a = Some (wire_header DSI_REPLY DSI_DSICommand rid 0 (Z.of_nat (length data))
                             ++ data, behind)
       | _ => fun _ => True
       end;
     may_crash := False; may_starve := False |}.

Lemma report_ok max text m :
  0 <= ms_l m <= max -> max = Z.of_nat (length (ms_mesg m)) -> max < 2 ^ 32 ->
  exists m', report max text m = Some m'.
Proof.
  intros Hl Hmax Hb. unfold report, snprintf, blit.
  rewrite (u32_small (max - ms_l m)) by lia.
  rewrite decide_True; [by eexists|]. destruct (Z.eqb_spec (max - ms_l m) 0); [simpl; lia|].
  rewrite length_app, length_take. simpl. lia.
Qed.

(** What is known about Unix privileges: the flag, and that nothing else changes. *)
Definition flags_decided (s : afp_server) (attributes before after : Z) : Prop :=
  (sv_av_number s < 30 -> after = before) /\
  (30 <= sv_av_number s ->
   (has after VOLUME_EXTRA_FLAGS_VOL_SUPPORTS_UNIX = true <->
    (sv_server_type s = AFPFS_SERVER_TYPE_NETATALK -> has attributes kSupportsUnixPrivs = true)) /\
   forall i, i <> 3 -> Z.testbit after i = Z.testbit before i).

Lemma unix_flags_decided s v :
  flags_decided s (vo_attributes v) (vo_extra_flags v) (unix_flags s v).
Proof.
  unfold flags_decided, unix_flags. split; intros Hav.
  { by rewrite (proj2 (Z.leb_gt _ _)). }
  rewrite (proj2 (Z.leb_le _ _)) by done.
  change VOLUME_EXTRA_FLAGS_VOL_SUPPORTS_UNIX with (2 ^ 3).
  destruct (Z.eqb_spec (sv_server_type s) AFPFS_SERVER_TYPE_NETATALK) as [Ht|Ht];
    destruct (has (vo_attributes v) kSupportsUnixPrivs); cbn [negb andb].
  all: rewrite has_pow2, ?Z.lor_spec, ?Z.ldiff_spec, Z.pow2_bits_true by lia.
  all: split; [|intros i Hi; rewrite ?Z.lor_spec, ?Z.ldiff_spec, Z.pow2_bits_false by lia;
                rewrite ?orb_false_r, ?andb_true_r; done].
  all: rewrite ?orb_true_r, ?andb_false_r; split; intros; try done; naive_solver.
Qed.

Section opening.
Context (forkid_of : Z -> Z) (unmount : M unit) (others : list Z) (password u : list Z).
Context (s : afp_server) (v w : afp_volume) (mounted name_off : Z) (tail : list Z).

Abbreviation wire_name := (utf8 (decompose16 u)).
Abbreviation bitmap := (volume_bitmap (sv_av_number s)).

Context (Hu : ucs2 u) (Hpre : precomposed u).
Context (Hlen : (length (utf8 u) < 33)%nat) (Hwire : (length wire_name < 33)%nat).
Context (Hname : vo_volume_name v = wire_name ++ 0 :: tail) (Hn33 : length (vo_volume_name v) = 33%nat).
Context (Hp33 : length (vo_volume_name_printable v) = 33%nat).
Context (Hw : volume_ok w) (Hoff : 0 <= name_off < 65536).

(** The volume after the reply. *)
Definition opened_volume : afp_volume :=
  let v' := updated bitmap v w in
  set_vo_volume_name_printable
    (if has (vo_attributes w) kSupportsUTF8Names
     then utf8 u ++ 0 :: drop (S (length (utf8 u))) (vo_volume_name_printable v)
     else vo_volume_name v) v'.

Lemma bitmap_bits :
  0 <= bitmap < 65536 /\ has bitmap kFPVolAttributeBit = true /\
  has bitmap kFPVolSignatureBit = true /\ has bitmap kFPVolIDBit = true.
Proof using Type. unfold volume_bitmap. by destruct (30 <=? sv_av_number s); vm_compute. Qed.

Lemma volume_handled rid behind :
  let data := be_bytes 2 bitmap ++ encode_volume bitmap w name_off in
  let packet := wire_header DSI_REPLY DSI_DSICommand rid 0 (Z.of_nat (length data)) ++ data in
  afp_volopen_reply (packet ++ behind) (Z.of_nat (length packet)) v = Some (0, opened_volume).
Proof using All.
  intros data packet. unfold packet, data. rewrite <- !app_assoc.
  pose proof (length_wire_header DSI_REPLY DSI_DSICommand rid 0 (Z.of_nat (length data))) as Hwh.
  unfold afp_volopen_reply. rewrite (proj2 (Z.ltb_ge _ _)) by solve_len.
  destruct bitmap_bits as (Hb & Ha & _).
  rewrite ntohs_ld16 by done. cbn [mbind option_bind].
  rewrite app_assoc, drop_app_length' by solve_len.
  rewrite volume_parms_parsed by done. cbn [mbind option_bind].
  assert (vo_attributes (updated bitmap v w) = vo_attributes w) as ->
    by (unfold updated; cbn [vo_attributes]; by rewrite Ha).
  unfold opened_volume. destruct (has (vo_attributes w) kSupportsUTF8Names).
  - unfold printable_volume_name. cbn [vo_volume_name vo_volume_name_printable updated].
    rewrite Hname, <- app_assoc. cbn [app]. pose proof (length_utf8 u Hu).
    rewrite dec_to_pre_utf8 by (done || lia). done.
  - cbn [vo_volume_name vo_volume_name_printable updated].
    rewrite slice_in_range by lia. rewrite drop_0, take_ge by lia. cbn [mbind option_bind].
    rewrite blit_0 by lia. rewrite drop_ge, app_nil_r by lia. done.
Qed.

Lemma printable_opened :
  exists name, cstr (vo_volume_name_printable opened_volume) = Some name.
Proof using All.
  unfold opened_volume. cbn [vo_volume_name_printable set_vo_volume_name_printable].
  destruct (has _ _).
  - rewrite cstr_app by by apply utf8_nul_free. by eexists.
  - rewrite Hname, cstr_app by by apply utf8_nul_free, decompose16_ucs2. by eexists.
Qed.

Lemma connect_volume_ok c max m :
  cl_server c = s -> cl_volume c = v -> vo_signature w = AFP_VOL_FIXED ->
  0 <= ms_l m <= max -> max = Z.of_nat (length (ms_mesg m)) -> max < 2 ^ 32 ->
  hoare (volume_server bitmap w name_off) c
    (afp_connect_volume forkid_of unmount others password mounted max m)
    (fun r c' => r.1 = (0, AFP_VOLUME_MOUNTED, false) /\
       cl_server c' = set_sv_path_encoding (volume_encoding w) s /\
       cl_volume c' = set_vo_extra_flags (unix_flags s opened_volume) opened_volume /\
       cl_dids c' = cl_dids c /\ cl_forks c' = cl_forks c).
Proof using All.
  intros Hs Hv Hfix Hm1 Hm2 Hm3. unfold afp_connect_volume.
  apply hoare_bind, hoare_bind, hoare_get, hoare_ret. rewrite Hs.
  apply hoare_bind. unfold FPOpenVol.
  apply hoare_bind, hoare_ask; [constructor|]. intros j _.
  apply hoare_bind, hoare_bind, hoare_get, hoare_ret. rewrite Hv.
  rewrite Hname, <- app_assoc. cbn [app].
  rewrite cstr_app by by apply utf8_nul_free, decompose16_ucs2. cbn [lift].
  apply hoare_bind, hoare_ret.
  destruct (volopen_built j wire_name bitmap (match password with [] => None | _ => Some password end)
    Hwire) as (r & -> & Hsub).
  cbn [lift]. apply hoare_bind, hoare_ret, hoare_bind, hoare_ask; [by constructor|].
  intros a [Hrc (rid & behind & Hpk)]. apply hoare_bind. unfold handle. rewrite Hpk.
  apply hoare_bind. rewrite volume_handled. cbn [lift].
  apply hoare_ret, hoare_ret, hoare_bind, hoare_modify, hoare_ret. rewrite Hrc.
  change (open_failed 0) with (@None (list Z)).
  apply hoare_bind, hoare_bind, hoare_get, hoare_ret. cbn [cl_volume set_volume snd].
  destruct printable_opened as [name ->]. cbn [lift]. apply hoare_bind, hoare_ret.
  destruct bitmap_bits as (_ & Ha & Hg & _).
  assert (volume_encoding opened_volume = volume_encoding w) as ->.
  { unfold volume_encoding, opened_volume, updated. cbn. by rewrite Ha. }
  assert (vo_signature opened_volume = AFP_VOL_FIXED) as ->.
  { unfold opened_volume, updated. cbn. by rewrite Hg. }
  set (k := fun m : message => _).
  assert (forall m, hoare (volume_server bitmap w name_off) (set_volume opened_volume c) (k m)
    (fun r c' => r.1 = (0, AFP_VOLUME_MOUNTED, false) /\
       cl_server c' = set_sv_path_encoding (volume_encoding w) s /\
       cl_volume c' = set_vo_extra_flags (unix_flags s opened_volume) opened_volume /\
       cl_dids c' = cl_dids c /\ cl_forks c' = cl_forks c)) as Hk.
  { intros m'. unfold k. change (negb (AFP_VOL_FIXED =? AFP_VOL_FIXED)) with false. cbv iota.
    apply hoare_bind, hoare_modify, hoare_bind, hoare_modify, hoare_ret. by rewrite <- Hs. }
  apply hoare_bind. destruct (negb (volume_encoding w =? _)); [|exact (Hk m)].
  match goal with |- context [report max ?text m] =>
    destruct (report_ok max text m Hm1 Hm2 Hm3) as [m' ->] end.
  exact (Hk m').
Qed.

(** C27: against a server that opens the volume, with fixed directories, the client asks
    for nothing else, takes over the volume's parameters and its composed name, switches
    the encoding of paths to that of the volume, and mounts it.  From AFP 3.0 on the volume
    counts as one with Unix privileges unless the server is a Netatalk that does not say
    so; the other flags are kept. *)
Theorem connect_volume_mounts c max m :
  cl_server c = s -> cl_volume c = v -> vo_signature w = AFP_VOL_FIXED ->
  0 <= ms_l m <= max -> max = Z.of_nat (length (ms_mesg m)) -> max < 2 ^ 32 ->
  hoare (volume_server bitmap w name_off) c
    (afp_connect_volume forkid_of unmount others password mounted max m)
    (fun r c' => r.1 = (0, AFP_VOLUME_MOUNTED, false) /\
       cl_server c' = set_sv_path_encoding
         (if has (vo_attributes w) kSupportsUTF8Names then kFPUTF8Name else kFPLongName) s /\
       (exists flags, cl_volume c' = set_vo_extra_flags flags opened_volume /\
          flags_decided s (vo_attributes w) (vo_extra_flags v) flags) /\
       cl_dids c' = cl_dids c /\ cl_forks c' = cl_forks c).
Proof using All.
  intros Hs Hv Hfix Hm1 Hm2 Hm3. eapply hoare_mono; [|by apply connect_volume_ok].
  intros r c' (H1 & H2 & H3 & H4 & H5). split_and!; [done|done| |done|done].
  exists (unix_flags s opened_volume). split; [done|].
  destruct bitmap_bits as (_ & Ha & _). pose proof (unix_flags_decided s opened_volume) as Hd.
  unfold opened_volume in Hd at 1 2. unfold updated in Hd. cbn in Hd. by rewrite Ha in Hd.
Qed.

End opening.

Definition closed_volume : afp_volume :=
  set_vo_volume_name (str "Disk" ++ replicate 29 0) zero_volume.

Definition sample_server : afp_server := cl_server sample_client.
Definition server_volume : afp_volume := ProtoVolume.sample_volume.
Definition sample_opened : afp_volume :=
  opened_volume (str "Disk") sample_server closed_volume server_volume.

Lemma connect_volume_mounts_witness :
  hoare (volume_server (volume_bitmap (sv_av_number sample_server)) server_volume 60)
    (set_volume closed_volume sample_client)
    (afp_connect_volume (fun _ => 0) (mret tt) [] [] AFP_VOLUME_UNMOUNTED 80
       (mk_message (replicate 80 0) 0))
    (fun r c' => r.1 = (0, AFP_VOLUME_MOUNTED, false) /\
       cl_server c' = set_sv_path_encoding
         (if has (vo_attributes server_volume) kSupportsUTF8Names then kFPUTF8Name else kFPLongName)
         sample_server /\
       (exists flags, cl_volume c' = set_vo_extra_flags flags sample_opened /\
          flags_decided sample_server (vo_attributes server_volume) (vo_extra_flags closed_volume)
            flags) /\
       cl_dids c' = cl_dids (set_volume closed_volume sample_client) /\
       cl_forks c' = cl_forks (set_volume closed_volume sample_client)) /\
  has (vo_attributes server_volume) kSupportsUTF8Names = true.
Proof.
  split; [|by vm_compute].
  apply (connect_volume_mounts (fun _ => 0) (mret tt) [] [] (str "Disk") sample_server
    closed_volume server_volume AFP_VOLUME_UNMOUNTED 60 (replicate 28 0)).
  - apply (bool_decide_unpack (Forall _ _)). by vm_compute.
  - by vm_compute.
  - vm_compute; lia.
  - vm_compute; lia.
  - by vm_compute.
  - by vm_compute.
  - by vm_compute.
  - repeat split; by vm_compute.
  - lia.
  - done.
  - done.
  - done.
  - simpl; lia.
  - done.
  - lia.
Defined.

(** A server that does not support the version counts as one where the user already is
    logged in, and a volume that fails to open for an unlisted reason as open. *)
Example bad_version_logs_in : (login_result kFPBadVersNum).2 = true.
Proof. reflexivity. Qed.

Example unlisted_error_opens : open_failed kFPUserNotAuth = None.
Proof. reflexivity. Qed.

End Session.
