(* ===== verification/Resource.v ===== *)
(** * AppleDouble files: lib/resource.c

    The operations on resource forks, Finder info, comments and the server icon that
    [ml_*] tries first.  A return value of 0 sends the caller on to the plain file, 1
    means that everything is done, a negative one is the error. *)

From S2P Require Import Prelude Constants Types Utils Codepage Dsi ReplyBlock ProtoFiles.
From S2P Require Import ProtoVolume Client Calls Did Users Lowlevel Create.

Module Resource.
Import Utils Codepage Dsi ReplyBlock ProtoFiles ProtoVolume Client Calls Did Users Lowlevel
  Create.

(** ** The desktop database *)

Definition ensure_dt_opened : M Z :=
  v ← volume; if 0 <? vo_dtrefnum v then mret 0 else FPOpenDT.

(** The size of the comment, or an error; other return codes go through. *)
Definition get_comment_size (basename : list Z) (did : Z) : M Z :=
  data ← ask (Memory 1024);
  v ← volume;
  opened ← (if vo_dtrefnum v =? 0 then FPOpenDT else mret 0);
  if opened <? 0 then mret (- EIO)
  else
    '(ret, comment) ← FPGetComment did basename (mk_sized 1024 0 data);
    mret (switch ret
      [([kFPAccessDenied], - EACCES); ([kFPMiscErr; kFPParamErr], - EIO);
       ([kFPItemNotFound; kFPObjectNotFound], - ENOENT); ([kFPNoErr], sb_size comment)] ret).

(** ** Operations that no AppleDouble file has *)

Definition appledouble_refuse (path : list Z) : M Z :=
  '(resource, _) ← extra_translate path; mret (if resource =? 0 then 0 else - EPERM).

Definition appledouble_chmod := appledouble_refuse.
Definition appledouble_unlink := appledouble_refuse.
Definition appledouble_mkdir := appledouble_refuse.
Definition appledouble_readlink := appledouble_refuse.
Definition appledouble_rmdir := appledouble_refuse.
Definition appledouble_chown := appledouble_refuse.
Definition appledouble_utime := appledouble_refuse.

(** The first path is the target of the link. *)
Definition appledouble_symlink (path1 path2 : list Z) : M Z := appledouble_refuse path1.
Definition appledouble_rename (path_from path_to : list Z) : M Z := appledouble_refuse path_to.

(** ** Open files *)

Definition appledouble_close (fp : afp_file_info) : M Z :=
  if fi_resource fp =? AFP_META_RESOURCE then
    rc ← FPCloseFork (fi_forkid fp); mret (if rc =? kFPNoErr then 0 else - EIO)
  else mret (switch (fi_resource fp) [([AFP_META_APPLEDOUBLE], - EBADF);
                                      ([AFP_META_SERVER_ICON], 1)] 0).

(** The return value, [ *totalwritten] and the file.  The Finder info that was fetched is
    not used; the data of a comment is read up to its NUL. *)
Definition appledouble_write (fuel : nat) (fp : afp_file_info) (data : list Z)
    (size offset : Z) (totalwritten : Z) : M (Z * Z * afp_file_info) :=
  let resource := fi_resource fp in
  if resource =? AFP_META_RESOURCE then
    '(ret, total) ← ll_write fuel data size offset (Some fp); mret (ret, total, fp)
  else if resource =? AFP_META_APPLEDOUBLE then mret (- EBADF, totalwritten, fp)
  else if resource =? AFP_META_FINDERINFO then
    if 32 <=? offset then mret (- EINVAL, totalwritten, fp)
    else
      let towrite := Z.min (i32 size) (32 - offset) in
      fp2 ← ask Uninitialised;
      basename ← lift (cstr (fi_basename fp));
      '(ret, _) ← ll_get_directory_entry basename (fi_did fp) kFPFinderInfoBit kFPFinderInfoBit
                    fp2;
      if ret <? 0 then mret (ret, totalwritten, fp)
      else
        bytes ← lift (slice 0 (Z.to_nat towrite) data);
        finderinfo ← lift (blit (Z.to_nat offset) bytes (fi_finderinfo fp));
        let fp := set_fi_finderinfo finderinfo fp in
        ret ← FPSetFileDirParms (fi_did fp) basename kFPFinderInfoBit fp;
        mret (switch ret [([kFPAccessDenied], (- EACCES, totalwritten, fp));
                          ([kFPObjectNotFound], (- ENOENT, totalwritten, fp))]
                (1, towrite, fp))
  else if resource =? AFP_META_COMMENT then
    basename ← lift (cstr (fi_basename fp));
    comment ← lift (cstr data);
    '(rc, written) ← FPAddComment (fi_did fp) basename comment;
    mret (switch rc [([kFPAccessDenied], (- EACCES, written, fp));
                     ([kFPObjectNotFound], (- ENOENT, written, fp));
                     ([kFPNoErr], (1, size, fp))] (- EIO, written, fp))
  else if resource =? AFP_META_SERVER_ICON then mret (- EPERM, totalwritten, fp)
  else mret (0, totalwritten, fp).

(** What a read leaves: the return value, the caller's buffer, [ *amount_read], [ *eof] and
    the file. *)
Record read_result := mk_read {
  rr_ret : Z; rr_buf : list Z; rr_amount : Z; rr_eof : Z; rr_fp : afp_file_info }.

(** The case of a comment, also reached from the one of the Finder info. *)
Definition read_comment (fp : afp_file_info) (buf : list Z) (size amount eof : Z)
    : M read_result :=
  if negb (fi_eof fp =? 0) then mret (mk_read 1 buf amount eof fp)
  else
    data ← ask (Memory size);
    basename ← lift (cstr (fi_basename fp));
    unset ← ask Unset;
    '(rc, comment) ← FPGetComment (fi_did fp) basename (mk_sized size unset data);
    if rc =? kFPNoErr then
      bytes ← lift (slice 0 (Z.to_nat (sb_size comment)) (sb_data comment));
      buf ← lift (blit 0 bytes buf);
      mret (mk_read 1 buf (sb_size comment) 1 (set_fi_eof 1 fp))
    else
      mret (mk_read (switch rc [([kFPAccessDenied], - EACCES);
                                ([kFPMiscErr; kFPParamErr], - EIO)] (- ENOENT))
              buf amount eof fp).

(** [icon] is [volume->server->icon].  The copies go to [buf+offset]. *)
Definition appledouble_read (icon : list Z) (fp : afp_file_info) (buf : list Z)
    (size offset : Z) : M read_result :=
  let resource := fi_resource fp in
  if resource =? AFP_META_RESOURCE then
    '(ret, buf, eof) ← ll_read buf size offset fp; mret (mk_read ret buf 0 eof fp)
  else if resource =? AFP_META_APPLEDOUBLE then mret (mk_read (- EBADF) buf 0 0 fp)
  else if resource =? AFP_META_FINDERINFO then
    if 32 <? offset then mret (mk_read (- EFAULT) buf 0 0 fp)
    else
      basename ← lift (cstr (fi_basename fp));
      '(ret, fp) ← ll_get_directory_entry basename (fi_did fp) kFPFinderInfoBit
                     kFPFinderInfoBit fp;
      if ret <? 0 then mret (mk_read ret buf 0 0 fp)
      else
        let tocopy := Z.min size (32 - offset) in
        bytes ← lift (slice 0 (Z.to_nat tocopy) (fi_finderinfo fp));
        buf ← lift (blit (Z.to_nat offset) bytes buf);
        read_comment fp buf size tocopy (if offset + tocopy =? 32 then 1 else 0)
  else if resource =? AFP_META_COMMENT then read_comment fp buf size 0 0
  else if resource =? AFP_META_SERVER_ICON then
    if 256 <? offset then mret (mk_read (- EFAULT) buf 0 0 fp)
    else
      let tocopy := Z.min size (256 - offset) in
      bytes ← lift (slice 0 (Z.to_nat tocopy) icon);
      buf ← lift (blit (Z.to_nat offset) bytes buf);
      mret (mk_read 1 buf tocopy 1 (set_fi_eof 1 fp))
  else mret (mk_read 0 buf 0 0 fp).

(** The access mode of the fork is O_WRONLY, and the length set is that of a data fork. *)
Definition appledouble_truncate (path : list Z) : M Z :=
  '(resource, newpath) ← extra_translate path;
  if resource =? AFP_META_RESOURCE then
    '(basename, dirid) ← parent_of newpath;
    fp ← ask Uninitialised; p ← ask Address;
    '(_, fp) ← FPOpenFork 1 dirid O_WRONLY basename fp;
    ret ← ll_zero_file (fi_forkid fp) 0;
    FPCloseFork (fi_forkid fp);; remove_opened_fork p;;
    mret (if ret <? 0 then ret else 1)
  else mret (switch resource
    [([AFP_META_APPLEDOUBLE], - EISDIR); ([AFP_META_FINDERINFO; AFP_META_COMMENT], 1);
     ([AFP_META_SERVER_ICON], - EPERM)] 0).

(** [get_dirid] into the file's own fields. *)
Definition locate (path : list Z) (fp : afp_file_info) : M (Z * afp_file_info) :=
  '(ret, (basename, did)) ← get_dirid path;
  mret (ret, if ret <? 0 then fp
             else set_fi_did did (set_fi_basename (as_array basename) fp)).

Definition appledouble_open (fuel : nat) (path : list Z) (flags p : Z) (fp : afp_file_info)
    : M (Z * afp_file_info) :=
  '(resource, newpath) ← extra_translate path;
  let fp := set_fi_resource resource fp in
  if resource =? AFP_META_RESOURCE then
    '(ret, fp) ← locate newpath fp;
    if ret <? 0 then mret (- ENOENT, fp)
    else
      '(ret, fp) ← ll_open fuel newpath flags p fp;
      mret (if ret <? 0 then ret else 1, fp)
  else if resource =? AFP_META_FINDERINFO then
    '(ret, fp) ← locate newpath fp;
    mret (if ret <? 0 then - ENOENT else 1, fp)
  else if resource =? AFP_META_COMMENT then
    '(ret, fp) ← locate newpath fp;
    if ret <? 0 then mret (- ENOENT, fp)
    else
      v ← volume;
      rc ← (if vo_dtrefnum v =? 0 then FPOpenDT else mret 0);
      mret (switch rc [([kFPParamErr; kFPMiscErr], - EIO)] 1, fp)
  else mret (switch resource [([AFP_META_APPLEDOUBLE], - EISDIR);
                              ([AFP_META_SERVER_ICON], 1)] 0, fp).

(** ** Attributes *)

Definition set_st_mode (x : Z) (st : stat) : stat :=
  mk_stat x (st_nlink st) (st_uid st) (st_gid st) (st_size st) (st_blksize st) (st_blocks st)
    (st_ctime st) (st_mtime st).
Definition set_st_size (x : Z) (st : stat) : stat :=
  mk_stat (st_mode st) (st_nlink st) (st_uid st) (st_gid st) x (st_blksize st) (st_blocks st)
    (st_ctime st) (st_mtime st).

(** The [stat] starts out as zeros. *)
Definition appledouble_getattr (path : list Z) : M (Z * stat) :=
  '(resource, newpath) ← extra_translate path;
  if resource =? AFP_META_RESOURCE then
    '(_, st) ← ll_getattr newpath 1; mret (1, st)
  else if resource =? AFP_META_APPLEDOUBLE then
    mret (1, set_st_mode (Z.lor 0x1c0 S_IFDIR) zero_stat)
  else if resource =? AFP_META_FINDERINFO then
    '(_, st) ← ll_getattr newpath 0;
    mret (1, set_st_size 32 (set_st_mode (Z.lor (st_mode st) S_IFREG) st))
  else if resource =? AFP_META_COMMENT then
    '(ret, st) ← ll_getattr newpath 0;
    if ret <? 0 then mret (ret, st)
    else
      '(ret, (basename, did)) ← get_dirid newpath;
      if ret <? 0 then mret (ret, st)
      else
        ret ← get_comment_size basename did;
        if ret <? 0 then mret (ret, st)
        else mret (1, set_st_size ret (set_st_mode (Z.lor (st_mode st) S_IFREG) st))
  else if resource =? AFP_META_SERVER_ICON then
    mret (1, set_st_size 256 (set_st_mode (Z.lor S_IFREG 0x124) zero_stat))
  else mret (0, zero_stat).

(** ** Listing *)

(** [strcat] into the array of the name. *)
Definition add_fp (newchain : list afp_file_info) (fp : afp_file_info) (suffix : list Z)
    (size : Z) : option (list afp_file_info) :=
  name ← cstr (fi_name fp);
  array ← blit 0 (name ++ suffix ++ [0]) (fi_name fp);
  Some (set_permissions (Z.lor (up_permissions (fi_unixprivs fp)) S_IFREG)
          (set_fi_resourcesize size (set_fi_name array fp)) :: newchain).

(** The loop over the files of the directory, with the chain of the files added.
    Removing an entry frees it, and both loops then read its link: [crash]. *)
Fixpoint appledouble_entries (files newchain : list afp_file_info)
    : M (list afp_file_info) :=
  match files with
  | [] => mret newchain
  | fp :: files =>
    newchain ← lift (add_fp newchain fp finderinfo_string 32);
    opened ← ensure_dt_opened;
    newchain ← (if opened =? 0 then
                  name ← lift (cstr (fi_name fp));
                  size ← get_comment_size name (fi_did fp);
                  if 0 <? size then lift (add_fp newchain fp comment_string 32)
                  else mret newchain
                else mret newchain);
    if has (up_permissions (fi_unixprivs fp)) S_IFREG && negb (fi_resourcesize fp =? 0)
    then appledouble_entries files newchain
    else crash
  end.

(** A failed [ll_readdir] leaves the list the loop runs over unset. *)
Definition appledouble_readdir (fuel : nat) (path : list Z) : M (Z * list afp_file_info) :=
  '(resource, newpath) ← extra_translate path;
  if resource =? AFP_META_APPLEDOUBLE then
    '(ret, files) ← ll_readdir fuel newpath 1;
    if ret <? 0 then crash
    else newchain ← appledouble_entries files []; mret (1, files ++ newchain)
  else mret (switch resource
    [([AFP_META_RESOURCE; AFP_META_SERVER_ICON; AFP_META_COMMENT], - ENOTDIR)] 0, []).

End Resource.
