(* ===== verification/Midlevel.v ===== *)
(** * The file system operations: lib/midlevel.c

    One program per operation the FUSE and command line clients call.  [ml_creat] is in
    [Create]. *)

From stdpp Require Import gmap.
From S2P Require Import Prelude Constants Types Utils Codepage Dsi ReplyBlock ProtoFiles.
From S2P Require Import ProtoVolume Client Calls Did Users Lowlevel Create Resource Auth.

Module Midlevel.
Import Utils Codepage Dsi ReplyBlock ProtoFiles ProtoVolume Client Calls Did Users Lowlevel
  Create Resource.

(** ** Helpers *)

(** The list after [add_file_by_name]; the other fields of the new element are what
    [malloc] left. *)
Definition add_file_by_name (base : list afp_file_info) (fresh : afp_file_info)
    (filename : list Z) : option (list afp_file_info) :=
  name ← slice 0 768 filename; Some (base ++ [set_fi_name name fresh]).

Definition set_uidgid (fp : afp_file_info) (uid gid : Z) : M afp_file_info :=
  '(_, (newuid, newgid)) ← translate_uidgid_to_server uid gid;
  mret (set_fi_unixprivs (set_up_gid newgid (set_up_uid newuid (fi_unixprivs fp))) fp).

Definition update_time : M Z := now ← ask Gettimeofday; mret (u32 now).

(** [if (convert_path_to_afp(...)) return -EINVAL;] *)
Definition converting {A} (path : list Z) (fail : Z -> A) (k : list Z -> M A) : M A :=
  converted ← to_afp path;
  match converted with None => mret (fail (- EINVAL)) | Some cp => k cp end.

(** [if (volume_is_readonly(volume)) return -EACCES;] *)
Definition writable {A} (fail : Z -> A) (k : M A) : M A :=
  ro ← volume_is_readonly; if ro : bool then mret (fail (- EACCES)) else k.

(** [if (invalid_filename(volume->server,path)) return -ENAMETOOLONG;] *)
Definition valid_name {A} (path : list Z) (fail : Z -> A) (k : M A) : M A :=
  toolong ← name_too_long path;
  if toolong : bool then mret (fail (- ENAMETOOLONG)) else k.

(** [ret=appledouble_...; if (ret<0) return ret; if (ret==1) return 0;] *)
Definition not_appledouble (m : M Z) (k : M Z) : M Z :=
  ret ← m; if ret <? 0 then mret ret else if ret =? 1 then mret 0 else k.

Abbreviation same := (fun e : Z => e).

(** ** Open files *)

(** The return value, the address stored through [newfp] and the file there, or [None]
    where nothing was stored or the file was freed again. *)
Definition ml_open (fuel : nat) (path : list Z) (flags : Z)
    : M (Z * option (Z * afp_file_info)) :=
  converting path (fun e => (e, None)) (fun converted_path =>
  valid_name converted_path (fun e => (e, None)) (
  ro ← volume_is_readonly;
  if ro && has flags (Z.lor O_WRONLY (Z.lor O_RDWR (Z.lor O_TRUNC (Z.lor O_APPEND O_CREAT))))
  then mret (- EACCES, None)
  else
    p ← ask Address;
    '(ret, fp) ← appledouble_open fuel path flags p zero_file_info;
    if ret <? 0 then mret (ret, Some (p, fp))
    else if ret =? 1 then mret (0, Some (p, fp))
    else
      '(ret, fp) ← locate converted_path fp;
      if ret <? 0 then mret (- ENOENT, Some (p, fp))
      else
        '(ret, fp) ← ll_open fuel converted_path flags p fp;
        if ret <? 0 then ask (Free p);; mret (ret, None)
        else mret (0, Some (p, fp)))).

(** [None] for the file is NULL; its error is not negated, nor is EIO. *)
Definition ml_close (path : list Z) (file : option (Z * afp_file_info)) : M Z :=
  converting path same (fun converted_path =>
  valid_name converted_path same (
  match file with
  | None => mret EBADF
  | Some (p, fp) =>
    if negb (fi_resource fp =? 0) then appledouble_close fp
    else
      rc ← FPCloseFork (fi_forkid fp);
      if rc =? kFPNoErr then remove_opened_fork p;; mret 0 else mret EIO
  end)).

Definition ml_read (icon : list Z) (path buf : list Z) (size offset : Z) (fp : afp_file_info)
    : M read_result :=
  converting path (fun e => mk_read e buf 0 0 fp) (fun _ =>
  let plain buf fp :=
    '(ret, buf, eof) ← ll_read buf size offset fp; mret (mk_read ret buf 0 eof fp) in
  if negb (fi_resource fp =? 0) then
    r ← appledouble_read icon fp buf size offset;
    if rr_ret r <? 0 then mret r
    else if rr_ret r =? 1 then
      mret (mk_read (rr_amount r) (rr_buf r) (rr_amount r) (rr_eof r) (rr_fp r))
    else plain (rr_buf r) (rr_fp r)
  else plain buf fp).

(** The return value is an [int]. *)
Definition ml_write (fuel : nat) (path data : list Z) (size offset : Z) (fp : afp_file_info)
    (uid gid : Z) : M (Z * afp_file_info) :=
  av ← version;
  if (av <? 30) && (AFP_MAX_AFP2_FILESIZE <? size) then mret (- EFBIG, fp)
  else
    converting path (fun e => (e, fp)) (fun _ =>
    writable (fun e => (e, fp)) (
    '(ret, totalwritten, fp) ← appledouble_write fuel fp data size offset 0;
    if ret <? 0 then mret (ret, fp)
    else if ret =? 1 then mret (i32 totalwritten, fp)
    else
      flags ← extra_flags;
      fp ← (if has flags VOLUME_EXTRA_FLAGS_VOL_SUPPORTS_UNIX
            then fp ← set_uidgid fp uid gid; mret (set_permissions 0x81a4 fp)
            else mret fp);
      now ← update_time;
      let fp := set_fi_modification_date now fp in
      '(ret, totalwritten) ← ll_write fuel data size offset (Some fp);
      mret (if ret <? 0 then ret else i32 totalwritten, fp))).

(** ** Directories and attributes *)

Definition ml_readdir (fuel : nat) (path : list Z) : M (Z * list afp_file_info) :=
  converting path (fun e => (e, [])) (fun converted_path =>
  '(ret, files) ← appledouble_readdir fuel converted_path;
  if ret <? 0 then mret (ret, [])
  else if ret =? 1 then mret (0, files)
  else ll_readdir fuel converted_path 0).

Definition ml_getattr (path : list Z) : M (Z * stat) :=
  converting path (fun e => (e, zero_stat)) (fun converted_path =>
  '(ret, st) ← appledouble_getattr converted_path;
  if ret <? 0 then mret (ret, st)
  else if 0 <? ret then mret (0, st)
  else ll_getattr path 0).

(** What [ml_chmod] and [ml_chown] do on a volume without Unix privileges. *)
Definition without_privileges (path : list Z) : M Z :=
  flags ← extra_flags;
  if has flags VOLUME_EXTRA_FLAGS_IGNORE_UNIXPRIVS
  then '(ret, _) ← ll_getattr path 0; mret ret
  else mret (- ENOSYS).

Definition supports_unix : M bool :=
  flags ← extra_flags; mret (has flags VOLUME_EXTRA_FLAGS_VOL_SUPPORTS_UNIX).

(** Of the errors of [set_unixprivs] only ENOSYS is passed on. *)
Definition ml_chmod (path : list Z) (mode : Z) : M Z :=
  valid_name path same (
  writable same (
  unix ← supports_unix;
  if negb unix then without_privileges path
  else
    converting path same (fun converted_path =>
    not_appledouble (appledouble_chmod path) (
    '(basename, dirid) ← parent_of converted_path;
    fp ← ask Uninitialised;
    '(rc, fp) ← get_unixprivs dirid basename fp;
    if negb (rc =? 0) then mret rc
    else
      let mode := Z.ldiff mode S_IFDIR in
      let u := fi_unixprivs fp in
      if Z.ldiff (up_permissions u) S_IFDIR =? mode then mret 0
      else
        '(rc, (uid, gid)) ← translate_uidgid_to_client (up_uid u) (up_gid u);
        if negb (rc =? 0) then mret (- EIO)
        else
          egid ← ask Getgid; euid ← ask Geteuid;
          if negb (gid =? egid) && negb (uid =? euid) then mret (- EPERM)
          else
            rc ← set_unixprivs dirid basename (set_permissions mode fp);
            mret (if rc =? - ENOSYS then - ENOSYS else 0))))).

(** The owner and the group asked for are not used. *)
Definition ml_chown (path : list Z) (uid gid : Z) : M Z :=
  converting path same (fun converted_path =>
  valid_name converted_path same (
  writable same (
  not_appledouble (appledouble_chown path) (
  unix ← supports_unix;
  if negb unix then without_privileges path
  else
    '(basename, dirid) ← parent_of converted_path;
    fp ← ask Uninitialised;
    '(rc, fp) ← get_unixprivs dirid basename fp;
    if negb (rc =? 0) then mret rc
    else
      rc ← set_unixprivs dirid basename fp;
      mret (switch rc [([- ENOSYS], - ENOSYS); ([kFPAccessDenied], - EACCES);
                       ([kFPObjectNotFound], - ENOENT)] 0))))).

Definition ml_utime (path : list Z) (modtime : Z) : M Z :=
  writable same (
  let fp := set_fi_modification_date (u32 modtime) zero_file_info in
  valid_name path same (
  converting path same (fun converted_path =>
  not_appledouble (appledouble_utime path) (
  '(basename, dirid) ← parent_of converted_path;
  dir ← is_dir dirid basename;
  rc ← (if negb (dir =? 0) then FPSetDirParms dirid basename kFPModDateBit fp
        else FPSetFileParms dirid basename kFPModDateBit fp);
  mret (switch rc [([kFPAccessDenied], - EACCES); ([kFPObjectNotFound], - ENOENT)] 0))))).

(** ** Creating, removing and renaming *)

(** The [switch] on the return code of FPDelete. *)
Definition delete_errno (rc : Z) : option Z :=
  switch rc [([kFPAccessDenied], Some EACCES); ([kFPObjectLocked], Some EBUSY);
             ([kFPObjectNotFound], Some ENOENT); ([kFPVolLocked], Some EACCES);
             ([kFPObjectTypeErr; kFPMiscErr; kFPParamErr; -1], Some EINVAL)] None.

Definition ml_unlink (path : list Z) : M Z :=
  converting path same (fun converted_path =>
  writable same (
  not_appledouble (appledouble_unlink path) (
  '(basename, dirid) ← parent_of converted_path;
  dir ← is_dir dirid basename;
  if negb (dir =? 0) then mret (- EISDIR)
  else
    valid_name converted_path same (
    rc ← FPDelete dirid basename;
    mret (if rc =? kFPDirNotEmpty then - EINVAL else - default 0 (delete_errno rc)))))).

Definition ml_mkdir (path : list Z) (mode : Z) : M Z :=
  converting path same (fun converted_path =>
  valid_name path same (
  writable same (
  not_appledouble (appledouble_mkdir path) (
  '(basename, dirid) ← parent_of converted_path;
  rc ← FPCreateDir dirid basename;
  mret (- switch rc
    [([kFPAccessDenied], EACCES); ([kFPDiskFull], ENOSPC); ([kFPObjectNotFound], ENOENT);
     ([kFPObjectExists], EEXIST); ([kFPVolLocked], EBUSY);
     ([kFPFlatVol; kFPMiscErr; kFPParamErr; -1], EFAULT)] 0))))).

Definition ml_rmdir (path : list Z) : M Z :=
  valid_name path same (
  converting path same (fun converted_path =>
  writable same (
  not_appledouble (appledouble_rmdir path) (
  '(basename, dirid) ← parent_of converted_path;
  dir ← is_dir dirid basename;
  if dir =? 0 then mret (- ENOTDIR)
  else
    rc ← FPDelete dirid basename;
    if rc =? kFPDirNotEmpty then mret (- ENOTEMPTY)
    else match delete_errno rc with
         | Some e => mret (- e)
         | None => remove_did_entry converted_path;; mret 0
         end)))).

(** The offset is not used; when the file cannot be opened the result is that of
    [appledouble_truncate], 0. *)
Definition ml_truncate (fuel : nat) (path : list Z) (offset : Z) : M Z :=
  converting path same (fun converted_path =>
  valid_name converted_path same (
  writable same (
  not_appledouble (appledouble_truncate path) (
  '(rc, file) ← ml_open fuel path O_WRONLY;
  if negb (rc =? 0) then mret 0
  else
    '(p, fp) ← lift file;
    ret ← ll_zero_file (fi_forkid fp) 0;
    if negb (ret =? 0) then mret (- ret)
    else
      FPCloseFork (fi_forkid fp);; remove_opened_fork p;; ask (Free p);; mret 0)))).

(** The second [switch] looks at [ret], which is 0, and not at the result of FPOpenFork. *)
Definition ml_symlink (path1 path2 : list Z) : M Z :=
  av ← version;
  if av <? 30 then mret (- ENOSYS)
  else
    converting path1 same (fun converted_path1 =>
    converting path2 same (fun converted_path2 =>
    writable same (
    not_appledouble (appledouble_symlink path1 path2) (
    '(basename2, dirid2) ← parent_of converted_path2;
    rc ← FPCreateFile kFPHardCreate dirid2 basename2;
    let ret := switch rc
      [([kFPAccessDenied], EACCES); ([kFPDiskFull], ENOSPC); ([kFPObjectExists], EEXIST);
       ([kFPObjectNotFound], ENOENT); ([kFPFileBusy; kFPVolLocked], EBUSY);
       ([kFPNoErr], 0)] EIO in
    if negb (ret =? 0) then mret (- ret)
    else
      fp ← ask Uninitialised; p ← ask Address;
      '(_, fp) ← FPOpenFork 0 dirid2 (Z.lor AFP_OPENFORK_ALLOWWRITE AFP_OPENFORK_ALLOWREAD)
                   basename2 fp;
      add_opened_fork p;;
      FPWriteExt (fi_forkid fp) 0 (Z.of_nat (length converted_path1)) (converted_path1 ++ [0]);;
      rc ← FPCloseFork (fi_forkid fp);
      if negb (rc =? kFPNoErr) then mret (- EIO)
      else
        remove_opened_fork p;;
        let fp := set_fi_finderinfo ([115; 108; 110; 107; 114; 104; 97; 112]
                                     ++ replicate 24 0) fp in
        rc ← FPSetFileDirParms dirid2 basename2 kFPFinderInfoBit fp;
        mret (- switch rc [([kFPAccessDenied], EPERM); ([kFPBitmapErr], ENOSYS);
                           ([kFPObjectNotFound], ENOENT); ([0], 0)] EIO))))).

(** The return value and the caller's buffer of [size] bytes. *)
Definition ml_readlink (path : list Z) (size : Z) : M (Z * list Z) :=
  let buf := replicate (Z.to_nat size) 0 in
  let link_path := replicate 768 0 in
  converting path (fun e => (e, buf)) (fun converted_path =>
  '(basename, dirid) ← parent_of converted_path;
  fp ← ask Uninitialised; p ← ask Address;
  '(rc, fp) ← FPOpenFork 0 dirid (Z.lor AFP_OPENFORK_ALLOWWRITE AFP_OPENFORK_ALLOWREAD)
                basename fp;
  let ret := switch rc
    [([kFPAccessDenied], EACCES); ([kFPObjectNotFound], ENOENT); ([kFPObjectLocked], EROFS);
     ([kFPObjectTypeErr], EISDIR); ([kFPParamErr], EACCES); ([kFPTooManyFilesOpen], EMFILE);
     ([kFPVolLocked; kFPDenyConflict; kFPMiscErr; kFPBitmapErr; 0], 0)] EFAULT in
  if negb (ret =? 0) then mret (- ret, buf)
  else
    add_opened_fork p;;
    av ← version;
    let buffer := mk_rx 0 size link_path 0 in
    '(rc, buffer) ← (if av <? 30 then FPRead (fi_forkid fp) 0 size buffer
                     else FPReadExt (fi_forkid fp) 0 size buffer);
    let ret := switch rc [([kFPAccessDenied], EACCES); ([kFPLockErr], EBUSY);
                          ([kFPMiscErr; kFPParamErr], EIO)] 0 in
    if negb (ret =? 0) then mret (- ret, buf)
    else
      rc ← FPCloseFork (fi_forkid fp);
      if negb (rc =? kFPNoErr) then mret (- EIO, buf)
      else
        remove_opened_fork p;;
        s ← server;
        '(buf, _) ← lift (convert_path_to_unix (sv_path_encoding s) buf (rx_data buffer) 768);
        mret (0, buf)).

(** The whole destination path, not its base name, is looked up in its parent.  In the
    last two cases of the outer [switch] and before its inner [default], a [break] is
    missing. *)
Definition ml_rename (path_from path_to : list Z) : M Z :=
  converting path_from same (fun converted_path_from =>
  converting path_to same (fun converted_path_to =>
  writable same (
  '(basename_from, dirid_from) ← parent_of converted_path_from;
  '(basename_to, dirid_to) ← parent_of converted_path_to;
  dir ← is_dir dirid_to converted_path_to;
  rc ← (if negb (dir =? 0)
        then FPMoveAndRename dirid_from dirid_to basename_from (Some basename_to) basename_from
        else FPMoveAndRename dirid_from dirid_to basename_from None basename_to);
  if rc =? kFPObjectExists then
    FPDelete dirid_to basename_to;;
    rc ← FPMoveAndRename dirid_from dirid_to basename_from None basename_to;
    mret (- switch rc [([kFPObjectLocked; kFPAccessDenied], EACCES); ([kFPCantRename], EROFS);
                       ([kFPObjectExists; kFPObjectNotFound], ENOENT)] 0)
  else
    mret (- switch rc [([kFPObjectLocked; kFPAccessDenied], EACCES); ([kFPCantRename], EROFS);
                       ([kFPObjectNotFound; kFPNoErr], 0)] EIO)))).

(** ** The volume *)

(** The fields of [struct statvfs] that are not set to 0. *)
Record statvfs := mk_statvfs {
  f_blocks : Z; f_bfree : Z; f_bsize : Z; f_bavail : Z; f_namemax : Z }.

Definition statfs_bits (av : Z) : Z :=
  if av <? 30 then Z.lor kFPVolBytesFreeBit kFPVolBytesTotalBit
  else Z.lor kFPVolExtBytesFreeBit (Z.lor kFPVolExtBytesTotalBit kFPVolBlockSizeBit).

Definition ml_statfs : M (Z * statvfs) :=
  av ← version;
  ret ← FPGetVolParms (statfs_bits av);
  if negb (ret =? kFPNoErr) then mret (- EIO, mk_statvfs 0 0 0 0 0)
  else
    modify (fun c => if vo_f_bsize (cl_volume c) =? 0
                     then set_volume (set_vo_f_bsize 4096 (cl_volume c)) c else c);;
    v ← volume;
    let bfree := vo_f_bfree v / vo_f_bsize v in
    mret (0, mk_statvfs (vo_f_blocks v / vo_f_bsize v) bfree (vo_f_bsize v) bfree 255).

(** The result of the change is dropped. *)
Definition ml_passwd (r : Auth.registry) (using_uam : Z)
    (username oldpasswd newpasswd : list Z) : M Z :=
  _ ← Auth.afp_dopasswd r using_uam username oldpasswd newpasswd; mret 0.

(** ** Lists of files

    [afp_ml_filebase_free] with the elements that are allocated and their [next]. *)
Fixpoint afp_ml_filebase_free (fuel : nat) (heap : gmap Z Z) (p : Z) : outcome (gmap Z Z) :=
  if p =? 0 then Done heap
  else
    match fuel with
    | O => Starved
    | S fuel =>
      match heap !! p with
      | None => Crashed
      | Some next => afp_ml_filebase_free fuel (delete p heap) next
      end
    end.

Fixpoint linked (heap : gmap Z Z) (p : Z) (l : list Z) : Prop :=
  match l with
  | [] => p = 0
  | q :: l => p = q /\ q <> 0 /\ exists next, heap !! q = Some next /\ linked heap next l
  end.

Lemma linked_delete heap p l q : q ∉ l -> linked heap p l -> linked (delete q heap) p l.
Proof.
  revert p. induction l as [|x l IH]; intros p; [done|]. intros [Hx Hl]%not_elem_of_cons.
  intros (-> & H0 & next & Hn & Hr). split_and!; [done|done|]. exists next.
  rewrite lookup_delete_ne by done. split; [done|by apply IH].
Qed.

(** Every element of the list is freed once, and nothing else. *)
Theorem filebase_freed fuel heap p l :
  linked heap p l -> NoDup l -> (length l <= fuel)%nat ->
  exists heap', afp_ml_filebase_free fuel heap p = Done heap' /\
    forall q, heap' !! q = if decide (q ∈ l) then None else heap !! q.
Proof.
  revert fuel heap p. induction l as [|x l IH]; intros fuel heap p Hl Hn Hf.
  - cbn in Hl. subst p. exists heap. split; [by destruct fuel|]. intros q. by rewrite decide_False by set_solver.
  - destruct Hl as (-> & H0 & next & Hx & Hr). apply NoDup_cons in Hn as [Hxl Hn].
    destruct fuel as [|fuel]; [cbn in Hf; lia|]. cbn [afp_ml_filebase_free].
    rewrite (proj2 (Z.eqb_neq x 0)), Hx by done.
    destruct (IH fuel (delete x heap) next) as (heap' & -> & Hh);
      [by apply linked_delete|done|cbn in Hf; lia|].
    exists heap'. split; [done|]. intros q. rewrite Hh. destruct (decide (q = x)) as [->|Hne].
    + rewrite decide_False, lookup_delete_eq by done. by rewrite decide_True by by left.
    + rewrite lookup_delete_ne by done. by apply decide_ext; set_solver.
Qed.

Lemma filebase_freed_witness :
  exists heap', afp_ml_filebase_free 2 {[4 := 9; 9 := 0; 20 := 4]} 4 = Done heap' /\
    heap' !! 9 = None /\ heap' !! 20 = Some 4.
Proof.
  destruct (filebase_freed 2 {[4 := 9; 9 := 0; 20 := 4]} 4 [4; 9]) as (heap' & Hr & Hh).
  - split_and!; [done|done|]. exists 9. split; [done|]. split_and!; [done|done|]. by exists 0.
  - by apply (bool_decide_unpack (NoDup [4; 9])).
  - cbn. lia.
  - exists heap'. split; [exact Hr|]. by rewrite !Hh.
Defined.

End Midlevel.
