(* ===== verification/ReadOnly.v ===== *)
(** * Read-only volumes

    On a volume that is read-only, by its attributes or by a mount option, no
    operation of [Midlevel] sends a request that could change it. *)

From S2P Require Import Prelude Constants Types Utils Codepage Dsi ReplyBlock ProtoFiles.
From S2P Require Import ProtoVolume Client Calls Did Users Lowlevel Create Resource.
From S2P Require Import Midlevel.

Module ReadOnly.
Import Utils Codepage Dsi ReplyBlock ProtoFiles ProtoVolume Client Calls Did Users Lowlevel
  Create Resource Midlevel.

(** ** The operations *)

Inductive operation :=
| Open (path : list Z) (flags : Z)
| Close (path : list Z) (file : option (Z * afp_file_info))
| Creat (path : list Z) (mode : Z)
| Read (icon path buf : list Z) (size offset : Z) (fp : afp_file_info)
| Write (path data : list Z) (size offset : Z) (fp : afp_file_info) (uid gid : Z)
| Readdir (path : list Z)
| Getattr (path : list Z)
| Chmod (path : list Z) (mode : Z)
| Chown (path : list Z) (uid gid : Z)
| Utime (path : list Z) (modtime : Z)
| Unlink (path : list Z)
| Mkdir (path : list Z) (mode : Z)
| Rmdir (path : list Z)
| Truncate (path : list Z) (offset : Z)
| Symlink (path1 path2 : list Z)
| Readlink (path : list Z) (size : Z)
| Rename (path_from path_to : list Z)
| Statfs.

Definition perform (fuel : nat) (op : operation) : M unit :=
  match op with
  | Open path flags => _ ← ml_open fuel path flags; mret tt
  | Close path file => _ ← ml_close path file; mret tt
  | Creat path mode => _ ← ml_creat path mode; mret tt
  | Read icon path buf size offset fp => _ ← ml_read icon path buf size offset fp; mret tt
  | Write path data size offset fp uid gid =>
    _ ← ml_write fuel path data size offset fp uid gid; mret tt
  | Readdir path => _ ← ml_readdir fuel path; mret tt
  | Getattr path => _ ← ml_getattr path; mret tt
  | Chmod path mode => _ ← ml_chmod path mode; mret tt
  | Chown path uid gid => _ ← ml_chown path uid gid; mret tt
  | Utime path modtime => _ ← ml_utime path modtime; mret tt
  | Unlink path => _ ← ml_unlink path; mret tt
  | Mkdir path mode => _ ← ml_mkdir path mode; mret tt
  | Rmdir path => _ ← ml_rmdir path; mret tt
  | Truncate path offset => _ ← ml_truncate fuel path offset; mret tt
  | Symlink path1 path2 => _ ← ml_symlink path1 path2; mret tt
  | Readlink path size => _ ← ml_readlink path size; mret tt
  | Rename path_from path_to => _ ← ml_rename path_from path_to; mret tt
  | Statfs => _ ← ml_statfs; mret tt
  end.

(** ** Requests that only look *)

Definition command_of (r : request) : option Z := head (rq_body r).

Definition looking : list Z :=
  [afpByteRangeLock; afpByteRangeLockExt; afpOpenFork; afpCloseFork; afpFlushFork; afpRead;
   afpReadExt; afpGetFileDirParms; afpEnumerate; afpEnumerateExt2; afpGetVolParms; afpOpenDT;
   afpGetComment].

Definition only_looks (r : request) : Prop :=
  exists cmd, command_of r = Some cmd /\ cmd ∈ looking.

Definition observer : contract :=
  {| guarantee := only_looks; rely := fun _ _ _ => True; may_crash := True; may_starve := True |}.

(** The program only looks, and the volume stays read-only. *)
Definition safe {A} (m : M A) : Prop :=
  forall c, volume_readonly (cl_volume c) = true ->
  hoare observer c m (fun _ c' => volume_readonly (cl_volume c') = true).

(** ** Rules *)

Lemma safe_ret {A} (a : A) : safe (mret a).
Proof. intros c Hc. by apply hoare_ret. Qed.

Lemma safe_bind {A B} (m : M A) (f : A -> M B) :
  safe m -> (forall a, safe (f a)) -> safe (m ≫= f).
Proof.
  intros Hm Hf c Hc. apply hoare_bind. eapply hoare_mono; [|by apply Hm].
  intros a c' Hc'. by apply Hf.
Qed.

Lemma safe_get : safe get.
Proof. intros c Hc. by apply hoare_get. Qed.

Lemma safe_modify f :
  (forall c, volume_readonly (cl_volume (f c)) = volume_readonly (cl_volume c)) ->
  safe (modify f).
Proof. intros Hf c Hc. apply hoare_modify. by rewrite Hf. Qed.

Lemma safe_send r : only_looks r -> safe (send r).
Proof. intros Hr c Hc. apply hoare_ask; [by repeat constructor|done]. Qed.

Lemma safe_ask {X : Set} (e : env X) : requests_of e = [] -> safe (ask e).
Proof. intros He c Hc. apply hoare_ask; [|done]. unfold guarantees. by rewrite He. Qed.

Lemma safe_lift {A} (o : option A) : safe (lift o).
Proof. intros c Hc. by apply hoare_lift. Qed.

Lemma safe_lift_bind {A B} (o : option A) (f : A -> M B) :
  (forall a, o = Some a -> safe (f a)) -> safe (lift o ≫= f).
Proof.
  intros Hf c Hc. apply hoare_bind, hoare_lift; [|done]. intros a Ha. by apply Hf.
Qed.

Lemma safe_crash {A} : safe (@crash A).
Proof. done. Qed.

Lemma safe_out_of_fuel {A} : safe (@out_of_fuel A).
Proof. done. Qed.

Lemma safe_switch {A} x (cases : list (list Z * M A)) d :
  Forall (fun lc => safe lc.2) cases -> safe d -> safe (switch x cases d).
Proof. intros Hc Hd. induction Hc as [|[l m] cases Hm _ IH]; simpl; [done|]. by case_match. Qed.

(** Behind the test for a read-only volume nothing happens. *)
Lemma safe_writable {A} (fail : Z -> A) k : safe (writable fail k).
Proof.
  intros c Hc. unfold writable, volume_is_readonly, volume.
  apply hoare_bind, hoare_bind, hoare_bind, hoare_get, hoare_ret, hoare_ret.
  rewrite Hc. by apply hoare_ret.
Qed.

(** ** What the requests start with *)

Lemma path_request_head junk server cmd fixed name body :
  0 <= cmd < 256 -> path_request junk server (st8 cmd ++ fixed) name = Some body ->
  head body = Some cmd.
Proof.
  intros Hc. rewrite st8_byte by done. unfold path_request, put_path.
  destruct (blit 0 _ _) as [msg|] eqn:Eb; [|done]. cbn [mbind option_bind].
  apply blit_Some in Eb as [Hl ->]. cbn [take app drop].
  destruct (copy_path _ _ _); [|done]. cbn [mbind option_bind].
  destruct (unixpath_to_afppath _ _); [|done]. cbn [mbind option_bind].
  intros [= <-]. done.
Qed.

Lemma enumerate_request_head junk server cmd fixed name sub r :
  0 <= cmd < 256 -> enumerate_request junk server (st8 cmd ++ fixed) name sub = Some r ->
  command_of r = Some cmd.
Proof.
  intros Hc. rewrite st8_byte by done. unfold enumerate_request, put_path.
  destruct (blit 0 _ _) as [msg|] eqn:Eb; [|done]. cbn [mbind option_bind].
  apply blit_Some in Eb as [Hl ->]. cbn [take app drop].
  destruct (copy_path _ _ _); [|done]. cbn [mbind option_bind].
  destruct (unixpath_to_afppath _ _); [|done]. cbn [mbind option_bind].
  intros [= <-]. done.
Qed.

(** ** Automation *)

Create HintDb safe discriminated.
#[export] Hint Resolve @safe_ret @safe_lift @safe_get @safe_crash @safe_out_of_fuel
  @safe_writable : safe.

Ltac safe_step :=
  match goal with
  | |- forall _, _ => intros ?
  | |- safe (let '(_, _) := ?x in _) => destruct x
  | |- safe (_ ≫= _) => apply safe_bind
  | |- safe (ask _) => apply safe_ask; reflexivity
  | |- safe (if ?b then _ else _) => destruct b
  | |- safe (match ?x with _ => _ end) => destruct x
  | |- safe (switch _ _ _) => apply safe_switch
  | |- Forall _ _ => repeat constructor; cbn [snd]
  | |- safe _ => solve [auto with safe nocore]
  end.
Ltac solve_safe := repeat safe_step.

Lemma safe_server : safe server.
Proof. unfold server. solve_safe. Qed.
Lemma safe_volume : safe volume.
Proof. unfold volume. solve_safe. Qed.
Lemma safe_junk : safe junk.
Proof. unfold junk. solve_safe. Qed.
Lemma safe_handle {A} f a (x : A) : safe (handle f a x).
Proof. unfold handle. solve_safe. Qed.
#[export] Hint Resolve safe_server safe_volume safe_junk @safe_handle : safe.

(** ** Calls *)

Lemma safe_fixed r cmd : command_of r = Some cmd -> cmd ∈ looking -> safe (send r).
Proof. intros. apply safe_send. by exists cmd. Qed.

(** The first byte of a request is one of [looking]. *)
Ltac looks :=
  eapply safe_fixed; [first [eassumption | reflexivity]|
                      unfold looking; rewrite !list_elem_of_In; simpl; tauto].

(** A request built by [path_request]: read its command off [H]. *)
Ltac path_command H :=
  let E := fresh in
  match type of H with
  | context [path_request ?j ?s ?f ?n] => destruct (path_request j s f n) eqn:E; [|discriminate]
  end;
  cbn [mbind option_bind] in H; simplify_eq;
  apply path_request_head in E; [|done].

Lemma safe_FPGetFileDirParms did fb db path fp : safe (FPGetFileDirParms did fb db path fp).
Proof.
  unfold FPGetFileDirParms. do 3 (apply safe_bind; [solve_safe|intros ?]).
  apply safe_lift_bind. intros r Hr. unfold afp_getfiledirparms in Hr. path_command Hr.
  apply safe_bind; [looks|solve_safe].
Qed.

Lemma safe_FPOpenFork forktype dirid mode name fp : safe (FPOpenFork forktype dirid mode name fp).
Proof.
  unfold FPOpenFork. do 3 (apply safe_bind; [solve_safe|intros ?]).
  apply safe_lift_bind. intros r Hr. unfold afp_openfork in Hr. path_command Hr.
  apply safe_bind; [looks|solve_safe].
Qed.

Lemma safe_FPGetComment did path comment : safe (FPGetComment did path comment).
Proof.
  unfold FPGetComment. do 3 (apply safe_bind; [solve_safe|intros ?]).
  apply safe_lift_bind. intros r Hr. unfold afp_getcomment in Hr. path_command Hr.
  apply safe_bind; [looks|solve_safe].
Qed.

Lemma safe_listing f a : safe (listing f a).
Proof. unfold listing. solve_safe. Qed.
#[export] Hint Resolve safe_FPGetFileDirParms safe_FPOpenFork safe_FPGetComment safe_listing
  : safe.

Lemma safe_FPEnumerate dirid fb db n i path : safe (FPEnumerate dirid fb db n i path).
Proof.
  unfold FPEnumerate. do 3 (apply safe_bind; [solve_safe|intros ?]).
  apply safe_lift_bind. intros r Hr. unfold afp_enumerate in Hr.
  apply enumerate_request_head in Hr; [|done]. apply safe_bind; [looks|solve_safe].
Qed.

Lemma safe_FPEnumerateExt2 dirid fb db n i path : safe (FPEnumerateExt2 dirid fb db n i path).
Proof.
  unfold FPEnumerateExt2. do 3 (apply safe_bind; [solve_safe|intros ?]).
  apply safe_lift_bind. intros r Hr. unfold afp_enumerateext2 in Hr.
  apply enumerate_request_head in Hr; [|done]. apply safe_bind; [looks|solve_safe].
Qed.

Lemma safe_FPCloseFork forkid : safe (FPCloseFork forkid).
Proof. unfold FPCloseFork. apply safe_bind; [looks|solve_safe]. Qed.
Lemma safe_FPFlushFork forkid : safe (FPFlushFork forkid).
Proof. unfold FPFlushFork. apply safe_bind; [looks|solve_safe]. Qed.
Lemma safe_FPByteRangeLock a b c d : safe (FPByteRangeLock a b c d).
Proof. unfold FPByteRangeLock. apply safe_bind; [looks|solve_safe]. Qed.
Lemma safe_FPByteRangeLockExt a b c d : safe (FPByteRangeLockExt a b c d).
Proof. unfold FPByteRangeLockExt. apply safe_bind; [looks|solve_safe]. Qed.
Lemma safe_FPRead a b c rx : safe (FPRead a b c rx).
Proof. unfold FPRead. apply safe_bind; [looks|solve_safe]. Qed.
Lemma safe_FPReadExt a b c rx : safe (FPReadExt a b c rx).
Proof. unfold FPReadExt. apply safe_bind; [looks|solve_safe]. Qed.
Lemma safe_FPOpenDT : safe FPOpenDT.
Proof.
  unfold FPOpenDT. apply safe_bind; [solve_safe|intros v]. apply safe_bind; [looks|intros a].
  apply safe_bind; [solve_safe|intros refnum]. apply safe_bind; [by apply safe_modify|solve_safe].
Qed.
#[export] Hint Resolve safe_FPEnumerate safe_FPEnumerateExt2 safe_FPCloseFork safe_FPFlushFork
  safe_FPByteRangeLock safe_FPByteRangeLockExt safe_FPRead safe_FPReadExt safe_FPOpenDT : safe.

(** ** Components *)

Ltac safe_modify_volume := apply safe_modify; intros; reflexivity.

Lemma safe_find path : safe (find_dirid_by_fullname path).
Proof.
  unfold find_dirid_by_fullname. solve_safe.
Qed.
#[export] Hint Resolve safe_find : safe.

Lemma safe_find_ancestor fuel copy : safe (find_ancestor fuel copy).
Proof.
  revert copy. induction fuel as [|fuel IH]; intros copy; cbn [find_ancestor]; [solve_safe|].
  destruct (last_index_of slash copy) as [[|i]|]; solve_safe.
Qed.

Lemma safe_add_did did path : safe (add_did_cache_entry did path).
Proof. unfold add_did_cache_entry. solve_safe. Qed.
#[export] Hint Resolve safe_find_ancestor safe_add_did : safe.

Lemma safe_walk_down fuel path p2 did fi : safe (walk_down fuel path p2 did fi).
Proof.
  revert p2 did fi. induction fuel as [|fuel IH]; intros p2 did fi; cbn [walk_down]; solve_safe.
Qed.
#[export] Hint Resolve safe_walk_down : safe.

Lemma safe_get_dirid path : safe (get_dirid path).
Proof. unfold get_dirid. solve_safe. Qed.
Lemma safe_is_dir did path : safe (is_dir did path).
Proof. unfold is_dir. solve_safe. Qed.
#[export] Hint Resolve safe_get_dirid safe_is_dir : safe.

Lemma safe_version : safe version.
Proof. unfold version. solve_safe. Qed.
Lemma safe_extra_flags : safe extra_flags.
Proof. unfold extra_flags. solve_safe. Qed.
Lemma safe_is_readonly : safe volume_is_readonly.
Proof. unfold volume_is_readonly. solve_safe. Qed.
Lemma safe_name_too_long path : safe (name_too_long path).
Proof. unfold name_too_long. solve_safe. Qed.
Lemma safe_to_client uid gid : safe (translate_uidgid_to_client uid gid).
Proof. unfold translate_uidgid_to_client. solve_safe. Qed.
#[export] Hint Resolve safe_version safe_extra_flags safe_is_readonly safe_name_too_long
  safe_to_client : safe.

Lemma safe_byterangelock a b c d : safe (byterangelock a b c d).
Proof. unfold byterangelock. solve_safe. Qed.
#[export] Hint Resolve safe_byterangelock : safe.

Lemma safe_unlocking a b c : safe (ll_handle_unlocking a b c).
Proof. unfold ll_handle_unlocking. solve_safe. Qed.

Lemma safe_lock_loop n a b c : safe (lock_loop n a b c).
Proof. induction n; cbn [lock_loop]; solve_safe. Qed.
#[export] Hint Resolve safe_unlocking safe_lock_loop : safe.

Lemma safe_locking a b c : safe (ll_handle_locking a b c).
Proof. unfold ll_handle_locking. solve_safe. Qed.
Lemma safe_directory_entry a b c d fp : safe (ll_get_directory_entry a b c d fp).
Proof. unfold ll_get_directory_entry. solve_safe. Qed.
#[export] Hint Resolve safe_locking safe_directory_entry : safe.

Lemma safe_ll_read buf size offset fp : safe (ll_read buf size offset fp).
Proof. unfold ll_read. solve_safe. Qed.

Lemma safe_readdir_loop fuel a b c i path files : safe (readdir_loop fuel a b c i path files).
Proof.
  revert i files. induction fuel as [|fuel IH]; intros i files; cbn [readdir_loop]; solve_safe;
    apply IH.
Qed.

Lemma safe_convert_names files : safe (convert_names files).
Proof. induction files; cbn [convert_names]; solve_safe. Qed.
#[export] Hint Resolve safe_ll_read safe_readdir_loop safe_convert_names : safe.

Lemma safe_ll_readdir fuel path resource : safe (ll_readdir fuel path resource).
Proof. unfold ll_readdir. solve_safe. Qed.
Lemma safe_ll_getattr path resource : safe (ll_getattr path resource).
Proof. unfold ll_getattr. solve_safe. Qed.
#[export] Hint Resolve safe_ll_readdir safe_ll_getattr : safe.

Lemma safe_extra_translate path : safe (extra_translate path).
Proof. unfold extra_translate. solve_safe. Qed.
Lemma safe_to_afp path : safe (to_afp path).
Proof. unfold to_afp. solve_safe. Qed.
Lemma safe_parent_of path : safe (parent_of path).
Proof. unfold parent_of. solve_safe. Qed.
#[export] Hint Resolve safe_extra_translate safe_to_afp safe_parent_of : safe.

Lemma safe_ml_creat path mode : safe (ml_creat path mode).
Proof.
  unfold ml_creat. apply safe_bind; [solve_safe|]. intros [cp|]; [|solve_safe].
  apply (safe_writable (fun e : Z => e)).
Qed.

Lemma safe_forks f : safe (modify (fun c => set_forks (f (cl_forks c)) c)).
Proof. safe_modify_volume. Qed.
Lemma safe_add_opened p : safe (add_opened_fork p).
Proof. apply (safe_forks (p ::.)). Qed.
Lemma safe_remove_opened p : safe (remove_opened_fork p).
Proof. apply safe_forks. Qed.
#[export] Hint Resolve safe_ml_creat safe_add_opened safe_remove_opened : safe.

Lemma safe_open_loop fuel path flags aflags fp : safe (open_loop fuel path flags aflags fp).
Proof.
  revert fp. induction fuel as [|fuel IH]; intros fp; cbn [open_loop]; solve_safe.
Qed.
#[export] Hint Resolve safe_open_loop : safe.

(** Without O_TRUNC, opening only looks. *)
Lemma safe_ll_open fuel path flags p fp :
  has flags O_TRUNC = false -> safe (ll_open fuel path flags p fp).
Proof. intros Hf. unfold ll_open. rewrite Hf. solve_safe. Qed.

Lemma safe_get_comment_size name did : safe (get_comment_size name did).
Proof. unfold get_comment_size. solve_safe. Qed.
Lemma safe_ensure_dt : safe ensure_dt_opened.
Proof. unfold ensure_dt_opened. solve_safe. Qed.
Lemma safe_refuse path : safe (appledouble_refuse path).
Proof. unfold appledouble_refuse. solve_safe. Qed.
Lemma safe_appledouble_close fp : safe (appledouble_close fp).
Proof. unfold appledouble_close. solve_safe. Qed.
Lemma safe_read_comment fp buf size amount eof : safe (read_comment fp buf size amount eof).
Proof. unfold read_comment. solve_safe. Qed.
#[export] Hint Resolve safe_get_comment_size safe_ensure_dt safe_refuse safe_appledouble_close
  safe_read_comment : safe.

Lemma safe_appledouble_read icon fp buf size offset : safe (appledouble_read icon fp buf size offset).
Proof. unfold appledouble_read. solve_safe. Qed.
Lemma safe_locate path fp : safe (locate path fp).
Proof. unfold locate. solve_safe. Qed.
#[export] Hint Resolve safe_appledouble_read safe_locate : safe.

Lemma safe_appledouble_open fuel path flags p fp :
  has flags O_TRUNC = false -> safe (appledouble_open fuel path flags p fp).
Proof. intros Hf. unfold appledouble_open. solve_safe. by apply safe_ll_open. Qed.

Lemma safe_appledouble_getattr path : safe (appledouble_getattr path).
Proof. unfold appledouble_getattr. solve_safe. Qed.

Lemma safe_entries files chain : safe (appledouble_entries files chain).
Proof.
  revert chain. induction files; intros chain; cbn [appledouble_entries]; solve_safe.
Qed.
#[export] Hint Resolve safe_appledouble_getattr safe_entries : safe.

Lemma safe_appledouble_readdir fuel path : safe (appledouble_readdir fuel path).
Proof. unfold appledouble_readdir. solve_safe. Qed.
#[export] Hint Resolve safe_appledouble_readdir : safe.

(** ** Operations *)

Lemma safe_converting {A} path (fail : Z -> A) k :
  (forall cp, safe (k cp)) -> safe (converting path fail k).
Proof. intros. unfold converting. solve_safe. Qed.

Lemma safe_valid_name {A} path (fail : Z -> A) k : safe k -> safe (valid_name path fail k).
Proof. intros. unfold valid_name. solve_safe. Qed.

Lemma safe_not_appledouble m k : safe m -> safe k -> safe (not_appledouble m k).
Proof. intros. unfold not_appledouble. solve_safe. Qed.

Lemma safe_without_privileges path : safe (without_privileges path).
Proof. unfold without_privileges. solve_safe. Qed.
Lemma safe_supports_unix : safe supports_unix.
Proof. unfold supports_unix. solve_safe. Qed.
#[export] Hint Resolve safe_without_privileges safe_supports_unix : safe.

Lemma has_lor x a b : has x (Z.lor a b) = has x a || has x b.
Proof.
  unfold has. rewrite Z.land_lor_distr_r.
  destruct (Z.eqb_spec (Z.land x a) 0) as [->|Ha]; destruct (Z.eqb_spec (Z.land x b) 0) as [->|Hb];
    cbn [negb orb]; rewrite ?Z.lor_0_r, ?Z.lor_0_l; try done.
  - by rewrite (proj2 (Z.eqb_neq _ _) Hb).
  - by rewrite (proj2 (Z.eqb_neq _ _) Ha).
  - destruct (Z.eqb_spec (Z.lor (Z.land x a) (Z.land x b)) 0) as [H|]; [|done].
    by apply Z.lor_eq_0_iff in H as [? _].
Qed.

(** A read-only volume is opened without O_TRUNC. *)
Lemma safe_ml_open fuel path flags : safe (ml_open fuel path flags).
Proof.
  unfold ml_open. apply safe_converting. intros cp. apply safe_valid_name.
  intros c Hc. unfold volume_is_readonly, volume.
  apply hoare_bind, hoare_bind, hoare_bind, hoare_get, hoare_ret, hoare_ret. rewrite Hc.
  cbn [andb]. destruct (has flags _) eqn:Hf; [by apply hoare_ret|].
  assert (has flags O_TRUNC = false) as Ht.
  { rewrite !has_lor, !orb_false_iff in Hf. tauto. }
  revert c Hc. change (safe (p ← ask Address;
    '(ret, fp) ← appledouble_open fuel path flags p zero_file_info;
    if ret <? 0 then mret (ret, Some (p, fp))
    else if ret =? 1 then mret (0, Some (p, fp))
    else
      '(ret, fp) ← locate cp fp;
      if ret <? 0 then mret (- ENOENT, Some (p, fp))
      else
        '(ret, fp) ← ll_open fuel cp flags p fp;
        if ret <? 0 then ask (Free p);; mret (ret, None)
        else mret (0, Some (p, fp)))).
  solve_safe; [by apply safe_appledouble_open|by apply safe_ll_open].
Qed.

Lemma safe_ml_read icon path buf size offset fp : safe (ml_read icon path buf size offset fp).
Proof. unfold ml_read. apply safe_converting. solve_safe. Qed.
Lemma safe_ml_readlink path size : safe (ml_readlink path size).
Proof. unfold ml_readlink. apply safe_converting. solve_safe. Qed.
#[export] Hint Resolve safe_ml_open safe_ml_read safe_ml_readlink : safe.

(** The volume's own parameters may change, but nothing is sent behind that. *)
Lemma statfs_looks c :
  hoare observer c ml_statfs (fun _ _ => True).
Proof.
  unfold ml_statfs, FPGetVolParms, version, server, volume.
  apply hoare_bind, hoare_bind, hoare_bind, hoare_get, hoare_ret, hoare_ret.
  apply hoare_bind, hoare_bind, hoare_bind, hoare_get, hoare_ret.
  apply hoare_bind, hoare_ask.
  { constructor; [|constructor]. exists afpGetVolParms. split; [done|].
    unfold looking. rewrite list_elem_of_In. simpl. tauto. }
  intros a _. apply hoare_bind. unfold handle.
  destruct (an_packet a) as [[packet behind]|].
  1: apply hoare_bind, hoare_lift; [|done]; intros r _; apply hoare_ret.
  2: apply hoare_ret.
  all: apply hoare_bind, hoare_modify, hoare_ret; case_match; [by apply hoare_ret|];
    by apply hoare_bind, hoare_modify, hoare_bind, hoare_bind, hoare_get, hoare_ret, hoare_ret.
Qed.

Ltac solve_op :=
  repeat lazymatch goal with
  | |- safe (converting _ _ _) => apply safe_converting; intros ?
  | |- safe (writable _ _) => apply safe_writable
  | |- safe (valid_name _ _ _) => apply safe_valid_name
  | |- safe (not_appledouble _ _) => apply safe_not_appledouble; [apply safe_refuse|]
  | |- _ => safe_step
  end.

Lemma safe_ml_close path file : safe (ml_close path file).
Proof. unfold ml_close. solve_op. Qed.
Lemma safe_ml_write fuel path data size offset fp uid gid : safe (ml_write fuel path data size offset fp uid gid).
Proof. unfold ml_write. solve_op. Qed.
Lemma safe_ml_readdir fuel path : safe (ml_readdir fuel path).
Proof. unfold ml_readdir. solve_op. Qed.
Lemma safe_ml_getattr path : safe (ml_getattr path).
Proof. unfold ml_getattr. solve_op. Qed.
Lemma safe_ml_chmod path mode : safe (ml_chmod path mode).
Proof. unfold ml_chmod. solve_op. Qed.
Lemma safe_ml_chown path uid gid : safe (ml_chown path uid gid).
Proof. unfold ml_chown. solve_op. Qed.
Lemma safe_ml_utime path modtime : safe (ml_utime path modtime).
Proof. unfold ml_utime. solve_op. Qed.
Lemma safe_ml_unlink path : safe (ml_unlink path).
Proof. unfold ml_unlink. solve_op. Qed.
Lemma safe_ml_mkdir path mode : safe (ml_mkdir path mode).
Proof. unfold ml_mkdir. solve_op. Qed.
Lemma safe_ml_rmdir path : safe (ml_rmdir path).
Proof. unfold ml_rmdir. solve_op. Qed.
Lemma safe_ml_truncate fuel path offset : safe (ml_truncate fuel path offset).
Proof. unfold ml_truncate. solve_op. Qed.
Lemma safe_ml_symlink path1 path2 : safe (ml_symlink path1 path2).
Proof. unfold ml_symlink. solve_op. Qed.
Lemma safe_ml_rename path_from path_to : safe (ml_rename path_from path_to).
Proof. unfold ml_rename. solve_op. Qed.
#[export] Hint Resolve safe_ml_close safe_ml_write safe_ml_readdir safe_ml_getattr safe_ml_chmod safe_ml_chown safe_ml_utime safe_ml_unlink safe_ml_mkdir safe_ml_rmdir safe_ml_truncate safe_ml_symlink safe_ml_rename : safe.

Lemma perform_looks fuel op c :
  volume_readonly (cl_volume c) = true -> hoare observer c (perform fuel op) (fun _ _ => True).
Proof.
  intros Hc. destruct op; cbn [perform]; [..|apply hoare_bind;
    eapply hoare_mono; [|apply statfs_looks]; intros; by apply hoare_ret];
  match goal with |- hoare _ _ (mbind ?f ?m) _ =>
    assert (safe m) as Hs by (auto with safe nocore) end;
  (apply hoare_bind; eapply hoare_mono; [|by apply Hs]; intros; by apply hoare_ret).
Qed.

(** C6: on a read-only volume no operation of the file system, whatever the server
    answers, sends anything but requests that only look: every request it hands to
    [dsi_send] is one of the queries, locks, opens and closes in [looking]. *)
Theorem readonly_never_modifies {W} (h : handler W) w fuel op c :
  volume_readonly (cl_volume c) = true ->
  Forall only_looks (run h (perform fuel op c) w).1.1.
Proof.
  intros Hc. apply (wp_run observer h (fun _ => True)
    (perform fuel op c) (fun _ => True)); [done|done|]. by apply perform_looks.
Qed.

Definition readonly_client : client :=
  mk_client utf8_server (set_vo_extra_flags VOLUME_EXTRA_FLAGS_READONLY sample_volume) [] 0 0 0 0
    [].

Lemma readonly_never_modifies_witness :
  Forall only_looks (run (serving (fun r (w : unit) => (sample_answer r, w)))
    (perform 5 (Rename [47; 97; 47; 120] [47; 98]) readonly_client) tt).1.1 /\
  Forall only_looks (run (serving (fun r (w : unit) => (sample_answer r, w)))
    (perform 5 (Getattr [47; 97; 47; 120]) readonly_client) tt).1.1 /\
  length (run (serving (fun r (w : unit) => (sample_answer r, w)))
    (perform 5 (Getattr [47; 97; 47; 120]) readonly_client) tt).1.1 = 2%nat.
Proof.
  split; [|split; [|vm_compute; reflexivity]]; apply readonly_never_modifies; reflexivity.
Defined.

(** The same rename on a volume that is not read-only. *)
Example writable_rename_modifies :
  existsb (fun r => bool_decide (command_of r = Some afpMoveAndRename))
    (run (serving (fun r (w : unit) => (sample_answer r, w)))
      (perform 5 (Rename [47; 97; 47; 120] [47; 98]) sample_client) tt).1.1 = true.
Proof. vm_compute. reflexivity. Qed.

End ReadOnly.
