(* ===== verification/Removal.v ===== *)
(** * Removing files and directories, end to end

    [ml_unlink] and [ml_rmdir] of lib/midlevel.c on a server with a directory tree: the
    path is converted, its parent found, the object checked, and exactly that object
    deleted. *)

From S2P Require Import Prelude Constants Types Utils Codepage Dsi ReplyBlock ProtoFiles.
From S2P Require Import ProtoVolume Client Calls Did Users Lowlevel Create Resource.
From S2P Require Import Midlevel.

Module Removal.
Import Utils Codepage Dsi ReplyBlock ProtoFiles ProtoVolume Client Calls Did Users Lowlevel
  Create Resource Midlevel.

(** ** Conversion of the path *)

Lemma to_afp_ok C c path (Q : option (list Z) -> client -> Prop) :
  sv_path_encoding (cl_server c) = kFPUTF8Name -> nul_free path ->
  (length (decompose path) < 768)%nat -> Q (Some (decompose path)) c ->
  hoare C c (to_afp path) Q.
Proof.
  intros He Hp Hl HQ. unfold to_afp.
  apply hoare_bind, hoare_bind, hoare_get, hoare_ret. rewrite He.
  apply hoare_bind, hoare_ask; [constructor|]. intros behind _. apply hoare_bind.
  unfold convert_path_to_afp. rewrite zero_fill_all by done. cbn [mbind option_bind].
  change (kFPUTF8Name =? kFPUTF8Name) with true. cbv iota. cbn [app].
  rewrite cstr_app by done. cbn [mbind option_bind]. unfold convert_utf8pre_to_utf8dec.
  rewrite pre_to_dec_loop_spec by (rewrite length_replicate; lia).
  cbn [mbind option_bind lift]. apply hoare_ret. change (negb (0 =? 0)) with false. cbv iota.
  apply hoare_bind. rewrite drop_replicate.
  destruct (768 - length (decompose path))%nat as [|k] eqn:Ek; [lia|].
  cbn [replicate]. rewrite cstr_app by (by apply decompose_nul_free).
  by apply hoare_ret, hoare_ret.
Qed.

(** ** The server *)

(** The question whether an object is a directory. *)
Definition kind_request (s0 : afp_server) (v0 : afp_volume) (d : Z) (base : list Z) : request :=
  afp_call (wire_fixed afpGetFileDirParms 0 (vo_volid v0) d ++ be_bytes 2 0 ++ be_bytes 2 0
            ++ path_field s0 base) afpGetFileDirParms.

Lemma is_dir_asks C c d name (Q : Z -> client -> Prop) :
  let r := kind_request (cl_server c) (cl_volume c) d name in
  known_encoding (cl_server c) -> (length name <= path_limit (cl_server c))%nat ->
  guarantee C r ->
  (forall fi a, rely C answer (Exchange r) a ->
     hoare C c (fi ← handle (fun buf size => afp_getfiledirparms_reply buf size fi) a fi;
                mret (if an_rc a =? 0 then fi_isdir fi else 0)) Q) ->
  hoare C c (is_dir d name) Q.
Proof.
  intros r Hk Hl Hg HQ. unfold is_dir. apply hoare_bind, hoare_ask; [constructor|].
  intros fi _. apply hoare_bind. unfold FPGetFileDirParms.
  apply hoare_bind, hoare_ask; [constructor|]. intros j _.
  apply hoare_bind, hoare_bind, hoare_get, hoare_ret.
  apply hoare_bind, hoare_bind, hoare_get, hoare_ret.
  apply hoare_bind. unfold afp_getfiledirparms. rewrite path_request_spec by done.
  cbn [mbind option_bind lift]. apply hoare_ret, hoare_bind.
  match goal with |- hoare _ _ (send ?r') _ =>
    assert (r' = r) as ->
      by (unfold r, kind_request, wire_fixed; rewrite !st16_htons, !st32_htonl, <- !app_assoc; done)
  end.
  apply hoare_ask; [by apply Forall_singleton|]. intros a Ha. apply hoare_bind.
  specialize (HQ fi a Ha). unfold hoare in *. apply wp_bind_inv in HQ.
  eapply wp_mono; [|exact HQ]. intros x Hx. by apply hoare_ret.
Qed.

Section removal.
Context (s0 : afp_server) (v0 : afp_volume) (tree : Z -> list Z -> option Z).
Context (d : Z) (base : list Z) (isdir rc0 : Z).

(** The answer to the question whether the object is a directory. *)
Definition kind_reply (rid : Z) : list Z :=
  wire_header DSI_REPLY DSI_DSICommand rid 0 6 ++ be_bytes 2 0 ++ be_bytes 2 0 ++ [isdir; 0].

Definition delete_message : request :=
  afp_call (wire_fixed afpDelete 0 (vo_volid v0) d ++ path_field s0 base) afpDelete.

(** The tree, with the object [base] in the directory [d], which the server deletes with
    the result [rc0].  Deleting may be asked for only when [may_delete] holds. *)
Definition object_server (may_delete : Prop) : contract :=
  {| guarantee := fun r =>
       (exists did name, r = node_request s0 (vo_volid v0) did name) \/
       r = kind_request s0 v0 d base \/ may_delete /\ r = delete_message;
     rely := fun X e =>
       match e in env X return X -> Prop with
       | Exchange r => fun a =>
         rely (tree_server s0 (vo_volid v0) tree) answer (Exchange r) a /\
         (r = kind_request s0 v0 d base -> an_rc a = 0 /\ exists rid behind,
            an_packet a = Some (kind_reply rid, behind)) /\
         (r = delete_message -> an_rc a = rc0)
       | _ => fun _ => True
       end;
     may_crash := False; may_starve := False |}.

Lemma kind_handled rid behind fp :
  afp_getfiledirparms_reply (kind_reply rid ++ behind) (Z.of_nat (length (kind_reply rid))) fp =
    Some (0, set_fi_isdir isdir (set_fi_isdir isdir zero_file_info)).
Proof.
  unfold afp_getfiledirparms_reply, kind_reply. rewrite <- !app_assoc.
  rewrite raw_error_wire. cbn [mbind option_bind]. change (negb (0 =? 0)) with false. cbv iota.
  pose proof (length_wire_header DSI_REPLY DSI_DSICommand rid 0 6) as Hw.
  rewrite (proj2 (Z.ltb_ge _ _)) by solve_len.
  rewrite (ntohs_ld16 _ 0 _ 16) by (done || congruence). cbn [mbind option_bind].
  rewrite (app_assoc (wire_header _ _ _ _ _)), (ntohs_ld16 _ 0 _ 18) by (done || solve_len).
  cbn [mbind option_bind].
  rewrite (app_assoc (_ ++ be_bytes 2 0)). cbn [app]. rewrite ld8_at by solve_len.
  cbn [mbind option_bind].
  unfold parse_reply_block, parse_file_fields, parse_dir_fields, if_bit.
  destruct (isdir =? 0); change (u16 0) with 0; decide_bits; done.
Qed.

Context (Hk : known_encoding s0) (Hb : (length base <= path_limit s0)%nat).

Lemma is_dir_ok del c (Q : Z -> client -> Prop) :
  cl_server c = s0 -> cl_volume c = v0 -> Q isdir c ->
  hoare (object_server del) c (is_dir d base) Q.
Proof using Hk Hb.
  intros Hs Hv HQ. apply is_dir_asks; rewrite ?Hs, ?Hv; [done|done|by right; left|].
  intros fi a (_ & Ha & _). destruct (Ha eq_refl) as (Hrc & rid & behind & Hp).
  unfold handle. rewrite Hp. apply hoare_bind, hoare_bind. rewrite kind_handled.
  apply hoare_ret, hoare_ret. rewrite Hrc. by apply hoare_ret.
Qed.

Lemma delete_ok (del : Prop) c (Q : Z -> client -> Prop) :
  del -> cl_server c = s0 -> cl_volume c = v0 -> Q rc0 c ->
  hoare (object_server del) c (FPDelete d base) Q.
Proof using Hk Hb.
  intros Hdel Hs Hv HQ. unfold FPDelete.
  apply hoare_bind, hoare_ask; [constructor|]. intros j _.
  apply hoare_bind, hoare_bind, hoare_get, hoare_ret. rewrite Hs.
  apply hoare_bind, hoare_bind, hoare_get, hoare_ret. rewrite Hv.
  apply hoare_bind. unfold afp_delete. rewrite path_request_spec by done.
  cbn [mbind option_bind lift]. apply hoare_ret, hoare_bind.
  match goal with |- hoare _ _ (send ?r) _ =>
    assert (r = delete_message) as Hr
      by (unfold delete_message, wire_fixed; rewrite !st16_htons, !st32_htonl, <- !app_assoc; done);
    rewrite Hr; clear Hr
  end.
  apply hoare_ask; [apply Forall_singleton; by right; right|].
  intros a Ha. cbn [rely object_server] in Ha. destruct Ha as (_ & _ & Ha).
  apply hoare_ret. by rewrite (Ha eq_refl).
Qed.

Context (path s : list Z).

(** What an operation on the path starts from: the object is [base] in the directory [d],
    whose full name is [s]. *)
Record located (c : client) : Prop := {
  rm_server : cl_server c = s0;
  rm_volume : cl_volume c = v0;
  rm_encoding : sv_path_encoding s0 = kFPUTF8Name;
  rm_writable : volume_readonly v0 = false;
  rm_plain : has (vo_extra_flags v0) VOLUME_EXTRA_FLAGS_SHOW_APPLEDOUBLE = false;
  rm_tree : forall did name id, tree did name = Some id -> 0 < id < 4294967296;
  rm_cache : consistent tree c;
  rm_nul : nul_free path;
  rm_path : decompose path = s ++ slash :: base;
  rm_base : slash ∉ base;
  rm_length : (length (decompose path) < 768)%nat;
  rm_names : Forall (fun n => S (length n) <= path_limit s0)%nat (split_on slash s);
  rm_parent : dir_id tree s = Some d }.

Lemma parent_ok C c (Q : list Z * Z -> client -> Prop) :
  (forall did name, guarantee C (node_request s0 (vo_volid v0) did name)) ->
  (forall X (e : env X) x, rely C X e x -> rely (tree_server s0 (vo_volid v0) tree) X e x) ->
  located c ->
  (forall c', same_session c c' -> consistent tree c' -> Q (base, d) c') ->
  hoare C c (parent_of (decompose path)) Q.
Proof using Hk.
  intros Hg Hr R HQ. unfold parent_of. apply hoare_bind. rewrite (rm_path _ R).
  pose proof (rm_length _ R) as Hl. rewrite (rm_path _ R), length_app in Hl. simpl in Hl.
  eapply hoare_mono; [|eapply (wp_weaken (tree_server s0 (vo_volid v0) tree)), get_dirid_ok];
    try done.
  - intros r c' (-> & Hss & Hok). apply hoare_ret. by apply HQ.
  - intros r (did & name & ->). apply Hg.
  - apply (rm_tree _ R).
  - apply (rm_server _ R).
  - apply (rm_volume _ R).
  - apply (rm_cache _ R).
  - apply (rm_base _ R).
  - clear Hb. lia.
  - clear Hb. lia.
  - apply (rm_names _ R).
  - apply (rm_parent _ R).
Qed.

Lemma object_parent_ok del c (Q : list Z * Z -> client -> Prop) :
  located c ->
  (forall c', same_session c c' -> consistent tree c' -> Q (base, d) c') ->
  hoare (object_server del) c (parent_of (decompose path)) Q.
Proof using Hk.
  apply parent_ok.
  - intros did name. left. by exists did, name.
  - intros X e x Hx. destruct e; cbn [rely object_server] in Hx; try done. apply Hx.
Qed.

(** Behind the checks both operations make. *)
Lemma checks_ok del c (k : list Z -> M Z) Q :
  located c -> hoare (object_server del) c (k (decompose path)) Q ->
  hoare (object_server del) c (converting path same (fun cp =>
    writable same (not_appledouble (appledouble_refuse path) (k cp)))) Q.
Proof using Type.
  intros R Hm. unfold converting. apply hoare_bind, to_afp_ok.
  { rewrite (rm_server _ R). apply (rm_encoding _ R). }
  { apply (rm_nul _ R). }
  { apply (rm_length _ R). }
  unfold writable, volume_is_readonly, volume.
  apply hoare_bind, hoare_bind, hoare_bind, hoare_get, hoare_ret, hoare_ret.
  rewrite (rm_volume _ R), (rm_writable _ R).
  unfold not_appledouble, appledouble_refuse, extra_translate, extra_flags, volume.
  apply hoare_bind, hoare_bind, hoare_bind, hoare_bind, hoare_bind, hoare_get, hoare_ret,
    hoare_ret.
  rewrite (rm_volume _ R), (rm_plain _ R). by apply hoare_ret, hoare_ret.
Qed.

Lemma unlink_ok (del : Prop) c :
  located c -> invalid_filename s0 (decompose path) = Some false -> (isdir = 0 -> del) ->
  hoare (object_server del) c (ml_unlink path)
    (fun r _ => r = if isdir =? 0 then
                      if rc0 =? kFPDirNotEmpty then - EINVAL else - default 0 (delete_errno rc0)
                    else - EISDIR).
Proof using Hk Hb.
  intros R Hv Hdel. unfold ml_unlink, appledouble_unlink. apply checks_ok; [done|].
  apply hoare_bind, object_parent_ok; [done|]. intros c1 (Hs1 & Hv1 & _) _.
  rewrite (rm_server _ R) in Hs1. rewrite (rm_volume _ R) in Hv1.
  apply hoare_bind, is_dir_ok; [done|done|].
  destruct (Z.eqb_spec isdir 0) as [Hd|Hd]; cbn [negb]; [|by apply hoare_ret].
  unfold valid_name, name_too_long, server.
  apply hoare_bind, hoare_bind, hoare_bind, hoare_get, hoare_ret. rewrite Hs1, Hv.
  apply hoare_ret, hoare_bind, delete_ok; [by apply Hdel|done|done|]. by apply hoare_ret.
Qed.

Lemma rmdir_ok (del : Prop) c :
  located c -> invalid_filename s0 path = Some false -> (isdir <> 0 -> del) ->
  hoare (object_server del) c (ml_rmdir path)
    (fun r _ => r = if isdir =? 0 then - ENOTDIR
                    else if rc0 =? kFPDirNotEmpty then - ENOTEMPTY
                    else - default 0 (delete_errno rc0)).
Proof using Hk Hb.
  intros R Hv Hdel. unfold ml_rmdir, appledouble_rmdir, valid_name, name_too_long, server.
  apply hoare_bind, hoare_bind, hoare_bind, hoare_get, hoare_ret.
  rewrite (rm_server _ R), Hv. apply hoare_ret. apply checks_ok; [done|].
  apply hoare_bind, object_parent_ok; [done|]. intros c1 (Hs1 & Hv1 & _) _.
  rewrite (rm_server _ R) in Hs1. rewrite (rm_volume _ R) in Hv1.
  apply hoare_bind, is_dir_ok; [done|done|].
  destruct (Z.eqb_spec isdir 0) as [Hd|Hd]; [by apply hoare_ret|].
  apply hoare_bind, delete_ok; [by apply Hdel|done|done|].
  destruct (rc0 =? kFPDirNotEmpty); [by apply hoare_ret|].
  destruct (delete_errno rc0) as [e|]; [by apply hoare_ret|].
  apply hoare_bind. unfold remove_did_entry. apply hoare_bind, hoare_get.
  destruct (remove_entry (decompose path) (cl_dids c1)) as [l|].
  - by apply hoare_bind, hoare_modify, hoare_ret, hoare_ret.
  - by apply hoare_ret, hoare_ret.
Qed.

End removal.

(** The results of removing a file and a directory. *)
Definition removal_result (dir : bool) (isdir rc : Z) : Z :=
  if dir then
    if isdir =? 0 then - ENOTDIR
    else if rc =? kFPDirNotEmpty then - ENOTEMPTY else - default 0 (delete_errno rc)
  else
    if isdir =? 0 then
      if rc =? kFPDirNotEmpty then - EINVAL else - default 0 (delete_errno rc)
    else - EISDIR.

(** C8: removing by path, end to end.  On a server with a directory tree, [ml_unlink]
    and [ml_rmdir] ask only for directory ids and for the kind of the object named by
    the path, send FPDelete for that object in its parent directory and for no other,
    and that only when it is a file for the first and a directory for the second; they
    always return, and the result is the error number that belongs to the server's answer
    to that FPDelete. *)
Theorem removal_deletes {W} (h : handler W) (I : W -> Prop) w c tree path s base d isdir rc
    (dir : bool) :
  keeps (object_server (cl_server c) (cl_volume c) tree d base isdir rc
           (negb (isdir =? 0) = dir)) h I -> I w ->
  located (cl_server c) (cl_volume c) tree d base path s c ->
  (length base <= path_limit (cl_server c))%nat ->
  invalid_filename (cl_server c) path = Some false ->
  invalid_filename (cl_server c) (decompose path) = Some false ->
  let r := run h ((if dir then ml_rmdir path else ml_unlink path) c) w in
  Forall (fun q => (exists did name, q = node_request (cl_server c) (vo_volid (cl_volume c)) did name)
       \/ q = kind_request (cl_server c) (cl_volume c) d base
       \/ negb (isdir =? 0) = dir /\ q = delete_message (cl_server c) (cl_volume c) d base) r.1.1 /\
  exists c', r.1.2 = Done (removal_result dir isdir rc, c').
Proof.
  intros Hh Hw R Hb Hv1 Hv2 r.
  assert (known_encoding (cl_server c)) as Hk by (left; apply (rm_encoding _ _ _ _ _ _ _ _ R)).
  set (C := object_server _ _ _ _ _ _ _ _) in Hh.
  assert (hoare C c (if dir then ml_rmdir path else ml_unlink path)
    (fun r _ => r = removal_result dir isdir rc)) as Hwp.
  { destruct dir; [apply (rmdir_ok _ _ _ _ _ _ _ Hk Hb path s)|
                   apply (unlink_ok _ _ _ _ _ _ _ Hk Hb path s)]; try done.
    - intros H. by rewrite (proj2 (Z.eqb_neq _ _) H).
    - by intros ->. }
  destruct (wp_run C h I _ _ w Hh Hw Hwp) as (Hg & Ha & _). fold r in Hg, Ha.
  split; [exact Hg|]. clear Hg. destruct r as [[rs o] w']. cbn in Ha |- *.
  destruct o as [[x c']| |]; [|done|done]. cbn in Ha. subst x. by exists c'.
Qed.

(** ** An example: "/a/x" on the sample tree *)

Definition object_answer (isdir rc : Z) (r : request) : answer :=
  if decide (r = kind_request utf8_server sample_volume 17 [120])
  then accepted (kind_reply isdir 9)
  else if decide (r = delete_message utf8_server sample_volume 17 [120]) then refused rc
  else sample_answer r.

Lemma object_keeps isdir rc del :
  keeps (object_server utf8_server sample_volume sample_tree 17 [120] isdir rc del)
    (serving (fun r (w : unit) => (object_answer isdir rc r, w))) (fun _ => True).
Proof.
  intros X e w _ _. split; [|done].
  destruct e as [r| | | | | | | | | | | | | | | | |]; cbn [rely object_server serving fst]; try done.
  assert (forall did name, node_request utf8_server 7 did name <>
    kind_request utf8_server sample_volume 17 [120]) as Hn1
    by (intros did name H; apply (f_equal (drop 8 ∘ rq_body)) in H; discriminate).
  assert (forall did name, node_request utf8_server 7 did name <>
    delete_message utf8_server sample_volume 17 [120]) as Hn2 by (intros did name; discriminate).
  unfold object_answer. split_and!.
  - intros did name id Ht Hr. change (vo_volid sample_volume) with 7 in Hr. subst r.
    rewrite decide_False by apply Hn1. rewrite decide_False by apply Hn2.
    refine (proj1 (sample_keeps answer (Exchange (node_request utf8_server 7 did name)) tt I _)
      did name id Ht eq_refl).
    apply Forall_singleton. by exists did, name.
  - intros ->. rewrite decide_True by done. split; [done|]. by exists 9, [].
  - intros ->. rewrite decide_False by discriminate. by rewrite decide_True.
Qed.

Lemma sample_located :
  located utf8_server sample_volume sample_tree 17 [120] [47; 97; 47; 120] [47; 97]
    sample_client.
Proof.
  constructor; try done.
  - intros did name id. unfold sample_tree. repeat case_match; intros; simplify_eq; lia.
  - apply Forall_nil_2.
  - repeat constructor; discriminate.
  - intros H. by apply list_elem_of_singleton in H.
  - vm_compute. lia.
  - vm_compute split_on. repeat constructor; vm_compute; lia.
Qed.

Lemma removal_deletes_witness :
  exists c', (run (serving (fun r (w : unit) => (object_answer 0 kFPObjectLocked r, w)))
      (ml_unlink [47; 97; 47; 120] sample_client) tt).1.2 = Done (- EBUSY, c').
Proof.
  refine (proj2 (removal_deletes _ (fun _ => True) tt sample_client sample_tree
    [47; 97; 47; 120] [47; 97] [120] 17 0 kFPObjectLocked false
    (object_keeps 0 kFPObjectLocked _) I sample_located _ _ _)).
  - vm_compute; lia.
  - reflexivity.
  - reflexivity.
Defined.

End Removal.
