(* ===== verification/Rename.v ===== *)
(** * Renaming, end to end

    [ml_rename] of lib/midlevel.c on a server with a directory tree: both paths are
    resolved and the object moved from the one place to the other. *)

From S2P Require Import Prelude Constants Types Utils Codepage Dsi ReplyBlock ProtoFiles.
From S2P Require Import ProtoVolume Client Calls Did Users Lowlevel Create Resource.
From S2P Require Import Midlevel Removal.

Module Rename.
Import Utils Codepage Dsi ReplyBlock ProtoFiles ProtoVolume Client Calls Did Users Lowlevel
  Create Resource Midlevel Removal.

Section rename.
Context (s0 : afp_server) (v0 : afp_volume) (tree : Z -> list Z -> option Z).
Context (path_from s_from base_from : list Z) (d_from : Z).
Context (path_to s_to base_to : list Z) (d_to : Z) (rc : Z).

Definition move_message : request :=
  afp_call (wire_fixed afpMoveAndRename 0 (vo_volid v0) d_from ++ be_bytes 4 d_to
            ++ path_field s0 base_from ++ path_field s0 [] ++ path_field s0 base_to)
    afpMoveAndRename.

(** The tree; the object is moved with the result [rc].  What [ml_rename] takes for the
    name of the destination is unknown to the server. *)
Definition move_server : contract :=
  {| guarantee := fun r =>
       (exists did name, r = node_request s0 (vo_volid v0) did name) \/
       r = kind_request s0 v0 d_to (decompose path_to) \/ r = move_message;
     rely := fun X e =>
       match e in env X return X -> Prop with
       | Exchange r => fun a =>
         rely (tree_server s0 (vo_volid v0) tree) answer (Exchange r) a /\
         (r = kind_request s0 v0 d_to (decompose path_to) ->
            an_rc a = kFPObjectNotFound /\ exists rid behind, an_packet a =
              Some (wire_header DSI_REPLY DSI_DSICommand rid kFPObjectNotFound 0, behind)) /\
         (r = move_message -> an_rc a = rc)
       | _ => fun _ => True
       end;
     may_crash := False; may_starve := False |}.

(** The error number for the code of the server. *)
Definition rename_errno (rc : Z) : Z :=
  if (rc =? kFPObjectLocked) || (rc =? kFPAccessDenied) then EACCES
  else if rc =? kFPCantRename then EROFS
  else if (rc =? kFPNoErr) || (rc =? kFPObjectNotFound) then 0
  else EIO.

(** What is asked before the move. *)
Definition before_move (r : request) : Prop :=
  (exists did name, r = node_request s0 (vo_volid v0) did name) \/
  r = kind_request s0 v0 d_to (decompose path_to).

Context (Hk : known_encoding s0) (Hf : (length base_from <= path_limit s0)%nat)
  (Ht : (length base_to <= path_limit s0)%nat)
  (Hp : (length (decompose path_to) <= path_limit s0)%nat).

Lemma destination_ok c (Q : Z -> client -> Prop) :
  cl_server c = s0 -> cl_volume c = v0 -> Q 0 c ->
  hoare (only before_move move_server) c (is_dir d_to (decompose path_to)) Q.
Proof using Hk Hp.
  intros Hs Hv HQ. apply is_dir_asks; rewrite ?Hs, ?Hv; [done|done|by right|].
  intros fi a (_ & Ha & _). destruct (Ha eq_refl) as (Hrc & rid & behind & Hpk).
  unfold handle. rewrite Hpk, Hrc. apply hoare_bind, hoare_bind.
  unfold afp_getfiledirparms_reply.
  destruct (raw_error_refused DSI_REPLY DSI_DSICommand rid kFPObjectNotFound 0 behind)
    as (e & He & ->); [done|].
  cbn [mbind option_bind]. rewrite (proj2 (Z.eqb_neq e 0) He). cbn [negb lift].
  by apply hoare_ret, hoare_ret, hoare_ret.
Qed.

Lemma move_ok c (Q : Z -> client -> Prop) :
  cl_server c = s0 -> cl_volume c = v0 -> Q rc c ->
  hoare_last move_server before_move move_message c
    (FPMoveAndRename d_from d_to base_from None base_to) Q.
Proof using Hk Hf Ht.
  intros Hs Hv HQ. unfold FPMoveAndRename.
  apply hoare_before_last, hoare_ask; [constructor|]. intros j _.
  apply hoare_before_last, hoare_bind, hoare_get, hoare_ret. rewrite Hs.
  apply hoare_before_last, hoare_bind, hoare_get, hoare_ret. rewrite Hv.
  apply hoare_before_last. rewrite moveandrename_spec by (done || apply Nat.le_0_l).
  apply hoare_ret, hoare_behind_last. change (default [] None) with (@nil Z). fold move_message.
  apply hoare_last_ask. intros a (_ & _ & Ha). apply hoare_ret. by rewrite (Ha eq_refl).
Qed.

Lemma move_parent_ok path s base d c (Q : list Z * Z -> client -> Prop) :
  located s0 v0 tree d base path s c ->
  (forall c', same_session c c' -> consistent tree c' -> Q (base, d) c') ->
  hoare (only before_move move_server) c (parent_of (decompose path)) Q.
Proof using Hk.
  apply parent_ok; [done| |].
  - intros did name. left. by exists did, name.
  - intros X e x Hx. destruct e; cbn [rely move_server] in Hx; try done. apply Hx.
Qed.

Lemma converting_ok C G last path s base d c (k : list Z -> M Z) Q :
  located s0 v0 tree d base path s c -> hoare_last C G last c (k (decompose path)) Q ->
  hoare_last C G last c (converting path same k) Q.
Proof using Type.
  intros R HQ. unfold converting. apply hoare_before_last, to_afp_ok; [|apply R..|done].
  rewrite (rm_server _ _ _ _ _ _ _ _ R). apply R.
Qed.

Lemma rename_ok c :
  located s0 v0 tree d_from base_from path_from s_from c ->
  located s0 v0 tree d_to base_to path_to s_to c -> rc <> kFPObjectExists ->
  hoare_last move_server before_move move_message c (ml_rename path_from path_to)
    (fun r _ => r = - rename_errno rc).
Proof using Hk Hf Ht Hp.
  intros Rf Rt Hrc. unfold ml_rename.
  eapply converting_ok; [exact Rf|]. eapply converting_ok; [exact Rt|].
  unfold writable, volume_is_readonly, volume.
  apply hoare_before_last, hoare_bind, hoare_bind, hoare_get, hoare_ret, hoare_ret.
  rewrite (rm_volume _ _ _ _ _ _ _ _ Rf), (rm_writable _ _ _ _ _ _ _ _ Rf).
  apply hoare_before_last. eapply move_parent_ok; [exact Rf|]. intros c1 (Hs1 & Hv1 & _) Hok1.
  rewrite (rm_server _ _ _ _ _ _ _ _ Rf) in Hs1. rewrite (rm_volume _ _ _ _ _ _ _ _ Rf) in Hv1.
  assert (located s0 v0 tree d_to base_to path_to s_to c1) as Rt1
    by (destruct Rt; by constructor).
  apply hoare_before_last. eapply move_parent_ok; [exact Rt1|]. intros c2 (Hs2 & Hv2 & _) _.
  rewrite Hs1 in Hs2. rewrite Hv1 in Hv2.
  apply hoare_before_last, destination_ok; [done|done|]. cbn [Z.eqb negb].
  apply hoare_behind_last, move_ok; [done|done|].
  rewrite (proj2 (Z.eqb_neq _ _) Hrc). apply hoare_ret. unfold rename_errno. cbn [switch existsb].
  rewrite !orb_false_r. f_equal. by rewrite (orb_comm (rc =? kFPNoErr)).
Qed.

End rename.

(** C9: renaming to a name that is not taken, end to end.  When the server knows nothing
    under what [ml_rename] takes for the destination, and does not answer the move with
    kFPObjectExists ([ml_rename] deletes the destination then, and moves again), [ml_rename]
    asks only for directory ids and for what it takes for the destination, and then sends
    exactly one more request, the FPMoveAndRename of the object from its directory to the
    destination's under the new name.  It deletes nothing and always returns the error number
    for the server's code.  That number is 0, success, also when the object was not found. *)
Theorem rename_moves {W} (h : handler W) (I : W -> Prop) w c tree
    path_from s_from base_from d_from path_to s_to base_to d_to rc :
  let s0 := cl_server c in
  let v0 := cl_volume c in
  keeps (move_server s0 v0 tree base_from d_from path_to base_to d_to rc) h I -> I w ->
  located s0 v0 tree d_from base_from path_from s_from c ->
  located s0 v0 tree d_to base_to path_to s_to c ->
  (length base_from <= path_limit s0)%nat -> (length (decompose path_to) <= path_limit s0)%nat ->
  rc <> kFPObjectExists ->
  let r := run h (ml_rename path_from path_to c) w in
  exists asked c',
    r.1 = (asked ++ [move_message s0 v0 base_from d_from base_to d_to], Done (- rename_errno rc, c')) /\
    Forall (fun q => (exists did name, q = node_request s0 (vo_volid v0) did name)
                     \/ q = kind_request s0 v0 d_to (decompose path_to)) asked.
Proof.
  intros s0 v0 Hh Hw Rf Rt Hf Hp Hrc r.
  assert (known_encoding s0) as Hk by (left; apply (rm_encoding _ _ _ _ _ _ _ _ Rf)).
  assert (length base_to <= path_limit s0)%nat as Ht.
  { rewrite (rm_path _ _ _ _ _ _ _ _ Rt), length_app in Hp. simpl in Hp. lia. }
  pose proof (rename_ok s0 v0 tree path_from s_from base_from d_from path_to s_to base_to d_to rc
    Hk Hf Ht Hp c Rf Rt Hrc) as Hlast.
  apply (wp_last_run _ _ _ h I _ _ w Hh Hw) in Hlast as (rs & [x c'] & Hrun & Hg & Ha).
  2:{ by right; right. }
  2:{ intros q [Hq|Hq]; [by left|by right; left]. }
  cbn in Ha. subst x. exists rs, c'. by split.
Qed.

(** ** An example: "/a/x" to "/a/b/y" on the sample tree *)

Definition move_answer (rc : Z) (r : request) : answer :=
  if decide (r = move_message utf8_server Did.sample_volume [120] 17 [121] 18) then refused rc
  else if decide (r = kind_request utf8_server Did.sample_volume 18 [47; 97; 47; 98; 47; 121])
  then refused kFPObjectNotFound
  else sample_answer r.

Lemma move_keeps rc :
  keeps (move_server utf8_server Did.sample_volume sample_tree [120] 17
           [47; 97; 47; 98; 47; 121] [121] 18 rc)
    (serving (fun r (w : unit) => (move_answer rc r, w))) (fun _ => True).
Proof.
  intros X e w _ _. split; [|done].
  destruct e as [r| | | | | | | | | | | | | | | | |]; cbn [rely move_server serving fst]; try done.
  change (decompose [47; 97; 47; 98; 47; 121]) with [47; 97; 47; 98; 47; 121].
  assert (forall did name, node_request utf8_server 7 did name <>
    kind_request utf8_server Did.sample_volume 18 [47; 97; 47; 98; 47; 121]) as Hn1
    by (intros did name H; apply (f_equal (drop 8 ∘ rq_body)) in H; discriminate).
  assert (forall did name, node_request utf8_server 7 did name <>
    move_message utf8_server Did.sample_volume [120] 17 [121] 18) as Hn2
    by (intros did name; discriminate).
  unfold move_answer. split_and!.
  - intros did name id Ht Hr. change (vo_volid Did.sample_volume) with 7 in Hr. subst r.
    rewrite decide_False by apply Hn2. rewrite decide_False by apply Hn1.
    refine (proj1 (sample_keeps answer (Exchange (node_request utf8_server 7 did name)) tt I _)
      did name id Ht eq_refl).
    apply Forall_singleton. by exists did, name.
  - intros ->. rewrite decide_False by discriminate. rewrite decide_True by done.
    split; [done|]. by exists 9, [].
  - intros ->. by rewrite decide_True.
Qed.

Lemma sample_destination :
  located utf8_server Did.sample_volume sample_tree 18 [121] [47; 97; 47; 98; 47; 121]
    [47; 97; 47; 98] sample_client.
Proof.
  constructor; try done.
  - intros did name id. unfold sample_tree. repeat case_match; intros; simplify_eq; lia.
  - apply Forall_nil_2.
  - repeat constructor; discriminate.
  - intros H. by apply list_elem_of_singleton in H.
  - vm_compute. lia.
  - vm_compute split_on. repeat constructor; vm_compute; lia.
Qed.

Lemma rename_moves_witness :
  exists asked c', (run (serving (fun r (w : unit) => (move_answer kFPObjectNotFound r, w)))
      (ml_rename [47; 97; 47; 120] [47; 97; 47; 98; 47; 121] sample_client) tt).1 =
    (asked ++ [move_message utf8_server Did.sample_volume [120] 17 [121] 18], Done (0, c')) /\
    Forall (fun q => (exists did name, q = node_request utf8_server (vo_volid Did.sample_volume) did name)
      \/ q = kind_request utf8_server Did.sample_volume 18 (decompose [47; 97; 47; 98; 47; 121])) asked.
Proof.
  refine (rename_moves _ (fun _ => True) tt sample_client sample_tree
    [47; 97; 47; 120] [47; 97] [120] 17 [47; 97; 47; 98; 47; 121] [47; 97; 47; 98] [121] 18
    kFPObjectNotFound (move_keeps kFPObjectNotFound) I sample_located sample_destination
    _ _ _).
  - vm_compute; lia.
  - vm_compute; lia.
  - discriminate.
Defined.

End Rename.
