(* ===== verification/Fuse.v ===== *)
(** * The FUSE operations: fuse/fuse_int.c

    The functions of [afp_oper]: what the kernel's requests become in terms of
    [Midlevel].  The volume is the one of the client; [fi->fh] is the address of an open
    file with the file there, or nothing. *)

From S2P Require Import Prelude Constants Types Utils Codepage Dsi ReplyBlock ProtoFiles.
From S2P Require Import ProtoVolume Client Calls Did Users Lowlevel Create Resource.
From S2P Require Import Midlevel Removal Session.

Module Fuse.
Import Utils Codepage Dsi ReplyBlock ProtoFiles ProtoVolume Client Calls Did Users Lowlevel
  Create Resource Midlevel Removal.

(** ** Files *)

Definition fuse_open (fuel : nat) (path : list Z)
    : M (Z * option (Z * afp_file_info)) :=
  '(ret, fp) ← ml_open fuel path AFP_OPENFORK_ALLOWREAD;
  mret (ret, if ret =? 0 then fp else None).

(** The loop of [fuse_read] with [amount_read]; [buf] is the whole buffer. *)
Fixpoint read_loop (fuel : nat) (icon path buf : list Z) (size offset : Z)
    (fp : afp_file_info) (amount_read : nat) : M (Z * list Z) :=
  match fuel with
  | O => out_of_fuel
  | S fuel =>
    r ← ml_read icon path (drop amount_read buf) size offset fp;
    let buf := take amount_read buf ++ rr_buf r in
    if rr_ret r <? 0 then mret (rr_ret r, buf)
    else
      let amount_read := (amount_read + Z.to_nat (rr_ret r))%nat in
      if negb (rr_eof r =? 0) then mret (i32 (Z.of_nat amount_read), buf)
      else
        let size := u64 (size - rr_ret r) in
        if size =? 0 then mret (i32 (Z.of_nat amount_read), buf)
        else read_loop fuel icon path buf size (offset + rr_ret r) (rr_fp r) amount_read
  end.

Definition fuse_read (fuel : nat) (icon path buf : list Z) (size offset : Z)
    (fh : option (Z * afp_file_info)) : M (Z * list Z) :=
  match fh with
  | None => mret (- EBADF, buf)
  | Some (_, fp) => read_loop fuel icon path buf size offset fp 0
  end.

Definition fuse_write (fuel : nat) (path data : list Z) (size offset : Z)
    (fp : afp_file_info) (uid gid : Z) : M (Z * afp_file_info) :=
  ml_write fuel path data size offset fp uid gid.

Definition fuse_release (path : list Z) (fh : option (Z * afp_file_info)) : M Z :=
  ret ← ml_close path fh;
  if ret <? 0 then
    (match fh with Some (p, _) => ask (Free p) | None => mret tt end);; mret ret
  else mret ret.

Definition fuse_mknod (path : list Z) (mode : Z) : M Z := ml_creat path mode.
Definition fuse_truncate (fuel : nat) (path : list Z) (offset : Z) : M Z :=
  ml_truncate fuel path offset.

(** ** Directories and links *)

(** The names handed to [filler], with the return value. *)
Definition fuse_readdir (fuel : nat) (path : list Z) : M (Z * list (list Z)) :=
  let dots := [str "."; str ".."] in
  '(ret, filebase) ← ml_readdir fuel path;
  if negb (ret =? 0) then mret (ret, dots)
  else names ← lift (mapM (fun p => cstr (fi_name p)) filebase); mret (0, dots ++ names).

Definition fuse_mkdir (path : list Z) (mode : Z) : M Z := ml_mkdir path mode.
Definition fuse_rmdir (path : list Z) : M Z := ml_rmdir path.
Definition fuse_unlink (path : list Z) : M Z := ml_unlink path.
Definition fuse_readlink (path : list Z) (size : Z) : M (Z * list Z) := ml_readlink path size.
Definition fuse_symlink (path1 path2 : list Z) : M Z := ml_symlink path1 path2.
Definition fuse_rename (path_from path_to : list Z) : M Z := ml_rename path_from path_to.

(** ** Attributes *)

(** The path ends one character before the first "(null)", where there is one. *)
Definition cut_null (path : list Z) : list Z :=
  match strstr path (str "(null)") with
  | Some (S n) => take n path
  | _ => path
  end.

Definition fuse_getattr (path : option (list Z)) : M (Z * stat) :=
  match path with
  | None => mret (- EIO, zero_stat)
  | Some path => ml_getattr (cut_null path)
  end.

(** A mode the server does not support is only logged. *)
Definition fuse_chmod (path : list Z) (mode : Z) : M Z :=
  ret ← ml_chmod path mode; mret (if ret =? - EFAULT then 0 else ret).

Definition fuse_chown (path : list Z) (uid gid : Z) : M Z := ml_chown path uid gid.
Definition fuse_utime (path : list Z) (modtime : Z) : M Z := ml_utime path modtime.
Definition fuse_statfs : M (Z * statvfs) := ml_statfs.

(** ** The volume *)

(** [priv] is the handle of the FUSE library; the result is the new [mounted]. *)
Definition afp_init (priv mounted : Z) : Z :=
  if negb (priv =? 0) then Session.AFP_VOLUME_MOUNTED else mounted.

(** The new [mounted] and whether the server was removed. *)
Definition afp_destroy (forkid_of : Z -> Z) (unmount : M unit) (others : list Z) (mounted : Z)
    : M (Z * bool) :=
  if mounted =? Session.AFP_VOLUME_UNMOUNTED then mret (mounted, false)
  else
    '(_, mounted, removed) ← Session.afp_unmount_volume forkid_of unmount others mounted;
    mret (mounted, removed).

(** ** Reading a file *)

Definition read_request (av forkid offset count : Z) : request :=
  if av <? 30 then afp_read forkid offset count else afp_readext forkid offset count.

(** The offsets and counts a read can carry. *)
Definition read_limit (av : Z) : Z := if av <? 30 then 2 ^ 32 else 2 ^ 63.

(** A file with the given contents on the server.  Locks are granted.  A read is
    answered with some of the bytes asked for, at least one, or, where the file ends
    before that many, possibly with all that is left and [kFPEOFErr]. *)
Definition reading_server (av forkid : Z) (content : list Z) : contract :=
  {| guarantee := fun _ => True;
     rely := fun X e =>
       match e in env X return X -> Prop with
       | Exchange r => fun a =>
         (forall packet behind, an_packet a = Some (packet, behind) ->
            (16 <= length packet)%nat) /\
         (is_lock r -> an_rc a = kFPNoErr) /\
         (forall offset count, 0 <= offset -> 0 < count -> offset + count < read_limit av ->
            r = read_request av forkid offset count ->
            let rest := drop (Z.to_nat offset) content in
            exists k, (k <= Z.to_nat count)%nat /\ an_data a = take k rest /\
              (an_rc a = kFPNoErr /\ rest <> [] /\ (0 < k)%nat \/
               an_rc a = kFPEOFErr /\ (length rest <= k)%nat))
       | _ => fun _ => True
       end;
     may_crash := False; may_starve := False |}.

Section reading.
Context (c : client) (fp : afp_file_info) (content : list Z).
Let av := sv_av_number (cl_server c).
Let C := reading_server av (fi_forkid fp) content.

Lemma lock_granted flag offset size (Q : Z -> client -> Prop) :
  Q kFPNoErr c -> hoare C c (byterangelock flag (fi_forkid fp) offset size) Q.
Proof.
  intros HQ. unfold byterangelock.
  apply hoare_bind, hoare_bind, hoare_bind, hoare_get, hoare_ret, hoare_ret.
  destruct (_ <? 30);
    (apply hoare_bind, hoare_ask; [by repeat constructor|]; intros a (Hp & Hl & _);
     rewrite Hl by (by (left + right)); apply hoare_bind; unfold handle;
     destruct (an_packet a) as [[packet behind]|]; [|by apply hoare_ret, hoare_ret];
     destruct (lock_reply_total packet behind) as [[r1 E1] [r2 E2]]; [by eapply Hp|];
     rewrite ?E1, ?E2; by apply hoare_bind, hoare_ret, hoare_ret, hoare_ret).
Qed.

Lemma locking_ok offset size (Q : Z -> client -> Prop) :
  Q 0 c -> hoare C c (ll_handle_locking (fi_forkid fp) offset size) Q.
Proof.
  intros HQ. unfold ll_handle_locking.
  apply hoare_bind, hoare_bind, hoare_bind, hoare_get, hoare_ret, hoare_ret.
  case_match; [by apply hoare_ret|]. cbn [lock_loop MAX_LOCKTRYCOUNT].
  by apply hoare_bind, lock_granted, hoare_ret.
Qed.

Lemma unlocking_ok offset size (Q : Z -> client -> Prop) :
  Q 0 c -> hoare C c (ll_handle_unlocking (fi_forkid fp) offset size) Q.
Proof.
  intros HQ. unfold ll_handle_unlocking.
  apply hoare_bind, hoare_bind, hoare_bind, hoare_get, hoare_ret, hoare_ret.
  case_match; [by apply hoare_ret|]. by apply hoare_bind, lock_granted, hoare_ret.
Qed.

(** What one read brings: [d] is a beginning of what is there, all of it at the end of
    the file and not nothing before it. *)
Definition some_read (size offset : Z) (d : list Z) (eof : Z) : Prop :=
  let rest := drop (Z.to_nat offset) content in
  (exists k, (k <= Z.to_nat size)%nat /\ d = take k rest) /\
  (eof = 0 /\ (0 < length d)%nat \/ eof = 1 /\ d = rest).

Lemma fill_ok a buf size d k rest :
  0 < size -> size <= Z.of_nat (length buf) -> (k <= Z.to_nat size)%nat ->
  an_data a = take k rest -> d = take k rest ->
  fill a (mk_rx 0 size buf 0) = Some (mk_rx (Z.of_nat (length d)) size
                                        (d ++ drop (length d) buf) 0).
Proof.
  intros Hs Hb Hk Ha ->. unfold fill. cbn [rx_maxsize rx_data rx_errorcode]. rewrite Ha.
  rewrite take_take, Nat.min_r by lia.
  rewrite blit_0 by (rewrite length_take; lia). done.
Qed.

Lemma FPRead_ok buf size offset (Q : Z * afp_rx_buffer -> client -> Prop) :
  0 < size -> 0 <= offset -> offset + size < read_limit av -> size <= Z.of_nat (length buf) ->
  (forall d rc, some_read size offset d (if rc =? kFPEOFErr then 1 else 0) ->
     rc = kFPNoErr \/ rc = kFPEOFErr ->
     Q (rc, mk_rx (Z.of_nat (length d)) size (d ++ drop (length d) buf) 0) c) ->
  hoare C c (if av <? 30 then FPRead (fi_forkid fp) offset size (mk_rx 0 size buf 0)
             else FPReadExt (fi_forkid fp) offset size (mk_rx 0 size buf 0)) Q.
Proof.
  intros Hs Ho Hl Hb HQ.
  assert (forall a, rely C answer (Exchange (read_request av (fi_forkid fp) offset size)) a ->
    hoare C c (rx ← lift (fill a (mk_rx 0 size buf 0)); mret (an_rc a, rx)) Q) as Hrest.
  { intros a (_ & _ & Ha). destruct (Ha offset size) as (k & Hk & Hd & Hrc); [done..|].
    apply hoare_bind. rewrite (fill_ok a buf size _ k _ Hs Hb Hk Hd eq_refl). cbn [lift]. apply hoare_ret, hoare_ret, HQ.
    - split; [by exists k|]. destruct Hrc as [(-> & Hne & Hk0)|(-> & Hle)].
      + left. split; [done|]. rewrite length_take.
        destruct (drop (Z.to_nat offset) content); [done|simpl; lia].
      + right. split; [done|]. by rewrite take_ge.
    - destruct Hrc as [(-> & _)|(-> & _)]; auto. }
  unfold read_request in Hrest. destruct (av <? 30);
    (apply hoare_bind, hoare_ask; [by repeat constructor|exact Hrest]).
Qed.

Lemma ll_read_ok buf size offset (Q : Z * list Z * Z -> client -> Prop) :
  0 < size <= sv_rx_quantum (cl_server c) -> 0 <= offset -> offset + size < read_limit av ->
  size <= Z.of_nat (length buf) ->
  (forall d eof, some_read size offset d eof ->
     Q (Z.of_nat (length d), d ++ drop (length d) buf, eof) c) ->
  hoare C c (ll_read buf size offset fp) Q.
Proof.
  intros Hs Ho Hl Hb HQ. unfold ll_read.
  apply hoare_bind, hoare_bind, hoare_get, hoare_ret.
  apply hoare_bind, locking_ok. change (negb (0 =? 0)) with false. cbv iota.
  rewrite Z.min_r by lia. apply hoare_bind. fold av. apply FPRead_ok; try done; [lia|].
  intros d rc Hd Hrc. apply hoare_bind, unlocking_ok. apply hoare_ret.
  destruct Hrc as [-> | ->]; by apply HQ.
Qed.

Lemma ml_read_ok icon path buf size offset (Q : read_result -> client -> Prop) :
  sv_path_encoding (cl_server c) = kFPUTF8Name -> nul_free path ->
  (length (decompose path) < 768)%nat -> fi_resource fp = 0 ->
  0 < size <= sv_rx_quantum (cl_server c) -> 0 <= offset -> offset + size < read_limit av ->
  size <= Z.of_nat (length buf) ->
  (forall d eof, some_read size offset d eof ->
     Q (mk_read (Z.of_nat (length d)) (d ++ drop (length d) buf) 0 eof fp) c) ->
  hoare C c (ml_read icon path buf size offset fp) Q.
Proof.
  intros He Hp Hlp Hr Hs Ho Hl Hb HQ. unfold ml_read, converting.
  apply hoare_bind, to_afp_ok; [done..|]. rewrite Hr. change (negb (0 =? 0)) with false. cbv iota.
  apply hoare_bind, ll_read_ok; [done..|]. intros d eof Hd. by apply hoare_ret, HQ.
Qed.

Lemma some_read_take size offset d eof :
  some_read size offset d eof ->
  let rest := drop (Z.to_nat offset) content in
  d = take (length d) rest /\ (length d <= Z.to_nat size)%nat /\
  (eof <> 0 -> d = take (Z.to_nat size) rest) /\ (eof = 0 -> (0 < length d)%nat).
Proof using Type.
  clear C av c fp.
  intros [(k & Hk & Hd) Heof] rest. fold rest in Hd.
  assert (d = take (length d) rest) as Hd'.
  { rewrite Hd at 1. destruct (decide (k <= length rest)%nat) as [Hle|Hgt].
    - by rewrite Hd, length_take, Nat.min_l by done.
    - rewrite take_ge in Hd by lia. rewrite Hd, !take_ge by lia. done. }
  split_and!; [done|rewrite Hd, length_take; lia|..].
  - intros Hne. destruct Heof as [[-> _]|[_ Hr]]; [done|]. fold rest in Hr.
    rewrite take_ge; [done|]. rewrite <- Hr, Hd, length_take. lia.
  - intros ->. by destruct Heof as [[_ ?]|[? _]].
Qed.

Context (He : sv_path_encoding (cl_server c) = kFPUTF8Name).
Context (path : list Z) (Hp : nul_free path) (Hlp : (length (decompose path) < 768)%nat).
Context (Hr : fi_resource fp = 0).

Lemma read_loop_ok fuel icon pre post size offset :
  0 < size <= sv_rx_quantum (cl_server c) -> size < 2 ^ 64 -> 0 <= offset ->
  offset + size < read_limit av ->
  size <= Z.of_nat (length post) -> (Z.to_nat size <= fuel)%nat ->
  let d := take (Z.to_nat size) (drop (Z.to_nat offset) content) in
  hoare C c (read_loop fuel icon path (pre ++ post) size offset fp (length pre))
    (fun r c' => r = (i32 (Z.of_nat (length (pre ++ d))), pre ++ d ++ drop (length d) post) /\
                 c' = c).
Proof using All.
  revert pre post size offset.
  induction fuel as [|fuel IH]; intros pre post size offset Hs H64 Ho Hl Hb Hf; [lia|].
  cbn [read_loop]. rewrite drop_app_length, take_app_length.
  apply hoare_bind, ml_read_ok; try done. intros d eof Hd.
  apply some_read_take in Hd as (Hd & Hdl & Heof & Hpos).
  cbn [rr_ret rr_buf rr_eof rr_fp]. rewrite (proj2 (Z.ltb_ge _ _)) by lia.
  set (rest := drop (Z.to_nat offset) content) in *. rewrite Nat2Z.id, <- length_app.
  destruct (Z.eqb_spec eof 0) as [He0|He0]; cbn [negb];
    [|apply hoare_ret; by rewrite <- Heof by done].
  specialize (Hpos He0). unfold u64. rewrite Z.mod_small by lia.
  destruct (Z.eqb_spec (size - Z.of_nat (length d)) 0) as [Hz|Hz].
  { apply hoare_ret. replace (Z.to_nat size) with (length d) by lia. by rewrite <- Hd. }
  rewrite app_assoc.
  eapply hoare_mono; [|apply IH; rewrite ?length_drop; lia].
  replace (Z.to_nat (offset + Z.of_nat (length d))) with (Z.to_nat offset + length d)%nat by lia.
  rewrite <- drop_drop. fold rest.
  set (d2 := take (Z.to_nat (size - Z.of_nat (length d))) (drop (length d) rest)).
  assert (take (Z.to_nat size) rest = d ++ d2) as ->.
  { rewrite Hd at 1. unfold d2. rewrite take_take_drop. f_equal. lia. }
  intros r c' [-> ->]. split; [|done].
  by rewrite <- !app_assoc, !length_app, drop_drop.
Qed.

End reading.

(** C15: reading through FUSE returns what is in the file.  Whatever pieces the
    server sends, the kernel's buffer ends up with the bytes of the file from [offset] on,
    [size] of them or all that there are, followed by what was in the buffer before, and
    their number is the result; the loop ends after at most one request per byte. *)
Theorem fuse_read_reads {W} (h : handler W) (I : W -> Prop) w c fuel icon path buf size offset
    p fp content :
  keeps (reading_server (sv_av_number (cl_server c)) (fi_forkid fp) content) h I -> I w ->
  sv_path_encoding (cl_server c) = kFPUTF8Name -> nul_free path ->
  (length (decompose path) < 768)%nat -> fi_resource fp = 0 ->
  0 < size <= sv_rx_quantum (cl_server c) -> size < 2 ^ 31 -> 0 <= offset ->
  offset + size < read_limit (sv_av_number (cl_server c)) ->
  size <= Z.of_nat (length buf) -> (Z.to_nat size <= fuel)%nat ->
  let d := take (Z.to_nat size) (drop (Z.to_nat offset) content) in
  (run h (fuse_read fuel icon path buf size offset (Some (p, fp)) c) w).1.2 =
    Done (Z.of_nat (length d), d ++ drop (length d) buf, c).
Proof.
  intros Hh Hw He Hp Hlp Hr Hs H31 Ho Hl Hb Hf d.
  destruct (wp_run _ h I _ _ w Hh Hw (read_loop_ok c fp content He path Hp Hlp Hr fuel icon []
    buf size offset Hs ltac:(lia) Ho Hl Hb Hf)) as (_ & Ha & _).
  change (fuse_read _ _ _ _ _ _ _ c) with (read_loop fuel icon path ([] ++ buf) size offset fp
    (length (@nil Z)) c).
  destruct (run h _ w) as [[rs o] w']. cbn in Ha |- *.
  destruct o as [[r c']| |]; [|done|done]. destruct Ha as [Hres Hc]. cbn in *. subst.
  fold d. rewrite i32_small; [done|]. unfold d. rewrite length_take. lia.
Qed.

(** ** Reading when the connection fails *)

(** Every request fails with [rc] and brings no data. *)
Definition failing_server (rc : Z) : contract :=
  {| guarantee := fun _ => True;
     rely := fun X e =>
       match e in env X return X -> Prop with
       | Exchange r => fun a => an_rc a = rc /\ an_data a = []
       | _ => fun _ => True
       end;
     may_crash := False; may_starve := True |}.

(** The codes [ll_read] looks at. *)
Definition read_codes : list Z :=
  [kFPAccessDenied; kFPLockErr; kFPMiscErr; kFPParamErr; kFPEOFErr].

Lemma failing_read rc c icon path buf size offset fp (Q : read_result -> client -> Prop) :
  rc ∉ read_codes ->
  has (vo_extra_flags (cl_volume c)) VOLUME_EXTRA_FLAGS_NO_LOCKING = true ->
  sv_path_encoding (cl_server c) = kFPUTF8Name -> nul_free path ->
  (length (decompose path) < 768)%nat -> fi_resource fp = 0 ->
  Q (mk_read 0 buf 0 0 fp) c ->
  hoare (failing_server rc) c (ml_read icon path buf size offset fp) Q.
Proof.
  intros Hrc Hn He Hp Hlp Hr HQ. unfold ml_read, converting.
  apply hoare_bind, to_afp_ok; [done..|]. rewrite Hr. change (negb (0 =? 0)) with false. cbv iota.
  apply hoare_bind. unfold ll_read. apply hoare_bind, hoare_bind, hoare_get, hoare_ret.
  apply hoare_bind. unfold ll_handle_locking.
  apply hoare_bind, hoare_bind, hoare_bind, hoare_get, hoare_ret, hoare_ret. rewrite Hn.
  apply hoare_ret. change (negb (0 =? 0)) with false. cbv iota. apply hoare_bind.
  set (rx := mk_rx 0 _ buf 0).
  assert (forall a, an_data a = [] -> fill a rx = Some rx) as Hfill.
  { intros a Ha. unfold fill. rewrite Ha, take_nil, blit_0 by (simpl; lia). done. }
  assert (forall A cases (d : A), Forall (fun lc => Forall (.∈ read_codes) lc.1) cases ->
    switch rc cases d = d) as Hsw.
  { intros A cases d. induction 1 as [|[l x] cases Hl _ IH]; [done|]. cbn [switch].
    destruct (existsb (Z.eqb rc) l) eqn:E; [|done]. exfalso. apply Hrc.
    apply existsb_exists in E as (y & Hy & ->%Z.eqb_eq). rewrite Forall_forall in Hl.
    apply Hl. by apply list_elem_of_In. }
  assert (forall a, rely (failing_server rc) answer (Exchange a) = fun x =>
    an_rc x = rc /\ an_data x = []) as _ by done.
  match goal with |- hoare _ _ (if ?b then ?x else ?y) ?P =>
    assert (P (rc, rx) c -> hoare (failing_server rc) c (if b then x else y) P) as Hread end.
  { intros HP. destruct (_ <? 30); (apply hoare_bind, hoare_ask; [by repeat constructor|];
      intros a (Ha & Hd); apply hoare_bind; rewrite (Hfill a Hd); by apply hoare_ret, hoare_ret;
      rewrite Ha). }
  apply Hread. clear Hread. apply hoare_bind. unfold ll_handle_unlocking.
  apply hoare_bind, hoare_bind, hoare_bind, hoare_get, hoare_ret, hoare_ret. rewrite Hn.
  apply hoare_ret. change (negb (0 =? 0)) with false. cbv iota.
  apply hoare_ret. rewrite Hsw by (repeat constructor; apply (bool_decide_unpack _); done).
  by apply hoare_ret.
Qed.

(** A read that fails with a code [ll_read] does not know, such as that of a lost
    session, is repeated for ever on a volume without locks: it counts as 0 bytes read
    before the end of the file, and [fuse_read] never returns. *)
Theorem fuse_read_spins {W} (h : handler W) (I : W -> Prop) w rc c fuel icon path buf size
    offset p fp :
  keeps (failing_server rc) h I -> I w -> rc ∉ read_codes ->
  has (vo_extra_flags (cl_volume c)) VOLUME_EXTRA_FLAGS_NO_LOCKING = true ->
  sv_path_encoding (cl_server c) = kFPUTF8Name -> nul_free path ->
  (length (decompose path) < 768)%nat -> fi_resource fp = 0 -> 0 < size < 2 ^ 64 ->
  (run h (fuse_read fuel icon path buf size offset (Some (p, fp)) c) w).1.2 = Starved.
Proof.
  intros Hh Hw Hrc Hn He Hp Hlp Hr Hs.
  assert (forall buf offset, hoare (failing_server rc) c
    (read_loop fuel icon path buf size offset fp 0) (fun _ _ => False)) as Hloop.
  { clear buf offset. induction fuel as [|fuel IH]; intros buf offset; [done|].
    cbn [read_loop]. apply hoare_bind, (failing_read rc); [done..|].
    cbn [rr_ret rr_buf rr_eof rr_fp]. change (0 <? 0) with false. change (negb (0 =? 0)) with false.
    cbv iota. rewrite Z.sub_0_r. unfold u64. rewrite Z.mod_small by lia.
    rewrite (proj2 (Z.eqb_neq size 0)) by lia. apply IH. }
  destruct (wp_run _ h I _ _ w Hh Hw (Hloop buf offset)) as (_ & Ha & _).
  unfold fuse_read. destruct (run h _ w) as [[rs o] w']. cbn in *. by destruct o.
Qed.

(** ** Opening on a read-only volume *)

(** No file can be opened on a read-only volume, not even for reading, and the
    server is not even asked: [fuse_open] passes AFP_OPENFORK_ALLOWREAD, which as a flag
    of open() is O_WRONLY. *)
Theorem readonly_never_opens {W} (h : handler W) w fuel path c :
  volume_readonly (cl_volume c) = true ->
  sv_path_encoding (cl_server c) = kFPUTF8Name -> nul_free path ->
  (length (decompose path) < 768)%nat ->
  invalid_filename (cl_server c) (decompose path) = Some false ->
  exists w', run h (fuse_open fuel path c) w = ([], Done (- EACCES, None, c), w').
Proof.
  intros Hro He Hp Hl Hv.
  set (C := {| guarantee := fun _ => False; rely := fun _ _ _ => True; may_crash := False;
               may_starve := False |}).
  assert (hoare C c (fuse_open fuel path) (fun r c' => r = (- EACCES, None) /\ c' = c)) as H.
  { unfold fuse_open, ml_open, converting, valid_name, name_too_long.
    apply hoare_bind, hoare_bind, to_afp_ok; [done..|].
    apply hoare_bind, hoare_bind, hoare_bind, hoare_get, hoare_ret. rewrite Hv.
    apply hoare_ret, hoare_bind, hoare_bind, hoare_bind, hoare_get, hoare_ret, hoare_ret.
    rewrite Hro. by apply hoare_ret, hoare_ret. }
  destruct (wp_run C h (fun _ => True) (fuse_open fuel path c) _ w
    ltac:(done) Logic.I H) as (Hg & Ha & _).
  destruct (run h _ w) as [[rs o] w']. cbn in *. exists w'.
  destruct rs as [|r rs]; [|by inversion Hg].
  destruct o as [[r c']| |]; [|done|done]. destruct Ha as [Hr Hc]. cbn in *. by subst.
Qed.

(** ** Examples *)

(** A server that sends at most three bytes at a time. *)
Definition piece_answer (content : list Z) (r : request) : answer :=
  let field i := Z.to_nat (be_val (take 8 (drop i (rq_body r)))) in
  if bool_decide (head (rq_body r) = Some afpReadExt) then
    let rest := drop (field 4%nat) content in
    let k := Nat.min 3 (field 12%nat) in
    mk_answer (if bool_decide (length rest <= k)%nat then kFPEOFErr else kFPNoErr) None
      (take k rest)
  else mk_answer kFPNoErr None [].

Lemma piece_keeps forkid content :
  keeps (reading_server 32 forkid content)
    (serving (fun r (w : unit) => (piece_answer content r, w))) (fun _ => True).
Proof.
  intros X e w _ _. split; [|done]. destruct e as [r| | | | | | | | | | | | | | | | |]; try done.
  cbn [rely reading_server serving fst]. split_and!.
  - intros packet behind. unfold piece_answer. by case_bool_decide.
  - intros Hl. unfold piece_answer. rewrite bool_decide_eq_false_2; [done|].
    intros E. destruct Hl as [Hl|Hl]; by rewrite Hl in E.
  - intros offset count Ho Hc Hl ->. change (read_limit 32) with (2 ^ 63) in Hl.
    unfold piece_answer, read_request, afp_readext, afp_call.
    change (32 <? 30) with false. cbn [rq_body].
    rewrite bool_decide_eq_true_2 by done. rewrite !st64_hton64 by lia.
    change (st8 afpReadExt) with [afpReadExt]. change (st8 0) with [0]. cbn [app].
    assert (length (st16 (htons forkid)) = 2%nat) as Hst by done.
    assert (forall x, 0 <= x < 2 ^ 64 -> Z.to_nat (be_val (be_bytes 8 x)) = Z.to_nat x) as Hbe.
    { intros x Hx. rewrite be_val_bytes, Z.mod_small; [done|]. by change (256 ^ Z.of_nat 8) with (2 ^ 64). }
    destruct (st16 (htons forkid)) as [|b1 [|b2 [|]]]; try done. cbn [app drop].
    assert (length (be_bytes 8 offset) = 8%nat /\ length (be_bytes 8 count) = 8%nat) as [Hbo Hbc]
      by (split; apply length_be_bytes).
    rewrite drop_0, drop_app_length', take_app_length', take_ge by (congruence || lia).
    rewrite !Hbe by lia. set (rest := drop (Z.to_nat offset) content).
    exists (3 `min` Z.to_nat count)%nat. cbn [an_data an_rc]. split_and!; [lia|done|].
    case_bool_decide as Hle; [by right|left]. split_and!; [done| |lia]. intros E.
    apply Hle. rewrite E. simpl. lia.
Qed.

(** Eight of eleven bytes in three pieces, and a read across the end. *)
Lemma fuse_read_reads_witness :
  (run (serving (fun r (w : unit) => (piece_answer [1; 2; 3; 4; 5; 6; 7; 8; 9; 10; 11] r, w)))
     (fuse_read 8 [] [47; 97] (replicate 8 0) 8 1 (Some (1, zero_file_info)) small_client)
     tt).1.2 = Done (8, [2; 3; 4; 5; 6; 7; 8; 9], small_client) /\
  (run (serving (fun r (w : unit) => (piece_answer [1; 2; 3; 4; 5; 6; 7; 8; 9; 10; 11] r, w)))
     (fuse_read 8 [] [47; 97] (replicate 8 0) 8 6 (Some (1, zero_file_info)) small_client)
     tt).1.2 = Done (5, [7; 8; 9; 10; 11; 0; 0; 0], small_client).
Proof.
  split; [set (offset := 1)|set (offset := 6)];
    (apply (fuse_read_reads _ (fun _ => True) tt small_client 8 [] [47; 97] (replicate 8 0) 8
       offset 1 zero_file_info [1; 2; 3; 4; 5; 6; 7; 8; 9; 10; 11] (piece_keeps 0 _));
     [done|done| |vm_compute; repeat split; (done || lia)..]); by apply (bool_decide_unpack (nul_free _)).
Defined.

Definition reading_client : client :=
  mk_client utf8_server (set_vo_extra_flags VOLUME_EXTRA_FLAGS_NO_LOCKING sample_volume)
    [] 0 0 0 0 [].

Lemma fuse_read_spins_witness :
  (run (always (refused kFPSessClosed)) (fuse_read 1000 [] [47; 97] (replicate 8 0) 8 0
     (Some (1, zero_file_info)) reading_client) tt).1.2 = Starved.
Proof.
  apply (fuse_read_spins _ (fun _ => True) tt kFPSessClosed); try done.
  - intros X e w _ _. split; [by destruct e|done].
  - by apply (bool_decide_unpack (_ ∉ _)).
  - by repeat constructor.
  - vm_compute. lia.
Defined.

Definition readonly_reader : client :=
  mk_client utf8_server (set_vo_attributes kReadOnly sample_volume) [] 0 0 0 0 [].

Lemma readonly_never_opens_witness :
  exists w', run (always (refused 0)) (fuse_open 9 [47; 97] readonly_reader) tt =
    ([], Done (-13, None, readonly_reader), w').
Proof.
  apply readonly_never_opens; try done.
  - by repeat constructor.
  - vm_compute. lia.
Defined.

End Fuse.
