(* ===== verification/Cmdline.v ===== *)
(** * The command line client: cmdline/cmdline_afp.c

    The commands of afpcmd on a connected server.  What is printed is left out; calls of
    the local machine are [Local].  Connecting is in [Afpcmd], the text of the status in
    [StatusText], the numbers printed for a transfer in [Tools]. *)

From S2P Require Import Prelude Constants Types Utils Codepage Dsi ReplyBlock ProtoFiles.
From S2P Require Import ProtoVolume Client Calls Did Users Url Lowlevel Create Resource.
From S2P Require Import Auth Midlevel Removal Session Fuse.

Module Cmdline.
Import Utils Codepage Dsi ReplyBlock ProtoFiles ProtoVolume Client Calls Did Users Lowlevel
  Create Resource Midlevel Removal.

(** ** The state *)

(** [curdir], [url], whether [server] and [vol] are set; the volumes of the server, and the
    field [mounted] of the current one and of the others. *)
Record shell := mk_shell {
  sh_curdir : list Z; sh_url : Url.afp_url; sh_server : bool; sh_vol : bool;
  sh_volumes : list afp_volume; sh_mounted : Z; sh_others : list Z }.

Definition set_sh_curdir x sh := mk_shell x (sh_url sh) (sh_server sh) (sh_vol sh)
  (sh_volumes sh) (sh_mounted sh) (sh_others sh).
Definition set_sh_url x sh := mk_shell (sh_curdir sh) x (sh_server sh) (sh_vol sh)
  (sh_volumes sh) (sh_mounted sh) (sh_others sh).
Definition set_sh_server x sh := mk_shell (sh_curdir sh) (sh_url sh) x (sh_vol sh)
  (sh_volumes sh) (sh_mounted sh) (sh_others sh).
Definition set_sh_vol x sh := mk_shell (sh_curdir sh) (sh_url sh) (sh_server sh) x
  (sh_volumes sh) (sh_mounted sh) (sh_others sh).
Definition set_sh_mounted x sh := mk_shell (sh_curdir sh) (sh_url sh) (sh_server sh) (sh_vol sh)
  (sh_volumes sh) x (sh_others sh).

Definition local (call : local_call) : M local_result := ask (Local call).

(** ** Arguments *)

Definition backslash : Z := 92.
Definition quote : Z := 34.
Definition space : Z := 32.

(** The loop of [escape_paths]: what it writes to the two arrays, and [donewith1].  [two]
    says that there is a second array.  The test for the closing quote is behind the one
    that takes every quote for an opening one. *)
Fixpoint paths_loop (two inescape inquote donewith1 : bool) (s : list Z)
    : list Z * list Z * bool :=
  match s with
  | [] => ([], [], donewith1)
  | c :: s =>
    let add inescape donewith1 :=
      let '(out1, out2, done) := paths_loop two inescape inquote donewith1 s in
      if donewith1 : bool then (out1, c :: out2, done) else (c :: out1, out2, done) in
    if c =? backslash then
      if inescape then add false donewith1 else paths_loop two true inquote donewith1 s
    else if c =? quote then paths_loop two inescape true donewith1 s
    else if inquote then add inescape donewith1
    else if c =? space then
      if inescape then add inescape donewith1
      else if donewith1 || negb two then ([], [], donewith1)
      else add inescape true
    else add inescape donewith1
  end.

(** [memset] of the first [AFP_MAX_PATH] bytes and the writes from the start of an array. *)
Definition escaped (array out : list Z) : option (list Z) :=
  array ← zero_fill 0 (Z.to_nat AFP_MAX_PATH) array; blit 0 out array.

(** The return value and the arrays. *)
Definition escape_paths (outgoing1 : list Z) (outgoing2 : option (list Z)) (incoming : list Z)
    : option (Z * list Z * option (list Z)) :=
  match incoming with
  | [] => Some (-1, outgoing1, outgoing2)
  | _ =>
    let two := match outgoing2 with Some _ => true | None => false end in
    let '(out1, out2, donewith1) := paths_loop two false false false incoming in
    outgoing1 ← escaped outgoing1 out1;
    outgoing2 ← match outgoing2 with
                | Some array => Some <$> escaped array out2
                | None => Some None
                end;
    Some (if two && negb donewith1 then -1 else 0, outgoing1, outgoing2)
  end.

(** [snprintf] of at most [n] bytes into an array of [size]. *)
Definition print_to (size n : nat) (text : list Z) : option (list Z) :=
  let s := take (n - 1) text in if decide (length s < size)%nat then Some s else None.

Definition PATH_MAX : nat := 4096.

(** The array the path goes to has [size] bytes. *)
Definition get_server_path (size : nat) (curdir filename : list Z) : option (list Z) :=
  print_to size PATH_MAX
    (if negb (bool_decide (head filename = Some slash)) then
       if bool_decide (length curdir = 1%nat) then [slash] ++ filename
       else curdir ++ [slash] ++ filename
     else filename).

(** ** What the commands share *)

Definition max_path : nat := Z.to_nat AFP_MAX_PATH.

(** [if ((server==NULL) || (vol==NULL)) goto error;] *)
Definition with_volume {A} (sh : shell) (fail : A) (k : M A) : M A :=
  if sh_server sh && sh_vol sh then k else mret fail.

(** [if (escape_paths(filename,NULL,arg)) goto error;] *)
Definition one_path {A} (arg : list Z) (fail : A) (k : list Z -> M A) : M A :=
  array ← ask (Memory AFP_MAX_PATH);
  '(ret, array, _) ← lift (escape_paths array None arg);
  if negb (ret =? 0) then mret fail else filename ← lift (cstr array); k filename.

Definition server_path (sh : shell) (filename : list Z) : M (list Z) :=
  lift (get_server_path max_path (sh_curdir sh) filename).

(** ** Connections and volumes *)

(** [vol] is set also where the volume then cannot be opened; its name is printed then, from
    freed memory when the server was removed. *)
Definition connect_volume (forkid_of : Z -> Z) (sh : shell) (volumename : list Z)
    : M (Z * shell) :=
  match volumename with
  | [] => mret (-1, sh)
  | _ =>
    mesg ← ask (Memory 1024);
    found ← lift (Session.find_volume_by_name (sh_volumes sh) volumename);
    match found with
    | None => mret (-1, set_sh_vol false sh)
    | Some v =>
      let v := set_vo_mapping AFP_MAPPING_LOGINIDS v in
      modify (set_volume (set_vo_extra_flags
        (Z.lor (vo_extra_flags v) VOLUME_EXTRA_FLAGS_NO_LOCKING) v));;
      '(ret, mounted, last, _) ← Session.afp_connect_volume forkid_of (mret tt) (sh_others sh) []
                                   (sh_mounted sh) 1024 (Session.mk_message mesg 0);
      if last : bool then crash else
      let sh := set_sh_mounted mounted (set_sh_vol true sh) in
      mret (if negb (ret =? 0) then -1 else 0, sh)
    end
  end.

Definition com_disconnect (forkid_of : Z -> Z) (sh : shell) : M (Z * shell) :=
  if negb (sh_server sh) then mret (-1, sh)
  else
    '(_, mounted, _) ←
      (if sh_vol sh
       then Session.afp_unmount_volume forkid_of (mret tt) (sh_others sh) (sh_mounted sh)
       else mret (-1, sh_mounted sh, false));
    mret (0, set_sh_curdir [slash] (set_sh_server false (set_sh_vol false (set_sh_mounted mounted sh)))).

(** The test is the wrong way round: only the password "-" is set. *)
Definition com_pass (arg : list Z) (sh : shell) : M (Z * shell) :=
  if bool_decide (arg = []) || negb (bool_decide (arg = str "-"))
  then local LocalGetpass;; mret (-1, sh)
  else mret (0, set_sh_url (Url.set_ur_password arg (sh_url sh)) sh).

Definition com_user (arg : list Z) (sh : shell) : M (Z * shell) :=
  match arg with
  | [] => mret (-1, sh)
  | _ =>
    if decide (length arg < Z.to_nat AFP_MAX_PASSWORD_LEN)%nat
    then mret (0, set_sh_url (Url.set_ur_username arg (sh_url sh)) sh)
    else crash
  end.

(** A password that does not fit has no terminating NUL, and [strlen] runs over its end. *)
Definition com_passwd (r : Auth.registry) (using_uam : Z) (sh : shell) : M Z :=
  if negb (sh_server sh) then mret (-1)
  else
    p ← local LocalGetpass;
    let newpass := take (Z.to_nat AFP_MAX_PASSWORD_LEN) (lo_bytes p) in
    if decide (length newpass < Z.to_nat AFP_MAX_PASSWORD_LEN)%nat then
      ret ← ml_passwd r using_uam (Url.ur_username (sh_url sh)) (Url.ur_password (sh_url sh))
              newpass;
      mret (if negb (ret =? 0) then -1 else 0)
    else crash.

(** ** Directories *)

(** The entries printed. *)
Definition com_dir (fuel : nat) (sh : shell) : M (Z * list afp_file_info) :=
  if negb (sh_server sh) then mret (-1, [])
  else
    match Url.ur_volumename (sh_url sh) with
    | [] =>
      names ← ask (Memory 1024);
      _ ← lift (Session.afp_list_volnames (sh_volumes sh) 1024 names);
      mret (0, [])
    | _ =>
      if negb (sh_vol sh) then crash
      else
        '(ret, filebase) ← ml_readdir fuel (sh_curdir sh);
        mret (if negb (ret =? 0) then (-1, []) else (0, filebase))
    end.

(** [mode_str] of [print_file_details]. *)
Definition mode_string (fp : afp_file_info) : list Z :=
  let '(mode, _, _) := afp_unixpriv_to_stat fp in
  let flag bit c := if has mode bit then c else str "-" in
  (if negb (fi_isdir fp =? 0) then str "d" else str "-")
  ++ flag 0x100 (str "r") ++ flag 0x80 (str "w") ++ flag 0x40 (str "x")
  ++ flag 0x20 (str "r") ++ flag 0x10 (str "w") ++ flag 0x8 (str "x")
  ++ flag 0x4 (str "r") ++ flag 0x2 (str "w") ++ flag 0x1 (str "x").

Definition com_mkdir (arg : list Z) (sh : shell) : M Z :=
  with_volume sh (-1) (one_path arg (-1) (fun filename =>
    fullname ← server_path sh filename;
    ret ← ml_mkdir fullname 0x1ed; mret (if negb (ret =? 0) then -1 else 0))).

Definition com_rmdir (arg : list Z) (sh : shell) : M Z :=
  with_volume sh (-1) (one_path arg (-1) (fun filename =>
    fullname ← server_path sh filename;
    ret ← ml_rmdir fullname; mret (if negb (ret =? 0) then -1 else 0))).

Definition com_lcd (path : list Z) : M Z := r ← local (LocalChdir path); mret (lo_ret r).

Definition com_pwd (sh : shell) : M (Z * option (list Z)) :=
  with_volume sh (-1, None) (mret (0, Some (sh_curdir sh))).

(** The last slash of a path longer than one character goes. *)
Definition chop (path : list Z) : list Z :=
  if bool_decide (1 < length path)%nat && bool_decide (last path = Some slash)
  then take (length path - 1) path else path.

(** [com_cd] behind the choice of a volume.  [behind] is the room in the array behind
    the start of [path]. *)
Definition change_directory (path : list Z) (behind : nat) (sh : shell) : M (Z * shell) :=
  let path := chop path in
  let curdir := chop (sh_curdir sh) in
  let sh := set_sh_curdir curdir sh in
  if bool_decide (path = str "..") then
    if bool_decide (length curdir = 1%nat) then mret (0, sh)
    else match last_index_of slash curdir with
         | Some O => mret (0, set_sh_curdir [slash] sh)
         | Some p => mret (0, set_sh_curdir (take p curdir) sh)
         | None => mret (-1, sh)
         end
  else
    newdir ←
      (if bool_decide (head path = Some slash)
       then lift (if decide (max_path <= behind)%nat then Some path else None)
       else if bool_decide (curdir = [slash])
            then lift (print_to max_path max_path ([slash] ++ path))
            else lift (print_to max_path max_path (curdir ++ [slash] ++ path)));
    if negb (sh_vol sh) then crash
    else
      '(ret, stbuf) ← ml_getattr newdir;
      if (ret =? 0) && has (st_mode stbuf) S_IFDIR then mret (0, set_sh_curdir newdir sh)
      else if negb (has (st_mode stbuf) S_IFDIR) then mret (0, sh)
      else mret (-1, sh).

(** Without a volume the first component names it. *)
Definition com_cd (forkid_of : Z -> Z) (arg : list Z) (sh : shell) : M (Z * shell) :=
  if negb (sh_server sh) then mret (-1, sh)
  else
    let array := replicate max_path 0 in
    '(ret, array, _) ← lift (escape_paths array None arg);
    match Url.ur_volumename (sh_url sh) with
    | [] =>
      if negb (ret =? 0) then mret (-1, sh)
      else
        path ← lift (cstr array);
        let volumename := match index_of slash path with
                          | Some t => take t path | None => path end in
        '(ret, sh) ← connect_volume forkid_of sh volumename;
        if negb (ret =? 0) then mret (-1, sh)
        else
          v ← volume;
          name ← lift (cstr (take 33 (vo_volume_name v)));
          let sh := set_sh_url (Url.set_ur_volumename name (sh_url sh)) sh in
          match index_of slash path with
          | None => mret (0, sh)
          | Some t => change_directory (drop (S t) path) (max_path - S t) sh
          end
    | _ =>
      path ← (if negb (ret =? 0) then mret [] else lift (cstr array));
      change_directory path max_path sh
    end.

(** ** Files on the server *)

Definition com_touch (arg : list Z) (sh : shell) : M Z :=
  one_path arg (-1) (fun filename =>
    with_volume sh (-1) (
    fullname ← server_path sh filename;
    _ ← ml_creat fullname 0x180; mret 0)).

Fixpoint octal (s : list Z) (acc : Z) : Z :=
  match s with
  | c :: s => if (48 <=? c) && (c <=? 55) then octal s (acc * 8 + (c - 48)) else acc
  | [] => acc
  end.

(** [sscanf(s,"%o",&mode)] of a string without a sign. *)
Fixpoint scan_octal (s : list Z) : option Z :=
  match s with
  | c :: s' => if Url.isspace c then scan_octal s'
               else if (48 <=? c) && (c <=? 55) then Some (u32 (octal s 0)) else None
  | [] => None
  end.

(** The array of the mode has 100 bytes. *)
Definition com_chmod (arg : list Z) (sh : shell) : M Z :=
  with_volume sh (-1) (
  modestring ← ask (Memory 100); basename ← ask (Memory 4096);
  '(ret, modestring, basename) ← lift (escape_paths modestring (Some basename) arg);
  if negb (ret =? 0) then mret (-1)
  else
    modestring ← lift (cstr modestring);
    match scan_octal modestring with
    | None => mret (-1)
    | Some mode =>
      basename ← lift (cstr (default [] basename));
      fullname ← server_path sh basename;
      _ ← ml_chmod fullname mode; mret 0
    end).

(** 1 is success. *)
Definition com_delete (arg : list Z) (sh : shell) : M Z :=
  with_volume sh (-1) (one_path arg (-1) (fun filename =>
    fullname ← server_path sh filename;
    ret ← ml_unlink fullname; mret (if negb (ret =? 0) then -1 else 1))).

(** [com_rename] on the full paths. *)
Definition rename_paths (full_from_path full_to_path : list Z) : M Z :=
  '(ret, _) ← ml_getattr full_from_path;
  if negb (ret =? 0) then mret (-1)
  else
    '(ret, stbuf) ← ml_getattr full_to_path;
    if (ret =? 0) && negb (has (st_mode stbuf) S_IFDIR) then mret (-1)
    else
      ret ← ml_rename full_from_path full_to_path;
      mret (if negb (ret =? 0) then -1 else 0).

Definition com_rename (arg : list Z) (sh : shell) : M Z :=
  with_volume sh (-1) (
  from_path ← ask (Memory AFP_MAX_PATH); to_path ← ask (Memory AFP_MAX_PATH);
  '(ret, from_path, to_path) ← lift (escape_paths from_path (Some to_path) arg);
  if negb (ret =? 0) then mret (-1)
  else
    from_path ← lift (cstr from_path); to_path ← lift (cstr (default [] to_path));
    full_from_path ← server_path sh from_path;
    full_to_path ← server_path sh to_path;
    rename_paths full_from_path full_to_path).

(** The sizes printed, in units of a kilobyte, or of 512 bytes without "-h"; the
    percentage is left out. *)
Definition com_statvfs (arg : list Z) (sh : shell) : M (Z * option (Z * Z * Z)) :=
  with_volume sh (-1, None) (
  '(_, st) ← ml_statfs;
  let avail := u64 (f_bavail st * 4) in
  let used := u64 (u64 (f_blocks st - f_bavail st) * 4) in
  let total := u64 (avail + used) in
  mret (0, Some (match strstr arg (str "-h") with
                 | Some _ => (total, used, avail)
                 | None => (u64 (total * 2), u64 (used * 2), u64 (avail * 2))
                 end))).

(** ** Sending a file *)

Definition PUT_BUFSIZE : Z := 102400.

(** The loop of [com_put]: the bytes sent and the file.  The offset is an [int]. *)
Fixpoint put_loop (fuel : nat) (path : list Z) (fd offset : Z) (fp : afp_file_info)
    (uid gid amount_written : Z) : M (Z * afp_file_info) :=
  match fuel with
  | O => out_of_fuel
  | S fuel =>
    r ← local (LocalRead fd PUT_BUFSIZE);
    let amount_read := lo_ret r in
    if amount_read <=? 0 then mret (amount_written, fp)
    else
      '(ret, fp) ← ml_write fuel path (lo_bytes r) amount_read offset fp uid gid;
      let amount_written := u64 (amount_written + amount_read) in
      if ret <? 0 then mret (amount_written, fp)
      else put_loop fuel path fd (i32 (offset + amount_read)) fp uid gid amount_written
  end.

(** The return value and the bytes sent.  When the file cannot be opened on the server,
    [ml_close] gets a pointer that was not set or that was freed. *)
Definition com_put (fuel : nat) (arg : list Z) (sh : shell) : M (Z * Z) :=
  with_volume sh (-1, 0) (one_path arg (-1, 0) (fun filename =>
    fullname ← server_path sh filename;
    uid ← local LocalGetuid; gid ← ask Getgid;
    localstat ← local (LocalStat filename);
    fd ← local (LocalOpen filename O_RDONLY 0);
    let fd := lo_ret fd in
    if fd <? 0 then mret (-1, 0)
    else
      '(ret, file) ← ml_open fuel fullname (Z.lor O_CREAT O_RDWR);
      '(amount_written, file) ←
        (if ret <? 0 then mret (0, file)
         else
           '(p, fp) ← lift file;
           _ ← ml_chmod fullname (lo_mode localstat);
           '(amount_written, fp) ← put_loop fuel fullname fd 0 fp (lo_ret uid) gid 0;
           mret (amount_written, Some (p, fp)));
      local (LocalClose fd);;
      match file with
      | None => crash
      | Some _ => ml_close fullname file;; mret (0, amount_written)
      end)).

(** ** Fetching a file *)

Definition BUF_SIZE : Z := 102400.

(** The loop of [retrieve_file]: the bytes that [write] accepted and the file. *)
Fixpoint get_loop (fuel : nat) (icon path : list Z) (fd offset : Z) (fp : afp_file_info)
    (total : Z) : M (Z * afp_file_info) :=
  match fuel with
  | O => out_of_fuel
  | S fuel =>
    r ← ml_read icon path (replicate (Z.to_nat BUF_SIZE) 0) BUF_SIZE offset fp;
    if rr_ret r <=? 0 then mret (total, rr_fp r)
    else
      bytes ← lift (slice 0 (Z.to_nat (rr_ret r)) (rr_buf r));
      written ← local (LocalWrite fd bytes);
      let total := u64 (total + lo_ret written) in
      if rr_eof r =? 1 then mret (total, rr_fp r)
      else get_loop fuel icon path fd (offset + rr_ret r) (rr_fp r) total
  end.

(** The return value and the bytes transferred; [stat] is false where the caller passes
    NULL for it. *)
Definition retrieve_file (fuel : nat) (icon : list Z) (stat : bool) (arg : list Z) (fd : Z)
    (sh : shell) : M (Z * Z) :=
  if negb (sh_server sh) then mret (-1, 0)
  else
    path ← lift (get_server_path PATH_MAX (sh_curdir sh) arg);
    if negb stat then crash
    else
      '(ret, _) ← ml_getattr path;
      if negb (ret =? 0) then mret (-1, 0)
      else
        '(ret, file) ← ml_open fuel path O_RDONLY;
        if negb (ret =? 0) then mret (-1, 0)
        else
          '(p, fp) ← lift file;
          '(total, fp) ← get_loop fuel icon path fd 0 fp 0;
          (if 1 <? fd then local (LocalClose fd);; mret tt else mret tt);;
          ml_close path (Some (p, fp));;
          ask (Free p);;
          mret (0, total).

(** A reversed path without the slashes at its end, but not without its only slash. *)
Fixpoint strip_slashes (rev : list Z) : list Z :=
  match rev with
  | c :: rev' => if (c =? slash) && negb (bool_decide (rev' = [])) then strip_slashes rev' else rev
  | [] => []
  end.

(** [basename] of libgen.h: its result, and what it leaves of its argument. *)
Definition basename (path : list Z) : list Z * list Z :=
  let path' := reverse (strip_slashes (reverse path)) in
  (match path with
   | [] => str "."
   | _ => if bool_decide (path' = [slash]) then path'
          else match last_index_of slash path' with
               | Some i => drop (S i) path'
               | None => path'
               end
   end, path').

(** [dirname] of libgen.h. *)
Definition dirname (path : list Z) : list Z :=
  let path' := reverse (strip_slashes (reverse path)) in
  match last_index_of slash path' with
  | Some O => [slash]
  | Some i => reverse (strip_slashes (reverse (take i path')))
  | None => str "."
  end.

(** [None] for the bytes where [*total] is not set. *)
Definition com_get_file (fuel : nat) (icon arg : list Z) (sh : shell) : M (Z * option Z) :=
  with_volume sh (-1, None) (one_path arg (-1, None) (fun filename =>
    let '(localfilename, filename) := basename filename in
    r ← local (LocalAccess localfilename);
    if negb (lo_ret r =? 0) && negb (lo_mode r =? ENOENT) then mret (-1, None)
    else
      getattr_path ← server_path sh filename;
      '(ret, st) ← ml_getattr getattr_path;
      if negb (ret =? 0) then mret (-1, None)
      else
        fd ← local (LocalOpen localfilename (Z.lor O_CREAT (Z.lor O_TRUNC O_RDWR)) (st_mode st));
        let fd := lo_ret fd in
        if fd <? 0 then mret (-1, None)
        else
          local (LocalChmod localfilename (st_mode st));;
          local (LocalChown localfilename (st_uid st) (st_gid st));;
          '(_, total) ← retrieve_file fuel icon true filename fd sh;
          local (LocalClose fd);;
          mret (0, Some total))).

(** The second argument of [retrieve_file] that is a [struct stat] is NULL. *)
Definition com_view (fuel : nat) (icon arg : list Z) (sh : shell) : M Z :=
  with_volume sh (-1) (one_path arg (-1) (fun filename =>
    _ ← retrieve_file fuel icon false filename 1 sh; mret 0)).

(** The loop over a directory changes [curdir]; what is added for a file that could not
    be fetched is the value of the one before it. *)
Fixpoint get_dir (fuel : nat) (icon server_base path : list Z) (sh : shell)
    : M (Z * shell * option Z) :=
  match fuel with
  | O => out_of_fuel
  | S fuel =>
    total_path ← lift (print_to max_path max_path
      (if bool_decide (server_base = [slash]) then [slash] ++ path
       else server_base ++ [slash] ++ path));
    local (LocalMkdir path 0x1ed);; local (LocalChdir path);;
    '(ret, filebase) ← ml_readdir fuel total_path;
    if negb (ret =? 0) then local (LocalChdir (str ".."));; mret (-1, sh, None)
    else
      unset ← ask Unset;
      '(sh, local_total) ←
        (fix entries (filebase : list afp_file_info) (sh : shell) (amount local_total : Z)
            : M (shell * Z) :=
           match filebase with
           | [] => mret (sh, local_total)
           | p :: filebase =>
             name ← lift (cstr (fi_name p));
             '(sh, written) ←
               (if negb (fi_isdir p =? 0) then
                  '(_, sh, written) ← get_dir fuel icon total_path name sh; mret (sh, written)
                else
                  let sh := set_sh_curdir total_path sh in
                  '(_, written) ← com_get_file fuel icon name sh; mret (sh, written));
             let amount := default amount written in
             entries filebase sh amount (u64 (local_total + amount))
           end) filebase sh unset 0;
      local (LocalChdir (str ".."));;
      mret (0, sh, Some local_total)
  end.

Definition recursive_get (fuel : nat) (icon path : list Z) (sh : shell) : M (Z * shell) :=
  let dir := dirname path in
  let base := (basename path).1 in
  '(_, sh, _) ← get_dir fuel icon dir base sh; mret (0, sh).

Fixpoint skip_space (s : list Z) : list Z :=
  match s with
  | c :: s' => if Url.isspace c then skip_space s' else s
  | [] => []
  end.

Definition com_get (fuel : nat) (icon arg : list Z) (sh : shell) : M (Z * shell) :=
  with_volume sh (-1, sh) (
  if bool_decide (take 3 arg = str "-r ") then
    let newpath := take 254 (sh_curdir sh ++ [slash] ++ skip_space (drop 3 arg)) in
    recursive_get fuel icon newpath sh
  else '(ret, _) ← com_get_file fuel icon arg sh; mret (ret, sh)).

(** ** Command lines: cmdline/cmdline_main.c *)

Inductive command :=
| Cd | Lcd | Chmod | Delete | Mkdir | Rmdir | Help | Dir | Testafp | Connect | Pwd | Lpwd
| Quit | Rename | View | Touch | Get | Put | Passwd | Status | Statvfs | Pass | User | Test
| Disconnect.

Definition commands : list (list Z * command) :=
  [(str "cd", Cd); (str "lcd", Lcd); (str "chmod", Chmod); (str "delete", Delete);
   (str "mkdir", Mkdir); (str "rmdir", Rmdir); (str "rm", Delete); (str "help", Help);
   (str "?", Help); (str "dir", Dir); (str "testafp", Testafp); (str "ls", Dir);
   (str "connect", Connect); (str "pwd", Pwd); (str "lpwd", Lpwd); (str "quit", Quit);
   (str "mv", Rename); (str "rename", Rename); (str "view", View); (str "touch", Touch);
   (str "get", Get); (str "put", Put); (str "passwd", Passwd); (str "status", Status);
   (str "df", Statvfs); (str "pass", Pass); (str "user", User); (str "test", Test);
   (str "disconnect", Disconnect)].

Definition whitespace (c : Z) : bool := (c =? 32) || (c =? 9).

Fixpoint skip_white (s : list Z) : list Z :=
  match s with
  | c :: s' => if whitespace c then skip_white s' else s
  | [] => []
  end.

Definition stripwhite (string : list Z) : list Z :=
  reverse (skip_white (reverse (skip_white string))).

Definition find_command (name : list Z) : option command :=
  snd <$> List.find (fun nc => bytes_eqb name nc.1) commands.

(** The characters before the first white space, and those behind it. *)
Fixpoint first_word (line : list Z) : list Z * list Z :=
  match line with
  | [] => ([], [])
  | c :: line =>
    if whitespace c then ([], line)
    else let '(word, rest) := first_word line in (c :: word, rest)
  end.

(** The command to call with its argument; [None] for -1. *)
Definition execute_line (line : list Z) : option (command * list Z) :=
  let '(word, rest) := first_word (skip_white line) in
  command ← find_command word; Some (command, skip_white rest).

(** ** Reading uses the server only *)

Lemma remotely_server : remotely server.
Proof. unfold server. solve_remote. Qed.
Lemma remotely_volume : remotely volume.
Proof. unfold volume. solve_remote. Qed.
Lemma remotely_send r : remotely (send r).
Proof. done. Qed.
#[local] Hint Resolve remotely_server remotely_volume remotely_send : remote.

Lemma remotely_handle {A} (f : list Z -> Z -> option (Z * A)) a x : remotely (handle f a x).
Proof. unfold handle. solve_remote. Qed.
Lemma remotely_flags : remotely extra_flags /\ remotely version /\ remotely junk.
Proof. unfold extra_flags, version, junk. split_and!; solve_remote. Qed.
#[local] Hint Resolve remotely_handle : remote.
#[local] Hint Extern 0 (remotely extra_flags) => apply remotely_flags : remote.
#[local] Hint Extern 0 (remotely version) => apply remotely_flags : remote.
#[local] Hint Extern 0 (remotely junk) => apply remotely_flags : remote.

Lemma remotely_byterangelock flag forkid offset size :
  remotely (byterangelock flag forkid offset size).
Proof. unfold byterangelock, FPByteRangeLock, FPByteRangeLockExt. solve_remote. Qed.
#[local] Hint Resolve remotely_byterangelock : remote.

Lemma remotely_lock_loop n forkid offset size : remotely (lock_loop n forkid offset size).
Proof. induction n; cbn [lock_loop]; solve_remote. Qed.
#[local] Hint Resolve remotely_lock_loop : remote.

Lemma remotely_ll_read buf size offset fp : remotely (ll_read buf size offset fp).
Proof.
  unfold ll_read, ll_handle_locking, ll_handle_unlocking, FPRead, FPReadExt. solve_remote.
Qed.
#[local] Hint Resolve remotely_ll_read : remote.

Lemma remotely_read_comment fp buf size amount eof : remotely (read_comment fp buf size amount eof).
Proof. unfold read_comment, FPGetComment. solve_remote. Qed.
#[local] Hint Resolve remotely_read_comment : remote.

Lemma remotely_ml_read icon path buf size offset fp :
  remotely (ml_read icon path buf size offset fp).
Proof.
  unfold ml_read, converting, to_afp, appledouble_read, ll_get_directory_entry, FPGetFileDirParms.
  solve_remote.
Qed.

(** ** Fetching: the local file gets what the file on the server holds *)

Section fetching.
Context {W : Type} (h : handler W) (J : W -> Prop) (out : W -> list Z).
Context (c : client) (fp : afp_file_info) (content : list Z) (fd : Z).
Let av := sv_av_number (cl_server c).

(** The server keeps to the contract and leaves the local file alone; a local write
    appends all its bytes. *)
Context (Hserver : forall acc,
  keeps_remote (Fuse.reading_server av (fi_forkid fp) content) h (fun w => J w /\ out w = acc)).
Context (Hlocal : forall bytes w, J w ->
  let r := h local_result (Local (LocalWrite fd bytes)) w in
  lo_ret r.1 = Z.of_nat (length bytes) /\ J r.2 /\ out r.2 = out w ++ bytes).

Context (icon path : list Z).
Context (He : sv_path_encoding (cl_server c) = kFPUTF8Name) (Hp : nul_free path).
Context (Hlp : (length (decompose path) < 768)%nat) (Hr : fi_resource fp = 0).
Context (Hq : BUF_SIZE <= sv_rx_quantum (cl_server c)).
Context (Hc : Z.of_nat (length content) + BUF_SIZE < Fuse.read_limit av).

Lemma get_loop_read offset w :
  J w -> 0 <= offset <= Z.of_nat (length content) ->
  exists rs w' d eof,
    runs h (ml_read icon path (replicate (Z.to_nat BUF_SIZE) 0) BUF_SIZE offset fp) c w rs
      (mk_read (Z.of_nat (length d)) (d ++ drop (length d) (replicate (Z.to_nat BUF_SIZE) 0)) 0
         eof fp) w' /\
    Fuse.some_read content BUF_SIZE offset d eof /\ J w' /\ out w' = out w.
Proof using All.
  intros Hw Ho. assert (Z.of_nat (length (replicate (Z.to_nat BUF_SIZE) 0)) = BUF_SIZE) as Hb.
  { rewrite length_replicate. apply Z2Nat.id. unfold BUF_SIZE. lia. }
  generalize dependent (replicate (Z.to_nat BUF_SIZE) 0). intros buf Hb.
  assert (hoare (Fuse.reading_server av (fi_forkid fp) content) c
    (ml_read icon path buf BUF_SIZE offset fp) (fun r c' => exists d eof,
      (r, c') = (mk_read (Z.of_nat (length d)) (d ++ drop (length d) buf) 0 eof fp, c) /\
      Fuse.some_read content BUF_SIZE offset d eof)) as Hok.
  { apply Fuse.ml_read_ok; [exact He|exact Hp|exact Hlp|exact Hr| |lia| | |].
    - split; [unfold BUF_SIZE; lia|exact Hq].
    - fold av. lia.
    - rewrite Hb. apply Z.le_refl.
    - intros d eof Hd. by exists d, eof. }
  destruct (wp_run_remote _ h _ (ml_read icon path buf BUF_SIZE offset fp c) _ w
    (Hserver (out w)) (conj Hw eq_refl) (remotely_ml_read _ _ _ _ _ _ _) Hok) as (Ha & Hw' & Ho').
  unfold runs. destruct (run h _ w) as [[rs o] w']. cbn in *.
  destruct o as [r| |]; [|done|done]. destruct Ha as (d & eof & E & Hd).
  destruct r as [r c']. cbn in E. injection E as -> ->. by exists rs, w', d, eof.
Qed.

(** One round of the loop with a read of [d], not empty. *)
Lemma get_loop_step fuel offset total w rs w1 d eof rs2 b w3 :
  let buf := replicate (Z.to_nat BUF_SIZE) 0 in
  let r := h local_result (Local (LocalWrite fd d)) w1 in
  runs h (ml_read icon path buf BUF_SIZE offset fp) c w rs
    (mk_read (Z.of_nat (length d)) (d ++ drop (length d) buf) 0 eof fp) w1 ->
  (0 < length d)%nat -> J w1 -> 0 <= total -> total + Z.of_nat (length d) < 2 ^ 63 ->
  runs h (if eof =? 1 then mret (total + Z.of_nat (length d), fp)
          else get_loop fuel icon path fd (offset + Z.of_nat (length d)) fp
                 (total + Z.of_nat (length d))) c r.2 rs2 b w3 ->
  runs h (get_loop (S fuel) icon path fd offset fp total) c w (rs ++ [] ++ [] ++ rs2) b w3.
Proof using All.
  intros buf r Hrun Hd Hw1 Ht Hb Hrest. cbn [get_loop]. fold buf.
  eapply runs_bind; [exact Hrun|]. cbn [rr_ret rr_buf rr_eof rr_fp].
  rewrite (proj2 (Z.leb_gt _ _)) by lia. rewrite Nat2Z.id, slice_0 by done.
  eapply (runs_bind h _ _ _ _ []); [apply runs_ret|]. cbn beta.
  eapply (runs_bind h _ _ _ _ []); [apply (runs_ask h (Local (LocalWrite fd d)))|]. cbn beta.
  destruct (Hlocal d w1 Hw1) as (-> & _). unfold u64. by rewrite Z.mod_small by lia.
Qed.

Lemma get_loop_runs fuel offset total w :
  J w -> 0 <= offset <= Z.of_nat (length content) -> 0 <= total ->
  total + Z.of_nat (length (drop (Z.to_nat offset) content)) < 2 ^ 63 ->
  (length (drop (Z.to_nat offset) content) < fuel)%nat ->
  exists rs w', runs h (get_loop fuel icon path fd offset fp total) c w rs
      (total + Z.of_nat (length (drop (Z.to_nat offset) content)), fp) w' /\
    out w' = out w ++ drop (Z.to_nat offset) content.
Proof using All.
  revert offset total w. induction fuel as [|fuel IH]; intros offset total w Hw Ho Ht Hb Hf; [lia|].
  destruct (get_loop_read offset w Hw Ho) as (rs & w1 & d & eof & Hrun & Hd & Hw1 & Ho1).
  apply Fuse.some_read_take in Hd as Hd'. destruct Hd' as (Hdt & _ & _ & Hpos).
  set (rest := drop (Z.to_nat offset) content) in *.
  destruct (decide (d = [])) as [Hz|Hz].
  { assert (rest = []) as Hrest.
    { destruct Hd as (_ & [[_ Hd]|[_ Hd]]); [subst; simpl in Hd; lia|].
      by rewrite <- Hz, Hd. }
    rewrite Hrest, app_nil_r. change (Z.of_nat (length (@nil Z))) with 0. rewrite Z.add_0_r.
    exists (rs ++ []), w1. split; [|done]. cbn [get_loop].
    eapply runs_bind; [exact Hrun|]. rewrite Hz. apply runs_ret. }
  assert (0 < length d <= length rest)%nat as Hdl.
  { split; [destruct d; simpl; [done|lia]|]. rewrite Hdt, length_take. lia. }
  destruct (Hlocal d w1 Hw1) as (_ & Hw2 & Ho2).
  set (w2 := (h local_result (Local (LocalWrite fd d)) w1).2) in *.
  destruct (Z.eqb_spec eof 1) as [He1|He1].
  - assert (rest = d) as Hall by (by destruct Hd as (_ & [[? _]|[_ ?]]); [congruence|]).
    rewrite Hall in *. exists (rs ++ [] ++ [] ++ []), w2. split; [|by rewrite Ho2, Ho1].
    eapply get_loop_step; [exact Hrun|lia|done|done|done|]. rewrite He1. apply runs_ret.
  - assert (drop (Z.to_nat (offset + Z.of_nat (length d))) content = drop (length d) rest) as Hdrop.
    { unfold rest. rewrite drop_drop. f_equal. lia. }
    assert (length rest = length content - Z.to_nat offset)%nat as Hrl by apply length_drop.
    destruct (IH (offset + Z.of_nat (length d)) (total + Z.of_nat (length d)) w2 Hw2)
      as (rs2 & w3 & Hrun2 & Hout2); [lia|lia|rewrite Hdrop, length_drop; lia..|].
    rewrite Hdrop in Hrun2, Hout2. exists (rs ++ [] ++ [] ++ rs2), w3. split.
    + eapply get_loop_step; [exact Hrun|lia|done|done|lia|].
      rewrite (proj2 (Z.eqb_neq _ _) He1). rewrite length_drop in Hrun2.
      by replace (total + Z.of_nat (length rest)) with
        (total + Z.of_nat (length d) + Z.of_nat (length rest - length d)) by lia.
    + rewrite Hout2, Ho2, Ho1, <- app_assoc. f_equal. rewrite Hdt at 1. apply take_drop.
Qed.

(** C16: fetching a file copies it.  Whatever pieces the server sends, the loop of
    [retrieve_file] ends, with fuel for one request per byte and one more, having appended
    exactly the contents of the file to the local one, and counts them. *)
Theorem get_loop_copies fuel w :
  J w -> (length content < fuel)%nat ->
  exists rs w', run h (get_loop fuel icon path fd 0 fp 0 c) w =
      (rs, Done (Z.of_nat (length content), fp, c), w') /\
    out w' = out w ++ content.
Proof using All.
  intros Hw Hf.
  assert (Fuse.read_limit av <= 2 ^ 63) by (unfold Fuse.read_limit; case_match; lia).
  assert (0 < BUF_SIZE) by (unfold BUF_SIZE; lia).
  exact (get_loop_runs fuel 0 0 w Hw ltac:(lia) ltac:(lia)
    ltac:(rewrite drop_0; lia) Hf).
Qed.

End fetching.

(** ** Arguments *)

(** Names without a backslash, a quote or a space. *)
Definition plain (s : list Z) : Prop :=
  Forall (fun x => x <> backslash /\ x <> quote /\ x <> space) s.

#[export] Instance plain_dec s : Decision (plain s).
Proof. unfold plain. apply _. Defined.

Lemma paths_loop_plain two donewith1 s rest :
  plain s ->
  paths_loop two false false donewith1 (s ++ rest) =
    let '(out1, out2, done) := paths_loop two false false donewith1 rest in
    if donewith1 then (out1, s ++ out2, done) else (s ++ out1, out2, done).
Proof.
  intros Hs. induction Hs as [|x s (H1 & H2 & H3) _ IH]; simpl.
  { destruct (paths_loop _ _ _ _ _) as [[o1 o2] d]. by destruct donewith1. }
  rewrite (proj2 (Z.eqb_neq _ _) H1), (proj2 (Z.eqb_neq _ _) H2), (proj2 (Z.eqb_neq _ _) H3). cbv iota.
  rewrite IH. clear IH. destruct (paths_loop two false false donewith1 rest) as [[o1 o2] d].
  by destruct donewith1.
Qed.

Lemma escaped_fits array out :
  length array = max_path -> nul_free out -> (length out < max_path)%nat ->
  exists array', escaped array out = Some array' /\ cstr array' = Some out.
Proof.
  intros Ha Hn Ho. unfold escaped. fold max_path. rewrite zero_fill_all by done.
  cbn [mbind option_bind].
  rewrite blit_0 by (rewrite length_replicate; lia). eexists. split; [done|].
  rewrite drop_replicate. destruct (max_path - length out)%nat eqn:E; [lia|].
  cbn [replicate]. by apply cstr_app.
Qed.

Lemma escape_two from to a1 a2 :
  plain from -> plain to -> from <> [] -> nul_free from -> nul_free to ->
  length a1 = max_path -> length a2 = max_path ->
  (length from < max_path)%nat -> (S (length to) < max_path)%nat ->
  exists a1' a2', escape_paths a1 (Some a2) (from ++ [space] ++ to) = Some (0, a1', Some a2') /\
    cstr a1' = Some from /\ cstr a2' = Some (space :: to).
Proof.
  intros Hf Ht Hne Hnf Hnt H1 H2 Hlf Hlt.
  assert (paths_loop true false false false (from ++ [space] ++ to) = (from, space :: to, true))
    as E.
  { rewrite paths_loop_plain by done. cbn. rewrite <- (app_nil_r to) at 1.
    rewrite paths_loop_plain by done. cbn. by rewrite !app_nil_r. }
  unfold escape_paths. destruct (from ++ [space] ++ to) as [|x s] eqn:Ex; [by destruct from|].
  rewrite E. destruct (escaped_fits a1 from) as (a1' & E1 & C1); [done..|].
  destruct (escaped_fits a2 (space :: to)) as (a2' & E2 & C2); [done|by constructor|done|].
  rewrite E1, E2. by exists a1', a2'.
Qed.

(** The path of a name in the current directory. *)
Definition path_in (curdir name : list Z) : list Z :=
  if bool_decide (length curdir = 1%nat) then [slash] ++ name else curdir ++ [slash] ++ name.

Lemma get_server_path_in curdir name :
  head name <> Some slash -> (length (path_in curdir name) < max_path)%nat ->
  get_server_path max_path curdir name = Some (path_in curdir name).
Proof.
  intros Hn Hl. unfold get_server_path, print_to. rewrite bool_decide_eq_false_2 by done.
  cbn [negb]. fold (path_in curdir name).
  assert (max_path = 768%nat) by done.
  rewrite take_ge by (unfold PATH_MAX; lia). by rewrite decide_True.
Qed.

Lemma run_memory {W A} (h : handler W) n (f : list Z -> M A) c w :
  run h ((ask (Memory n) ≫= f) c) w =
    run h (f (h _ (Memory n) w).1 c) (h _ (Memory n) w).2.
Proof.
  change ((ask (Memory n) ≫= f) c) with (Ask (Memory n) (fun x => f x c)). cbn [run].
  destruct (h _ (Memory n) w) as [x w1]. cbn [fst snd].
  by destruct (run h (f x c) w1) as [[rs o] w2].
Qed.

Lemma run_lift {W A B} (h : handler W) (a : A) (f : A -> M B) c w :
  run h ((lift (Some a) ≫= f) c) w = run h (f a c) w.
Proof. done. Qed.

(** @@"mv from to" moves to a name that begins with a space.  The space between the
    words is written to the second array, so the target is " to", which also is never
    taken for an absolute path. *)
Theorem rename_target_space {W} (h : handler W) from to sh c w :
  (forall w, length (h _ (Memory AFP_MAX_PATH) w).1 = max_path) ->
  sh_server sh = true -> sh_vol sh = true ->
  plain from -> plain to -> from <> [] -> nul_free from -> nul_free to ->
  (length from < max_path)%nat -> head from <> Some slash ->
  (length (path_in (sh_curdir sh) from) < max_path)%nat ->
  (length (path_in (sh_curdir sh) (space :: to)) < max_path)%nat ->
  run h (com_rename (from ++ [space] ++ to) sh c) w =
    run h (rename_paths (path_in (sh_curdir sh) from) (path_in (sh_curdir sh) (space :: to)) c)
      (h _ (Memory AFP_MAX_PATH) (h _ (Memory AFP_MAX_PATH) w).2).2.
Proof.
  intros Hm Hs Hv Hf Ht Hne Hnf Hnt Hlf Hab Hl1 Hl2.
  assert (S (length to) < max_path)%nat as Hlt.
  { revert Hl2. unfold path_in. case_bool_decide; rewrite !length_app; simpl; lia. }
  unfold com_rename, with_volume. rewrite Hs, Hv. cbn [andb].
  set (w1 := (h _ (Memory AFP_MAX_PATH) w).2). set (w2 := (h _ (Memory AFP_MAX_PATH) w1).2).
  destruct (escape_two from to (h _ (Memory AFP_MAX_PATH) w).1 (h _ (Memory AFP_MAX_PATH) w1).1)
    as (a1 & a2 & E & C1 & C2); [assumption..|apply Hm|apply Hm|assumption|assumption|].
  rewrite run_memory. fold w1. rewrite run_memory. fold w2. rewrite E, run_lift.
  change (negb (0 =? 0)) with false. cbv beta iota. rewrite C1, run_lift.
  change (default [] (Some a2)) with a2. rewrite C2, run_lift. unfold server_path.
  rewrite (get_server_path_in _ from Hab Hl1), run_lift.
  by rewrite (get_server_path_in _ (space :: to)), run_lift.
Qed.

(** ** Command lines *)

Lemma skip_white_app white s :
  Forall (fun x => whitespace x) white -> skip_white (white ++ s) = skip_white s.
Proof. induction 1 as [|x white Hx _ IH]; [done|]. simpl. by destruct (whitespace x). Qed.

Lemma first_word_app word x rest :
  Forall (fun y => whitespace y = false) word -> whitespace x ->
  first_word (word ++ x :: rest) = (word, rest).
Proof.
  intros Hw Hx. induction Hw as [|y word Hy _ IH]; simpl.
  - by destruct (whitespace x).
  - by rewrite Hy, IH.
Qed.

(** White space around a command and its argument does not matter. *)
Lemma execute_line_words white word x white' arg cmd :
  Forall (fun y => whitespace y) (x :: white ++ white') ->
  Forall (fun y => whitespace y = false) word -> word <> [] ->
  find_command word = Some cmd -> head arg ≫= (fun y => Some (whitespace y)) <> Some true ->
  execute_line (white ++ word ++ x :: white' ++ arg) = Some (cmd, arg).
Proof.
  intros [Hx [Hw Hw']%Forall_app]%Forall_cons Hword Hne Hc Ha. unfold execute_line.
  rewrite skip_white_app by done. destruct word as [|y word]; [done|].
  assert (skip_white ((y :: word) ++ x :: white' ++ arg) = (y :: word) ++ x :: white' ++ arg)
    as ->.
  { inversion Hword as [|? ? Hy]; subst. simpl. by rewrite Hy. }
  rewrite first_word_app by done. rewrite Hc. cbn [mbind option_bind].
  rewrite skip_white_app by done. destruct arg as [|z arg]; [done|]. cbn in *.
  by destruct (whitespace z).
Qed.

Lemma execute_line_examples :
  execute_line (str "  mv a b") = Some (Rename, str "a b") /\
  execute_line (str "cd") = Some (Cd, []) /\ execute_line (str "frob x") = None.
Proof. vm_compute. done. Qed.

(** ** The current directory *)

(** Any environment whatever. *)
Definition anything : contract :=
  {| guarantee := fun _ => True; rely := fun _ _ _ => True; may_crash := True;
     may_starve := True |}.

Lemma anything_goes {A} (p : prog A) (Q : A -> Prop) : (forall a, Q a) -> wp anything p Q.
Proof.
  intros HQ. induction p as [a|X e k IH| |]; simpl; [done| |done|done].
  split; [|by intros]. unfold guarantees. by apply Forall_true.
Qed.

Lemma whatever {A B} c (m : M A) (f : A -> M B) Q :
  (forall a c', hoare anything c' (f a) Q) -> hoare anything c (m ≫= f) Q.
Proof. intros H. apply hoare_bind. apply anything_goes. intros [a c']. apply H. Qed.

(** An absolute path that fits into [curdir]. *)
Definition absolute (d : list Z) : Prop :=
  head d = Some slash /\ (length d < max_path)%nat.

Lemma absolute_take n d : absolute d -> (0 < n)%nat -> absolute (take n d).
Proof.
  intros [Hh Hl] Hn. split; [|rewrite length_take; lia].
  destruct d; [done|]. by destruct n; [lia|].
Qed.

Lemma absolute_chop d : absolute d -> absolute (chop d).
Proof.
  intros Hd. unfold chop. case_bool_decide; [|done]. case_bool_decide; [|done]. cbn [andb].
  apply absolute_take; [done|lia].
Qed.

Lemma print_to_absolute s d :
  head s = Some slash -> print_to max_path max_path s = Some d -> absolute d.
Proof.
  unfold print_to. intros Hs. case_decide as Hl; [|done]. intros [= <-]. split; [|done].
  destruct s; [done|exact Hs].
Qed.

Lemma change_directory_absolute c path behind sh :
  absolute (sh_curdir sh) -> (length path < max_path)%nat ->
  hoare anything c (change_directory path behind sh) (fun r _ => absolute (sh_curdir r.2)).
Proof.
  intros Ha Hp. unfold change_directory. pose proof (absolute_chop _ Ha) as Hc.
  case_bool_decide as Hdots.
  { case_bool_decide; [by apply hoare_ret|].
    destruct (last_index_of slash (chop (sh_curdir sh))) as [[|p]|] eqn:E; apply hoare_ret.
    - split; [done|]. vm_compute. lia.
    - apply absolute_take; [done|lia].
    - done. }
  apply hoare_bind. eapply hoare_mono with (Q := fun newdir _ => absolute newdir).
  2: { case_bool_decide as Hh; [|case_bool_decide];
       apply hoare_lift; try done; intros newdir.
       - case_decide; [|done]. intros [= <-]. split; [done|]. unfold chop.
         repeat case_bool_decide; cbn [andb]; rewrite ?length_take; lia.
       - by apply print_to_absolute.
       - apply print_to_absolute. by destruct Hc, (chop (sh_curdir sh)). }
  intros newdir c' Hn. cbn [sh_vol set_sh_curdir].
  destruct (negb (sh_vol sh)); [exact Logic.I|]. apply whatever. intros [ret st] c2.
  repeat case_match; by apply hoare_ret.
Qed.

Lemma connect_volume_curdir c forkid_of sh name :
  hoare anything c (connect_volume forkid_of sh name)
    (fun r _ => sh_curdir r.2 = sh_curdir sh).
Proof.
  unfold connect_volume. destruct name; [by apply hoare_ret|].
  apply whatever. intros mesg c1. apply whatever. intros [v|] c2; [|by apply hoare_ret].
  apply whatever. intros [] c3. apply whatever. intros [[[ret mounted] last] m] c4.
  destruct last; [exact Logic.I|by apply hoare_ret].
Qed.

Lemma escape_fits array arg ret array1 array2 :
  escape_paths array None arg = Some (ret, array1, array2) -> length array1 = length array.
Proof.
  unfold escape_paths. destruct arg; [by intros [= _ <- _]|].
  destruct (paths_loop _ _ _ _ _) as [[o1 o2] d]. unfold escaped.
  destruct (zero_fill _ _ array) as [a|] eqn:Ez; [|done]. cbn [mbind option_bind].
  destruct (blit 0 o1 a) as [a'|] eqn:Eb; [|done]. cbn [mbind option_bind]. intros [= _ <- _].
  apply blit_length in Eb. rewrite Eb. by apply blit_length in Ez.
Qed.

Lemma cstr_fits b s : cstr b = Some s -> (length s < length b)%nat.
Proof. intros [_ [t ->]]%cstr_Some. rewrite length_app. simpl. lia. Qed.

(** The current directory stays absolute and within its array, whatever "cd"
    is given and whatever the server answers. *)
Theorem cd_keeps_absolute {W} (h : handler W) w c forkid_of arg sh :
  absolute (sh_curdir sh) ->
  match (run h (com_cd forkid_of arg sh c) w).1.2 with
  | Done ((ret, sh'), _) => absolute (sh_curdir sh')
  | _ => True
  end.
Proof.
  intros Ha.
  assert (hoare anything c (com_cd forkid_of arg sh) (fun r _ => absolute (sh_curdir r.2))) as H.
  { unfold com_cd. destruct (negb (sh_server sh)); [by apply hoare_ret|].
    apply hoare_bind, hoare_lift; [|done]. intros [[ret array] array2] E.
    apply escape_fits in E. rewrite length_replicate in E.
    destruct (Url.ur_volumename (sh_url sh)) as [|x name].
    - case_match; [by apply hoare_ret|]. apply hoare_bind, hoare_lift; [|done].
      intros path Hp%cstr_fits. apply hoare_bind.
      eapply hoare_mono; [|apply connect_volume_curdir]. intros [ret2 sh2] c2 Hsh. cbn [snd] in Hsh.
      case_match; [apply hoare_ret; cbn; by rewrite Hsh|].
      apply whatever. intros v c3. apply whatever. intros vname c4.
      case_match; [|apply hoare_ret; cbn; by rewrite Hsh].
      apply change_directory_absolute; [cbn; by rewrite Hsh|]. rewrite length_drop. lia.
    - apply hoare_bind. eapply hoare_mono with (Q := fun path _ => (length path < max_path)%nat).
      + intros path c2 Hp. by apply change_directory_absolute.
      + case_match; [apply hoare_ret; vm_compute; lia|]. apply hoare_lift; [|done].
        intros path Hp%cstr_fits. lia. }
  destruct (wp_run anything h (fun _ => True) _ _ w ltac:(done) Logic.I H) as (_ & Hd & _).
  destruct (run h _ w) as [[rs o] w']. cbn in *. by destruct o as [[[ret sh'] c']| |].
Qed.

(** ** Commands that never work *)

(** The array for the mode is cleared beyond its end. *)
Lemma chmod_overruns {W} (h : handler W) w c arg sh :
  (forall w, length (h _ (Memory 100) w).1 = 100%nat) ->
  sh_server sh = true -> sh_vol sh = true -> arg <> [] ->
  (run h (com_chmod arg sh c) w).1.2 = Crashed.
Proof.
  intros Hm Hs Hv Ha. unfold com_chmod, with_volume. rewrite Hs, Hv. cbn [andb].
  rewrite !run_memory. unfold escape_paths. destruct arg as [|x arg]; [done|].
  destruct (paths_loop _ _ _ _ _) as [[o1 o2] d]. unfold escaped, zero_fill.
  rewrite (proj2 (blit_None 0 (replicate (Z.to_nat AFP_MAX_PATH) 0)
    (h _ (Memory 100) w).1)); [done|].
  rewrite Hm, length_replicate. change (Z.to_nat AFP_MAX_PATH) with 768%nat. lia.
Qed.

(** [ml_getattr] gets NULL for the [struct stat] it fills. *)
Lemma view_crashes {W} (h : handler W) w c fuel icon arg sh :
  sh_server sh = true -> sh_vol sh = true -> arg <> [] ->
  (run h (com_view fuel icon arg sh c) w).1.2 = Crashed.
Proof.
  intros Hs Hv Ha. unfold com_view, with_volume, one_path. rewrite Hs, Hv. cbn [andb].
  rewrite run_memory. unfold escape_paths. destruct arg as [|x arg]; [done|].
  destruct (paths_loop _ _ _ _ _) as [[o1 o2] d].
  destruct (escaped _ o1) as [a|]; [|done]. cbn [mbind option_bind]. rewrite run_lift.
  change (negb ((if false && negb d then -1 else 0) =? 0)) with false. cbv iota.
  destruct (cstr a) as [filename|]; [|done]. rewrite run_lift.
  unfold retrieve_file. rewrite Hs. cbn [negb].
  by destruct (get_server_path PATH_MAX (sh_curdir sh) filename).
Qed.

(** ** Examples *)

Definition sample_shell : shell :=
  mk_shell [47; 100] (Url.set_ur_volumename [118] Url.afp_default_url) true true [] 0 [].

(** A backslash keeps the space behind it, and every space up to the next backslash, which
    is kept itself; an opening quote is never closed. *)
Lemma escape_examples :
  let word s := (fun r => cstr r.1.2) <$> escape_paths (replicate 768 0) None s in
  word (str "one two") = Some (Some (str "one")) /\
  word (str "a\ b c") = Some (Some (str "a b c")) /\
  word (str "a\ b\ c") = Some (Some (str "a b\")) /\
  word ([quote] ++ str "a b" ++ [quote] ++ str " c") = Some (Some (str "a b c")).
Proof. vm_compute. done. Qed.

Definition with_disk (f : request -> answer) : handler (list Z) :=
  fun X e w =>
    match e in env X return X * list Z with
    | Local (LocalWrite _ bytes) => (mk_local (Z.of_nat (length bytes)) 0 [], w ++ bytes)
    | e => ((serving (fun r u => (f r, u)) _ e tt).1, w)
    end.

Lemma with_disk_keeps f forkid content acc :
  keeps (Fuse.reading_server 32 forkid content) (serving (fun r (w : unit) => (f r, w)))
    (fun _ => True) ->
  keeps_remote (Fuse.reading_server 32 forkid content) (with_disk f)
    (fun w => True /\ w = acc).
Proof.
  intros Hf X e w Hl [_ ->] Hg. destruct (Hf X e tt Logic.I Hg) as [Hr _].
  split; [|by destruct e]. by destruct e.
Qed.

Lemma get_loop_copies_witness :
  exists rs w',
    run (with_disk (Fuse.piece_answer [1; 2; 3; 4; 5; 6; 7]))
      (get_loop 8 [] [47; 97] 5 0 zero_file_info 0 small_client) [9] =
      (rs, Done (7, zero_file_info, small_client), w') /\ w' = [9] ++ [1; 2; 3; 4; 5; 6; 7].
Proof.
  apply (get_loop_copies (with_disk (Fuse.piece_answer [1; 2; 3; 4; 5; 6; 7])) (fun _ => True)
    (fun w => w) small_client zero_file_info [1; 2; 3; 4; 5; 6; 7] 5).
  - intros acc. apply with_disk_keeps, Fuse.piece_keeps.
  - done.
  - done.
  - by apply (bool_decide_unpack (nul_free _)).
  - vm_compute. lia.
  - done.
  - done.
  - done.
  - done.
  - simpl. lia.
Defined.

Lemma rename_target_space_witness :
  run (always (refused 0)) (com_rename (str "a b") sample_shell Fuse.reading_client) tt =
    run (always (refused 0)) (rename_paths (str "/d/a") (str "/d/ b") Fuse.reading_client) tt.
Proof.
  apply (rename_target_space (always (refused 0)) (str "a") (str "b") sample_shell
    Fuse.reading_client tt); try done; try by apply (bool_decide_unpack (plain _)).
  - by apply (bool_decide_unpack (nul_free _)).
  - by apply (bool_decide_unpack (nul_free _)).
  - vm_compute. lia.
  - vm_compute. lia.
  - vm_compute. lia.
Defined.

Lemma cd_keeps_absolute_witness :
  match (run (always (refused 0)) (com_cd (fun p => p) (str "..") sample_shell Fuse.reading_client)
    tt).1.2 with
  | Done ((ret, sh'), _) => absolute (sh_curdir sh')
  | _ => True
  end /\
  (run (always (refused 0)) (com_cd (fun p => p) (str "..") sample_shell Fuse.reading_client) tt).1.2 =
    Done (0, set_sh_curdir [47] sample_shell, Fuse.reading_client).
Proof.
  split; [|vm_compute; reflexivity].
  apply (cd_keeps_absolute (always (refused 0)) tt Fuse.reading_client). split; [done|]. vm_compute. lia.
Defined.

End Cmdline.
