(* ===== verification/Upload.v ===== *)
(** * Sending a file from the command line, end to end

    The loop of com_put in cmdline/cmdline_afp.c over ml_write (lib/midlevel.c), ll_write
    (lib/lowlevel.c) and the write requests: what is read from the local file arrives in
    the requests to the server, in the same order and without gaps. *)

From S2P Require Import Prelude Constants Types Utils Codepage Dsi ReplyBlock ProtoFiles.
From S2P Require Import ProtoVolume Client Calls Did Users Lowlevel Create Resource.
From S2P Require Import Midlevel Removal Cmdline.

Module Upload.
Import Utils Codepage Dsi ReplyBlock ProtoFiles ProtoVolume Client Calls Did Users Lowlevel
  Create Resource Midlevel Removal Cmdline.

(** ** Writing asks nothing of the local machine *)

#[local] Hint Resolve remotely_server remotely_volume remotely_send remotely_handle
  remotely_byterangelock remotely_lock_loop : remote.
#[local] Hint Extern 0 (remotely extra_flags) => apply remotely_flags : remote.
#[local] Hint Extern 0 (remotely version) => apply remotely_flags : remote.
#[local] Hint Extern 0 (remotely junk) => apply remotely_flags : remote.

Lemma remotely_write_loop fuel data size offset forkid q o :
  remotely (write_loop fuel data size offset forkid q o).
Proof.
  revert o. induction fuel as [|fuel IH]; intros o; cbn [write_loop]; unfold FPWrite, FPWriteExt;
    solve_remote.
Qed.
#[local] Hint Resolve remotely_write_loop : remote.

Lemma remotely_ll_write fuel data size offset fp : remotely (ll_write fuel data size offset fp).
Proof. unfold ll_write, ll_handle_locking, ll_handle_unlocking. solve_remote. Qed.
#[local] Hint Resolve remotely_ll_write : remote.

Lemma remotely_ml_write fuel path data size offset fp uid gid :
  remotely (ml_write fuel path data size offset fp uid gid).
Proof.
  unfold ml_write, converting, to_afp, writable, volume_is_readonly, appledouble_write, set_uidgid,
    translate_uidgid_to_server, update_time, ll_get_directory_entry, FPGetFileDirParms,
    FPSetFileDirParms, FPAddComment.
  solve_remote.
Qed.

Lemma write_messages_app av forkid offset ps1 ps2 :
  write_messages av forkid offset (ps1 ++ ps2) =
    write_messages av forkid offset ps1 ++
    write_messages av forkid (offset + Z.of_nat (length (concat ps1))) ps2.
Proof.
  revert offset. induction ps1 as [|p ps1 IH]; intros offset; cbn [app write_messages concat].
  { by rewrite Z.add_0_r. }
  rewrite IH, length_app. do 3 f_equal. lia.
Qed.

(** ** One piece *)

Section sending.
Context {W : Type} (h : handler W) `{!Transport h}.
Context (c : client) (path : list Z) (uid gid : Z).
Let av := sv_av_number (cl_server c).
Let q := sv_tx_quantum (cl_server c).

(** The volume is not read-only, and without locks, as afpcmd opens it. *)
Context (He : sv_path_encoding (cl_server c) = kFPUTF8Name) (Hp : nul_free path).
Context (Hlp : (length (decompose path) < 768)%nat).
Context (Hro : volume_readonly (cl_volume c) = false).
Context (Hnl : has (vo_extra_flags (cl_volume c)) VOLUME_EXTRA_FLAGS_NO_LOCKING = true).
Context (Hq : 0 < q < 4294967260).

Lemma runs_ll_write fuel data offset fp w :
  0 <= offset -> offset + Z.of_nat (length data) < 2 ^ 64 -> (length data <= fuel)%nat ->
  exists pieces w', concat pieces = data /\
    Forall (fun b => 0 < Z.of_nat (length b) <= q) pieces /\
    runs h (ll_write fuel data (Z.of_nat (length data)) offset (Some fp)) c w
      (write_messages av (fi_forkid fp) offset pieces) (0, Z.of_nat (length data)) w'.
Proof using Type*.
  intros Ho Hb Hf.
  destruct (runs_write_loop h fuel (fi_forkid fp) offset q [] data c w Hq Ho Hf Hb)
    as (pieces & w' & Hc & Hps & Hw).
  cbn [app length] in Hw. rewrite Z.add_0_r in Hw.
  exists pieces, w'. split_and!; [done|done|]. unfold ll_write, ll_handle_locking, ll_handle_unlocking.
  eapply (runs_bind h _ _ _ _ []); [apply runs_server|]. cbn beta match.
  eapply (runs_bind h _ _ _ _ []).
  { eapply (runs_bind h _ _ _ _ []); [apply runs_extra_flags|]. cbn beta. rewrite Hnl. apply runs_ret. }
  cbn beta. change (negb (0 =? 0)) with false. cbv iota.
  rewrite <- (app_nil_r (write_messages _ _ _ _)). eapply runs_bind; [exact Hw|].
  eapply (runs_bind h _ _ _ _ []).
  { eapply (runs_bind h _ _ _ _ []); [apply runs_extra_flags|]. cbn beta. rewrite Hnl. apply runs_ret. }
  apply runs_ret.
Qed.

Lemma runs_to_afp w :
  runs h (to_afp path) c w [] (Some (decompose path)) (h (list Z) (Memory AFP_MAX_PATH) w).2.
Proof using He Hp Hlp.
  unfold to_afp. eapply (runs_bind h _ _ _ _ []); [apply runs_server|]. cbn beta. rewrite He.
  eapply (runs_bind h _ _ _ _ []); [apply (runs_ask h (Memory AFP_MAX_PATH))|]. cbn beta.
  unfold convert_path_to_afp. rewrite zero_fill_all by done. cbn [mbind option_bind].
  change (kFPUTF8Name =? kFPUTF8Name) with true. cbv iota. cbn [app].
  rewrite cstr_app by done. cbn [mbind option_bind]. unfold convert_utf8pre_to_utf8dec.
  rewrite pre_to_dec_loop_spec by (rewrite length_replicate; lia).
  cbn [mbind option_bind lift]. rewrite drop_replicate.
  destruct (768 - length (decompose path))%nat as [|k] eqn:Ek; [lia|].
  eapply (runs_bind h _ _ _ _ []); [apply runs_ret|]. change (negb (0 =? 0)) with false. cbv iota.
  cbn [replicate]. rewrite cstr_app by (by apply decompose_nul_free).
  eapply (runs_bind h _ _ _ _ []); apply runs_ret.
Qed.

Lemma runs_translate :
  exists rc ids, forall w, runs h (translate_uidgid_to_server uid gid) c w [] (rc, ids) w.
Proof using Type.
  unfold translate_uidgid_to_server.
  destruct (vo_mapping (cl_volume c) =? AFP_MAPPING_COMMON) eqn:E1;
    [|destruct (vo_mapping (cl_volume c) =? AFP_MAPPING_LOGINIDS) eqn:E2]; eexists _, _; intros w;
    (eapply (runs_bind h _ _ _ _ []); [apply runs_server|]; eapply (runs_bind h _ _ _ _ []);
     [apply runs_volume|]; cbn beta; rewrite E1, ?E2; apply runs_ret).
Qed.

Lemma ml_write_sends fuel data offset fp w :
  fi_resource fp = 0 -> 0 <= offset -> offset + Z.of_nat (length data) < 2 ^ 64 ->
  Z.of_nat (length data) <= PUT_BUFSIZE -> (length data <= fuel)%nat ->
  exists pieces fp' w', concat pieces = data /\
    Forall (fun b => 0 < Z.of_nat (length b) <= q) pieces /\
    fi_resource fp' = 0 /\ fi_forkid fp' = fi_forkid fp /\
    runs h (ml_write fuel path data (Z.of_nat (length data)) offset fp uid gid) c w
      (write_messages av (fi_forkid fp) offset pieces) (Z.of_nat (length data), fp') w'.
Proof using Type*.
  intros Hr Ho Hb Hn Hf. unfold PUT_BUFSIZE in Hn.
  assert (i32 (Z.of_nat (length data)) = Z.of_nat (length data)) as Hi.
  { apply i32_small. lia. }
  assert (exists fp', fi_resource fp' = 0 /\ fi_forkid fp' = fi_forkid fp /\ forall w,
    runs h (if has (vo_extra_flags (cl_volume c)) VOLUME_EXTRA_FLAGS_VOL_SUPPORTS_UNIX
            then fp ← set_uidgid fp uid gid; mret (set_permissions 0x81a4 fp)
            else mret fp) c w [] fp' w) as (fp1 & Hr1 & Hk1 & Hset).
  { destruct (has _ VOLUME_EXTRA_FLAGS_VOL_SUPPORTS_UNIX); [|exists fp; by split_and!].
    destruct runs_translate as (rc & [newuid newgid] & Ht).
    exists (set_permissions 0x81a4
      (set_fi_unixprivs (set_up_gid newgid (set_up_uid newuid (fi_unixprivs fp))) fp)).
    split_and!; [exact Hr|reflexivity|]. intros w0. unfold set_uidgid.
    eapply (runs_bind h _ _ _ _ []); [|apply runs_ret].
    eapply (runs_bind h _ _ _ _ []); [apply Ht|apply runs_ret]. }
  set (w1 := (h (list Z) (Memory AFP_MAX_PATH) w).2).
  set (now := (h Z Gettimeofday w1).1). set (w2 := (h Z Gettimeofday w1).2).
  set (fp2 := set_fi_modification_date (u32 now) fp1).
  destruct (runs_ll_write fuel data offset fp2 w2 Ho Hb Hf) as (pieces & w3 & Hc & Hps & Hw).
  change (fi_forkid fp2) with (fi_forkid fp1) in Hw. rewrite Hk1 in Hw.
  exists pieces, fp2, w3. split_and!; [done|done|exact Hr1|exact Hk1|].
  unfold ml_write, converting, writable, volume_is_readonly.
  eapply (runs_bind h _ _ _ _ []); [apply runs_version|]. cbn beta.
  rewrite (proj2 (Z.ltb_ge AFP_MAX_AFP2_FILESIZE _)), andb_false_r by (unfold AFP_MAX_AFP2_FILESIZE; lia).
  eapply (runs_bind h _ _ _ _ []); [apply runs_to_afp|]. cbv beta iota. fold w1.
  eapply (runs_bind h _ _ _ _ []).
  { eapply (runs_bind h _ _ _ _ []); [apply runs_volume|apply runs_ret]. }
  cbn beta. rewrite Hro. cbv iota. unfold appledouble_write. rewrite Hr.
  eapply (runs_bind h _ _ _ _ []); [apply runs_ret|]. cbv beta iota.
  change (0 <? 0) with false. change (0 =? 1) with false. cbv iota.
  eapply (runs_bind h _ _ _ _ []); [apply runs_extra_flags|]. cbn beta.
  eapply (runs_bind h _ _ _ _ []); [apply Hset|]. cbn beta. unfold update_time.
  eapply (runs_bind h _ _ _ _ []).
  { eapply (runs_bind h _ _ _ _ []); [apply (runs_ask h Gettimeofday)|apply runs_ret]. }
  cbn beta. fold now w2 fp2. rewrite <- (app_nil_r (write_messages _ _ _ _)).
  eapply runs_bind; [exact Hw|]. cbv beta iota. change (0 <? 0) with false. cbv iota.
  rewrite Hi. apply runs_ret.
Qed.

(** ** The whole file *)

Context (fd : Z) (src : W -> list Z).

(** What is left of the local file: a read takes some bytes of it, as many as it likes but
    at least one unless none are left, and the questions to the server leave it alone. *)
Context (Hother : forall X (e : env X) w, is_local e = false -> src (h X e w).2 = src w).
Context (Hread : forall w,
  let r := h local_result (Local (LocalRead fd PUT_BUFSIZE)) w in
  lo_ret r.1 = Z.of_nat (length (lo_bytes r.1)) /\ lo_ret r.1 <= PUT_BUFSIZE /\
  src w = lo_bytes r.1 ++ src r.2 /\ (lo_bytes r.1 = [] -> src w = [])).

Lemma remote_src {A} (p : prog A) w : remote p -> src (run h p w).2 = src w.
Proof using Hother.
  clear -Hother. revert w. induction p as [a|X e k IH| |]; intros w Hr; [done| |done|done].
  destruct Hr as [Hl Hr]. specialize (Hother X e w Hl). cbn [run].
  destruct (h X e w) as [x w1]. cbn in Hother. specialize (IH x w1 (Hr x)).
  destruct (run h (k x) w1) as [[rs o] w2]. cbn in *. congruence.
Qed.

Lemma put_loop_runs fuel offset total fp w :
  fi_resource fp = 0 -> 0 <= offset -> 0 <= total ->
  offset + Z.of_nat (length (src w)) < 2 ^ 31 -> total + Z.of_nat (length (src w)) < 2 ^ 64 ->
  (length (src w) < fuel)%nat ->
  exists pieces fp' w', concat pieces = src w /\
    Forall (fun b => 0 < Z.of_nat (length b) <= q) pieces /\
    runs h (put_loop fuel path fd offset fp uid gid total) c w
      (write_messages av (fi_forkid fp) offset pieces)
      (total + Z.of_nat (length (src w)), fp') w'.
Proof using All.
  revert offset total fp w. induction fuel as [|fuel IH]; intros offset total fp w Hr Ho Ht Hb Hb2 Hf; [lia|].
  destruct (Hread w) as (Hret & Hmax & Hsrc & Hend).
  set (r := h local_result (Local (LocalRead fd PUT_BUFSIZE)) w) in *.
  set (d := lo_bytes r.1) in *.
  assert (length (src w) = length d + length (src r.2))%nat as Hl by (rewrite Hsrc; apply length_app).
  destruct (decide (d = [])) as [Hd|Hd].
  { rewrite (Hend Hd). exists [], fp, r.2. split_and!; [done|constructor|]. cbn [put_loop].
    eapply (runs_bind h _ _ _ _ []); [apply (runs_ask h (Local (LocalRead fd PUT_BUFSIZE)))|].
    cbn beta. fold r. rewrite Hret. fold d. rewrite Hd. change (Z.of_nat (length [])) with 0.
    rewrite Z.add_0_r. apply runs_ret. }
  assert (0 < length d)%nat as Hpos by (destruct d; [done|simpl; lia]).
  destruct (ml_write_sends fuel d offset fp r.2 Hr Ho) as (ps1 & fp1 & w1 & Hc1 & Hp1 & Hr1 & Hk1 & H1);
    [lia|lia|lia|].
  assert (src w1 = src r.2) as Hs1.
  { pose proof (remote_src _ r.2 (remotely_ml_write fuel path d (Z.of_nat (length d)) offset fp uid gid c))
      as E. unfold runs in H1. by rewrite H1 in E. }
  destruct (IH (offset + Z.of_nat (length d)) (total + Z.of_nat (length d)) fp1 w1)
    as (ps2 & fp2 & w2 & Hc2 & Hp2 & H2); [done|lia|lia|rewrite Hs1; lia..|].
  exists (ps1 ++ ps2), fp2, w2. split_and!.
  - by rewrite concat_app, Hc1, Hc2, Hs1.
  - by apply Forall_app.
  - rewrite write_messages_app, Hc1. cbn [put_loop].
    eapply (runs_bind h _ _ _ _ []); [apply (runs_ask h (Local (LocalRead fd PUT_BUFSIZE)))|].
    cbn beta. fold r. rewrite Hret. fold d. rewrite (proj2 (Z.leb_gt _ 0)) by lia.
    eapply runs_bind; [exact H1|]. cbv beta iota. rewrite (proj2 (Z.ltb_ge _ 0)) by lia.
    rewrite i32_small by lia. unfold u64. rewrite Z.mod_small by lia.
    rewrite Hk1, Hs1 in H2. replace (total + Z.of_nat (length (src w))) with
      (total + Z.of_nat (length d) + Z.of_nat (length (src r.2))) by lia. exact H2.
Qed.

(** C17: Sending a file sends all of it: in whatever pieces the local file is read, what the
    loop sends are write requests of at most a quantum whose data make up the file, in
    order, from offset 0 and without gaps, and nothing else; it ends with fuel for one
    round per byte and one more.  It counts the whole file whatever the server answers to
    the writes.  The file is smaller than 2^31 bytes, since the offset is an int. *)
Theorem put_loop_sends fuel fp w :
  fi_resource fp = 0 -> Z.of_nat (length (src w)) < 2 ^ 31 -> (length (src w) < fuel)%nat ->
  exists pieces fp' w', concat pieces = src w /\
    Forall (fun b => 0 < Z.of_nat (length b) <= q) pieces /\
    run h (put_loop fuel path fd 0 fp uid gid 0 c) w =
      (write_messages av (fi_forkid fp) 0 pieces, Done (Z.of_nat (length (src w)), fp', c), w').
Proof using All.
  intros Hr Hb Hf. destruct (put_loop_runs fuel 0 0 fp w) as (ps & fp' & w' & Hc & Hps & H); try lia; try done.
  by exists ps, fp', w'.
Qed.

End sending.

(** A local file that is read four bytes at a time, and a server that refuses everything. *)
Definition with_file : handler (list Z) :=
  fun X e =>
    match e in env X return list Z -> X * list Z with
    | Local (LocalRead _ _) => fun w => (mk_local (Z.of_nat (length (take 4 w))) 0 (take 4 w), drop 4 w)
    | e => serving (fun _ w => (refused kFPDiskFull, w)) _ e
    end.

Definition sending_client : client :=
  mk_client (set_sv_tx_quantum 3 utf8_server)
    (set_vo_extra_flags VOLUME_EXTRA_FLAGS_NO_LOCKING sample_volume) [] 0 0 0 0 [].

Lemma with_file_transport : Transport with_file.
Proof. intros r w packet behind [= <- _]. vm_compute. lia. Qed.

Lemma with_file_reads (w : list Z) :
  let r := with_file local_result (Local (LocalRead 5 PUT_BUFSIZE)) w in
  lo_ret r.1 = Z.of_nat (length (lo_bytes r.1)) /\ lo_ret r.1 <= PUT_BUFSIZE /\
  w = lo_bytes r.1 ++ r.2 /\ (lo_bytes r.1 = [] -> w = []).
Proof.
  cbn [with_file fst snd lo_ret lo_bytes]. split_and!; [done| |by rewrite take_drop|by destruct w].
  rewrite length_take. unfold PUT_BUFSIZE. lia.
Qed.

Example upload_pieces :
  (run with_file (put_loop 8 [47; 97] 5 0 zero_file_info 0 0 0 sending_client) [1; 2; 3; 4; 5; 6; 7]).1.1 =
    write_messages 32 0 0 [[1; 2; 3]; [4]; [5; 6; 7]].
Proof. vm_compute. reflexivity. Qed.

Lemma put_loop_sends_witness :
  exists pieces fp' w', concat pieces = [1; 2; 3; 4; 5; 6; 7] /\
    Forall (fun b => 0 < Z.of_nat (length b) <= 3) pieces /\
    run with_file (put_loop 8 [47; 97] 5 0 zero_file_info 0 0 0 sending_client) [1; 2; 3; 4; 5; 6; 7] =
      (write_messages 32 0 0 pieces, Done (7, fp', sending_client), w').
Proof.
  apply (put_loop_sends with_file (Transport0 := with_file_transport) sending_client [47; 97] 0 0) with (src := id).
  - reflexivity.
  - by apply (bool_decide_unpack (nul_free _)).
  - vm_compute. lia.
  - reflexivity.
  - reflexivity.
  - vm_compute. split; reflexivity.
  - intros X e w H. destruct e as [| | | | | | | | | | | | | | | | |]; done.
  - exact with_file_reads.
  - reflexivity.
  - vm_compute. reflexivity.
  - simpl. lia.
Defined.

End Upload.
