(* ===== verification/Daemon.v ===== *)
(** * The mount daemon and its clients: fuse/commands.c, fuse/client.c, lib/loop.c

    The descriptors the main loop waits for, the list of clients of the daemon, and the
    requests and answers between them.  What the commands do is in [Mount]. *)

From stdpp Require Import gmap.
From S2P Require Import Prelude Constants Types Utils Client Session.

Module Daemon.
Import Client.

(** ** Descriptors: lib/loop.c *)

(** [rds] and [max_fd]. *)
Record descriptors := mk_descriptors { rds : gset Z; max_fd : Z }.

Definition add_fd (fd : Z) (d : descriptors) : descriptors :=
  mk_descriptors ({[fd]} ∪ rds d) (if max_fd d <? fd + 1 then fd + 1 else max_fd d).

(** [for (i=...;i>=0;i--) if (FD_ISSET(i,&rds)) ... break;] *)
Fixpoint highest_set (i : nat) (set : gset Z) : option Z :=
  if decide (Z.of_nat i ∈ set) then Some (Z.of_nat i)
  else match i with O => None | S i => highest_set i set end.

Definition rm_fd (fd : Z) (d : descriptors) : descriptors :=
  let set := rds d ∖ {[fd]} in
  mk_descriptors set (default (max_fd d) (highest_set (Z.to_nat (max_fd d)) set) + 1).

(** What the program does with the set. *)
Inductive change := Add (fd : Z) | Remove (fd : Z).

Definition apply_change (d : descriptors) (ch : change) : descriptors :=
  match ch with Add fd => add_fd fd d | Remove fd => rm_fd fd d end.

Definition no_descriptors : descriptors := mk_descriptors ∅ 0.

(** ** Clients of the daemon: fuse/commands.c *)

Record fuse_client := mk_fuse_client { fc_fd : Z; fc_incoming : list Z; fc_string : list Z }.

(** [client_base]: the clients by their addresses. *)
Definition clients : Type := list (Z * fuse_client).

Definition fuse_add_client (fresh fd : Z) (client_base : clients) : clients :=
  client_base ++ [(fresh, mk_fuse_client fd [] [])].

(** The search behind the first element. *)
Fixpoint unlink_client (toremove : Z) (behind : clients) : option clients :=
  match behind with
  | [] => None
  | (p, c) :: rest =>
    if p =? toremove then Some rest else cons (p, c) <$> unlink_client toremove rest
  end.

(** Removing the first element makes the list empty. *)
Definition remove_client (toremove : Z) (client_base : clients) : clients * Z :=
  match client_base with
  | [] => ([], -1)
  | (p, c) :: rest =>
    if p =? toremove then ([], 0)
    else match unlink_client toremove rest with
         | Some rest => ((p, c) :: rest, 0)
         | None => (client_base, -1)
         end
  end.

Definition MAX_CLIENT_RESPONSE : nat := 2048.

(** The text for the client grows up to the size of a response. *)
Definition fuse_log_for_client (message : list Z) (c : fuse_client) : fuse_client :=
  mk_fuse_client (fc_fd c) (fc_incoming c)
    (fc_string c ++ take (MAX_CLIENT_RESPONSE - length (fc_string c) - 1) message).

(** The client whose turn it is among those that are ready. *)
Definition fuse_process_client_fds (ready : Z -> bool) (client_base : clients)
    : option (Z * fuse_client) :=
  List.find (fun pc => ready (fc_fd pc.2)) client_base.

(** ** Requests and answers *)

Definition AFP_SERVER_COMMAND_STATUS : Z := 2.
Definition AFP_SERVER_COMMAND_UNMOUNT : Z := 3.
Definition AFP_SERVER_COMMAND_SUSPEND : Z := 4.
Definition AFP_SERVER_COMMAND_RESUME : Z := 5.
Definition AFP_SERVER_COMMAND_EXIT : Z := 7.
Definition AFP_SERVER_RESULT_OKAY : Z := 1.
Definition AFP_SERVER_RESULT_ERROR : Z := 2.

(** A command and [snprintf] into a field of [n] bytes that was cleared. *)
Definition name_request (command : Z) (n : nat) (name : list Z) : list Z :=
  command :: resize n 0 (take (n - 1) name).

Definition do_exit : list Z := [AFP_SERVER_COMMAND_EXIT].
Definition do_resume (name : list Z) : list Z := name_request AFP_SERVER_COMMAND_RESUME 33 name.
Definition do_suspend (name : list Z) : list Z :=
  name_request AFP_SERVER_COMMAND_SUSPEND 33 name.
Definition do_unmount (mountpoint : list Z) : list Z :=
  name_request AFP_SERVER_COMMAND_UNMOUNT 255 mountpoint.

(** The volumes of all servers with their mount points and [mounted]; the volume to unmount
    is the second component.  [strcmp] reads the request up to its NUL. *)
Definition process_unmount (incoming : list Z) (volumes : list (list Z * Z))
    : option (Z * option nat) :=
  mountpoint ← cstr (drop 1 incoming);
  Some match list_find (fun v => v.1 = mountpoint) volumes with
       | None => (AFP_SERVER_RESULT_ERROR, None)
       | Some (i, (_, mounted)) =>
         if negb (mounted =? Session.AFP_VOLUME_MOUNTED) then (AFP_SERVER_RESULT_ERROR, None)
         else (AFP_SERVER_RESULT_OKAY, Some i)
       end.

(** The end of [process_command_thread]: [struct afp_server_response], with whatever lies
    in its three bytes of padding, and the text. *)
Definition response (padding : list Z) (ret : Z) (client_string : list Z) : list Z :=
  [u8 ret] ++ padding ++ le_bytes 4 (Z.of_nat (length client_string)) ++ client_string.

(** The loop of [read_answer] on what comes in, a segment of length 0 where the connection
    is closed and nothing at a timeout.  The result is the buffer, [None] for -1. *)
Fixpoint answer_loop (fuel : nat) (sock : list (list Z)) (buffer : list Z) (len expected_len : Z)
    : outcome (option (list Z)) :=
  match fuel, sock with
  | O, _ => Starved
  | S _, [] => Done None
  | S fuel, segment :: sock =>
    let room := (MAX_CLIENT_RESPONSE - Z.to_nat len)%nat in
    let packet := take room segment in
    let sock := if bool_decide (length segment <= room)%nat then sock
                else drop room segment :: sock in
    if bool_decide (packet = []) then Done (Some buffer)
    else
      match blit (Z.to_nat len) packet buffer with
      | None => Crashed
      | Some buffer =>
        let expected_len := if len =? 0 then i32 (default 0 (ld32 4 buffer)) else expected_len in
        let len := len + Z.of_nat (length packet) in
        if len =? expected_len + 8 then Done (Some buffer)
        else answer_loop fuel sock buffer len expected_len
      end
  end.

(** The return value, a [char], and the text printed. *)
Definition read_answer (fuel : nat) (sock : list (list Z)) : outcome (Z * option (list Z)) :=
  match answer_loop fuel sock (replicate MAX_CLIENT_RESPONSE 0) 0 0 with
  | Done None => Done (-1, None)
  | Done (Some buffer) =>
    match cstr (drop 8 buffer), buffer with
    | Some text, result :: _ => Done ((if result <? 128 then result else result - 256), Some text)
    | _, _ => Crashed
    end
  | Crashed => Crashed
  | Starved => Starved
  end.

(** ** The descriptors *)

Lemma highest_set_spec i set fd :
  fd ∈ set -> 0 <= fd <= Z.of_nat i ->
  exists j, highest_set i set = Some j /\ fd <= j <= Z.of_nat i.
Proof.
  intros Hin. induction i as [|i IH]; intros Hfd; cbn [highest_set].
  - assert (fd = Z.of_nat 0) as -> by lia. rewrite decide_True by done. eexists. split; [done|lia].
  - case_decide as Hd; [eexists; split; [done|lia]|].
    assert (fd <> Z.of_nat (S i)) by (intros ->; done).
    destruct IH as (j & Hj & Hle); [lia|]. exists j. split; [done|lia].
Qed.

(** Every descriptor is below [max_fd]. *)
Definition covered (d : descriptors) : Prop := forall fd, fd ∈ rds d -> 0 <= fd < max_fd d.

Lemma covered_add fd d : 0 <= fd -> covered d -> covered (add_fd fd d).
Proof.
  intros Hfd Hd x. cbn [add_fd rds max_fd]. rewrite elem_of_union, elem_of_singleton.
  intros [->|Hx]; [|apply Hd in Hx]; case_match; lia.
Qed.

Lemma covered_rm fd d : covered d -> covered (rm_fd fd d).
Proof.
  intros Hd x Hx. cbn [rm_fd rds max_fd] in *.
  assert (0 <= x < max_fd d) as Hlt by (apply Hd; set_solver).
  destruct (highest_set_spec (Z.to_nat (max_fd d)) (rds d ∖ {[fd]}) x Hx) as (j & -> & Hj); [lia|].
  simpl. lia.
Qed.

Definition opens (ch : change) : Prop := match ch with Add fd => 0 <= fd | Remove _ => True end.

(** Whatever descriptors come and go, the main loop watches all of them:
    [max_fd], which it passes to pselect(), stays above every descriptor of the set. *)
Theorem max_fd_covers changes :
  Forall opens changes -> covered (foldl apply_change no_descriptors changes).
Proof.
  intros H. assert (covered no_descriptors) as Hd by (intros fd Hfd; set_solver).
  revert Hd. generalize no_descriptors. induction H as [|ch changes Hch _ IH]; [done|].
  intros d Hd. apply IH. destruct ch; [by apply covered_add|by apply covered_rm].
Qed.

Lemma max_fd_covers_witness :
  covered (foldl apply_change no_descriptors [Add 3; Add 7; Remove 7; Add 5]) /\
  max_fd (foldl apply_change no_descriptors [Add 3; Add 7; Remove 7; Add 5]) = 6.
Proof.
  split; [|vm_compute; reflexivity]. apply max_fd_covers.
  rewrite !Forall_cons, Forall_nil. cbn [opens]. lia.
Defined.

(** ** The clients *)

Lemma filter_id {A} (P : A -> Prop) `{!forall x, Decision (P x)} (l : list A) :
  Forall P l -> filter P l = l.
Proof. induction 1; [done|]. rewrite filter_cons, decide_True by done. by f_equal. Qed.

Lemma unlink_client_spec p client_base :
  p ∈ client_base.*1 -> NoDup client_base.*1 ->
  unlink_client p client_base = Some (filter (fun pc => pc.1 <> p) client_base).
Proof.
  induction client_base as [|[q c] rest IH]; cbn [unlink_client fmap list_fmap]; [set_solver|].
  rewrite NoDup_cons. intros Hp [Hq Hn]. rewrite filter_cons. cbn [fst].
  destruct (Z.eqb_spec q p) as [->|Hne].
  - rewrite decide_False by tauto. f_equal. symmetry. apply filter_id.
    apply Forall_forall. intros x Hx E. apply Hq. apply list_elem_of_fmap. by exists x.
  - rewrite decide_True by done. rewrite IH; [done| |done]. set_solver.
Qed.

(** A client other than the first is removed alone, but with the first all are gone. *)
Lemma remove_client_spec p q c rest :
  NoDup (q :: rest.*1) ->
  remove_client p ((q, c) :: rest) =
    if p =? q then ([], 0)
    else if decide (p ∈ rest.*1) then ((q, c) :: filter (fun pc => pc.1 <> p) rest, 0)
    else ((q, c) :: rest, -1).
Proof.
  intros [_ Hn]%NoDup_cons. cbn [remove_client]. rewrite (Z.eqb_sym p q).
  destruct (Z.eqb_spec q p); [done|]. case_decide as Hp; [by rewrite unlink_client_spec|].
  assert (unlink_client p rest = None) as ->; [|done].
  clear Hn. induction rest as [|[p' c'] rest IH]; [done|]. cbn in *.
  destruct (Z.eqb_spec p' p) as [->|]; [set_solver|]. rewrite IH; [done|set_solver].
Qed.

(** ** Answers *)

Lemma answer_loop_step fuel segment sock got buffer expected :
  length buffer = MAX_CLIENT_RESPONSE -> (0 < length segment)%nat ->
  (length got + length segment <= MAX_CLIENT_RESPONSE)%nat -> take (length got) buffer = got ->
  answer_loop (S fuel) (segment :: sock) buffer (Z.of_nat (length got)) expected =
    let buffer := got ++ segment ++ drop (length got + length segment) buffer in
    let expected := match got with [] => i32 (default 0 (ld32 4 buffer)) | _ => expected end in
    let len := Z.of_nat (length (got ++ segment)) in
    if len =? expected + 8 then Done (Some buffer)
    else answer_loop fuel sock buffer len expected.
Proof.
  intros Hb Hs Hl Hg. cbn [answer_loop]. rewrite Nat2Z.id.
  rewrite (bool_decide_eq_true_2 (length segment <= _)%nat) by lia.
  rewrite take_ge by lia. rewrite bool_decide_eq_false_2 by (by destruct segment; [simpl in Hs; lia|]).
  rewrite blit_in_range by lia. rewrite Hg, length_app, Nat2Z.inj_add.
  assert ((Z.of_nat (length got) =? 0) = match got with [] => true | _ => false end) as ->
    by (by destruct got).
  by destruct got.
Qed.

Lemma answer_loop_ok fuel segs tail got buffer expected :
  length buffer = MAX_CLIENT_RESPONSE -> take (length got) buffer = got ->
  Forall (fun s => 0 < length s)%nat segs -> segs <> [] ->
  (length got + length (concat segs) <= MAX_CLIENT_RESPONSE)%nat ->
  got <> [] -> expected + 8 = Z.of_nat (length got + length (concat segs)) ->
  (length segs <= fuel)%nat ->
  answer_loop fuel (segs ++ tail) buffer (Z.of_nat (length got)) expected =
    Done (Some (got ++ concat segs ++ drop (length got + length (concat segs)) buffer)).
Proof.
  revert segs got buffer. induction fuel as [|fuel IH]; intros segs got buffer Hb Hg Hs Hne Hl Hgot He Hf.
  { destruct segs; [done|simpl in Hf; lia]. }
  destruct Hs as [|segment segs Hseg Hs]; [done|]. cbn [concat app] in *.
  rewrite length_app in *. rewrite answer_loop_step by (done || lia).
  destruct got as [|g got]; [done|]. set (got' := g :: got) in *. cbv zeta.
  destruct segs as [|seg2 segs].
  - cbn [concat length app] in *. rewrite (proj2 (Z.eqb_eq _ _)) by (rewrite He, length_app; lia).
    by rewrite Nat.add_0_r, app_nil_r.
  - assert (0 < length seg2)%nat as Hseg2 by (by inversion Hs).
    rewrite (proj2 (Z.eqb_neq _ _)) by (rewrite He, length_app; cbn [concat]; rewrite length_app; lia).
    set (rest := concat (seg2 :: segs)) in *.
    rewrite IH; fold rest; rewrite ?length_app; try (done || (simpl in *; lia)).
    + assert (drop (length got' + length segment + length rest)
          (got' ++ segment ++ drop (length got' + length segment) buffer) =
        drop (length got' + (length segment + length rest)) buffer) as ->.
      { rewrite (app_assoc got'), drop_app_ge by (rewrite length_app; lia).
        rewrite drop_drop, length_app. f_equal. lia. }
      by rewrite <- !app_assoc.
    + rewrite length_drop. lia.
    + by rewrite app_assoc, <- length_app, take_app_length.
Qed.

(** The length in the header of a response that begins with [first]. *)
Lemma ld_header padding ret text first rest other :
  length padding = 3%nat -> (8 <= length first)%nat -> (length text < 2048)%nat ->
  first ++ rest = response padding ret text ->
  ld32 4 (first ++ other) = Some (Z.of_nat (length text)).
Proof.
  intros Hp H8 Hl Hc.
  assert (forall r, slice 4 4 (first ++ r) = Some (take 4 (drop 4 first))) as Hs.
  { intros r. unfold slice. rewrite decide_True by (rewrite length_app; lia).
    by rewrite drop_app_le, take_app_le by (rewrite ?length_drop; lia). }
  unfold ld32. rewrite Hs, <- (Hs rest), Hc. unfold response.
  rewrite (app_assoc [u8 ret]), slice_at by (rewrite ?length_app, ?length_le_bytes; simpl; lia).
  cbn [fmap option_fmap option_map]. rewrite le_val_bytes, Z.mod_small; [done|]. simpl. lia.
Qed.

Lemma length_response padding ret text :
  length padding = 3%nat -> length (response padding ret text) = (8 + length text)%nat.
Proof.
  intros Hp. unfold response. rewrite !length_app, length_le_bytes. simpl. lia.
Qed.

Lemma response_collected fuel padding ret text first segs tail :
  length padding = 3%nat -> (length text < MAX_CLIENT_RESPONSE - 8)%nat ->
  (8 <= length first)%nat -> Forall (fun s => 0 < length s)%nat segs ->
  concat (first :: segs) = response padding ret text -> (S (length segs) <= fuel)%nat ->
  answer_loop fuel ((first :: segs) ++ tail) (replicate MAX_CLIENT_RESPONSE 0) 0 0 =
    Done (Some (response padding ret text
                ++ replicate (MAX_CLIENT_RESPONSE - (8 + length text)) 0)).
Proof.
  intros Hp Hl H8 Hs Hc Hf. assert (MAX_CLIENT_RESPONSE = 2048%nat) as HM by done.
  pose proof (length_response padding ret text Hp) as Hlen.
  assert (length first + length (concat segs) = 8 + length text)%nat as Hsplit.
  { rewrite <- Hlen, <- Hc. cbn [concat]. by rewrite length_app. }
  destruct fuel as [|fuel]; [lia|]. rewrite <- app_comm_cons.
  pose proof (answer_loop_step fuel first (segs ++ tail) [] (replicate MAX_CLIENT_RESPONSE 0) 0
    (length_replicate _ _) ltac:(lia) ltac:(simpl; lia) eq_refl) as Hstep.
  cbn [length app Nat.add] in Hstep. change (Z.of_nat 0) with 0 in Hstep. rewrite Hstep.
  clear Hstep. cbv zeta.
  rewrite (ld_header padding ret text first (concat segs)) by (done || lia || exact Hc).
  change (default 0 (Some ?x)) with x. rewrite i32_small by lia. rewrite drop_replicate.
  destruct segs as [|seg2 segs].
  - cbn [concat length] in *. rewrite (proj2 (Z.eqb_eq _ _)) by lia.
    rewrite app_nil_r in Hc. rewrite Hc. do 4 f_equal. lia.
  - assert (0 < length seg2)%nat by (by inversion Hs).
    rewrite (proj2 (Z.eqb_neq _ _)) by (cbn [concat] in Hsplit; rewrite length_app in Hsplit; lia).
    rewrite (answer_loop_ok fuel (seg2 :: segs) tail first); try done.
    + rewrite app_assoc. change (first ++ concat (seg2 :: segs)) with (concat (first :: seg2 :: segs)).
      rewrite Hc, drop_app_ge by lia. rewrite !drop_replicate. do 4 f_equal. lia.
    + rewrite length_app, length_replicate. lia.
    + apply take_app_length.
    + lia.
    + by destruct first; [simpl in H8; lia|].
    + lia.
    + simpl in *. lia.
Qed.

(** The client gets what the daemon sent.  However the answer is cut into
    pieces, with the eight bytes of the header in the first of them, [read_answer] returns
    the result and the text of the response, and reads nothing of what follows. *)
Theorem answer_received fuel padding ret text first segs tail :
  length padding = 3%nat -> 0 <= ret < 128 -> nul_free text ->
  (length text < MAX_CLIENT_RESPONSE - 8)%nat ->
  (8 <= length first)%nat -> Forall (fun s => 0 < length s)%nat segs ->
  concat (first :: segs) = response padding ret text -> (S (length segs) <= fuel)%nat ->
  read_answer fuel ((first :: segs) ++ tail) = Done (ret, Some text).
Proof.
  intros Hp Hr Hn Hl H8 Hs Hc Hf. unfold read_answer.
  rewrite (response_collected fuel padding ret text) by done.
  unfold response. rewrite <- !app_assoc. cbn [app].
  rewrite u8_small by lia. rewrite (proj2 (Z.ltb_lt ret 128)) by lia. cbn [drop].
  rewrite (app_assoc padding), drop_app_length' by (rewrite length_app, length_le_bytes; lia).
  destruct (MAX_CLIENT_RESPONSE - (8 + length text))%nat as [|k] eqn:Ek; [lia|].
  cbn [replicate]. by rewrite cstr_app.
Qed.

(** "ok" in two pieces, and the connection closed behind it. *)
Lemma answer_received_witness :
  read_answer 2 [[1; 9; 9; 9; 2; 0; 0; 0; 111]; [107]; []] = Done (1, Some (str "ok")).
Proof.
  apply (answer_received 2 [9; 9; 9] 1 (str "ok") [1; 9; 9; 9; 2; 0; 0; 0; 111] [[107]] [[]]);
    [done|lia|by apply (bool_decide_unpack (nul_free _))|vm_compute; lia|vm_compute; lia| |done|
     vm_compute; lia].
  apply Forall_singleton. vm_compute. lia.
Defined.

(** In whatever pieces: what is collected up to the end of the connection is a beginning
    of what was sent, followed by the zeros of the buffer. *)
Lemma answer_loop_pieces fuel segs tail got expected :
  Forall (fun s => 0 < length s)%nat segs -> (length segs < fuel)%nat ->
  (length got + length (concat segs) <= MAX_CLIENT_RESPONSE)%nat ->
  exists more,
    answer_loop fuel (segs ++ [] :: tail) (got ++ replicate (MAX_CLIENT_RESPONSE - length got) 0)
      (Z.of_nat (length got)) expected =
      Done (Some ((got ++ more) ++ replicate (MAX_CLIENT_RESPONSE - length (got ++ more)) 0)) /\
    more `prefix_of` concat segs /\ (more = [] -> segs = []).
Proof.
  revert segs got expected. induction fuel as [|fuel IH]; intros segs got expected Hs Hf Hl; [lia|].
  destruct Hs as [|segment segs Hseg Hs].
  { exists []. cbn [answer_loop app]. rewrite take_nil, bool_decide_eq_true_2, app_nil_r by done.
    split_and!; [done|by exists (concat [])|done]. }
  cbn [concat] in *. rewrite length_app in Hl. rewrite <- app_comm_cons.
  rewrite answer_loop_step; [|rewrite length_app, length_replicate; lia|done|lia|by rewrite take_app_length].
  cbv zeta. set (expected' := match got with [] => _ | _ => _ end).
  assert (got ++ segment ++ drop (length got + length segment)
    (got ++ replicate (MAX_CLIENT_RESPONSE - length got) 0) =
    (got ++ segment) ++ replicate (MAX_CLIENT_RESPONSE - length (got ++ segment)) 0) as E.
  { rewrite drop_app_ge, drop_replicate, <- app_assoc, length_app by lia. do 3 f_equal. lia. }
  rewrite E. clear E. case_match.
  { exists segment. split_and!; [done|by apply prefix_app_r|by intros ->; simpl in Hseg; lia]. }
  destruct (IH segs (got ++ segment) expected' Hs) as (more & -> & Hp & _); [simpl in Hf; lia|rewrite length_app; lia|].
  exists (segment ++ more). rewrite app_assoc. split_and!; [done|by apply prefix_app|].
  destruct segment; [simpl in Hseg; lia|done].
Qed.

(** The client gets the result at least: however the answer is cut, and with the connection
    closed behind it, [read_answer] returns the result that was sent and prints the text or a
    beginning of it. *)
Theorem answer_in_pieces fuel padding ret text segs tail :
  length padding = 3%nat -> 0 <= ret < 128 -> nul_free text ->
  (length text < MAX_CLIENT_RESPONSE - 8)%nat -> Forall (fun s => 0 < length s)%nat segs ->
  concat segs = response padding ret text -> (length segs < fuel)%nat ->
  exists printed,
    read_answer fuel (segs ++ [] :: tail) = Done (ret, Some printed) /\ printed `prefix_of` text.
Proof.
  intros Hp Hr Hn Hl Hs Hc Hf. assert (MAX_CLIENT_RESPONSE = 2048%nat) as HM by done.
  pose proof (length_response padding ret text Hp) as Hlen.
  destruct (answer_loop_pieces fuel segs tail [] 0 Hs Hf) as (more & E & Hm & Hne);
    [rewrite Hc, Hlen; simpl; lia|].
  cbn [app length] in E. rewrite Nat.sub_0_r in E. change (Z.of_nat 0) with 0 in E.
  unfold read_answer. rewrite E. clear E. rewrite Hc in Hm.
  exists (drop 8 more).
  assert (exists rest, text = drop 8 more ++ rest) as [rest Hrest].
  { destruct Hm as [rest Hm]. exists (drop (8 - length more) rest). rewrite <- drop_app, <- Hm.
    unfold response. rewrite !app_assoc, drop_app_length'; [done|].
    rewrite !length_app, length_le_bytes, Hp. done. }
  assert (length more <= 8 + length text)%nat as Hml by (rewrite <- Hlen; by apply prefix_length).
  rewrite drop_app, drop_replicate.
  destruct (MAX_CLIENT_RESPONSE - length more - (8 - length more))%nat as [|k] eqn:Ek; [lia|].
  cbn [replicate]. rewrite cstr_app.
  2:{ rewrite Hrest in Hn. by apply Forall_app in Hn as [? _]. }
  destruct more as [|b more].
  { rewrite (Hne eq_refl) in Hc. apply (f_equal length) in Hc. rewrite Hlen in Hc. simpl in Hc. lia. }
  destruct Hm as [? Hm]. apply (f_equal head) in Hm. cbn in Hm. apply (inj Some) in Hm. subst b.
  cbn [app]. split; [|by exists rest].
  rewrite u8_small by lia. by rewrite (proj2 (Z.ltb_lt ret 128)) by lia.
Qed.

(** With the header cut before its length the answer can end too early: of 300 bytes only
    the first 44 are printed. *)
Lemma short_header_truncates :
  read_answer 3 [[1; 0; 0; 0; 44]; [1; 0; 0] ++ replicate 44 97; replicate 256 98] =
    Done (1, Some (replicate 44 97)).
Proof. vm_compute. reflexivity. Qed.

(** ** Requests *)

(** The daemon reads the name the client sent, as far as it fits. *)
Lemma request_name command n name :
  nul_free name -> (0 < n)%nat ->
  cstr (drop 1 (name_request command n name)) = Some (take (n - 1) name).
Proof.
  intros Hn Hpos. unfold name_request. cbn [drop].
  rewrite resize_ge by (rewrite length_take; lia).
  destruct (n - length (take (n - 1) name))%nat as [|k] eqn:E.
  { rewrite length_take in E. lia. }
  cbn [replicate]. apply cstr_app. by apply Forall_take.
Qed.

(** Unmounting by the mount point unmounts the volume there. *)
Lemma unmount_found mountpoint volumes i :
  nul_free mountpoint -> (length mountpoint < 255)%nat ->
  volumes !! i = Some (mountpoint, Session.AFP_VOLUME_MOUNTED) ->
  (forall j v, (j < i)%nat -> volumes !! j = Some v -> v.1 <> mountpoint) ->
  process_unmount (do_unmount mountpoint) volumes = Some (AFP_SERVER_RESULT_OKAY, Some i).
Proof.
  intros Hn Hl Hi Hj. unfold process_unmount, do_unmount.
  rewrite request_name by (done || lia). rewrite take_ge by lia. cbn [mbind option_bind].
  rewrite (proj2 (list_find_Some (fun v => v.1 = mountpoint) volumes i
    (mountpoint, Session.AFP_VOLUME_MOUNTED))); [done|].
  split_and!; [done|done|]. intros j y Hy Hlt. by apply (Hj j).
Qed.

End Daemon.
