(* ===== verification/Servers.v ===== *)
(** * The list of servers: lib/afp.c and loop_disconnect of lib/loop.c

    The structures [afp_server] on a heap, [server_base] and the links between them, and
    what is done to them: allocation, release, and the searches along the list. *)

From stdpp Require Import gmap.
From S2P Require Import Prelude Constants Types Utils Dsi ProtoFiles ProtoVolume Client.
From S2P Require Import Did Status Auth Session Daemon.

Module Servers.
Import Utils Dsi ProtoFiles ProtoVolume Client Did Status Auth Session Daemon.

Definition SERVER_STATE_CONNECTED : Z := 1.
Definition SERVER_STATE_DISCONNECTED : Z := 2.

(** ** Memory *)

(** [struct afp_volume] with its directory cache, the counters of that, and its open
    forks. *)
Record volume_mem := mk_volume_mem {
  vm_volume : afp_volume; vm_mounted : Z; vm_mountpoint : list Z; vm_volpassword : list Z;
  vm_dids : list did_cache_entry; vm_stats : Z * Z * Z * Z; vm_forks : list Z }.

Definition set_vm_volume (x : afp_volume) (m : volume_mem) : volume_mem :=
  mk_volume_mem x (vm_mounted m) (vm_mountpoint m) (vm_volpassword m) (vm_dids m) (vm_stats m)
    (vm_forks m).
Definition set_vm_mounted (x : Z) (m : volume_mem) : volume_mem :=
  mk_volume_mem (vm_volume m) x (vm_mountpoint m) (vm_volpassword m) (vm_dids m) (vm_stats m)
    (vm_forks m).
Definition set_vm_mountpoint (x : list Z) (m : volume_mem) : volume_mem :=
  mk_volume_mem (vm_volume m) (vm_mounted m) x (vm_volpassword m) (vm_dids m) (vm_stats m)
    (vm_forks m).
Definition set_vm_volpassword (x : list Z) (m : volume_mem) : volume_mem :=
  mk_volume_mem (vm_volume m) (vm_mounted m) (vm_mountpoint m) x (vm_dids m) (vm_stats m)
    (vm_forks m).

(** [struct afp_server].  [sm_core] are the fields the file system uses, [sm_status] those
    that identify the server; [using_version] is [sm_using_version], NULL or the name, with
    the number in [sm_core].  [address] and [used_address] are never freed, so they are
    given by what they point to. *)
Record server_mem := mk_server_mem {
  sm_next : Z; sm_core : afp_server; sm_status : server_status; sm_address : list addrinfo;
  sm_used_address : option addrinfo; sm_fd : Z; sm_connect_state : Z; sm_exit_flag : Z;
  sm_lastrequestid : Z; sm_requests : list dsi_request; sm_tx_delay : Z; sm_attention_quantum
  : Z; sm_using_uam : Z; sm_username : list Z; sm_password : list Z; sm_token : afp_token;
  sm_need_resume : Z; sm_requested_version : Z; sm_using_version : option (list Z);
  sm_loginmesg : list Z; sm_volumes : list volume_mem }.

Definition set_sm_next (x : Z) (m : server_mem) : server_mem :=
  mk_server_mem x (sm_core m) (sm_status m) (sm_address m) (sm_used_address m) (sm_fd m)
    (sm_connect_state m) (sm_exit_flag m) (sm_lastrequestid m) (sm_requests m) (sm_tx_delay m)
    (sm_attention_quantum m) (sm_using_uam m) (sm_username m) (sm_password m) (sm_token m)
    (sm_need_resume m) (sm_requested_version m) (sm_using_version m) (sm_loginmesg m)
    (sm_volumes m).
Definition set_sm_core (x : afp_server) (m : server_mem) : server_mem :=
  mk_server_mem (sm_next m) x (sm_status m) (sm_address m) (sm_used_address m) (sm_fd m)
    (sm_connect_state m) (sm_exit_flag m) (sm_lastrequestid m) (sm_requests m) (sm_tx_delay m)
    (sm_attention_quantum m) (sm_using_uam m) (sm_username m) (sm_password m) (sm_token m)
    (sm_need_resume m) (sm_requested_version m) (sm_using_version m) (sm_loginmesg m)
    (sm_volumes m).
Definition set_sm_status (x : server_status) (m : server_mem) : server_mem :=
  mk_server_mem (sm_next m) (sm_core m) x (sm_address m) (sm_used_address m) (sm_fd m)
    (sm_connect_state m) (sm_exit_flag m) (sm_lastrequestid m) (sm_requests m) (sm_tx_delay m)
    (sm_attention_quantum m) (sm_using_uam m) (sm_username m) (sm_password m) (sm_token m)
    (sm_need_resume m) (sm_requested_version m) (sm_using_version m) (sm_loginmesg m)
    (sm_volumes m).
Definition set_sm_used_address (x : option addrinfo) (m : server_mem) : server_mem :=
  mk_server_mem (sm_next m) (sm_core m) (sm_status m) (sm_address m) x (sm_fd m)
    (sm_connect_state m) (sm_exit_flag m) (sm_lastrequestid m) (sm_requests m) (sm_tx_delay m)
    (sm_attention_quantum m) (sm_using_uam m) (sm_username m) (sm_password m) (sm_token m)
    (sm_need_resume m) (sm_requested_version m) (sm_using_version m) (sm_loginmesg m)
    (sm_volumes m).
Definition set_sm_fd (x : Z) (m : server_mem) : server_mem :=
  mk_server_mem (sm_next m) (sm_core m) (sm_status m) (sm_address m) (sm_used_address m) x
    (sm_connect_state m) (sm_exit_flag m) (sm_lastrequestid m) (sm_requests m) (sm_tx_delay m)
    (sm_attention_quantum m) (sm_using_uam m) (sm_username m) (sm_password m) (sm_token m)
    (sm_need_resume m) (sm_requested_version m) (sm_using_version m) (sm_loginmesg m)
    (sm_volumes m).
Definition set_sm_connect_state (x : Z) (m : server_mem) : server_mem :=
  mk_server_mem (sm_next m) (sm_core m) (sm_status m) (sm_address m) (sm_used_address m)
    (sm_fd m) x (sm_exit_flag m) (sm_lastrequestid m) (sm_requests m) (sm_tx_delay m)
    (sm_attention_quantum m) (sm_using_uam m) (sm_username m) (sm_password m) (sm_token m)
    (sm_need_resume m) (sm_requested_version m) (sm_using_version m) (sm_loginmesg m)
    (sm_volumes m).
Definition set_sm_requests (x : list dsi_request) (m : server_mem) : server_mem :=
  mk_server_mem (sm_next m) (sm_core m) (sm_status m) (sm_address m) (sm_used_address m)
    (sm_fd m) (sm_connect_state m) (sm_exit_flag m) (sm_lastrequestid m) x (sm_tx_delay m)
    (sm_attention_quantum m) (sm_using_uam m) (sm_username m) (sm_password m) (sm_token m)
    (sm_need_resume m) (sm_requested_version m) (sm_using_version m) (sm_loginmesg m)
    (sm_volumes m).
Definition set_sm_tx_delay (x : Z) (m : server_mem) : server_mem :=
  mk_server_mem (sm_next m) (sm_core m) (sm_status m) (sm_address m) (sm_used_address m)
    (sm_fd m) (sm_connect_state m) (sm_exit_flag m) (sm_lastrequestid m) (sm_requests m) x
    (sm_attention_quantum m) (sm_using_uam m) (sm_username m) (sm_password m) (sm_token m)
    (sm_need_resume m) (sm_requested_version m) (sm_using_version m) (sm_loginmesg m)
    (sm_volumes m).
Definition set_sm_using_uam (x : Z) (m : server_mem) : server_mem :=
  mk_server_mem (sm_next m) (sm_core m) (sm_status m) (sm_address m) (sm_used_address m)
    (sm_fd m) (sm_connect_state m) (sm_exit_flag m) (sm_lastrequestid m) (sm_requests m)
    (sm_tx_delay m) (sm_attention_quantum m) x (sm_username m) (sm_password m) (sm_token m)
    (sm_need_resume m) (sm_requested_version m) (sm_using_version m) (sm_loginmesg m)
    (sm_volumes m).
Definition set_sm_username (x : list Z) (m : server_mem) : server_mem :=
  mk_server_mem (sm_next m) (sm_core m) (sm_status m) (sm_address m) (sm_used_address m)
    (sm_fd m) (sm_connect_state m) (sm_exit_flag m) (sm_lastrequestid m) (sm_requests m)
    (sm_tx_delay m) (sm_attention_quantum m) (sm_using_uam m) x (sm_password m) (sm_token m)
    (sm_need_resume m) (sm_requested_version m) (sm_using_version m) (sm_loginmesg m)
    (sm_volumes m).
Definition set_sm_password (x : list Z) (m : server_mem) : server_mem :=
  mk_server_mem (sm_next m) (sm_core m) (sm_status m) (sm_address m) (sm_used_address m)
    (sm_fd m) (sm_connect_state m) (sm_exit_flag m) (sm_lastrequestid m) (sm_requests m)
    (sm_tx_delay m) (sm_attention_quantum m) (sm_using_uam m) (sm_username m) x (sm_token m)
    (sm_need_resume m) (sm_requested_version m) (sm_using_version m) (sm_loginmesg m)
    (sm_volumes m).
Definition set_sm_token (x : afp_token) (m : server_mem) : server_mem :=
  mk_server_mem (sm_next m) (sm_core m) (sm_status m) (sm_address m) (sm_used_address m)
    (sm_fd m) (sm_connect_state m) (sm_exit_flag m) (sm_lastrequestid m) (sm_requests m)
    (sm_tx_delay m) (sm_attention_quantum m) (sm_using_uam m) (sm_username m) (sm_password m)
    x (sm_need_resume m) (sm_requested_version m) (sm_using_version m) (sm_loginmesg m)
    (sm_volumes m).
Definition set_sm_need_resume (x : Z) (m : server_mem) : server_mem :=
  mk_server_mem (sm_next m) (sm_core m) (sm_status m) (sm_address m) (sm_used_address m)
    (sm_fd m) (sm_connect_state m) (sm_exit_flag m) (sm_lastrequestid m) (sm_requests m)
    (sm_tx_delay m) (sm_attention_quantum m) (sm_using_uam m) (sm_username m) (sm_password m)
    (sm_token m) x (sm_requested_version m) (sm_using_version m) (sm_loginmesg m) (sm_volumes
    m).
Definition set_sm_requested_version (x : Z) (m : server_mem) : server_mem :=
  mk_server_mem (sm_next m) (sm_core m) (sm_status m) (sm_address m) (sm_used_address m)
    (sm_fd m) (sm_connect_state m) (sm_exit_flag m) (sm_lastrequestid m) (sm_requests m)
    (sm_tx_delay m) (sm_attention_quantum m) (sm_using_uam m) (sm_username m) (sm_password m)
    (sm_token m) (sm_need_resume m) x (sm_using_version m) (sm_loginmesg m) (sm_volumes m).
Definition set_sm_using_version (x : option (list Z)) (m : server_mem) : server_mem :=
  mk_server_mem (sm_next m) (sm_core m) (sm_status m) (sm_address m) (sm_used_address m)
    (sm_fd m) (sm_connect_state m) (sm_exit_flag m) (sm_lastrequestid m) (sm_requests m)
    (sm_tx_delay m) (sm_attention_quantum m) (sm_using_uam m) (sm_username m) (sm_password m)
    (sm_token m) (sm_need_resume m) (sm_requested_version m) x (sm_loginmesg m) (sm_volumes
    m).
Definition set_sm_loginmesg (x : list Z) (m : server_mem) : server_mem :=
  mk_server_mem (sm_next m) (sm_core m) (sm_status m) (sm_address m) (sm_used_address m)
    (sm_fd m) (sm_connect_state m) (sm_exit_flag m) (sm_lastrequestid m) (sm_requests m)
    (sm_tx_delay m) (sm_attention_quantum m) (sm_using_uam m) (sm_username m) (sm_password m)
    (sm_token m) (sm_need_resume m) (sm_requested_version m) (sm_using_version m) x
    (sm_volumes m).
Definition set_sm_volumes (x : list volume_mem) (m : server_mem) : server_mem :=
  mk_server_mem (sm_next m) (sm_core m) (sm_status m) (sm_address m) (sm_used_address m)
    (sm_fd m) (sm_connect_state m) (sm_exit_flag m) (sm_lastrequestid m) (sm_requests m)
    (sm_tx_delay m) (sm_attention_quantum m) (sm_using_uam m) (sm_username m) (sm_password m)
    (sm_token m) (sm_need_resume m) (sm_requested_version m) (sm_using_version m)
    (sm_loginmesg m) x.

(** [server_base], the descriptors of the main loop, and the servers by address; what was
    freed is not on the heap. *)
Record world := mk_world {
  wo_heap : gmap Z server_mem; wo_base : Z; wo_fds : descriptors }.

(** Programs with that state. *)
Definition SM (A : Type) : Type := world -> prog (A * world).

#[export] Instance SM_ret : MRet SM := fun A a w => Ret (a, w).
#[export] Instance SM_bind : MBind SM :=
  fun A B f m w => prog_bind (m w) (fun r => f r.1 r.2).

Definition sget : SM world := fun w => Ret (w, w).
Definition smodify (f : world -> world) : SM unit := fun w => Ret (tt, f w).
Definition sask {X : Set} (e : env X) : SM X := fun w => Ask e (fun x => Ret (x, w)).
Definition slift {A} (o : option A) : SM A :=
  fun w => match o with Some a => Ret (a, w) | None => Crash end.
Definition sresult {A} (o : outcome A) : SM A :=
  fun w => match o with Done a => Ret (a, w) | Crashed => Crash | Starved => NoFuel end.

Definition set_heap (f : gmap Z server_mem -> gmap Z server_mem) (w : world) : world :=
  mk_world (f (wo_heap w)) (wo_base w) (wo_fds w).
Definition set_base (base : Z) (w : world) : world := mk_world (wo_heap w) base (wo_fds w).
Definition set_fds (f : descriptors -> descriptors) (w : world) : world :=
  mk_world (wo_heap w) (wo_base w) (f (wo_fds w)).

(** [*p] and [p->field = ...] *)
Definition load (p : Z) : SM server_mem := w ← sget; slift (wo_heap w !! p).
Definition store (p : Z) (m : server_mem) : SM unit := smodify (set_heap <[p := m]>).
Definition update (p : Z) (f : server_mem -> server_mem) : SM unit := m ← load p; store p (f m).

(** [malloc] for a server: an address of nothing that is allocated. *)
Class Malloc (malloc : gset Z -> Z) : Prop := {
  malloc_fresh X : malloc X ∉ X;
  malloc_not_null X : malloc X <> 0 }.

(** ** The list *)

Definition get_server_base : SM Z := w ← sget; mret (wo_base w).

Definition add_server (newserver : Z) : SM unit :=
  base ← get_server_base;
  update newserver (set_sm_next base);; smodify (set_base newserver).

(** [for (;s;s=s->next) if (s==server) return 1;] *)
Fixpoint valid_loop (fuel : nat) (heap : gmap Z server_mem) (server s : Z) : outcome bool :=
  if s =? 0 then Done false
  else
    match fuel with
    | O => Starved
    | S fuel =>
      if s =? server then Done true
      else match heap !! s with
           | None => Crashed
           | Some m => valid_loop fuel heap server (sm_next m)
           end
    end.

(** The loop of the searches: the first server the test holds of, or NULL. *)
Fixpoint find_loop (fuel : nat) (heap : gmap Z server_mem) (test : server_mem -> bool) (s : Z)
    : outcome Z :=
  if s =? 0 then Done 0
  else
    match fuel with
    | O => Starved
    | S fuel =>
      match heap !! s with
      | None => Crashed
      | Some m => if test m then Done s else find_loop fuel heap test (sm_next m)
      end
    end.

Definition same_signature (signature : list Z) (m : server_mem) : bool :=
  bytes_eqb (take AFP_SIGNATURE_LEN (ss_signature (sm_status m))) (take AFP_SIGNATURE_LEN signature).

Definition same_name (name : list Z) (m : server_mem) : bool :=
  holds (ss_server_name_utf8 (sm_status m)) name || holds (ss_server_name (sm_status m)) name.

(** [bcmp] of two structures [addrinfo] from the field [ai_addr] on, for the size of a
    [struct sockaddr]: the pointers [ai_addr] and [ai_canonname]. *)
Definition same_address (address : option addrinfo) (m : server_mem) : bool :=
  match sm_used_address m, address with
  | Some a, Some b =>
    negb (ai_addr a =? 0) && negb (ai_addr b =? 0)
    && (ai_addr a =? ai_addr b) && (ai_canonname a =? ai_canonname b)
  | _, _ => false
  end.

Section list.
Context (fuel : nat).

Definition server_still_valid (server : Z) : SM bool :=
  w ← sget; sresult (valid_loop fuel (wo_heap w) server (wo_base w)).

Definition find_server (test : server_mem -> bool) : SM Z :=
  w ← sget; sresult (find_loop fuel (wo_heap w) test (wo_base w)).

Definition find_server_by_signature (signature : list Z) : SM Z :=
  find_server (same_signature signature).
Definition find_server_by_name (name : list Z) : SM Z := find_server (same_name name).
Definition find_server_by_address (address : option addrinfo) : SM Z :=
  find_server (same_address address).

Definition something_is_mounted (server : Z) : SM bool :=
  m ← load server; mret (Session.something_is_mounted (vm_mounted <$> sm_volumes m)).

(** ** The end of a server *)

Definition loop_disconnect (s : Z) : SM unit :=
  m ← load s;
  if negb (sm_connect_state m =? SERVER_STATE_CONNECTED) then mret tt
  else
    smodify (set_fds (rm_fd (sm_fd m)));;
    sask (CloseSocket (sm_fd m));;
    update s (fun m => set_sm_need_resume 1 (set_sm_connect_state SERVER_STATE_DISCONNECTED m)).

Definition afp_free_server (s : Z) : SM unit :=
  if s =? 0 then mret tt else loop_disconnect s;; smodify (set_heap (delete s)).

(** The loop for the link to [s] is a search. *)
Definition afp_server_remove (s : Z) : SM Z :=
  if s =? 0 then mret 0
  else
    update s (fun m => set_sm_requests (signal_request <$> sm_requests m) m);;
    base ← get_server_base;
    if s =? base then
      m ← load s; smodify (set_base (sm_next m));; afp_free_server s;; mret 0
    else
      s2 ← find_server (fun m => sm_next m =? s);
      if s2 =? 0 then mret (-1)
      else m ← load s; update s2 (set_sm_next (sm_next m));; afp_free_server s;; mret 0.

End list.

(** ** A new server *)

Definition AFP_DEFAULT_ATTENTION_QUANTUM : Z := 1024.

Definition zero_status : server_status :=
  mk_status (replicate AFP_SERVER_NAME_LEN 0) (replicate AFP_SERVER_NAME_UTF8_LEN 0)
    (replicate AFP_SERVER_NAME_UTF8_LEN 0) (replicate 273 0) (replicate AFP_SIGNATURE_LEN 0) 0 0
    (replicate SERVER_MAX_VERSIONS 0).

Definition new_server (address : list addrinfo) (pw_uid pw_gid : Z) : server_mem :=
  mk_server_mem 0 (mk_afp_server kFPUTF8Name 0 0 0 0 0 0 0 0 pw_uid pw_gid) zero_status address None
    0 SERVER_STATE_DISCONNECTED 0 0 [] 0 AFP_DEFAULT_ATTENTION_QUANTUM 0 [] []
    (mk_token 0 (replicate 256 0)) 0 0 None (replicate 200 0) [].

(** The user's entry is read through the pointer of [getpwuid]. *)
Definition afp_server_init (malloc : gset Z -> Z) (address : list addrinfo) : SM Z :=
  w ← sget;
  let s := malloc (dom (wo_heap w)) in
  euid ← sask Geteuid;
  pw ← sask (Getpwuid euid);
  '(uid, gid) ← slift pw;
  store s (new_server address uid gid);; mret s.

(** ** Specifications *)

Definition shoare (C : contract) (w : world) {A} (m : SM A) (Q : A -> world -> Prop) : Prop :=
  wp C (m w) (fun r => Q r.1 r.2).

Section shoare.
Context (C : contract).

Lemma shoare_mono w {A} (m : SM A) (Q Q' : A -> world -> Prop) :
  (forall a w', Q a w' -> Q' a w') -> shoare C w m Q -> shoare C w m Q'.
Proof. intros H. apply wp_mono. intros [a w']. apply H. Qed.

Lemma shoare_ret w {A} (a : A) (Q : A -> world -> Prop) : Q a w -> shoare C w (mret a) Q.
Proof. done. Qed.

Lemma shoare_bind w {A B} (m : SM A) (f : A -> SM B) (Q : B -> world -> Prop) :
  shoare C w m (fun a w' => shoare C w' (f a) Q) -> shoare C w (m ≫= f) Q.
Proof. apply wp_bind. Qed.

Lemma shoare_get w Q : Q w w -> shoare C w sget Q.
Proof. done. Qed.

Lemma shoare_modify w f Q : Q tt (f w) -> shoare C w (smodify f) Q.
Proof. done. Qed.

Lemma shoare_ask w {X : Set} (e : env X) (Q : X -> world -> Prop) :
  guarantees C e -> (forall x, rely C _ e x -> Q x w) -> shoare C w (sask e) Q.
Proof. done. Qed.

Lemma shoare_lift w {A} (o : option A) a Q : o = Some a -> Q a w -> shoare C w (slift o) Q.
Proof. by intros ->. Qed.

Lemma shoare_result w {A} (o : outcome A) a Q : o = Done a -> Q a w -> shoare C w (sresult o) Q.
Proof. by intros ->. Qed.

Lemma shoare_load w p m Q : wo_heap w !! p = Some m -> Q m w -> shoare C w (load p) Q.
Proof. intros Hp HQ. apply shoare_bind, shoare_get. by eapply shoare_lift. Qed.

Lemma shoare_update w p m f Q :
  wo_heap w !! p = Some m -> Q tt (set_heap <[p := f m]> w) -> shoare C w (update p f) Q.
Proof. intros Hp HQ. apply shoare_bind. by eapply shoare_load. Qed.

End shoare.

(** ** Chains *)

(** From [s] the links lead along the servers [l] to NULL. *)
Fixpoint chain (heap : gmap Z server_mem) (s : Z) (l : list Z) : Prop :=
  match l with
  | [] => s = 0
  | p :: l => s = p /\ p <> 0 /\ exists m, heap !! p = Some m /\ chain heap (sm_next m) l
  end.

Lemma chain_unique heap s l1 l2 : chain heap s l1 -> chain heap s l2 -> l1 = l2.
Proof.
  revert s l2. induction l1 as [|p l1 IH]; intros s [|q l2]; cbn [chain]; [done|naive_solver..|].
  intros (-> & _ & m & Hm & H1) (-> & _ & m' & Hm' & H2). simplify_eq. f_equal. by eapply IH.
Qed.

Lemma chain_app heap s l1 p l2 : chain heap s (l1 ++ p :: l2) -> chain heap p (p :: l2).
Proof.
  revert s. induction l1 as [|q l1 IH]; intros s; cbn [chain app].
  - by intros (-> & H).
  - intros (_ & _ & m & _ & H). by eapply IH.
Qed.

Lemma chain_nodup heap s l : chain heap s l -> NoDup l.
Proof.
  revert s. induction l as [|p l IH]; intros s Hc; [constructor|]. constructor.
  - intros (l1 & l2 & ->)%list_elem_of_split.
    pose proof (chain_app heap s (p :: l1) p l2 Hc) as Hc'. destruct Hc as (-> & Hc).
    assert (chain heap p (p :: l1 ++ p :: l2)) as Hc2 by (by split).
    pose proof (chain_unique _ _ _ _ Hc' Hc2) as E. apply (f_equal length) in E.
    cbn [length] in E. rewrite length_app in E. cbn [length] in E. lia.
  - destruct Hc as (_ & _ & m & _ & Hc). by eapply IH.
Qed.

Lemma chain_lookup heap s l p : chain heap s l -> p ∈ l -> p <> 0 /\ is_Some (heap !! p).
Proof.
  revert s. induction l as [|q l IH]; intros s Hc Hp; [by apply not_elem_of_nil in Hp|].
  destruct Hc as (_ & Hq & m & Hm & Hc). apply elem_of_cons in Hp as [->|Hp]; [by eauto|].
  by eapply IH.
Qed.

Lemma chain_insert heap s l p m :
  chain heap s l -> p ∉ l -> chain (<[p := m]> heap) s l.
Proof.
  revert s. induction l as [|q l IH]; intros s; cbn [chain]; [done|].
  intros (-> & Hq & m' & Hm & Hc) [Hp Hl]%not_elem_of_cons. split_and!; [done|done|].
  exists m'. split; [by rewrite lookup_insert_ne|by apply IH].
Qed.

Lemma chain_delete heap s l p : chain heap s l -> p ∉ l -> chain (delete p heap) s l.
Proof.
  revert s. induction l as [|q l IH]; intros s; cbn [chain]; [done|].
  intros (-> & Hq & m' & Hm & Hc) [Hp Hl]%not_elem_of_cons. split_and!; [done|done|].
  exists m'. split; [by rewrite lookup_delete_ne|by apply IH].
Qed.

(** A change that keeps the link keeps the list. *)
Lemma chain_update heap s l p m m' :
  chain heap s l -> heap !! p = Some m -> sm_next m' = sm_next m -> chain (<[p := m']> heap) s l.
Proof.
  intros Hc Hp Hn. revert s Hc. induction l as [|q l IH]; intros s; cbn [chain]; [done|].
  intros (-> & Hq & m1 & Hm & Hc). split_and!; [done|done|].
  destruct (decide (q = p)) as [->|Hne].
  - simplify_eq. exists m'. rewrite lookup_insert_eq, Hn. split; [done|by apply IH].
  - exists m1. rewrite lookup_insert_ne by done. split; [done|by apply IH].
Qed.

Definition holds_at (heap : gmap Z server_mem) (test : server_mem -> bool) (p : Z) : bool :=
  match heap !! p with Some m => test m | None => false end.

Lemma chain_find fuel heap test s l :
  chain heap s l -> (length l <= fuel)%nat ->
  find_loop fuel heap test s = Done (default 0 (List.find (holds_at heap test) l)).
Proof.
  revert fuel s. induction l as [|p l IH]; intros fuel s.
  { intros ->. by destruct fuel. }
  intros (-> & Hp & m & Hm & Hc) Hf. destruct fuel as [|fuel]; [simpl in *; lia|].
  cbn [find_loop length] in *. rewrite (proj2 (Z.eqb_neq p 0)) by done. rewrite Hm.
  cbn [List.find]. unfold holds_at at 1. rewrite Hm. destruct (test m); [done|].
  apply IH; [done|lia].
Qed.

Lemma chain_valid fuel heap server s l :
  chain heap s l -> (length l <= fuel)%nat ->
  valid_loop fuel heap server s = Done (bool_decide (server ∈ l)).
Proof.
  revert fuel s. induction l as [|p l IH]; intros fuel s.
  { intros ->. by destruct fuel. }
  intros (-> & Hp & m & Hm & Hc) Hf. destruct fuel as [|fuel]; [simpl in *; lia|].
  cbn [valid_loop length] in *. rewrite (proj2 (Z.eqb_neq p 0)) by done. rewrite Hm.
  destruct (Z.eqb_spec p server) as [->|Hne].
  { by rewrite bool_decide_true by by left. }
  rewrite (IH fuel (sm_next m)) by (done || lia). f_equal. apply bool_decide_ext.
  rewrite elem_of_cons. naive_solver.
Qed.

Lemma chain_prev heap s l p :
  chain heap s l -> p ∈ l -> p <> s ->
  exists l1 q l2, l = l1 ++ q :: p :: l2 /\
    List.find (holds_at heap (fun m => sm_next m =? p)) l = Some q.
Proof.
  revert s. induction l as [|a l IH]; intros s Hc Hp Hne; [by apply not_elem_of_nil in Hp|].
  destruct Hc as (-> & Ha & m & Hm & Hc). apply elem_of_cons in Hp as [->|Hp]; [done|].
  cbn [List.find]. unfold holds_at at 1. rewrite Hm. destruct (Z.eqb_spec (sm_next m) p) as [E|E].
  - destruct l as [|b l]; [by apply not_elem_of_nil in Hp|].
    assert (b = p) as -> by (destruct Hc as (? & _); congruence). by exists [], a, l.
  - destruct (IH (sm_next m) Hc Hp) as (l1 & q & l2 & -> & Hf); [congruence|].
    exists (a :: l1), q, l2. by split.
Qed.

Lemma chain_unlink heap s l1 q p l2 m mq :
  chain heap s (l1 ++ q :: p :: l2) -> heap !! p = Some m -> heap !! q = Some mq ->
  chain (<[q := set_sm_next (sm_next m) mq]> heap) s (l1 ++ q :: l2).
Proof.
  intros Hc Hp Hq. pose proof (chain_nodup _ _ _ Hc) as Hnd.
  revert s Hc. induction l1 as [|a l1 IH]; intros s; cbn [chain app] in *.
  - apply NoDup_cons in Hnd as [Hn _]. apply not_elem_of_cons in Hn as [_ Hn].
    intros (-> & Hq0 & m1 & Hm1 & Hlink & Hp0 & m2 & Hm2 & Hc). simplify_eq.
    split_and!; [done|done|]. eexists. split; [by rewrite lookup_insert_eq|].
    by apply chain_insert.
  - apply NoDup_cons in Hnd as [Hn Hnd]. intros (-> & Ha & m1 & Hm1 & Hc).
    split_and!; [done|done|]. exists m1. split; [|by apply IH].
    rewrite lookup_insert_ne; [done|]. intros ->. apply Hn.
    apply elem_of_app. right. by left.
Qed.

(** Nothing but the link may differ. *)
Definition relinked (m m' : server_mem) : Prop := m' = set_sm_next (sm_next m') m.

#[export] Instance relinked_refl : Reflexive relinked.
Proof. by intros []. Qed.

(** What is left after a server is gone. *)
Definition without (p : Z) (w w' : world) : Prop :=
  wo_heap w' !! p = None /\
  forall q, q <> p -> option_Forall2 relinked (wo_heap w !! q) (wo_heap w' !! q).

Definition disconnected (m : server_mem) (fds : descriptors) : descriptors :=
  if sm_connect_state m =? SERVER_STATE_CONNECTED then rm_fd (sm_fd m) fds else fds.

Lemma set_heap_id w : set_heap (fun h => h) w = w.
Proof. by destruct w. Qed.

Lemma disconnect_ok C w p m (Q : unit -> world -> Prop) :
  wo_heap w !! p = Some m ->
  (forall m', sm_next m' = sm_next m -> sm_volumes m' = sm_volumes m ->
     Q tt (mk_world (<[p := m']> (wo_heap w)) (wo_base w) (disconnected m (wo_fds w)))) ->
  shoare C w (loop_disconnect p) Q.
Proof.
  intros Hp HQ. apply shoare_bind. eapply shoare_load; [done|]. unfold disconnected in HQ.
  destruct (_ =? _); cbn [negb].
  - apply shoare_bind, shoare_modify, shoare_bind, shoare_ask; [constructor|]. intros _ _.
    eapply shoare_update; [done|]. by apply HQ.
  - apply shoare_ret. destruct w as [heap base fds]. specialize (HQ m eq_refl eq_refl).
    by rewrite insert_id in HQ.
Qed.

Lemma free_ok C w p m (Q : unit -> world -> Prop) :
  p <> 0 -> wo_heap w !! p = Some m ->
  Q tt (mk_world (delete p (wo_heap w)) (wo_base w) (disconnected m (wo_fds w))) ->
  shoare C w (afp_free_server p) Q.
Proof.
  intros Hp0 Hp HQ. unfold afp_free_server. rewrite (proj2 (Z.eqb_neq p 0)) by done.
  apply shoare_bind. eapply disconnect_ok; [done|]. intros m' _ _. apply shoare_modify.
  unfold set_heap. cbn [wo_heap wo_base wo_fds]. by rewrite delete_insert_eq.
Qed.

Lemma filter_absent (p : Z) (l : list Z) : p ∉ l -> filter (fun q => q <> p) l = l.
Proof.
  induction l as [|q l IH]; [done|]. intros [Hq Hl]%not_elem_of_cons.
  rewrite filter_cons_True by done. f_equal. by apply IH.
Qed.

Lemma filter_unlink (l1 : list Z) p l2 :
  NoDup (l1 ++ p :: l2) -> filter (fun q => q <> p) (l1 ++ p :: l2) = l1 ++ l2.
Proof.
  intros Hnd. apply NoDup_app in Hnd as (H1 & Hd & [Hp H2]%NoDup_cons).
  rewrite filter_app, filter_cons_False by naive_solver.
  rewrite !filter_absent; [done|done|]. intros H. apply (Hd p H). by left.
Qed.

Section removal.
Context (C : contract) (fuel : nat).

Lemma remove_ok w l p m (Q : Z -> world -> Prop) :
  chain (wo_heap w) (wo_base w) l -> p ∈ l -> wo_heap w !! p = Some m -> (length l <= fuel)%nat ->
  (forall w', chain (wo_heap w') (wo_base w') (filter (fun q => q <> p) l) -> without p w w' ->
     wo_fds w' = disconnected m (wo_fds w) -> Q 0 w') ->
  shoare C w (afp_server_remove fuel p) Q.
Proof using Type.
  intros Hc Hin Hp Hf HQ. destruct (chain_lookup _ _ _ _ Hc Hin) as [Hp0 _].
  pose proof (chain_nodup _ _ _ Hc) as Hnd.
  unfold afp_server_remove. rewrite (proj2 (Z.eqb_neq p 0)) by done.
  apply shoare_bind. eapply shoare_update; [done|].
  set (m1 := set_sm_requests _ m). destruct w as [heap base fds]. cbn in Hc, Hp, HQ.
  assert (chain (<[p := m1]> heap) base l) as Hc1 by by eapply chain_update.
  apply shoare_bind, shoare_bind, shoare_get, shoare_ret. unfold set_heap. cbn [wo_heap wo_base wo_fds].
  destruct (Z.eqb_spec p base) as [<-|Hne].
  - apply shoare_bind. eapply shoare_load; [by apply lookup_insert_eq|].
    apply shoare_bind, shoare_modify, shoare_bind. eapply free_ok; [done|by apply lookup_insert_eq|].
    apply shoare_ret. cbn [wo_heap wo_base wo_fds set_base]. rewrite delete_insert_eq.
    destruct l as [|q l]; [by apply not_elem_of_nil in Hin|].
    destruct Hc as (<- & _ & m' & Hm' & Hc). simplify_eq. apply NoDup_cons in Hnd as [Hn Hnd].
    apply HQ; cbn [wo_heap wo_base wo_fds]; [|split|done].
    + rewrite filter_cons_False by naive_solver.
      rewrite filter_absent by done. by apply chain_delete.
    + by apply lookup_delete_eq.
    + intros q Hq. cbn [wo_heap]. rewrite lookup_delete_ne by done.
      by destruct (heap !! q); constructor.
  - destruct (chain_prev _ _ _ _ Hc1 Hin Hne) as (l1 & q & l2 & -> & Hfind).
    assert (q <> p) as Hqp.
    { intros ->. apply NoDup_app in Hnd as (_ & _ & [Hnp _]%NoDup_cons). apply Hnp. by left. }
    destruct (chain_lookup _ _ _ q Hc) as (Hq0 & mq & Hmq).
    { apply elem_of_app. right. by left. }
    assert (find_loop fuel (<[p := m1]> heap) (fun m => sm_next m =? p) base = Done q) as Hloop.
    { rewrite (chain_find _ _ _ _ _ Hc1) by done. by rewrite Hfind. }
    apply shoare_bind, shoare_bind, shoare_get. eapply shoare_result; [exact Hloop|]. rewrite (proj2 (Z.eqb_neq q 0)) by done.
    apply shoare_bind. eapply shoare_load; [by apply lookup_insert_eq|].
    apply shoare_bind. eapply shoare_update.
    { cbn [wo_heap]. rewrite lookup_insert_ne by done. exact Hmq. }
    apply shoare_bind. eapply free_ok; [done| |].
    { cbn [wo_heap set_heap]. rewrite lookup_insert_ne by done. by apply lookup_insert_eq. }
    apply shoare_ret. unfold set_heap. cbn [wo_heap wo_base wo_fds].
    apply HQ; cbn [wo_heap wo_base wo_fds]; [|split|done].
    + replace (l1 ++ q :: p :: l2) with ((l1 ++ [q]) ++ p :: l2) by by rewrite <- app_assoc.
      rewrite filter_unlink by by rewrite <- app_assoc. rewrite <- app_assoc.
      apply chain_delete; [|].
      * eapply chain_unlink; [exact Hc1|by apply lookup_insert_eq|by rewrite lookup_insert_ne].
      * replace (l1 ++ q :: p :: l2) with ((l1 ++ [q]) ++ p :: l2) in Hnd by by rewrite <- app_assoc.
        apply NoDup_app in Hnd as (_ & Hd & [Hn2 _]%NoDup_cons).
        rewrite app_assoc, elem_of_app. intros [H|H]; [|done]. apply (Hd p H). by left.
    + by apply lookup_delete_eq.
    + intros x Hx. cbn [wo_heap]. rewrite lookup_delete_ne by done.
      destruct (decide (x = q)) as [->|Hxq].
      * rewrite lookup_insert_eq, Hmq. by constructor.
      * rewrite !lookup_insert_ne by done. by destruct (heap !! x); constructor.
Qed.

End removal.

(** ** Circles *)

(** The links lead from every server of [R] to one of [R]. *)
Definition closed (heap : gmap Z server_mem) (R : list Z) : Prop :=
  forall p, p ∈ R -> p <> 0 /\ exists m, heap !! p = Some m /\ sm_next m ∈ R.

(** The list never ends, and has only servers of [l]. *)
Definition circular (l : list Z) (w : world) : Prop :=
  exists R, R ⊆ l /\ wo_base w ∈ R /\ closed (wo_heap w) R.

Lemma closed_valid fuel heap R server s :
  closed heap R -> s ∈ R -> server ∉ R -> valid_loop fuel heap server s = Starved.
Proof.
  intros Hc Hs Hn. revert s Hs. induction fuel as [|fuel IH]; intros s Hs;
    destruct (Hc s Hs) as (H0 & m & Hm & Hnext); cbn [valid_loop];
    rewrite (proj2 (Z.eqb_neq s 0)) by done; [done|].
  rewrite (proj2 (Z.eqb_neq s server)) by by intros ->. rewrite Hm. by apply IH.
Qed.

Lemma closed_find fuel heap R test s :
  closed heap R -> s ∈ R -> (forall p, p ∈ R -> holds_at heap test p = false) ->
  find_loop fuel heap test s = Starved.
Proof.
  intros Hc Hs Hn. revert s Hs. induction fuel as [|fuel IH]; intros s Hs;
    destruct (Hc s Hs) as (H0 & m & Hm & Hnext); cbn [find_loop];
    rewrite (proj2 (Z.eqb_neq s 0)) by done; [done|].
  rewrite Hm. specialize (Hn s Hs). unfold holds_at in Hn. rewrite Hm in Hn. rewrite Hn.
  by apply IH.
Qed.

Lemma circular_valid fuel l w server :
  circular l w -> server ∉ l -> server_still_valid fuel server w = NoFuel.
Proof.
  intros (R & Hsub & Hb & HR) Hn.
  change (sresult (valid_loop fuel (wo_heap w) server (wo_base w)) w = NoFuel).
  rewrite (closed_valid fuel _ R _ _ HR Hb); [done|]. intros Hr. by apply Hn, Hsub.
Qed.

Lemma circular_find fuel l w test :
  circular l w -> (forall p, p ∈ l -> holds_at (wo_heap w) test p = false) ->
  find_server fuel test w = NoFuel.
Proof.
  intros (R & Hsub & Hb & HR) Hn.
  change (sresult (find_loop fuel (wo_heap w) test (wo_base w)) w = NoFuel).
  rewrite (closed_find fuel _ R _ _ HR Hb); [done|]. intros p Hp. by apply Hn, Hsub.
Qed.

Lemma chain_until heap s l1 p l2 :
  chain heap s (l1 ++ p :: l2) ->
  s ∈ l1 ++ [p] /\
  forall x, x ∈ l1 -> x <> 0 /\ exists m, heap !! x = Some m /\ sm_next m ∈ l1 ++ [p].
Proof.
  revert s. induction l1 as [|a l1 IH]; intros s; cbn [chain app].
  - intros (-> & _). split; [by left|]. by intros x ?%not_elem_of_nil.
  - intros (-> & Ha & m & Hm & Hc). destruct (IH _ Hc) as [Hs Hl]. split; [by left|].
    intros x [->|Hx]%elem_of_cons.
    + split; [done|]. exists m. split; [done|by right].
    + destruct (Hl x Hx) as (H0 & m' & Hm' & Hn). split; [done|]. exists m'. split; [done|by right].
Qed.

(** A server that is on the list already makes it circular. *)
Lemma add_again C w l p (Q : unit -> world -> Prop) :
  chain (wo_heap w) (wo_base w) l -> p ∈ l ->
  (forall w', circular l w' -> Q tt w') -> shoare C w (add_server p) Q.
Proof.
  intros Hc Hp HQ. destruct (chain_lookup _ _ _ _ Hc Hp) as (Hp0 & m & Hm).
  apply shoare_bind, shoare_bind, shoare_get, shoare_ret, shoare_bind.
  eapply shoare_update; [done|]. apply shoare_modify. apply HQ.
  apply list_elem_of_split in Hp as (l1 & l2 & ->).
  destruct (chain_until _ _ _ _ _ Hc) as [Hb Hl].
  apply chain_nodup, NoDup_app in Hc as (_ & Hd & _).
  exists (l1 ++ [p]). cbn [wo_heap wo_base set_heap set_base]. split_and!.
  - intros x. rewrite !elem_of_app, !elem_of_cons, elem_of_nil. tauto.
  - apply elem_of_app. right. by left.
  - intros x [Hx| ->%list_elem_of_singleton]%elem_of_app.
    + destruct (Hl x Hx) as (H0 & m' & Hm' & Hn). split; [done|]. exists m'. split; [|done].
      rewrite lookup_insert_ne; [done|]. intros ->. apply (Hd x Hx). by left.
    + split; [done|]. eexists. split; [by rewrite lookup_insert_eq|]. done.
Qed.

(** Adding one that is not puts it in front. *)
Lemma add_ok C w l p m (Q : unit -> world -> Prop) :
  chain (wo_heap w) (wo_base w) l -> p ∉ l -> p <> 0 -> wo_heap w !! p = Some m ->
  (let w' := mk_world (<[p := set_sm_next (wo_base w) m]> (wo_heap w)) p (wo_fds w) in
   chain (wo_heap w') (wo_base w') (p :: l) -> Q tt w') ->
  shoare C w (add_server p) Q.
Proof.
  intros Hc Hp Hp0 Hm HQ. apply shoare_bind, shoare_bind, shoare_get, shoare_ret, shoare_bind.
  eapply shoare_update; [done|]. apply shoare_modify. apply HQ. cbn [chain wo_heap wo_base].
  split_and!; [done|done|]. eexists. split; [by rewrite lookup_insert_eq|]. by apply chain_insert.
Qed.

(** C23: taking a server off the list.  [afp_server_remove] of a server that is on the list
    returns 0, frees it, disconnects it if it was connected, and leaves the list with the
    other servers in their order; of these nothing but a link changes.  It sends nothing
    and accesses no memory that is not there. *)
Theorem server_removed C fuel w l p m :
  chain (wo_heap w) (wo_base w) l -> p ∈ l -> wo_heap w !! p = Some m -> (length l <= fuel)%nat ->
  shoare C w (afp_server_remove fuel p) (fun rc w' =>
    rc = 0 /\ chain (wo_heap w') (wo_base w') (filter (fun q => q <> p) l) /\ without p w w' /\
    wo_fds w' = disconnected m (wo_fds w)).
Proof. intros Hc Hp Hm Hf. by eapply remove_ok. Qed.

(** The second of two servers, of which it is the connected one. *)
Definition second_server : server_mem :=
  set_sm_fd 5 (set_sm_connect_state SERVER_STATE_CONNECTED (new_server [] 0 0)).
Definition two_servers : world :=
  mk_world (<[2 := second_server]> {[1 := set_sm_next 2 (new_server [] 0 0)]}) 1
    (add_fd 5 no_descriptors).

Lemma server_removed_witness :
  shoare (mk_contract (fun _ => False) (fun _ _ _ => True) False False) two_servers
    (afp_server_remove 2 2) (fun rc w' =>
      rc = 0 /\ chain (wo_heap w') (wo_base w') [1] /\ without 2 two_servers w' /\
      wo_fds w' = rm_fd 5 (add_fd 5 no_descriptors)).
Proof.
  apply (server_removed _ 2 two_servers [1; 2] 2 second_server).
  - split_and!; [done|done|]. eexists. split; [by vm_compute|].
    split_and!; [done|done|]. eexists. by split; [by vm_compute|].
  - right. by left.
  - by vm_compute.
  - done.
Defined.

(** A server that is not on the list stays in memory. *)
Lemma unlisted_leaks C fuel w l p m :
  chain (wo_heap w) (wo_base w) l -> p ∉ l -> p <> 0 -> wo_heap w !! p = Some m ->
  (length l <= fuel)%nat ->
  shoare C w (afp_server_remove fuel p) (fun rc w' =>
    rc = -1 /\ is_Some (wo_heap w' !! p)).
Proof.
  intros Hc Hp Hp0 Hm Hf. unfold afp_server_remove. rewrite (proj2 (Z.eqb_neq p 0)) by done.
  apply shoare_bind. eapply shoare_update; [done|].
  apply shoare_bind, shoare_bind, shoare_get, shoare_ret. cbn [wo_base set_heap].
  destruct (Z.eqb_spec p (wo_base w)) as [->|Hb].
  { destruct l as [|q l]; [done|]. destruct Hc as (E & _). exfalso. apply Hp. rewrite E. by left. }
  assert (forall s l, chain (wo_heap w) s l -> p ∉ l -> p <> s ->
    List.find (holds_at (<[p := set_sm_requests (signal_request <$> sm_requests m) m]> (wo_heap w))
                 (fun m => sm_next m =? p)) l = None) as Hnone.
  { clear -Hp0. intros s l. revert s. induction l as [|q l IH]; [done|].
    intros s (-> & _ & mq & Hmq & Hc) [Hq Hl]%not_elem_of_cons _. cbn [List.find].
    unfold holds_at at 1. rewrite lookup_insert_ne, Hmq by done.
    destruct (Z.eqb_spec (sm_next mq) p) as [E|E].
    - destruct l as [|x l]; [simpl in Hc; congruence|]. destruct Hc as (Hx & _).
      exfalso. apply Hl. replace p with x by congruence. by left.
    - apply (IH (sm_next mq)); [done|done|congruence]. }
  apply shoare_bind, shoare_bind, shoare_get. eapply shoare_result.
  { apply chain_find; [by apply chain_insert|done]. }
  cbn [wo_heap set_heap]. rewrite (Hnone _ _ Hc Hp Hb). apply shoare_ret. split; [done|].
  eexists. apply lookup_insert_eq.
Qed.

(** The search by address compares pointers: the same address from another call of
    getaddrinfo is not found. *)
Lemma address_search_by_pointer m a b :
  sm_used_address m = Some a -> ai_addr a <> ai_addr b -> same_address (Some b) m = false.
Proof.
  unfold same_address. intros -> Hne. rewrite (proj2 (Z.eqb_neq (ai_addr a) (ai_addr b))) by done.
  by rewrite andb_false_r.
Qed.

End Servers.
