(* ===== verification/Connect.v ===== *)
(** * Connecting: lib/connect.c, lib/server.c, and the connection in lib/afp.c

    Sockets, the identification of a server, sessions, the two connections of
    afp_server_full_connect, and reconnecting. *)

From stdpp Require Import gmap.
From S2P Require Import Prelude Text Constants Types Utils Dsi ProtoFiles ProtoVolume Client.
From S2P Require Import Unicode Codepage Calls Did UamsDef Status Auth Session Daemon Url Servers.

Module Connect.
Import Utils Unicode Codepage Dsi ProtoFiles ProtoVolume Client Calls Did UamsDef Status Auth.
Import Session Daemon.
Import Servers.

(** ** Programs of the session and of volumes *)

(** A program that does not touch the list of servers. *)
Definition sprog {A} (p : prog A) : SM A := fun w => prog_bind p (fun a => Ret (a, w)).

Definition session_client (m : server_mem) : client :=
  mk_client (sm_core m) zero_volume [] 0 0 0 0 [].

Definition on_server (s : Z) {A} (p : M A) : SM A :=
  m ← load s;
  '(a, c) ← sprog (p (session_client m));
  update s (set_sm_core (cl_server c));; mret a.

Definition volume_client (m : server_mem) (v : volume_mem) : client :=
  let '(hits, misses, expired, force_removed) := vm_stats v in
  mk_client (sm_core m) (vm_volume v) (vm_dids v) hits misses expired force_removed (vm_forks v).

Definition volume_of (v : volume_mem) (mounted : Z) (c : client) : volume_mem :=
  mk_volume_mem (cl_volume c) mounted (vm_mountpoint v) (vm_volpassword v) (cl_dids c)
    (cl_hits c, cl_misses c, cl_expired c, cl_force_removed c) (cl_forks c).

Definition set_sm_volume (i : nat) (v : volume_mem) (m : server_mem) : server_mem :=
  set_sm_volumes (<[i := v]> (sm_volumes m)) m.

(** What the handler makes of the packet of an answer, if there is one. *)
Definition shandle {A} (handler : list Z -> Z -> option A) (a : answer) (use : A -> SM unit)
    : SM unit :=
  match an_packet a with
  | None => mret tt
  | Some (packet, behind) =>
    x ← slift (handler (packet ++ behind) (Z.of_nat (length packet))); use x
  end.

Section connect.
Context (G : gcrypt) (r : registry) (iconv : option (list Z -> list Z)) (malloc : gset Z -> Z).
Context (fuel : nat) (forkid_of : Z -> Z) (unmount : M unit).

(** ** Requests of the session *)

Definition dsi_getstatus (server : Z) : SM Z :=
  junk ← sask (Memory 33);
  a ← sask (Exchange (mk_req DSI_DSIGetStatus 0 [] 60 0));
  m ← load server;
  shandle (fun buf size => dsi_getstatus_reply iconv junk buf size (sm_status m)) a
    (fun status => update server (set_sm_status status));;
  mret (an_rc a).

(** Its timeout is where the subcommand belongs. *)
Definition dsi_opensession (server : Z) : SM Z :=
  m ← load server;
  a ← sask (Exchange (mk_req DSI_DSIOpenSession 0
                        (st8 1 ++ st8 4 ++ st32 (htonl (sm_attention_quantum m)))
                        1 (u8 DSI_BLOCK_TIMEOUT)));
  shandle (fun buf _ => ntohl <$> ld32 18 buf) a
    (fun q => update server (fun m => set_sm_core (set_sv_tx_quantum q (sm_core m)) m));;
  mret 0.

Definition closed_volume (v : afp_volume) : volume_mem :=
  mk_volume_mem v AFP_VOLUME_UNMOUNTED (replicate 255 0) (replicate 8 0) [] (0, 0, 0, 0) [].

(** [afp_getsrvrparms] with its handler; the result of [dsi_send] is dropped. *)
Definition FPGetSrvrParms (server : Z) : SM Z :=
  a ← sask (Exchange afp_getsrvrparms);
  m ← load server;
  shandle (afp_getsrvrparms_reply (sm_core m)) a
    (fun x => match x.2 with
              | None => mret tt
              | Some (time, volumes) =>
                update server (fun m => set_sm_volumes (closed_volume <$> volumes)
                                 (set_sm_core (set_sv_connect_time time (sm_core m)) m))
              end);;
  mret 0.

Definition AFPMESG_LOGIN : Z := 0.

(** [afp_getsrvrmsg]; the message goes to [mesg]. *)
Definition FPGetSrvrMsg (messagetype utf8 block : Z) (mesg : list Z) : SM (Z * list Z) :=
  a ← sask (Exchange (afp_getsrvrmsg messagetype utf8 block));
  match an_packet a with
  | None => mret (an_rc a, mesg)
  | Some (packet, behind) =>
    x ← slift (afp_getsrvrmsg_reply (packet ++ behind) (Z.of_nat (length packet)) mesg);
    mret (an_rc a, x.2)
  end.

Definition session_of (m : server_mem) : session :=
  mk_session (sm_using_uam m) (sm_username m) (sm_password m) (ss_flags (sm_status m))
    (sm_need_resume m) (sm_token m).

(** [afp_server_login] on a server of the list. *)
Definition server_login (server max : Z) (m : message) : SM (Z * message) :=
  sm ← load server;
  av_name ← slift (sm_using_version sm);
  '(rc, ss, m) ← on_server server (afp_server_login G av_name r (session_of sm) max m);
  update server (fun sm => set_sm_token (ss_token ss) (set_sm_need_resume (ss_need_resume ss) sm));;
  mret (rc, m).

(** ** Sockets *)

(** The loop over the addresses: the one that was connected to, and the last [errno]. *)
Fixpoint try_addresses (server : Z) (address : list addrinfo) (errno : Z)
    : SM (option addrinfo * Z) :=
  match address with
  | [] => mret (None, errno)
  | a :: rest =>
    '(fd, e) ← sask (OpenSocket (ai_family a) (ai_socktype a) (ai_protocol a));
    update server (set_sm_fd fd);;
    if 0 <=? fd then
      '(rc, e) ← sask (ConnectSocket fd (ai_sockaddr a));
      if rc =? 0 then mret (Some a, errno)
      else
        '(rc, e2) ← sask (CloseSocket fd);
        update server (set_sm_fd (-1));;
        try_addresses server rest (if rc <? 0 then e2 else e)
    else try_addresses server rest e
  end.

Definition tx_delay (t1 t2 : Z * Z) : Z :=
  if 0 <? t2.1 - t1.1 then u32 ((t2.1 - t1.1) * 1000) else u32 (Z.quot (t2.2 - t1.2) 1000).

(** The part of [afp_server_connect] behind the test of [full]; the error of
    [dsi_getstatus] comes back with its sign changed. *)
Definition identify_server (server : Z) : SM Z :=
  t1 ← sask Timeofday;
  error ← dsi_getstatus server;
  if negb (error =? 0) then mret (- error)
  else
    t2 ← sask Timeofday;
    update server (fun m =>
      set_sm_core
        (set_sv_rx_quantum (128 * 1024)
           (set_sv_server_type (Status.afp_server_identify (sm_status m)) (sm_core m)))
        (set_sm_tx_delay (tx_delay t1 t2) m));;
    mret 0.

(** The server after [connect] to the address [used]. *)
Definition connected_mem (used : option addrinfo) (m : server_mem) : server_mem :=
  mk_server_mem (sm_next m) (sm_core m) (sm_status m) (sm_address m) used
    (sm_fd m) SERVER_STATE_CONNECTED 0 0 (sm_requests m) (sm_tx_delay m)
    (sm_attention_quantum m) (sm_using_uam m) (sm_username m) (sm_password m) (sm_token m)
    (sm_need_resume m) (sm_requested_version m) (sm_using_version m) (sm_loginmesg m)
    (sm_volumes m).

Definition afp_server_connect (server : Z) (full : bool) : SM Z :=
  m ← load server;
  '(used, errno) ← try_addresses server (sm_address m) 0;
  m ← load server;
  if sm_fd m <? 0 then mret (- errno)
  else
    update server (connected_mem used);;
    add_server server;;
    smodify (set_fds (add_fd (sm_fd m)));;
    if negb full then mret 0 else identify_server server.

(** ** The session of a connected server: lib/server.c *)

Definition LOGIN_ERROR_MESG_LEN : Z := 1024.

(** [goto error] *)
Definition abandon (server : Z) : SM Z := afp_server_remove fuel server;; mret 0.

Definition afp_server_complete_connection (server : Z) (versions : list Z) (uams : Z)
    (username password : list Z) (requested_version uam_mask : Z) : SM Z :=
  update server (fun m => set_sm_password password (set_sm_username username
    (set_sm_requested_version (u8 requested_version) m)));;
  m ← load server;
  smodify (set_fds (add_fd (sm_fd m)));;
  dsi_opensession server;;
  version ← slift (pick_version versions (u8 requested_version));
  update server (fun m => set_sm_using_version (fst <$> version) m);;
  match version with
  | None => abandon server
  | Some (_, av_number) =>
    update server (fun m => set_sm_core (set_sv_av_number av_number (sm_core m)) m);;
    let using_uam := pick_uam uams uam_mask in
    if using_uam =? -1 then abandon server
    else
      update server (set_sm_using_uam using_uam);;
      mesg ← sask (Memory LOGIN_ERROR_MESG_LEN);
      '(failed, _) ← server_login server LOGIN_ERROR_MESG_LEN (mk_message mesg 0);
      if negb (failed =? 0) then abandon server
      else
        failed ← FPGetSrvrParms server;
        if negb (failed =? 0) then abandon server
        else
          m ← load server;
          (if sv_connect_time (sm_core m) =? AD_DATE_TO_UNIX 0 then
             now ← sask Gettimeofday;
             update server (fun m => set_sm_core (set_sv_connect_time now (sm_core m)) m)
           else mret tt);;
          '(_, loginmsg) ← FPGetSrvrMsg AFPMESG_LOGIN (if 30 <=? av_number then 1 else 0)
                             DSI_DEFAULT_TIMEOUT (replicate 200 0);
          update server (set_sm_loginmesg loginmsg);;
          mret server
  end.

(** ** Connecting to the server of a URL: lib/connect.c *)

(** [port_string] has room for five digits. *)
Definition afp_get_address (hostname : list Z) (port : Z) : SM (option (list addrinfo)) :=
  sask (Getaddrinfo hostname (take 5 (Text.decimal port))).

(** [struct afp_connection_request]; the URL has a version of its own. *)
Record afp_connection_request := mk_connection_request {
  cr_url : Url.afp_url; cr_requested_version : Z; cr_uam_mask : Z }.

(** What is copied from the server that was only asked for its status; [flags] and
    [versions] are not. *)
Definition take_over (tmp status : server_status) : server_status :=
  mk_status (ss_server_name tmp) (ss_server_name_utf8 tmp) (ss_server_name_printable tmp)
    (ss_block tmp) (ss_signature tmp) (ss_flags status) (ss_supported_uams tmp) (ss_versions status).

(** Unlike [afp_server_identify] this looks for "Airport". *)
Definition server_type (s : server_status) : Z :=
  if holds (machine_type s) (str "Netatalk") then AFPFS_SERVER_TYPE_NETATALK
  else if holds (machine_type s) (str "Airport") then AFPFS_SERVER_TYPE_AIRPORT
  else if holds (machine_type s) (str "Macintosh") then AFPFS_SERVER_TYPE_MACINTOSH
  else AFPFS_SERVER_TYPE_UNKNOWN.

Definition have_server (s : Z) : SM Z :=
  update s (fun m => set_sm_core (set_sv_server_type (server_type (sm_status m)) (sm_core m)) m);;
  mret s.

(** [goto error] with the server [s]. *)
Definition give_up_server (s : Z) : SM Z :=
  if s =? 0 then mret 0
  else
    mounted ← something_is_mounted s;
    (if negb mounted then afp_server_remove fuel s;; mret tt else mret tt);; mret 0.

(** The mask of methods after the empty user and password have been noticed. *)
Definition anonymous_mask (url : Url.afp_url) (uams uam_mask : Z) : Z :=
  match Url.ur_username url, Url.ur_password url with
  | [], [] => if has uams UAM_NOUSERAUTHENT then UAM_NOUSERAUTHENT else uam_mask
  | _, _ => uam_mask
  end.

(** The connection that stays, to a server of which the status [tmp] is known. *)
Definition connect_session (address : list addrinfo) (tmp : server_status) (rx_quantum : Z)
    (req : afp_connection_request) : SM Z :=
  s ← afp_server_init malloc address;
  rc ← afp_server_connect s false;
  if negb (rc =? 0) then give_up_server s
  else
    let url := cr_url req in
    done ← afp_server_complete_connection s (ss_versions tmp) (ss_supported_uams tmp)
             (Url.ur_username url) (Url.ur_password url) (cr_requested_version req)
             (anonymous_mask url (ss_supported_uams tmp) (cr_uam_mask req));
    if done =? 0 then give_up_server s
    else
      update s (fun m => set_sm_core (set_sv_rx_quantum rx_quantum (sm_core m))
                           (set_sm_status (take_over tmp (sm_status m)) m));;
      have_server s.

Definition afp_server_full_connect (req : afp_connection_request) : SM Z :=
  address ← afp_get_address (Url.ur_servername (cr_url req)) (Url.ur_port (cr_url req));
  match address with
  | None => give_up_server 0
  | Some address =>
    s ← find_server_by_address fuel (head address);
    if negb (s =? 0) then have_server s
    else
      tmpserver ← afp_server_init malloc address;
      ret ← afp_server_connect tmpserver true;
      if ret <? 0 then afp_server_remove fuel tmpserver;; give_up_server 0
      else
        loop_disconnect tmpserver;;
        m ← load tmpserver;
        afp_server_remove fuel tmpserver;;
        s ← find_server_by_signature fuel (ss_signature (sm_status m));
        if s =? 0 then connect_session address (sm_status m) (sv_rx_quantum (sm_core m)) req
        else have_server s
  end.

(** ** Reconnecting *)

(** The loop over the volumes from [i] on; [max] is the size of the message.  A volume that
    cannot be mounted again may have been the last of the server, which is removed then, in
    [afp_connect_volume], and read here. *)
Fixpoint remount (n i : nat) (server max : Z) (m : message) : SM message :=
  match n with
  | O => mret m
  | S n =>
    sm ← load server;
    match sm_volumes sm !! i with
    | None => mret m
    | Some v =>
      mountpoint ← slift (cstr (vm_mountpoint v));
      match mountpoint with
      | [] => remount n (S i) server max m
      | _ =>
        let others := vm_mounted <$> delete i (sm_volumes sm) in
        volpassword ← slift (cstr (vm_volpassword v ++ [0]));
        '((failed, mounted, last, m), c) ←
          sprog (afp_connect_volume forkid_of unmount others volpassword (vm_mounted v) max m
                   (volume_client sm v));
        update server (fun sm => set_sm_core (cl_server c)
                                   (set_sm_volume i (volume_of v mounted c) sm));;
        m ← (if negb (failed =? 0)
             then (if last : bool then afp_server_remove fuel server;; mret tt else mret tt);;
                  sm ← load server; v ← slift (sm_volumes sm !! i);
                  name ← slift (cstr (vo_volume_name_printable (vm_volume v)));
                  slift (report max (str "Could not mount " ++ name ++ [10]) m)
             else mret m);
        remount n (S i) server max m
      end
    end
  end.

Definition afp_server_reconnect (s max : Z) (m : message) : SM (Z * message) :=
  failed ← afp_server_connect s false;
  if negb (failed =? 0) then
    sm ← load s;
    name ← slift (cstr (ss_server_name_printable (sm_status sm)));
    m ← slift (report max (str "Error resuming connection to " ++ name ++ [10]) m);
    mret (1, m)
  else
    dsi_opensession s;;
    '(failed, m) ← server_login s max m;
    if negb (failed =? 0) then mret (1, m)
    else
      sm ← load s;
      m ← remount (length (sm_volumes sm)) 0 s max m;
      mret (0, m).

End connect.

(** ** Programs that keep the list

    Whatever the environment does, the links stay as they are. *)

Definition anything (starve : Prop) : contract :=
  {| guarantee := fun _ => True; rely := fun _ _ _ => True; may_crash := True;
     may_starve := starve |}.

Lemma wp_anything {A} (p : prog A) : wp (anything True) p (fun _ => True).
Proof. induction p; simpl; try done. split; [|done]. by apply Forall_true. Qed.

Definition links (w w' : world) : Prop :=
  wo_base w' = wo_base w /\
  forall q, sm_next <$> wo_heap w' !! q = sm_next <$> wo_heap w !! q.

#[export] Instance links_preorder : PreOrder links.
Proof.
  split; [by intros w|]. intros w1 w2 w3 [H1 H2] [H3 H4]. split; [congruence|].
  intros q. by rewrite H4, H2.
Qed.

Lemma links_insert w p m m' :
  wo_heap w !! p = Some m -> sm_next m' = sm_next m -> links w (set_heap <[p := m']> w).
Proof.
  intros Hp Hn. split; [done|]. intros q. cbn [wo_heap set_heap].
  destruct (decide (q = p)) as [->|Hq]; [by rewrite lookup_insert_eq, Hp; simpl; rewrite Hn|].
  by rewrite lookup_insert_ne.
Qed.

Lemma links_lookup w w' p m :
  links w w' -> wo_heap w !! p = Some m ->
  exists m', wo_heap w' !! p = Some m' /\ sm_next m' = sm_next m.
Proof.
  intros [_ Hl] Hp. specialize (Hl p). rewrite Hp in Hl. simpl in Hl.
  by apply fmap_Some in Hl as (m' & Hm' & E); exists m'.
Qed.

Lemma links_chain l w w' :
  links w w' -> chain (wo_heap w) (wo_base w) l -> chain (wo_heap w') (wo_base w') l.
Proof.
  intros Hl. destruct (Hl) as [-> _]. generalize (wo_base w).
  induction l as [|p l IH]; intros s; [done|]. intros (-> & H0 & m & Hm & Hc).
  destruct (links_lookup _ _ _ _ Hl Hm) as (m' & Hm' & Hn). split_and!; [done|done|].
  exists m'. rewrite Hn. split; [done|by apply IH].
Qed.

Lemma links_circular l w w' : links w w' -> circular l w -> circular l w'.
Proof.
  intros [Hb Hl] (R & Hsub & Hbase & Hc). exists R. rewrite Hb. split_and!; [done|done|].
  intros p Hp. destruct (Hc p Hp) as (H0 & m & Hm & Hn). split; [done|].
  destruct (links_lookup w w' p m) as (m' & Hm' & E); [by split|done|].
  exists m'. split; [done|]. by rewrite E.
Qed.

(** [starve] is whether a loop may run out of fuel. *)
Definition keeps_links (starve : Prop) {A} (m : SM A) : Prop :=
  forall w, shoare (anything starve) w m (fun _ w' => links w w').

Create HintDb links discriminated.

Lemma links_ret (b : Prop) {A} (a : A) : keeps_links b (mret a).
Proof. by intros w. Qed.
Lemma links_bind (b : Prop) {A B} (m : SM A) (f : A -> SM B) :
  keeps_links b m -> (forall a, keeps_links b (f a)) -> keeps_links b (m ≫= f).
Proof.
  intros Hm Hf w. apply shoare_bind. eapply shoare_mono; [|apply Hm]. intros a w1 H1.
  eapply shoare_mono; [|apply Hf]. intros ? w2 H2. by trans w1.
Qed.
Lemma links_get (b : Prop) : keeps_links b sget.
Proof. by intros w. Qed.
Lemma links_fds (b : Prop) f : keeps_links b (smodify (set_fds f)).
Proof. by intros w. Qed.
Lemma links_ask (b : Prop) {X : Set} (e : env X) : keeps_links b (sask e).
Proof. intros w. apply shoare_ask; [by apply Forall_true|done]. Qed.
Lemma links_lift (b : Prop) {A} (o : option A) : keeps_links b (slift o).
Proof. by destruct o. Qed.
Lemma links_result (b : Prop) {A} (o : outcome A) : o <> Starved -> keeps_links b (sresult o).
Proof. by destruct o. Qed.
Lemma links_load (b : Prop) p : keeps_links b (load p).
Proof. apply links_bind; [apply links_get|]. intros w. apply links_lift. Qed.
Lemma links_update (b : Prop) p f : (forall m, sm_next (f m) = sm_next m) -> keeps_links b (update p f).
Proof.
  intros Hf w. apply shoare_bind, shoare_bind, shoare_get. destruct (wo_heap w !! p) as [m|] eqn:E.
  - cbn. by eapply links_insert.
  - done.
Qed.
Lemma links_sprog {A} (p : prog A) : keeps_links True (sprog p).
Proof.
  intros w. apply wp_bind. eapply wp_mono; [|apply wp_anything]. by intros a _.
Qed.
#[export] Hint Resolve links_ret links_get links_fds links_ask links_lift links_load
  links_sprog : links.

(** Take a program apart into its steps. *)
Ltac solve_links :=
  repeat first
    [ solve [auto with links nocore]
    | apply links_update; intros ?; reflexivity
    | apply links_bind; [|intros ?]
    | progress case_match ].

Lemma links_on_server s {A} (p : M A) : keeps_links True (on_server s p).
Proof. unfold on_server. solve_links. Qed.
Lemma links_disconnect (b : Prop) s : keeps_links b (loop_disconnect s).
Proof. unfold loop_disconnect. solve_links. Qed.
Lemma links_shandle (b : Prop) {A} (handler : list Z -> Z -> option A) a use :
  (forall x, keeps_links b (use x)) -> keeps_links b (shandle handler a use).
Proof. intros Hu. unfold shandle. solve_links. Qed.
#[export] Hint Resolve links_on_server links_disconnect : links.

Section kept.
Context (G : gcrypt) (r : registry) (iconv : option (list Z -> list Z)) (malloc : gset Z -> Z).
Context (fuel : nat) (forkid_of : Z -> Z) (unmount : M unit).

Lemma links_getstatus (b : Prop) s : keeps_links b (dsi_getstatus iconv s).
Proof using Type. unfold dsi_getstatus. solve_links. apply links_shandle. intros x. solve_links. Qed.
Lemma links_opensession (b : Prop) s : keeps_links b (dsi_opensession s).
Proof using Type. unfold dsi_opensession. solve_links. apply links_shandle. intros x. solve_links. Qed.
Lemma links_getsrvrparms (b : Prop) s : keeps_links b (FPGetSrvrParms s).
Proof using Type. unfold FPGetSrvrParms. solve_links. apply links_shandle. intros x. solve_links. Qed.
Lemma links_getsrvrmsg (b : Prop) t u wait mesg : keeps_links b (FPGetSrvrMsg t u wait mesg).
Proof using Type. unfold FPGetSrvrMsg. solve_links. Qed.
Lemma links_login s max m : keeps_links True (server_login G r s max m).
Proof using Type. unfold server_login. solve_links. Qed.
Lemma links_try (b : Prop) s address errno : keeps_links b (try_addresses s address errno).
Proof using Type.
  revert errno. induction address as [|a rest IH]; intros errno; cbn [try_addresses]; solve_links; apply IH.
Qed.
(** A server that is removed is not there any more, or was not on the list. *)
Lemma removed_or_kept s w :
  shoare (anything True) w (afp_server_remove fuel s)
    (fun _ w' => links w w' \/ wo_heap w' !! s = None).
Proof using Type.
  unfold afp_server_remove. destruct (Z.eqb_spec s 0) as [|Hs]; [by apply shoare_ret; left|].
  assert (forall w, shoare (anything True) w (afp_free_server s;; mret 0)
    (fun _ w' => wo_heap w' !! s = None)) as Hfree.
  { intros w1. unfold afp_free_server. rewrite (proj2 (Z.eqb_neq s 0)) by done.
    apply shoare_bind, shoare_bind. eapply wp_mono; [|apply wp_anything]. intros [a w2] _.
    apply shoare_modify, shoare_ret. cbn [wo_heap set_heap]. apply lookup_delete_eq. }
  apply shoare_bind. eapply shoare_mono; [|by apply links_update]. intros [] w1 Hl.
  apply shoare_bind. eapply shoare_mono; [|apply (links_bind True); [apply links_get|intros ?; apply links_ret]].
  intros base w2 Hl2. case_match.
  - apply shoare_bind. eapply wp_mono; [|apply wp_anything]. intros [m w3] _.
    apply shoare_bind, shoare_modify. eapply shoare_mono; [|apply Hfree]. by right.
  - apply shoare_bind. unfold find_server. eapply shoare_mono.
    2: { apply (links_bind True); [apply links_get|]. intros w'.
         destruct (find_loop _ _ _ _); intros w3; [by apply shoare_ret|exact Logic.I|exact Logic.I]. }
    intros s2 w3 Hl3. case_match; [apply shoare_ret; left; trans w1; [done|by trans w2]|].
    apply shoare_bind. eapply wp_mono; [|apply wp_anything]. intros [m w4] _.
    apply shoare_bind. eapply wp_mono; [|apply wp_anything]. intros [[] w5] _.
    eapply shoare_mono; [|apply Hfree]. by right.
Qed.

Lemma links_removal s {A} (k : server_mem -> SM A) (last : bool) :
  (forall m, keeps_links True (k m)) ->
  keeps_links True ((if last then afp_server_remove fuel s;; mret tt else mret tt);; m ← load s; k m).
Proof using Type.
  intros Hk. assert (keeps_links True (m ← load s; k m)) as Hload by solve_links.
  destruct last; [|by apply links_bind; [apply links_ret|]].
  intros w. apply shoare_bind, shoare_bind. eapply shoare_mono; [|apply removed_or_kept].
  intros rc w1 [Hl|Hnone]; apply shoare_ret.
  - eapply shoare_mono; [|apply Hload]. intros a w2 Hl2. by trans w1.
  - do 2 apply shoare_bind. apply shoare_get. rewrite Hnone. exact Logic.I.
Qed.

Lemma links_remount n i s max m : keeps_links True (remount fuel forkid_of unmount n i s max m).
Proof using Type.
  revert i m. induction n as [|n IH]; intros i m; cbn [remount];
    repeat first [solve [auto with links nocore] | apply IH | apply links_removal; intros ?
                 | apply links_update; intros ?; reflexivity | apply links_bind; [|intros ?]
                 | progress case_match ].
Qed.

End kept.
#[export] Hint Resolve links_getstatus links_opensession links_getsrvrparms links_getsrvrmsg
  links_login links_try links_remount : links.

(** Contracts under which such a program needs no further thought. *)
Record permissive (starve : Prop) (C : contract) : Prop := {
  pm_guarantee r : guarantee C r;
  pm_crash : may_crash C;
  pm_starve : starve -> may_starve C }.

Lemma shoare_links (starve : Prop) C w {A} (m : SM A) (Q : A -> world -> Prop) :
  permissive starve C -> keeps_links starve m -> (forall a w', links w w' -> Q a w') ->
  shoare C w m Q.
Proof.
  intros [Hg Hcr Hst] Hm HQ. eapply wp_weaken with (C := anything starve); try done.
  eapply wp_mono; [|apply (Hm w)]. intros [a w']. apply HQ.
Qed.

Lemma guarantees_any (C : contract) {X : Set} (e : env X) :
  (forall r, guarantee C r) -> guarantees C e.
Proof. intros H. unfold guarantees. by apply Forall_true. Qed.

(** ** Reconnecting *)

(** Calls that fail set [errno]. *)
Definition sockets : contract :=
  {| guarantee := fun _ => True;
     rely := fun X e =>
       match e in env X return X -> Prop with
       | OpenSocket _ _ _ => fun x => x.1 < 0 -> 0 < x.2
       | ConnectSocket _ _ => fun x => x.1 <> 0 -> 0 < x.2
       | CloseSocket _ => fun x => x.1 < 0 -> 0 < x.2
       | _ => fun _ => True
       end;
     may_crash := True; may_starve := True |}.

Lemma permissive_sockets starve : permissive starve sockets.
Proof. done. Qed.

Section reconnect.
Context (G : gcrypt) (r : registry) (fuel : nat) (forkid_of : Z -> Z) (unmount : M unit).

(** A loop that leaves no socket leaves an error. *)
Lemma try_error w s address errno :
  address <> [] \/ 0 < errno ->
  shoare sockets w (try_addresses s address errno)
    (fun x w' => links w w' /\ forall m, wo_heap w' !! s = Some m -> sm_fd m < 0 -> 0 < x.2).
Proof using Type.
  revert w errno. induction address as [|a rest IH]; intros w errno Hne; cbn [try_addresses].
  { apply shoare_ret. split; [done|]. intros _ _ _. by destruct Hne. }
  apply shoare_bind, shoare_ask; [by apply guarantees_any|]. intros [fd e] He.
  apply shoare_bind. apply shoare_bind. unfold load. apply shoare_bind, shoare_get.
  destruct (wo_heap w !! s) as [m|] eqn:Hm; [|exact I]. apply shoare_ret, shoare_modify.
  assert (links w (set_heap <[s := set_sm_fd fd m]> w)) as Hl1 by by eapply links_insert.
  set (w1 := set_heap _ w) in *. destruct (Z.leb_spec 0 fd) as [Hfd|Hfd].
  - apply shoare_bind, shoare_ask; [by apply guarantees_any|]. intros [rc e'] Hc.
    destruct (Z.eqb_spec rc 0) as [->|Hrc].
    { apply shoare_ret. split; [done|]. unfold w1. cbn [wo_heap set_heap].
      rewrite lookup_insert_eq. intros m' [= <-]. cbn. lia. }
    apply shoare_bind, shoare_ask; [by apply guarantees_any|]. intros [rc2 e2] Hc2.
    apply shoare_bind; apply (shoare_links True); [done|by apply links_update|]. intros _ w2 Hl2.
    eapply shoare_mono; [|apply IH].
    + intros x w3 [Hl3 Hx]. split; [by trans w1; [|trans w2]|done].
    + right. specialize (Hc Hrc). destruct (Z.ltb_spec rc2 0); [by apply Hc2|done].
  - eapply shoare_mono; [|apply IH; right; by apply He].
    intros x w3 [Hl3 Hx]. split; [by trans w1|done].
Qed.

Lemma connect_again iconv w l s m :
  chain (wo_heap w) (wo_base w) l -> s ∈ l -> wo_heap w !! s = Some m -> sm_address m <> [] ->
  shoare sockets w (afp_server_connect iconv s false) (fun rc w' => rc = 0 -> circular l w').
Proof using Type.
  intros Hc Hs Hm Ha. unfold afp_server_connect.
  apply shoare_bind. eapply shoare_load; [done|]. apply shoare_bind.
  eapply shoare_mono; [|apply try_error; by left]. intros [used errno] w1 [Hl1 He]. cbn [fst snd] in He.
  destruct (links_lookup _ _ _ _ Hl1 Hm) as (m1 & Hm1 & _).
  apply shoare_bind. eapply shoare_load; [done|]. destruct (Z.ltb_spec (sm_fd m1) 0) as [Hfd|Hfd].
  { apply shoare_ret. specialize (He m1 Hm1 Hfd). lia. }
  apply shoare_bind; apply (shoare_links True); [done|by apply links_update|]. intros _ w2 Hl2.
  assert (chain (wo_heap w2) (wo_base w2) l) as Hc2.
  { eapply links_chain; [|exact Hc]. by trans w1. }
  apply shoare_bind. eapply add_again; [exact Hc2|done|]. intros w3 H3.
  apply shoare_bind, shoare_modify, shoare_ret. done.
Qed.

Lemma reconnect_circular iconv w l s m max msg :
  chain (wo_heap w) (wo_base w) l -> s ∈ l -> wo_heap w !! s = Some m -> sm_address m <> [] ->
  shoare sockets w (afp_server_reconnect G r iconv fuel forkid_of unmount s max msg)
    (fun x w' => x.1 = 0 -> circular l w').
Proof using Type.
  intros Hc Hs Hm Ha. unfold afp_server_reconnect. apply shoare_bind.
  eapply shoare_mono; [|by eapply connect_again]. intros failed w1 H1.
  destruct (Z.eqb_spec failed 0) as [->|Hf]; cbn [negb].
  - specialize (H1 eq_refl). apply (shoare_links True); [done|solve_links|].
    intros x w2 Hl _. by eapply links_circular.
  - eapply shoare_mono with (Q := fun x _ => x.1 = 1); [by intros x ? ->|].
    apply shoare_bind; apply (shoare_links True); [done|apply links_load|]. intros sm w2 _.
    do 2 (apply shoare_bind; apply (shoare_links True); [done|apply links_lift|]; intros ? ? _).
    by apply shoare_ret.
Qed.

(** Reconnecting puts the server on the list a second time.  When a call to
    [afp_server_reconnect] for a server that is on the list succeeds, the list has become
    a circle: whatever the environment did, and however long one waits, a search for a
    server that is not on the list does not end, and neither does the search for a
    property that no server of the list has. *)
Theorem reconnect_makes_circle iconv w l s m max msg :
  chain (wo_heap w) (wo_base w) l -> s ∈ l -> wo_heap w !! s = Some m -> sm_address m <> [] ->
  shoare sockets w (afp_server_reconnect G r iconv fuel forkid_of unmount s max msg)
    (fun x w' => x.1 = 0 ->
       (forall n q, q ∉ l -> server_still_valid n q w' = NoFuel) /\
       (forall n test, (forall p, p ∈ l -> holds_at (wo_heap w') test p = false) ->
          find_server n test w' = NoFuel)).
Proof using Type.
  intros Hc Hs Hm Ha. eapply shoare_mono; [|by eapply reconnect_circular].
  intros x w' Hx H0. specialize (Hx H0). split; intros n.
  - intros q. by apply circular_valid.
  - intros test. by apply circular_find.
Qed.

End reconnect.

(** ** The type of an AirPort *)

(** A Time Capsule calls itself "AirPort".  [afp_server_identify] knows it, but the type is
    decided again for the connection that stays, by another spelling. *)
Example airport_type_lost :
  let s := mk_status [] [] [] (str "AirPort" ++ [0]) [] 0 0 [] in
  Status.afp_server_identify s = AFPFS_SERVER_TYPE_AIRPORT /\
  server_type s = AFPFS_SERVER_TYPE_UNKNOWN.
Proof. by vm_compute. Qed.

(** ** An example: one server, whose connection was lost *)

(** A machine that can be reached at one address. *)
Definition reachable (f : request -> answer) : handler unit :=
  fun X e w =>
    match e in env X return X * unit with
    | Getaddrinfo _ _ => (Some [mk_addrinfo 2 1 6 100 0 []], tt)
    | OpenSocket _ _ _ => ((5, 0), tt)
    | e => serving (fun q w => (f q, w)) _ e w
    end.

Lemma reachable_keeps f : keeps sockets (reachable f) (fun _ => True).
Proof. intros X e w _ _. split; [destruct e; cbn; try done; lia|done]. Qed.

Definition lost_server : server_mem :=
  set_sm_using_version (Some (str "AFP3.1"))
    (set_sm_using_uam UAM_NOUSERAUTHENT (new_server [mk_addrinfo 2 1 6 100 0 []] 501 20)).

Definition lost_world : world := mk_world {[1 := lost_server]} 1 no_descriptors.

Definition reconnected : outcome (Z * message * world) :=
  (run (reachable (fun _ => mk_answer 0 None []))
     (afp_server_reconnect toy_gcrypt init_uams None 1 (fun _ => 0) (mret tt) 1 80
        (mk_message (replicate 80 0) 0) lost_world) tt).1.2.

(** Another server is looked for for ever. *)
Lemma reconnect_makes_circle_witness :
  exists m w', reconnected = Done ((0, m), w') /\
    forall fuel, server_still_valid fuel 2 w' = NoFuel.
Proof.
  assert (chain {[1 := lost_server]} 1 [1]) as Hc.
  { split_and!; [done|done|]. exists lost_server. split; [apply lookup_singleton_eq|done]. }
  pose proof (reconnect_makes_circle toy_gcrypt init_uams 1 (fun _ => 0) (mret tt) None lost_world [1] 1
    lost_server 80 (mk_message (replicate 80 0) 0) Hc ltac:(by left) (lookup_singleton_eq _ _)
    ltac:(done)) as Hok.
  assert (match reconnected with Done ((rc, _), _) => rc | _ => 1 end = 0) as Hrc by by vm_compute.
  destruct (wp_run sockets _ _ _ _ tt (reachable_keeps (fun _ => mk_answer 0 None [])) I Hok)
    as (_ & Hr & _).
  unfold reconnected in *. destruct (run _ _ tt).1.2 as [[[rc m] w']| |]; [|done|done].
  subst rc. exists m, w'. split; [done|]. intros fuel. apply Hr; [done|].
  by intros ?%list_elem_of_singleton.
Defined.

End Connect.
