(* ===== verification/Handshake.v ===== *)
(** * The two connections to a server, end to end

    What afp_server_full_connect of [Connect] comes to: against a server that accepts the
    login, and against one that refuses it. *)

From stdpp Require Import gmap.
From S2P Require Import Prelude Constants Types Utils Dsi ProtoFiles ProtoVolume Client.
From S2P Require Import Unicode Codepage Calls Did UamsDef Status Auth Session Daemon Url Servers.
From S2P Require Import Connect.

Module Handshake.
Import Utils Unicode Codepage Dsi ProtoFiles ProtoVolume Client Calls Did UamsDef Status Auth.
Import Session Daemon Servers Connect.

(** ** A login that is refused *)

(** A machine that accepts connections, and says no to every login. *)
Definition refusing_logins : contract :=
  {| guarantee := fun _ => True;
     rely := fun X e =>
       match e in env X return X -> Prop with
       | Getaddrinfo _ _ => fun x => exists a rest, x = Some (a :: rest)
       | OpenSocket _ _ _ => fun x => 0 <= x.1
       | ConnectSocket _ _ => fun x => x.1 = 0
       | Exchange q => fun a =>
         (rq_sub q = afpLogin -> an_rc a = kFPUserNotAuth) /\
         (rq_dsi q = DSI_DSIGetStatus -> an_rc a = 0)
       | _ => fun _ => True
       end;
     may_crash := True; may_starve := False |}.

Lemma permissive_refusing : permissive False refusing_logins.
Proof. done. Qed.

Lemma hoare_any C c {A} (o : option A) (Q : A -> client -> Prop) :
  may_crash C -> (forall a, o = Some a -> Q a c) -> hoare C c (lift o) Q.
Proof. intros Hc HQ. by apply hoare_lift. Qed.

Lemma refused_FPLogin c av_name ua_name ai rx :
  hoare refusing_logins c (FPLogin av_name ua_name ai rx) (fun x _ => x.1 = kFPUserNotAuth).
Proof.
  unfold FPLogin. apply hoare_bind, hoare_ask; [constructor|]. intros j _.
  apply hoare_bind, hoare_any; [done|]. intros q Hq.
  assert (rq_sub q = afpLogin) as Hsub.
  { unfold afp_login in Hq. apply bind_Some in Hq as (msg & _ & Hq).
    apply bind_Some in Hq as ([tail1 len1] & _ & Hq). apply bind_Some in Hq as ([tail2 len2] & _ & Hq).
    by apply bind_Some in Hq as (msg' & _ & [= <-]). }
  apply hoare_bind, hoare_ask; [by apply guarantees_any|]. intros a [Ha _]. specialize (Ha Hsub).
  apply hoare_bind. unfold handle. destruct (an_packet a) as [[packet behind]|].
  - apply hoare_bind, hoare_any; [done|]. intros x _. by do 2 apply hoare_ret.
  - by do 2 apply hoare_ret.
Qed.

(** The steps in front of the first reply. *)
Ltac refuse :=
  repeat (apply hoare_bind; first
    [ eapply hoare_mono; [|apply refused_FPLogin]; intros [rc ?] ? E; cbn [fst] in E; subst rc
    | apply hoare_any; [exact I|]; intros ? _
    | apply hoare_ask; [by apply guarantees_any|]; intros ? _ ]).

Lemma refused_login G av_name c method username passwd :
  hoare refusing_logins c (do_server_login G av_name method username passwd)
    (fun rc _ => rc = kFPUserNotAuth).
Proof.
  destruct method; cbn [do_server_login].
  - unfold noauth_login, result_of. refuse. exact eq_refl.
  - unfold cleartxt_login, result_of. refuse. exact eq_refl.
  - unfold randnum_login. refuse. exact eq_refl.
  - unfold randnum2_login. refuse. exact eq_refl.
  - unfold dhx_login. refuse. exact eq_refl.
  - unfold dhx2_login. refuse. exact eq_refl.
Qed.

Lemma shoare_on_server C w s m {A} (p : M A) (Q : A -> world -> Prop) :
  wo_heap w !! s = Some m ->
  hoare C (session_client m) p
    (fun a c => Q a (set_heap <[s := set_sm_core (cl_server c) m]> w)) ->
  shoare C w (on_server s p) Q.
Proof.
  intros Hs Hp. unfold on_server. apply shoare_bind. eapply shoare_load; [done|].
  apply shoare_bind. unfold sprog. apply wp_bind. eapply wp_mono; [|exact Hp].
  intros [a c] HQ. change (shoare C w (update s (set_sm_core (cl_server c));; mret a) Q).
  apply shoare_bind. eapply shoare_update; [done|]. by apply shoare_ret.
Qed.

Section refused.
Context (G : gcrypt) (r : registry) (iconv : option (list Z -> list Z)) (malloc : gset Z -> Z).
Context (fuel : nat).

Lemma refused_afp_login c av_name ss max m :
  hoare refusing_logins c (afp_server_login G av_name r ss max m) (fun x _ => x.1.1 = 1).
Proof using Type.
  unfold afp_server_login. apply hoare_bind.
  eapply hoare_mono with (Q := fun rc _ => (login_result rc).2 = false).
  - intros rc c' Hrc. apply hoare_bind, hoare_any; [done|]. intros m' _. rewrite Hrc. done.
  - unfold afp_dologin. destruct (find_uam_by_bitmap _ _) as [u|]; [|done].
    eapply hoare_mono; [|apply refused_login]. by intros rc c' ->.
Qed.

Lemma refused_server_login w s max m :
  shoare refusing_logins w (server_login G r s max m) (fun x w' => x.1 = 1 /\ links w w').
Proof using Type.
  unfold server_login. apply shoare_bind, shoare_bind, shoare_get.
  destruct (wo_heap w !! s) as [sm|] eqn:Hs; [|exact I]. apply shoare_ret.
  apply shoare_bind. destruct (sm_using_version sm) as [av_name|]; [|exact I]. apply shoare_ret.
  apply shoare_bind. eapply shoare_on_server; [done|].
  eapply hoare_mono; [|apply refused_afp_login]. intros [[rc ss] m'] c Hrc. cbn [fst] in Hrc. subst rc.
  apply shoare_bind. eapply shoare_update; [apply lookup_insert_eq|]. apply shoare_ret.
  split; [done|]. trans (set_heap <[s := set_sm_core (cl_server c) sm]> w).
  - by eapply links_insert.
  - eapply links_insert; [apply lookup_insert_eq|done].
Qed.

(** The server is gone when the session has failed. *)
Lemma abandoned w l s :
  chain (wo_heap w) (wo_base w) l -> s ∈ l -> (length l <= fuel)%nat ->
  shoare refusing_logins w (abandon fuel s) (fun x w' => x = 0 /\ wo_heap w' !! s = None).
Proof using Type.
  intros Hc Hs Hf. destruct (chain_lookup _ _ _ _ Hc Hs) as (_ & m & Hm).
  unfold abandon. apply shoare_bind. eapply remove_ok; [done|done|done|done|].
  intros w' _ [Hw' _] _. by apply shoare_ret.
Qed.

(** Steps of which only the links matter. *)
Ltac skip Hc :=
  apply shoare_bind; apply (shoare_links False);
  [exact permissive_refusing|solve_links|];
  intros ?x ?w ?Hl; match goal with Hl : links _ _ |- _ => apply (links_chain _ _ _ Hl) in Hc; clear Hl end.

Lemma refused_session w l s versions uams username password requested uam_mask :
  chain (wo_heap w) (wo_base w) l -> s ∈ l -> (length l <= fuel)%nat ->
  shoare refusing_logins w
    (afp_server_complete_connection G r fuel s versions uams username password requested uam_mask)
    (fun x w' => x = 0 /\ wo_heap w' !! s = None).
Proof using Type.
  intros Hc Hs Hf. unfold afp_server_complete_connection. do 6 skip Hc.
  destruct x3 as [[av_name av_number]|]; [|by eapply abandoned].
  skip Hc. destruct (_ =? -1); [by eapply abandoned|]. do 2 skip Hc.
  apply shoare_bind. eapply shoare_mono; [|apply refused_server_login].
  intros [failed m'] w9 [Hrc Hl]. cbn [fst] in Hrc. subst failed. cbn [Z.eqb negb].
  apply (links_chain _ _ _ Hl) in Hc. by eapply abandoned.
Qed.

Lemma give_up_freed w s : s <> 0 -> wo_heap w !! s = None ->
  shoare refusing_logins w (give_up_server fuel s) (fun _ _ => False).
Proof using Type.
  intros Hs0 Hs. unfold give_up_server. rewrite (proj2 (Z.eqb_neq s 0)) by done.
  apply shoare_bind, shoare_bind, shoare_bind, shoare_get. by rewrite Hs.
Qed.

Lemma status_answered w s :
  shoare refusing_logins w (dsi_getstatus iconv s) (fun x w' => x = 0 /\ links w w').
Proof using Type.
  unfold dsi_getstatus. apply shoare_bind, shoare_ask; [by apply guarantees_any|]. intros junk _.
  apply shoare_bind, shoare_ask; [by apply guarantees_any|]. intros a [_ Ha].
  apply shoare_bind; apply (shoare_links False); [exact permissive_refusing|apply links_load|].
  intros m w1 Hl1.
  apply shoare_bind; apply (shoare_links False);
    [exact permissive_refusing|apply links_shandle; intros x; solve_links|].
  intros [] w2 Hl2. apply shoare_ret. split; [by apply Ha|by trans w1].
Qed.

(** A connection that is made puts the server on the list. *)
Lemma connects w l s m full :
  chain (wo_heap w) (wo_base w) l -> s ∉ l -> s <> 0 -> wo_heap w !! s = Some m ->
  sm_address m <> [] ->
  shoare refusing_logins w (afp_server_connect iconv s full)
    (fun rc w' => rc = 0 /\ chain (wo_heap w') (wo_base w') (s :: l)).
Proof using Type.
  intros Hc Hs Hs0 Hm Ha. unfold afp_server_connect.
  apply shoare_bind. eapply shoare_load; [done|].
  destruct (sm_address m) as [|a rest] eqn:E; [done|]. cbn [try_addresses].
  apply shoare_bind, shoare_bind, shoare_ask; [by apply guarantees_any|]. intros [fd e] Hfd.
  apply shoare_bind. eapply shoare_update; [done|]. cbn [fst] in Hfd.
  rewrite (proj2 (Z.leb_le 0 fd)) by done.
  apply shoare_bind, shoare_ask; [by apply guarantees_any|]. intros [rc e'] Hrc.
  change (rc = 0) in Hrc. subst rc. apply shoare_ret.
  apply shoare_bind. eapply shoare_load; [apply lookup_insert_eq|].
  cbn [sm_fd set_sm_fd]. rewrite (proj2 (Z.ltb_ge fd 0)) by done.
  apply shoare_bind. eapply shoare_update; [apply lookup_insert_eq|].
  apply shoare_bind. eapply add_ok with (l := l); [|done|done|apply lookup_insert_eq|].
  { cbn [wo_heap wo_base set_heap]. rewrite insert_insert_eq. by apply chain_insert. }
  cbv zeta. intros Hc1.
  match type of Hc1 with chain (wo_heap ?w1) _ _ => generalize dependent w1 end.
  clear w Hc Hm. intros w Hc. skip Hc. destruct full; [|by apply shoare_ret]. cbn [negb].
  skip Hc. apply shoare_bind. eapply shoare_mono; [|apply status_answered].
  intros error w2 [-> Hl]. apply (links_chain _ _ _ Hl) in Hc. cbn [Z.eqb negb].
  do 2 skip Hc. by apply shoare_ret.
Qed.

Lemma load_stays w s m (Q : server_mem -> world -> Prop) :
  wo_heap w !! s = Some m -> Q m w -> shoare refusing_logins w (load s) Q.
Proof using Type. intros Hs HQ. by eapply shoare_load. Qed.

Lemma known_server w l s :
  chain (wo_heap w) (wo_base w) l -> s ∈ l ->
  shoare refusing_logins w (have_server s) (fun x _ => x = s).
Proof using Type.
  intros Hc Hs. destruct (chain_lookup _ _ _ _ Hc Hs) as (_ & m & Hm).
  unfold have_server. apply shoare_bind. eapply shoare_update; [done|]. by apply shoare_ret.
Qed.

Lemma find_listed w l test (Q : Z -> world -> Prop) :
  chain (wo_heap w) (wo_base w) l -> (length l <= fuel)%nat ->
  (forall s, s = 0 \/ s ∈ l -> Q s w) -> shoare refusing_logins w (find_server fuel test) Q.
Proof using Type.
  intros Hc Hf HQ. apply shoare_bind, shoare_get.
  eapply shoare_result; [by apply chain_find|]. apply HQ.
  destruct (List.find _ _) as [s|] eqn:E; [right|by left].
  by apply find_some in E as [?%list_elem_of_In _].
Qed.

(** A new server is not on the list. *)
Lemma new_server_ok `{!Malloc malloc} w l address (Q : Z -> world -> Prop) :
  chain (wo_heap w) (wo_base w) l ->
  (forall s m w', chain (wo_heap w') (wo_base w') l -> s ∉ l -> s <> 0 ->
     wo_heap w' !! s = Some m -> sm_address m = address -> Q s w') ->
  shoare refusing_logins w (afp_server_init malloc address) Q.
Proof using Type.
  intros Hc HQ. pose proof (malloc_fresh (malloc := malloc) (dom (wo_heap w))) as Hn.
  assert (malloc (dom (wo_heap w)) ∉ l) as Hl.
  { intros Hl. apply Hn. apply elem_of_dom. by destruct (chain_lookup _ _ _ _ Hc Hl). }
  unfold afp_server_init. apply shoare_bind, shoare_get.
  apply shoare_bind, shoare_ask; [by apply guarantees_any|]. intros euid _.
  apply shoare_bind, shoare_ask; [by apply guarantees_any|]. intros [[uid gid]|] _; [|exact I].
  apply shoare_bind, shoare_ret. cbn [slift].
  apply shoare_bind, shoare_modify, shoare_ret. eapply HQ.
  - cbn [wo_heap wo_base set_heap]. by apply chain_insert.
  - done.
  - apply malloc_not_null.
  - apply lookup_insert_eq.
  - done.
Qed.


Lemma refused_connect `{!Malloc malloc} w l address tmp rx_quantum req :
  chain (wo_heap w) (wo_base w) l -> (S (length l) <= fuel)%nat -> address <> [] ->
  shoare refusing_logins w (connect_session G r iconv malloc fuel address tmp rx_quantum req)
    (fun _ _ => False).
Proof using Type.
  intros Hc Hf Ha. unfold connect_session. apply shoare_bind. eapply new_server_ok; [done|].
  clear w Hc. intros s m w Hc Hs Hs0 Hm Hma. apply shoare_bind.
  eapply shoare_mono; [|eapply connects; [done|done|done|done|by rewrite Hma]].
  clear w Hc Hm. intros rc w [-> Hc]. cbn [Z.eqb negb]. apply shoare_bind.
  eapply shoare_mono; [|eapply refused_session; [done|by left|done]].
  intros x w' [-> Hfree]. cbn [Z.eqb]. by apply give_up_freed.
Qed.

(** C22: a login that is refused ends the program.  On a machine that can be reached, that
    answers to DSIGetStatus and that refuses the login, [afp_server_full_connect] returns
    only if it finds the server on the list it has; otherwise it never comes back, in
    particular not with NULL: [afp_server_complete_connection] has freed the server, and
    the error path reads it again. *)
Theorem refused_login_crashes `{!Malloc malloc} w l req :
  chain (wo_heap w) (wo_base w) l -> (length l < fuel)%nat ->
  shoare refusing_logins w (afp_server_full_connect G r iconv malloc fuel req)
    (fun s _ => s ∈ l).
Proof using Type.
  intros Hc Hf. unfold afp_server_full_connect.
  apply shoare_bind, shoare_ask; [by apply guarantees_any|]. intros ? (a & rest & ->).
  apply shoare_bind. eapply find_listed; [done|lia|]. intros s Hs.
  destruct (Z.eqb_spec s 0) as [->|Hs0]; cbn [negb].
  2: { destruct Hs as [?|Hs]; [done|]. eapply shoare_mono; [|by eapply known_server].
       by intros x w' ->. }
  clear Hs. apply shoare_bind. eapply new_server_ok; [done|].
  clear w Hc. intros s m w Hc Hs Hs0 Hm Hma. apply shoare_bind.
  eapply shoare_mono; [|eapply connects; [done|done|done|done|by rewrite Hma]].
  clear w Hc m Hm Hma. intros rc w [-> Hc]. cbn [Z.ltb Z.compare].
  apply shoare_bind; apply (shoare_links False); [exact permissive_refusing|apply links_disconnect|].
  intros [] w1 Hl. apply (links_chain _ _ _ Hl) in Hc. clear w Hl. rename w1 into w.
  destruct (chain_lookup _ _ _ s Hc) as (_ & m & Hm); [by left|].
  apply shoare_bind. eapply shoare_load; [done|].
  apply shoare_bind. eapply remove_ok; [done|by left|done|done|].
  intros w1 Hc1 _ _. rewrite filter_cons_False, filter_absent in Hc1 by naive_solver.
  apply shoare_bind. eapply find_listed; [done|lia|]. intros s1 Hs1.
  destruct (Z.eqb_spec s1 0) as [->|Hs10].
  - eapply shoare_mono; [|by eapply refused_connect]. done.
  - destruct Hs1 as [?|Hs1]; [done|]. eapply shoare_mono; [|by eapply known_server].
    by intros x w' ->.
Qed.

End refused.

(** ** The volumes of a server *)

(** The flags of a volume and the characters of its name. *)
Definition volume_fact : Type := Z * list Z.

Definition encode_srvrparms (time : Z) (volumes : list volume_fact) : list Z :=
  be_bytes 4 time ++ Z.of_nat (length volumes)
  :: concat ((fun v => v.1 :: pascal (wire_utf8 v.2)) <$> volumes).

Definition volume_fact_ok (v : volume_fact) : Prop :=
  byte_ok v.1 /\ ucs2 v.2 /\ precomposed v.2 /\ (length (utf8 v.2) < 33)%nat /\
  (length (wire_utf8 v.2) < 33)%nat.

(** What the client stores of it: the name as it came, and for printing composed from AFP
    3.0 on. *)
Definition listed_volume (av_number : Z) (v : volume_fact) : afp_volume :=
  set_vo_volume_name_printable
    (in_array 33 (if av_number <? 30 then wire_utf8 v.2 else utf8 v.2))
    (set_vo_volume_name (in_array 33 (wire_utf8 v.2)) (set_vo_flags v.1 zero_volume)).

Lemma length_in_array n s : length (in_array n s) = n.
Proof. apply length_resize. Qed.

Lemma in_array_split n s :
  (length s < n)%nat -> in_array n s = s ++ 0 :: replicate (n - S (length s)) 0.
Proof.
  intros Hs. unfold in_array. rewrite resize_ge by lia.
  by replace (n - length s)%nat with (S (n - S (length s))) by lia.
Qed.

Lemma printable_listed fl u :
  volume_fact_ok (fl, u) ->
  printable_volume_name
    (set_vo_volume_name (in_array 33 (wire_utf8 u)) (set_vo_flags fl zero_volume)) =
  Some (in_array 33 (utf8 u)).
Proof.
  intros (_ & Hu & Hp & Hl & Hw). cbn [snd] in *. unfold printable_volume_name.
  cbn [vo_volume_name set_vo_volume_name]. rewrite (in_array_split 33 (wire_utf8 u)) by done.
  rewrite <- app_assoc. cbn [app]. pose proof (length_utf8 u Hu). unfold wire_utf8.
  rewrite dec_to_pre_utf8; [|done|done|lia|done].
  rewrite (in_array_split 33 (utf8 u)) by done.
  change (vo_volume_name_printable _) with (replicate 33 0). by rewrite drop_replicate.
Qed.

Lemma srvrparms_loop_ok core volumes pre rest :
  Forall volume_fact_ok volumes ->
  srvrparms_loop (length volumes) core
    (pre ++ concat ((fun v => v.1 :: pascal (wire_utf8 v.2)) <$> volumes) ++ rest) (length pre) =
  Some (listed_volume (sv_av_number core) <$> volumes).
Proof.
  intros Hv. revert pre. induction Hv as [|[fl u] volumes Hv _ IH]; intros pre; [done|].
  cbn [length srvrparms_loop fmap list_fmap concat fst snd].
  pose proof Hv as (Hfl & Hu & Hp & Hl & Hw). cbn [fst snd] in *.
  cbn [app]. rewrite (ld8_at pre) by done. cbn [mbind option_bind].
  rewrite Nat.add_1_r, drop_app_ge by lia. replace (S (length pre) - length pre)%nat with 1%nat by lia.
  cbn [drop]. rewrite <- app_assoc.
  change 33 with (Z.of_nat 33). rewrite (copy_from_pascal_in _ _ (wire_utf8 u));
    [|by eexists|rewrite length_replicate; lia|lia].
  cbn [mbind option_bind]. rewrite drop_ge, app_nil_r by (rewrite length_replicate; lia).
  rewrite (printable_listed fl u) by done.
  assert (slice 0 33 (in_array 33 (wire_utf8 u)) = Some (in_array 33 (wire_utf8 u))) as ->.
  { rewrite slice_in_range by by rewrite length_in_array.
    by rewrite drop_0, take_ge by by rewrite length_in_array. }
  cbn [mbind option_bind].
  rewrite (blit_0 (in_array 33 (wire_utf8 u))) by by rewrite length_in_array.
  rewrite drop_ge, app_nil_r by by rewrite length_in_array.
  specialize (IH (pre ++ fl :: pascal (wire_utf8 u))). rewrite <- app_assoc in IH. cbn [app] in IH.
  rewrite length_app in IH. cbn [length pascal] in IH.
  replace (S (length pre) + Z.to_nat (Z.of_nat (length (wire_utf8 u)) + 1))%nat
    with (length pre + S (S (length (wire_utf8 u))))%nat by lia.
  unfold listed_volume at 1. cbn [fst snd].
  destruct (sv_av_number core <? 30); cbn [mbind option_bind]; by rewrite IH.
Qed.

Lemma srvrparms_parsed core hdr behind time volumes :
  length hdr = 16%nat -> 0 <= time < 2 ^ 32 -> (length volumes < 256)%nat ->
  Forall volume_fact_ok volumes ->
  let packet := hdr ++ encode_srvrparms time volumes in
  afp_getsrvrparms_reply core (packet ++ behind) (Z.of_nat (length packet)) =
  Some (0, Some (u32 (time + AD_DATE_DELTA), listed_volume (sv_av_number core) <$> volumes)).
Proof.
  intros Hh Ht Hn Hv packet. unfold packet, encode_srvrparms, afp_getsrvrparms_reply.
  rewrite (proj2 (Z.ltb_ge _ _)) by (rewrite !length_app, length_be_bytes; cbn [length]; lia).
  rewrite <- !app_assoc. cbn [app].
  set (tail := _ ++ behind).
  pose proof (ntohl_ld32 hdr time (Z.of_nat (length volumes) :: tail) 16) as Ht'.
  destruct (ld32 16 _) as [x|]; [|by discriminate Ht'].
  cbn [fmap option_fmap option_map] in Ht'. injection Ht' as Hx; [|done|lia].
  cbn [mbind option_bind]. unfold AD_DATE_TO_UNIX. rewrite Hx.
  pose proof (ld8_at (hdr ++ be_bytes 4 time) (Z.of_nat (length volumes)) tail _ eq_refl) as Hl.
  pose proof (srvrparms_loop_ok core volumes ((hdr ++ be_bytes 4 time) ++ [Z.of_nat (length volumes)])
    behind Hv) as Hloop.
  rewrite <- !app_assoc in Hl, Hloop. cbn [app] in Hloop.
  fold tail in Hloop. rewrite <- app_assoc in Hloop.
  replace (length ((hdr ++ _) ++ _)) with 21%nat in Hloop
    by (rewrite !length_app, length_be_bytes, Hh; done).
  replace (length (hdr ++ _)) with 20%nat in Hl by (rewrite length_app, length_be_bytes, Hh; done).
  rewrite Hl. cbn [mbind option_bind]. rewrite Nat2Z.id. by rewrite Hloop.
Qed.

(** ** One server in focus

    The world with the server [m] at the address [s] in front of everything else. *)

Definition at_server (heap : gmap Z server_mem) (base : Z) (fds : descriptors) (s : Z)
    (m : server_mem) : world := mk_world (<[s := m]> heap) base fds.

Section focus.
Context (C : contract) (heap : gmap Z server_mem) (base : Z) (fds : descriptors) (s : Z).
Context (m : server_mem).

Lemma at_load (Q : server_mem -> world -> Prop) :
  Q m (at_server heap base fds s m) -> shoare C (at_server heap base fds s m) (load s) Q.
Proof using Type. intros HQ. eapply shoare_load; [apply lookup_insert_eq|done]. Qed.

Lemma at_update f (Q : unit -> world -> Prop) :
  Q tt (at_server heap base fds s (f m)) -> shoare C (at_server heap base fds s m) (update s f) Q.
Proof using Type.
  intros HQ. eapply shoare_update; [apply lookup_insert_eq|].
  unfold at_server, set_heap. cbn [wo_heap wo_base wo_fds]. by rewrite insert_insert_eq.
Qed.

Lemma at_on_server {A} (p : M A) (Q : A -> world -> Prop) :
  hoare C (session_client m) p
    (fun a c => Q a (at_server heap base fds s (set_sm_core (cl_server c) m))) ->
  shoare C (at_server heap base fds s m) (on_server s p) Q.
Proof using Type.
  intros Hp. eapply shoare_on_server; [apply lookup_insert_eq|].
  eapply hoare_mono; [|exact Hp]. intros a c HQ.
  unfold at_server, set_heap in *. cbn [wo_heap wo_base wo_fds]. by rewrite insert_insert_eq.
Qed.

(** The server put in front of the list. *)
Lemma at_add (Q : unit -> world -> Prop) :
  Q tt (at_server heap s fds s (set_sm_next base m)) ->
  shoare C (at_server heap base fds s m) (add_server s) Q.
Proof using Type.
  intros HQ. unfold add_server. apply shoare_bind, shoare_bind, shoare_get, shoare_ret.
  apply shoare_bind, at_update. by apply shoare_modify.
Qed.

Lemma at_disconnect (Q : unit -> world -> Prop) :
  sm_connect_state m = SERVER_STATE_CONNECTED ->
  Q tt (at_server heap base (rm_fd (sm_fd m) fds) s
          (set_sm_need_resume 1 (set_sm_connect_state SERVER_STATE_DISCONNECTED m))) ->
  (forall x, guarantees C (CloseSocket x)) ->
  shoare C (at_server heap base fds s m) (loop_disconnect s) Q.
Proof using Type.
  intros Hst HQ Hg. unfold loop_disconnect. apply shoare_bind.
  eapply shoare_load; [apply lookup_insert_eq|]. rewrite Hst. cbn [Z.eqb negb].
  apply shoare_bind, shoare_modify, shoare_bind, shoare_ask; [apply Hg|]. intros x _.
  eapply shoare_update; [apply lookup_insert_eq|].
  unfold at_server, set_heap, set_fds in *. cbn [wo_heap wo_base wo_fds]. by rewrite insert_insert_eq.
Qed.

(** The server at the front of the list removed. *)
Lemma at_remove fuel (Q : Z -> world -> Prop) :
  heap !! s = None -> s <> 0 -> base = s ->
  (forall fds', Q 0 (mk_world heap (sm_next m) fds')) ->
  shoare C (at_server heap base fds s m) (afp_server_remove fuel s) Q.
Proof using Type.
  intros Hs Hs0 Hb HQ. unfold afp_server_remove. rewrite (proj2 (Z.eqb_neq s 0)) by done.
  apply shoare_bind, at_update. apply shoare_bind, shoare_bind, shoare_get, shoare_ret.
  cbn [wo_base at_server]. rewrite Hb, Z.eqb_refl. apply shoare_bind.
  eapply shoare_load; [apply lookup_insert_eq|]. apply shoare_bind, shoare_modify, shoare_bind.
  eapply free_ok; [done|apply lookup_insert_eq|]. apply shoare_ret.
  cbn [wo_heap wo_base wo_fds at_server set_base]. rewrite delete_insert_id by done. apply HQ.
Qed.

End focus.

(** ** A login that succeeds *)

(** A machine that accepts connections, tells the status [data] about itself, has the
    volumes [volumes] and no message, and answers the other requests as [login] says.  No
    server of the list [l] has an address that it resolves to. *)
Definition welcoming (heap : gmap Z server_mem) (l : list Z) (data : list Z) (time : Z)
    (volumes : list volume_fact) (login : request -> answer -> Prop) : contract :=
  {| guarantee := fun q => rq_sub q <> afpGetSessionToken;
     rely := fun X e =>
       match e in env X return X -> Prop with
       | Memory n => fun x => length x = Z.to_nat n
       | Getaddrinfo _ _ => fun x => exists a rest, x = Some (a :: rest) /\
           Forall (fun p => holds_at heap (same_address (Some a)) p = false) l
       | OpenSocket _ _ _ => fun x => 0 <= x.1
       | ConnectSocket _ _ => fun x => x.1 = 0
       | Getpwuid _ => fun x => is_Some x
       | Exchange q => fun a =>
         if rq_dsi q =? DSI_DSIGetStatus then
           an_rc a = 0 /\
           exists hdr behind, length hdr = 16%nat /\ an_packet a = Some (hdr ++ data, behind)
         else if rq_dsi q =? DSI_DSIOpenSession then
           exists packet behind, an_packet a = Some (packet, behind) /\ (22 <= length packet)%nat
         else if rq_sub q =? afpGetSrvrParms then
           exists hdr behind, length hdr = 16%nat /\
             an_packet a = Some (hdr ++ encode_srvrparms time volumes, behind)
         else if rq_sub q =? afpGetSrvrMsg then
           forall packet behind, an_packet a = Some (packet, behind) -> length packet = 16%nat
         else login q a
       | _ => fun _ => True
       end;
     may_crash := False; may_starve := False |}.

Section welcome.
Context (G : gcrypt) (r : registry) (conv : list Z -> list Z) (malloc : gset Z -> Z).
Context `{!Malloc malloc} (fuel : nat).
Context (heap : gmap Z server_mem) (base : Z) (l : list Z).
Context (i : server_facts) (data : list Z) (time : Z) (volumes : list volume_fact).
Context (login : request -> answer -> Prop).

Abbreviation C := (welcoming heap l data time volumes login).

Context (Hlist : chain heap base l) (Hfuel : (length l < fuel)%nat).
Context (Hdata : status_data i data) (Hlen : (18 <= length data)%nat) (Hi : facts_ok i).
Context (Hconv : (length (conv (sf_name i)) <= 255)%nat).
Context (Htime : 0 <= time < 2 ^ 32) (Hn : (length volumes < 256)%nat).
Context (Hv : Forall volume_fact_ok volumes).

Lemma welcome_init w address (Q : Z -> world -> Prop) :
  (forall s m, s <> 0 -> wo_heap w !! s = None -> sm_next m = 0 -> sm_address m = address ->
     sm_status m = zero_status -> sm_connect_state m = SERVER_STATE_DISCONNECTED ->
     sm_need_resume m = 0 ->
     Q s (at_server (wo_heap w) (wo_base w) (wo_fds w) s m)) ->
  shoare C w (afp_server_init malloc address) Q.
Proof using All.
  intros HQ. unfold afp_server_init. apply shoare_bind, shoare_get.
  apply shoare_bind, shoare_ask; [constructor|]. intros euid _.
  apply shoare_bind, shoare_ask; [constructor|]. intros x [[uid gid] ->].
  apply shoare_bind, shoare_ret. apply shoare_bind, shoare_modify, shoare_ret.
  apply HQ; [by apply malloc_not_null| |done..].
  apply not_elem_of_dom. apply malloc_fresh.
Qed.

(** The socket is connected and the server in front of the list. *)
Lemma welcome_connect heap' base' fds s m a rest full (Q : Z -> world -> Prop) :
  sm_address m = a :: rest ->
  (forall fd, 0 <= fd ->
     shoare C (at_server heap' s (add_fd fd fds) s
                 (set_sm_next base' (connected_mem (Some a) (set_sm_fd fd m))))
       (match full return SM Z with true => identify_server (Some conv) s | false => mret 0 end)
       Q) ->
  shoare C (at_server heap' base' fds s m) (afp_server_connect (Some conv) s full) Q.
Proof using All.
  intros Ha HQ. unfold afp_server_connect. apply shoare_bind, at_load. rewrite Ha.
  cbn [try_addresses].
  apply shoare_bind, shoare_bind, shoare_ask; [constructor|]. intros [fd e] Hfd.
  change (0 <= fd) in Hfd. apply shoare_bind, at_update. rewrite (proj2 (Z.leb_le 0 fd)) by done.
  apply shoare_bind, shoare_ask; [constructor|]. intros [rc e'] Hrc. change (rc = 0) in Hrc.
  subst rc. apply shoare_ret, shoare_bind, at_load. cbn [sm_fd set_sm_fd].
  rewrite (proj2 (Z.ltb_ge fd 0)) by done. apply shoare_bind, at_update.
  apply shoare_bind, at_add. apply shoare_bind, shoare_modify.
  specialize (HQ fd Hfd). by destruct full.
Qed.

Lemma welcome_identify heap' base' fds s m (Q : Z -> world -> Prop) :
  status_ok (sm_status m) ->
  (forall core delay,
     sv_rx_quantum core = 131072 ->
     Q 0 (at_server heap' base' fds s
            (set_sm_core core (set_sm_tx_delay delay
               (set_sm_status (identified conv i (sm_status m)) m))))) ->
  shoare C (at_server heap' base' fds s m) (identify_server (Some conv) s) Q.
Proof using All.
  intros Hst HQ. unfold identify_server.
  apply shoare_bind, shoare_ask; [constructor|]. intros t1 _.
  apply shoare_bind. unfold dsi_getstatus.
  apply shoare_bind, shoare_ask; [constructor|]. intros junk Hj.
  apply shoare_bind, shoare_ask; [by repeat constructor|].
  intros a (Hrc & hdr & behind & Hh & Ha).
  apply shoare_bind, at_load. apply shoare_bind. unfold shandle. rewrite Ha.
  apply shoare_bind. rewrite <- app_assoc. eapply shoare_lift; [by apply status_parsed|].
  apply at_update, shoare_ret. rewrite Hrc. cbn [Z.eqb negb].
  apply shoare_bind, shoare_ask; [constructor|]. intros t2 _.
  apply shoare_bind, at_update, shoare_ret. by apply HQ.
Qed.

Lemma welcome_opensession heap' base' fds s m (Q : Z -> world -> Prop) :
  (forall q, Q 0 (at_server heap' base' fds s (set_sm_core (set_sv_tx_quantum q (sm_core m)) m))) ->
  shoare C (at_server heap' base' fds s m) (dsi_opensession s) Q.
Proof using All.
  intros HQ. unfold dsi_opensession. apply shoare_bind, at_load.
  apply shoare_bind, shoare_ask; [by repeat constructor|]. intros a (packet & behind & Ha & Hl).
  apply shoare_bind. unfold shandle. rewrite Ha. apply shoare_bind.
  destruct (ld32 18 (packet ++ behind)) as [q|] eqn:E.
  - eapply shoare_lift; [done|]. apply at_update, shoare_ret, HQ.
  - unfold ld32 in E. rewrite slice_in_range in E by (rewrite length_app; lia). done.
Qed.

Lemma welcome_getsrvrparms heap' base' fds s m (Q : Z -> world -> Prop) :
  Q 0 (at_server heap' base' fds s
         (set_sm_volumes
            (closed_volume <$> (listed_volume (sv_av_number (sm_core m)) <$> volumes))
            (set_sm_core (set_sv_connect_time (u32 (time + AD_DATE_DELTA)) (sm_core m)) m))) ->
  shoare C (at_server heap' base' fds s m) (FPGetSrvrParms s) Q.
Proof using All.
  intros HQ. unfold FPGetSrvrParms.
  apply shoare_bind, shoare_ask; [by repeat constructor|]. intros a (hdr & behind & Hh & Ha).
  apply shoare_bind, at_load. apply shoare_bind. unfold shandle. rewrite Ha.
  apply shoare_bind. eapply shoare_lift; [by apply srvrparms_parsed|]. cbn [snd].
  by apply at_update, shoare_ret.
Qed.

Lemma welcome_message w t u block mesg (Q : Z * list Z -> world -> Prop) :
  (forall rc, Q (rc, mesg) w) -> shoare C w (FPGetSrvrMsg t u block mesg) Q.
Proof using All.
  intros HQ. unfold FPGetSrvrMsg. apply shoare_bind, shoare_ask; [by repeat constructor|].
  intros a Ha. change (forall packet behind, an_packet a = Some (packet, behind) ->
                         length packet = 16%nat) in Ha.
  destruct (an_packet a) as [[packet behind]|]; [|by apply shoare_ret].
  apply shoare_bind. eapply shoare_lift with (a := (-1, mesg)); [|by apply shoare_ret].
  unfold afp_getsrvrmsg_reply. by rewrite (Ha packet behind eq_refl).
Qed.

Lemma welcome_absent w test (Q : Z -> world -> Prop) :
  wo_heap w = heap -> wo_base w = base -> Forall (fun p => holds_at heap test p = false) l ->
  Q 0 w -> shoare C w (find_server fuel test) Q.
Proof using All.
  intros Hh Hb Hno HQ. unfold find_server. apply shoare_bind, shoare_get. rewrite Hh, Hb.
  eapply shoare_result; [apply chain_find; [done|lia]|].
  destruct (List.find _ l) as [p|] eqn:E; [|done].
  apply find_some in E as [Hin%list_elem_of_In Hp].
  by rewrite (proj1 (Forall_forall _ _) Hno p Hin) in Hp.
Qed.

Context (av_name : list Z) (av uam requested : Z) (username password : list Z).

(** The method logs the user in. *)
Context (Hlogin : forall c, hoare C c (afp_dologin G av_name r uam username password)
  (fun rc c' => rc = 0 /\ cl_server c' = cl_server c)).

Lemma welcome_login heap' base' fds s m max msg (Q : Z * message -> world -> Prop) :
  sm_using_version m = Some av_name -> sm_using_uam m = uam -> sm_username m = username ->
  sm_password m = password -> ss_flags (sm_status m) = 0 ->
  Q (0, msg) (at_server heap' base' fds s m) ->
  shoare C (at_server heap' base' fds s m) (server_login G r s max msg) Q.
Proof using All.
  intros H1 H2 H3 H4 H5 HQ. unfold server_login. apply shoare_bind, at_load. rewrite H1.
  apply shoare_bind, shoare_ret, shoare_bind, at_on_server. unfold afp_server_login, session_of.
  cbn [ss_using_uam ss_username ss_password ss_server_flags]. rewrite H2, H3, H4, H5.
  apply hoare_bind. eapply hoare_mono; [|apply Hlogin]. intros rc c [-> Hc].
  apply hoare_bind, hoare_ret. change (has 0 kSupportsReconnect) with false. cbv iota.
  apply hoare_ret. rewrite Hc. apply shoare_bind, at_update, shoare_ret.
  cbn [ss_token ss_need_resume session_client cl_server]. destruct m; exact HQ.
Qed.

(** What a session leaves of the server [m] it was given, and what it adds. *)
Record session_of_user (m m' : server_mem) : Prop := {
  su_next : sm_next m' = sm_next m;
  su_status : sm_status m' = sm_status m;
  su_fd : sm_fd m' = sm_fd m;
  su_state : sm_connect_state m' = sm_connect_state m;
  su_version : sm_using_version m' = Some av_name;
  su_av_number : sv_av_number (sm_core m') = av;
  su_uam : sm_using_uam m' = uam;
  su_username : sm_username m' = username;
  su_volumes : sm_volumes m' = closed_volume <$> (listed_volume av <$> volumes) }.

Lemma welcome_session heap' base' fds s m versions uams uam_mask (Q : Z -> world -> Prop) :
  pick_version versions (u8 requested) = Some (Some (av_name, av)) ->
  pick_uam uams uam_mask = uam -> uam <> -1 -> ss_flags (sm_status m) = 0 ->
  (forall m', session_of_user m m' -> Q s (at_server heap' base' (add_fd (sm_fd m) fds) s m')) ->
  shoare C (at_server heap' base' fds s m)
    (afp_server_complete_connection G r fuel s versions uams username password requested uam_mask)
    Q.
Proof using All.
  intros Hpv Hpu Huam Hfl HQ. unfold afp_server_complete_connection.
  apply shoare_bind, at_update, shoare_bind, at_load, shoare_bind, shoare_modify.
  match goal with |- shoare _ (set_fds ?f (at_server ?h ?b ?g ?p ?x)) _ _ =>
    change (set_fds f (at_server h b g p x)) with (at_server h b (f g) p x) end.
  apply shoare_bind, welcome_opensession. intros q.
  apply shoare_bind. rewrite Hpv. apply shoare_ret, shoare_bind, at_update, shoare_bind, at_update.
  rewrite Hpu, (proj2 (Z.eqb_neq uam (-1))) by done. apply shoare_bind, at_update.
  apply shoare_bind, shoare_ask; [constructor|]. intros mesg _.
  apply shoare_bind, welcome_login; [done..|]. cbn [fst Z.eqb negb].
  apply shoare_bind, welcome_getsrvrparms. cbn [Z.eqb negb].
  apply shoare_bind, at_load, shoare_bind. destruct (_ =? AD_DATE_TO_UNIX 0).
  - apply shoare_bind, shoare_ask; [constructor|]. intros now _. apply at_update.
    apply shoare_bind, welcome_message. intros rc. apply shoare_bind, at_update, shoare_ret.
    apply HQ. by constructor.
  - apply shoare_ret, shoare_bind, welcome_message. intros rc.
    apply shoare_bind, at_update, shoare_ret. apply HQ. by constructor.
Qed.

Abbreviation identity := (identified conv i zero_status).

(** The server that stays: the session, what it told about itself but for the flags, and
    its volumes, all closed. *)
Record established (m : server_mem) : Prop := {
  es_state : sm_connect_state m = SERVER_STATE_CONNECTED;
  es_signature : ss_signature (sm_status m) = sf_signature i;
  es_name : ss_server_name (sm_status m) = in_array 33 (sf_name i);
  es_names : ss_server_name_utf8 (sm_status m) = ss_server_name_utf8 identity /\
             ss_server_name_printable (sm_status m) = ss_server_name_printable identity;
  es_block : ss_block (sm_status m) = ss_block identity;
  es_methods : ss_supported_uams (sm_status m) = uam_mask (sf_uams i);
  es_flags : ss_flags (sm_status m) = 0;
  es_type : sv_server_type (sm_core m) = server_type identity;
  es_rx_quantum : sv_rx_quantum (sm_core m) = 128 * 1024;
  es_av_number : sv_av_number (sm_core m) = av;
  es_uam : sm_using_uam m = uam;
  es_volumes : sm_volumes m = closed_volume <$> (listed_volume av <$> volumes) }.

Lemma session_connects fds address req (Q : Z -> world -> Prop) :
  let url := cr_url req in
  address <> [] ->
  Url.ur_username url = username -> Url.ur_password url = password ->
  cr_requested_version req = requested ->
  pick_version (resize 10 0 (known_versions (sf_versions i))) (u8 requested) =
    Some (Some (av_name, av)) ->
  pick_uam (uam_mask (sf_uams i)) (anonymous_mask url (uam_mask (sf_uams i)) (cr_uam_mask req)) = uam ->
  uam <> -1 ->
  (forall s fds' m, s <> 0 -> heap !! s = None -> sm_next m = base -> sm_fd m ∈ rds fds' ->
     established m -> Q s (at_server heap s fds' s m)) ->
  shoare C (mk_world heap base fds)
    (connect_session G r (Some conv) malloc fuel address identity (128 * 1024) req) Q.
Proof using All.
  intros url Ha Hu Hp Hr Hpv Hpu Huam HQ. unfold connect_session.
  apply shoare_bind, welcome_init. intros s m Hs0 Hs _ Hma Hst _ _. cbn [wo_heap wo_base wo_fds] in *.
  destruct address as [|a rest]; [done|].
  apply shoare_bind. eapply welcome_connect; [done|]. intros fd Hfd. apply shoare_ret.
  cbn [Z.eqb negb]. fold url. rewrite Hu, Hp, Hr.
  apply shoare_bind, welcome_session; [done|done|done| |].
  { change (ss_flags (sm_status m) = 0). by rewrite Hst. }
  intros m' [S1 S2 S3 S4 S5 S6 S7 S8 S9]. rewrite (proj2 (Z.eqb_neq s 0)) by done.
  apply shoare_bind, at_update. unfold have_server. apply shoare_bind, at_update, shoare_ret.
  change (sm_status (set_sm_next _ _)) with (sm_status m) in S2. rewrite Hst in S2.
  apply HQ; [done|done|exact S1| |].
  - cbn. rewrite S3. set_solver.
  - constructor; cbn [sm_connect_state sm_status sm_core set_sm_core set_sm_status]; try done.
    by rewrite S2.
Qed.

Lemma full_connect_ok fds req (Q : Z -> world -> Prop) :
  let url := cr_url req in
  Url.ur_username url = username -> Url.ur_password url = password ->
  cr_requested_version req = requested ->
  pick_version (resize 10 0 (known_versions (sf_versions i))) (u8 requested) =
    Some (Some (av_name, av)) ->
  pick_uam (uam_mask (sf_uams i)) (anonymous_mask url (uam_mask (sf_uams i)) (cr_uam_mask req)) = uam ->
  uam <> -1 ->
  Forall (fun p => holds_at heap (same_signature (sf_signature i)) p = false) l ->
  (forall s fds' m, s <> 0 -> heap !! s = None -> sm_next m = base -> sm_fd m ∈ rds fds' ->
     established m -> Q s (at_server heap s fds' s m)) ->
  shoare C (mk_world heap base fds) (afp_server_full_connect G r (Some conv) malloc fuel req) Q.
Proof using All.
  intros url Hu Hp Hr Hpv Hpu Huam Hsig HQ. unfold afp_server_full_connect.
  apply shoare_bind, shoare_ask; [constructor|]. intros x (a & rest & -> & Haddr).
  apply shoare_bind. apply welcome_absent; [done|done|done|]. cbn [Z.eqb negb].
  apply shoare_bind, welcome_init. intros s m Hs0 Hs _ Ha Hst Hcs _. cbn [wo_heap wo_base wo_fds] in *.
  apply shoare_bind. eapply welcome_connect; [done|]. intros fd Hfd.
  apply welcome_identify.
  { change (status_ok (sm_status m)). rewrite Hst. by constructor. }
  intros core delay Hrx. cbn [Z.ltb Z.compare].
  apply shoare_bind, at_disconnect; [done| |by constructor].
  apply shoare_bind, at_load. apply shoare_bind, at_remove; [done|done|done|]. intros fds1.
  match goal with |- context [ss_signature ?st] => change (ss_signature st) with (sf_signature i) end.
  apply shoare_bind. apply welcome_absent; [done|done|done|]. cbn [Z.eqb].
  match goal with |- context [connect_session _ _ _ _ _ _ ?st ?rx _] =>
    change st with (identified conv i (sm_status m)); change rx with (sv_rx_quantum core) end.
  rewrite Hst, Hrx. by apply session_connects.
Qed.

(** C4: connecting to a new server.  On a machine that can be reached, that tells its status
    as the protocol prescribes, accepts the login by the method chosen and lists its
    volumes, [afp_server_full_connect] returns one new server, in front of the list; the
    rest of the memory is as it was, so the server of the first connection is gone.  The new
    one is connected and watched, has the negotiated version and method, the signature, the
    names and the volumes of the machine, but not its flags, and no session token was asked
    for. *)
Theorem full_connect_connects w req :
  let url := cr_url req in
  let uams := uam_mask (sf_uams i) in
  wo_heap w = heap -> wo_base w = base ->
  Url.ur_username url = username -> Url.ur_password url = password ->
  cr_requested_version req = requested ->
  pick_version (resize 10 0 (known_versions (sf_versions i))) (u8 requested) =
    Some (Some (av_name, av)) ->
  pick_uam uams (anonymous_mask url uams (cr_uam_mask req)) = uam -> uam <> -1 ->
  Forall (fun p => holds_at heap (same_signature (sf_signature i)) p = false) l ->
  shoare C w (afp_server_full_connect G r (Some conv) malloc fuel req)
    (fun s w' => heap !! s = None /\ chain (wo_heap w') (wo_base w') (s :: l) /\
       exists m, wo_heap w' = <[s := m]> heap /\ established m /\ sm_fd m ∈ rds (wo_fds w')).
Proof using All.
  intros url uams Hh Hb Hu Hp Hr Hpv Hpu Huam Hsig. destruct w as [heap0 base0 fds]. simpl in Hh, Hb.
  subst heap0 base0. apply full_connect_ok; try done.
  intros s fds' m Hs0 Hs Hnext Hfd Hm. split_and!; [done| |by exists m].
  split_and!; [done|done|]. exists m. split; [apply lookup_insert_eq|]. rewrite Hnext.
  apply chain_insert; [done|]. intros Hin.
  destruct (chain_lookup _ _ _ _ Hlist Hin) as (_ & x & Hx). by rewrite Hs in Hx.
Qed.

End welcome.

(** ** An example: a machine without users *)

(** An address above every one that is in use. *)
Definition next_address (X : gset Z) : Z := 1 + foldr Z.max 0 (elements X).

Lemma foldr_max_le (x : Z) xs : x ∈ xs -> x <= foldr Z.max 0 xs.
Proof.
  induction xs as [|y xs IH]; [by intros ?%not_elem_of_nil|]. cbn [foldr].
  intros [->|Hx]%elem_of_cons; [lia|]. specialize (IH Hx). lia.
Qed.

#[export] Instance next_address_malloc : Malloc next_address.
Proof.
  split; intros X; unfold next_address.
  - intros Hin%elem_of_elements. apply foldr_max_le in Hin. lia.
  - assert (0 <= foldr Z.max 0 (elements X)); [|lia].
    induction (elements X) as [|x xs IH]; cbn [foldr]; lia.
Qed.

Definition host_facts : server_facts :=
  mk_facts (str "Netatalk") [str "AFP2.2"; str "AFP3.1"] [str "No User Authent"] None
    kSupportsUTF8SrvrName (str "tc") (replicate 16 7) [0x63; 0xe9].

Definition host_status : list Z :=
  fixed_part host_facts 18 27 42 0 59 0 0 75 ++ pascal (sf_machine host_facts)
  ++ table_of (sf_versions host_facts) ++ table_of (sf_uams host_facts)
  ++ sf_signature host_facts ++ 0 :: pascal (wire_utf8 (sf_utf8 host_facts)).

Definition host_volumes : list volume_fact := [(0, [0x44; 0xe4]); (0x80, str "Backup")].

Definition host_login (rc : Z) (q : request) (a : answer) : Prop := a = mk_answer rc None [].

Definition host_answer (rc : Z) (q : request) : answer :=
  if rq_dsi q =? DSI_DSIGetStatus then mk_answer 0 (Some (replicate 16 0 ++ host_status, [])) []
  else if rq_dsi q =? DSI_DSIOpenSession then mk_answer 0 (Some (replicate 22 0, [])) []
  else if rq_sub q =? afpGetSrvrParms then
    mk_answer 0 (Some (replicate 16 0 ++ encode_srvrparms 1000 host_volumes, [])) []
  else mk_answer (if rq_sub q =? afpGetSrvrMsg then 0 else rc) None [].

Definition host (rc : Z) : handler unit := reachable (host_answer rc).

Definition anonymous_request : afp_connection_request :=
  mk_connection_request (Url.mk_url [] [] [] (str "tc.local") 548 [] []) 0 default_uams_mask.

Definition no_servers : world := mk_world ∅ 0 no_descriptors.

Lemma host_laid_out : status_data host_facts host_status.
Proof.
  refine (layout _ _ 18 27 42 0 59 0 0 75 _ _ _ _ _ _ _ _);
    first [done | by apply (bool_decide_unpack _)].
Defined.

Lemma host_facts_ok : facts_ok host_facts.
Proof. constructor; first [done | by apply (bool_decide_unpack _)]. Defined.

Lemma host_volumes_ok : Forall volume_fact_ok host_volumes.
Proof. repeat constructor; first [done | by apply (bool_decide_unpack _) | vm_compute; lia]. Qed.

Abbreviation welcoming_host :=
  (welcoming ∅ [] host_status 1000 host_volumes (host_login 0)).

Lemma host_keeps : keeps welcoming_host (host 0) (fun _ => True).
Proof.
  intros X e w _ _. split; [|done].
  destruct e as [q|n| | | | | | | | | | | | | | | |]; cbn [rely welcoming host reachable serving fst]; try done.
  - unfold host_answer.
    destruct (_ =? DSI_DSIGetStatus); [split; [done|by exists (replicate 16 0), []]|].
    destruct (_ =? DSI_DSIOpenSession); [by exists (replicate 22 0), []|].
    destruct (_ =? afpGetSrvrParms); [by exists (replicate 16 0), []|].
    by destruct (_ =? afpGetSrvrMsg).
  - apply length_replicate.
  - by exists (mk_addrinfo 2 1 6 100 0 []), [].
Qed.

Lemma anonymous_logs_in av_name c :
  (length av_name < 256)%nat ->
  hoare welcoming_host c (afp_dologin toy_gcrypt av_name init_uams UAM_NOUSERAUTHENT [] [])
    (fun rc c' => rc = 0 /\ cl_server c' = cl_server c).
Proof.
  intros Hav. change (afp_dologin _ _ _ _ _ _) with (noauth_login av_name [] []).
  unfold noauth_login, result_of, FPLogin.
  apply hoare_bind, hoare_bind, hoare_ask; [constructor|]. intros j _.
  apply hoare_bind. rewrite login_wire by (done || (vm_compute; lia)). apply hoare_ret.
  apply hoare_bind, hoare_ask; [by repeat constructor|]. intros a Ha.
  change (a = mk_answer 0 None []) in Ha. subst a. by apply hoare_bind, hoare_ret, hoare_ret.
Qed.

Lemma full_connect_connects_witness :
  exists s w', (run (host 0) (afp_server_full_connect toy_gcrypt init_uams (Some (fun s => s))
      next_address 1 anonymous_request no_servers) tt).1.2 = Done (s, w') /\
    chain (wo_heap w') (wo_base w') [s] /\
    exists m, wo_heap w' = <[s := m]> ∅ /\ sm_connect_state m = SERVER_STATE_CONNECTED /\
      vm_volume <$> sm_volumes m = listed_volume 31 <$> host_volumes.
Proof.
  pose proof (full_connect_connects toy_gcrypt init_uams (fun s => s) next_address 1 ∅ 0 []
    host_facts host_status 1000 host_volumes (host_login 0) eq_refl (Nat.lt_0_1) host_laid_out
    ltac:(vm_compute; lia) host_facts_ok ltac:(vm_compute; lia) ltac:(lia) ltac:(vm_compute; lia)
    host_volumes_ok (str "AFP3.1") 31 UAM_NOUSERAUTHENT 0 [] []
    (fun c => anonymous_logs_in (str "AFP3.1") c ltac:(vm_compute; lia))
    no_servers anonymous_request eq_refl eq_refl eq_refl eq_refl eq_refl eq_refl eq_refl
    ltac:(discriminate) (Forall_nil_2 _)) as Hok.
  destruct (wp_run _ _ _ _ _ tt host_keeps I Hok) as (_ & Hr & _).
  destruct (run _ _ tt).1.2 as [[s w']| |]; [|done|done].
  destruct Hr as (_ & Hc & m & Hm & He & _). exists s, w'. split; [done|]. split; [done|].
  exists m. split; [done|]. split; [apply He|]. by rewrite (es_volumes _ _ _ _ _ _ He).
Defined.

(** The same machine with a login that is refused. *)
Lemma refused_login_crashes_witness :
  shoare refusing_logins no_servers
    (afp_server_full_connect toy_gcrypt init_uams (Some (fun s => s)) next_address 1
       anonymous_request) (fun s _ => s ∈ []) /\
  (run (host kFPUserNotAuth) (afp_server_full_connect toy_gcrypt init_uams (Some (fun s => s))
     next_address 1 anonymous_request no_servers) tt).1.2 = Crashed.
Proof.
  split; [|by vm_compute].
  apply (refused_login_crashes toy_gcrypt init_uams (Some (fun s => s)) next_address 1 no_servers []
    anonymous_request); [done|simpl; lia].
Defined.

End Handshake.
