(* ===== verification/Mount.v ===== *)
(** * The commands of the mount daemon: fuse/commands.c, fuse/daemon.c, lib/loop.c

    What the daemon does with the servers and volumes: mounting, unmounting, suspending,
    resuming, the reading of its sockets, and its end.  The text for the client is left
    out, and the requests are given by their fields; [Daemon] has both. *)

From stdpp Require Import gmap.
From S2P Require Import Prelude Constants Types Utils Dsi ProtoFiles ProtoVolume Client.
From S2P Require Import Codepage Calls Did UamsDef Status Users Auth Create Session Daemon Url Servers.
From S2P Require Import Connect.

Module Mount.
Import Utils Codepage Dsi ProtoFiles ProtoVolume Client Calls Did UamsDef Status Users Auth.
Import Create Session Daemon Servers Connect.


(** [struct afp_server_mount_request]; [requested_version] and [volpassword] are fields of
    its URL. *)
Record mount_request := mk_mount_request {
  mr_url : Url.afp_url; mr_requested_version : Z; mr_volpassword : list Z; mr_uam_mask : Z;
  mr_mountpoint : list Z; mr_volume_options : Z; mr_map : Z; mr_changeuid : Z }.

Definition sizeof_mount_request : Z := 1912.

Definition FUSE_DEVICE : list Z := str "/dev/fuse".

(** The volume of that name, by its index; see [Session.find_volume_by_name]. *)
Definition find_volume (volumes : list afp_volume) (volname : list Z) : option (option nat) :=
  '(converted, _) ← convert_utf8pre_to_utf8dec (volname ++ [0]) (length volname)
                      (replicate (Z.to_nat AFP_VOLUME_NAME_LEN) 0) (Z.to_nat AFP_VOLUME_NAME_LEN);
  name ← cstr converted;
  Some (fst <$> list_find (fun v => holds (vo_volume_name_printable v) name = true) volumes).

Section commands.
Context (G : gcrypt) (r : registry) (iconv : option (list Z -> list Z)) (malloc : gset Z -> Z).
Context (fuel : nat) (forkid_of : Z -> Z) (unmount : M unit) (pw_name : list Z).

(** ** Volumes *)

Definition volume_at (server : Z) (i : nat) : SM volume_mem :=
  m ← load server; slift (sm_volumes m !! i).

Definition update_volume (server : Z) (i : nat) (f : volume_mem -> volume_mem) : SM unit :=
  v ← volume_at server i; update server (set_sm_volume i (f v)).

(** A program on a volume; it gives the new [mounted]. *)
Definition on_volume {A} (server : Z) (i : nat) (p : volume_mem -> server_mem -> M (A * Z)) : SM A :=
  m ← load server;
  v ← volume_at server i;
  '((a, mounted), c) ← sprog (p v m (volume_client m v));
  update server (fun m => set_sm_core (cl_server c) (set_sm_volume i (volume_of v mounted c) m));;
  mret a.

(** [mounted] of the other volumes of the server. *)
Definition others (i : nat) (m : server_mem) : list Z := vm_mounted <$> delete i (sm_volumes m).

(** [afp_unmount_volume]; the server of the last volume goes with it. *)
Definition unmount_volume (server : Z) (i : nat) : SM Z :=
  '(rc, last) ← on_volume server i (fun v m =>
    '(rc, mounted, last) ← afp_unmount_volume forkid_of unmount (others i m) (vm_mounted v);
    mret ((rc, last), mounted));
  if last : bool then afp_server_remove fuel server;; mret (-1) else mret rc.

(** [for (i=0;i<server->num_volumes;i++)]; [n] is more than the number of volumes. *)
Fixpoint unmount_from (n i : nat) (server : Z) : SM Z :=
  match n with
  | O => sresult Starved
  | S n =>
    m ← load server;
    match sm_volumes m !! i with
    | None => mret 0
    | Some v =>
      if vm_mounted v =? AFP_VOLUME_MOUNTED then
        rc ← unmount_volume server i;
        if negb (rc =? 0) then mret 1 else unmount_from n (S i) server
      else unmount_from n (S i) server
    end
  end.

Definition afp_unmount_all_volumes (server : Z) : SM Z := unmount_from 256 0 server.

Definition volopen (server : Z) (i : nat) : SM Z :=
  '(rc, last) ← on_volume server i (fun v m =>
    password ← lift (cstr (vm_volpassword v ++ [0]));
    '(rc, mounted, last, _) ← afp_connect_volume forkid_of unmount (others i m) password
                                (vm_mounted v) 1024 (mk_message (replicate 1024 0) 0);
    mret ((rc, last), mounted));
  if last : bool then afp_server_remove fuel server;; mret rc else mret rc.

(** [volpassword] is an array of nine bytes, the field of the volume has eight. *)
Definition mount_volume (server : Z) (volname volpassword : list Z) : SM (option nat) :=
  m ← load server;
  found ← slift (find_volume (vm_volume <$> sm_volumes m) volname);
  match found with
  | None => mret None
  | Some i =>
    v ← volume_at server i;
    if vm_mounted v =? AFP_VOLUME_MOUNTED then mret None
    else
      let open := rc ← volopen server i; mret (if rc =? 0 then Some i else None) in
      if has (vo_flags (vm_volume v)) HasPassword then
        update_volume server i (set_vm_volpassword (take 8 volpassword));;
        password ← slift (cstr volpassword);
        match password with [] => mret None | _ => open end
      else update_volume server i (set_vm_volpassword (replicate 8 0));; open
  end.

(** ** Commands *)

Definition server_of_name (name : list Z) (k : Z -> SM Z) : SM Z :=
  s ← find_server_by_name fuel name;
  if s =? 0 then mret AFP_SERVER_RESULT_ERROR else k s.

Definition process_suspend (server_name : list Z) : SM Z :=
  server_of_name server_name (fun s =>
    a ← sask (Exchange afp_zzzzz);
    if negb (an_rc a =? 0) then mret AFP_SERVER_RESULT_ERROR
    else
      loop_disconnect s;;
      update s (set_sm_connect_state SERVER_STATE_DISCONNECTED);;
      mret AFP_SERVER_RESULT_OKAY).

(** The size of the message is given as 2040 and so is what is said to be in it. *)
Definition afp_server_reconnect_loud (s : Z) : SM Z :=
  mesg ← sask (Memory 1024);
  '(rc, _) ← afp_server_reconnect G r iconv fuel forkid_of unmount s 2040 (mk_message mesg 2040);
  mret rc.

Definition process_resume (server_name : list Z) : SM Z :=
  server_of_name server_name (fun s =>
    rc ← afp_server_reconnect_loud s;
    mret (if negb (rc =? 0) then AFP_SERVER_RESULT_ERROR else AFP_SERVER_RESULT_OKAY)).

(** The volumes of one server: the first that is mounted there. *)
Fixpoint volume_mounted_on (mountpoint : list Z) (i : nat) (volumes : list volume_mem)
    : option nat :=
  match volumes with
  | [] => None
  | v :: volumes =>
    if holds (vm_mountpoint v) mountpoint then Some i
    else volume_mounted_on mountpoint (S i) volumes
  end.

Definition process_unmount (mountpoint : list Z) : SM Z :=
  s ← find_server fuel (fun m =>
        if volume_mounted_on mountpoint 0 (sm_volumes m) then true else false);
  if s =? 0 then mret AFP_SERVER_RESULT_ERROR
  else
    m ← load s;
    match volume_mounted_on mountpoint 0 (sm_volumes m) with
    | None => mret AFP_SERVER_RESULT_ERROR
    | Some i =>
      v ← volume_at s i;
      if negb (vm_mounted v =? AFP_VOLUME_MOUNTED) then mret AFP_SERVER_RESULT_ERROR
      else unmount_volume s i;; mret AFP_SERVER_RESULT_OKAY
    end.

(** [goto error] *)
Definition mount_failed (s : Z) : SM Z := give_up_server fuel s;; mret AFP_SERVER_RESULT_ERROR.

(** The thread that calls fuse_main runs for five seconds at most before its result is
    looked at: [start_fuse] gives [fuse_result] and [fuse_errno]. *)
Definition process_mount (start_fuse : Z -> nat -> SM (Z * Z)) (incoming_size : Z)
    (req : mount_request) : SM Z :=
  if u64 (incoming_size - 1) <? sizeof_mount_request then mount_failed 0
  else
    access ← sask (Local (LocalAccess (mr_mountpoint req)));
    if negb (lo_ret access =? 0) then mount_failed 0
    else
      stat ← sask (Local (LocalStat FUSE_DEVICE));
      if negb (lo_ret stat =? 0) then mount_failed 0
      else
        access ← sask (Local (LocalAccess FUSE_DEVICE));
        if negb (lo_ret access =? 0) then mount_failed 0
        else
          s ← afp_server_full_connect G r iconv malloc fuel
                (mk_connection_request (mr_url req) (mr_requested_version req) (mr_uam_mask req));
          if s =? 0 then mount_failed 0
          else
            volume ← mount_volume s (Url.ur_volumename (mr_url req)) (mr_volpassword req);
            match volume with
            | None => mount_failed s
            | Some i =>
              update_volume s i (fun v =>
                set_vm_volume
                  (set_vo_mapping (mr_map req)
                     (set_vo_extra_flags
                        (Z.lor (vo_extra_flags (vm_volume v)) (mr_volume_options req))
                        (vm_volume v))) v);;
              on_volume s i (fun v _ => afp_detect_mapping pw_name;; mret (tt, vm_mounted v));;
              update_volume s i (fun v =>
                set_vm_mountpoint (resize 255 0 (take 254 (mr_mountpoint req))) v);;
              '(fuse_result, _) ← start_fuse s i;
              if fuse_result =? 0 then
                v ← volume_at s i;
                if vm_mounted v =? AFP_VOLUME_UNMOUNTED then mount_failed s else mret 0
              else if fuse_result =? ETIMEDOUT then mret 0
              else
                update_volume s i (set_vm_mounted AFP_VOLUME_UNMOUNTED);; mount_failed s
            end.

(** [process_status]: the size of the request is compared with that of a structure of two
    names; the loop writes the text. *)
Definition process_status (incoming_size : Z) : SM Z :=
  if u64 (incoming_size + 1) <? 66 then mret AFP_SERVER_RESULT_ERROR
  else find_server fuel (fun _ => false);; mret AFP_SERVER_RESULT_OKAY.

(** The command of the first byte with its request, and the number of bytes read. *)
Inductive daemon_command :=
| CommandMount (size : Z) (req : mount_request)
| CommandStatus (size : Z)
| CommandUnmount (mountpoint : list Z)
| CommandSuspend (server_name : list Z)
| CommandResume (server_name : list Z)
| CommandPing
| CommandExit
| CommandUnknown.

(** The switch of [process_command_thread]: the result for the response, and whether the
    program is to end. *)
Definition process_command (start_fuse : Z -> nat -> SM (Z * Z)) (c : daemon_command) : SM (Z * bool) :=
  let result (p : SM Z) : SM (Z * bool) := ret ← p; mret (ret, false) in
  match c with
  | CommandMount size req => result (process_mount start_fuse size req)
  | CommandStatus size => result (process_status size)
  | CommandUnmount mountpoint => result (process_unmount mountpoint)
  | CommandSuspend name => result (process_suspend name)
  | CommandResume name => result (process_resume name)
  | CommandPing => mret (AFP_SERVER_RESULT_OKAY, false)
  | CommandExit => mret (AFP_SERVER_RESULT_OKAY, true)
  | CommandUnknown => mret (0, false)
  end.

(** ** The main loop and the end of the daemon *)

(** [process_server_fds]: the server whose socket is ready; [dsi_recv] runs on it with the
    result [recv], and its descriptor is the second component. *)
Definition process_server_fds (ready : Z -> bool) (recv : Z -> SM Z) : SM (Z * Z) :=
  s ← find_server fuel (fun m => ready (sm_fd m));
  if s =? 0 then mret (0, 0)
  else
    m ← load s;
    ret ← recv s;
    if ret =? -1 then loop_disconnect s;; mret (-1, sm_fd m) else mret (1, sm_fd m).

(** The inner loop of [fuse_forced_ending_hook]. *)
Fixpoint end_volumes (n i : nat) (s : Z) : SM unit :=
  match n with
  | O => sresult Starved
  | S n =>
    m ← load s;
    match sm_volumes m !! i with
    | None => mret tt
    | Some _ => unmount_volume s i;; end_volumes n (S i) s
    end
  end.

Fixpoint end_servers (n : nat) (s : Z) : SM unit :=
  if s =? 0 then mret tt
  else
    match n with
    | O => sresult Starved
    | S n =>
      m ← load s;
      (if sm_connect_state m =? SERVER_STATE_CONNECTED then end_volumes 256 0 s else mret tt);;
      m ← load s;
      end_servers n (sm_next m)
    end.

Definition fuse_forced_ending_hook : SM unit := s ← get_server_base; end_servers fuel s.

End commands.

(** ** Finding the volume *)

(** The index is that of the volume [Session.find_volume_by_name] gives. *)
Lemma find_volume_spec volumes volname :
  find_volume_by_name volumes volname =
  (fun found => i ← found; volumes !! i) <$> find_volume volumes volname.
Proof.
  unfold find_volume_by_name, find_volume. destruct (convert_utf8pre_to_utf8dec _ _ _ _) as [[c n]|];
    [|done]. cbn [mbind option_bind]. destruct (cstr c) as [name|]; [|done].
  cbn [mbind option_bind fmap option_fmap option_map]. f_equal.
  induction volumes as [|v volumes IH]; [done|]. cbn [List.find list_find].
  destruct (holds _ _) eqn:E; [by rewrite decide_True|]. rewrite decide_False by congruence.
  rewrite IH. by destruct (list_find _ volumes) as [[j x]|].
Qed.

(** ** Programs on a volume *)

Lemma shoare_on_volume C w s m i v {A} (p : volume_mem -> server_mem -> M (A * Z))
    (Q : A -> world -> Prop) :
  wo_heap w !! s = Some m -> sm_volumes m !! i = Some v ->
  hoare C (volume_client m v) (p v m) (fun x c => Q x.1 (set_heap
    <[s := set_sm_core (cl_server c) (set_sm_volume i (volume_of v x.2 c) m)]> w)) ->
  shoare C w (on_volume s i p) Q.
Proof.
  intros Hs Hi Hp. unfold on_volume. apply shoare_bind. eapply shoare_load; [done|].
  unfold volume_at. apply shoare_bind, shoare_bind. eapply shoare_load; [done|].
  eapply shoare_lift; [done|]. apply shoare_bind. unfold sprog. apply wp_bind.
  eapply wp_mono; [|exact Hp]. intros [[a mounted] c] HQ.
  change (shoare C w (update s (fun m => set_sm_core (cl_server c)
    (set_sm_volume i (volume_of v mounted c) m));; mret a) Q).
  apply shoare_bind. eapply shoare_update; [done|]. by apply shoare_ret.
Qed.

(** ** Resuming *)

Section daemon.
Context (G : gcrypt) (r : registry) (iconv : option (list Z -> list Z)) (malloc : gset Z -> Z).
Context (fuel : nat) (forkid_of : Z -> Z) (unmount : M unit).

(** C24: a server that was resumed stops the daemon.  When the command to resume a server of
    the list succeeds, then as soon as a socket is ready that is not one of a server, such
    as that of a client with the next command, the search of the main loop for its server
    does not end. *)
Theorem resume_stops_daemon w l name ready recv :
  chain (wo_heap w) (wo_base w) l -> (length l <= fuel)%nat ->
  (forall s m, wo_heap w !! s = Some m -> sm_address m <> []) ->
  shoare sockets w (process_resume G r iconv fuel forkid_of unmount name)
    (fun rc w' => rc = AFP_SERVER_RESULT_OKAY ->
       (forall s, s ∈ l -> holds_at (wo_heap w') (fun m => ready (sm_fd m)) s = false) ->
       forall n, process_server_fds n ready recv w' = NoFuel).
Proof using Type.
  intros Hc Hf Ha. unfold process_resume, server_of_name. apply shoare_bind.
  unfold find_server_by_name, find_server. apply shoare_bind, shoare_get.
  eapply shoare_result; [by apply chain_find|].
  destruct (List.find _ l) as [s|] eqn:E; [|by apply shoare_ret].
  apply find_some in E as [Hs%list_elem_of_In _]. cbn [default from_option id].
  destruct (chain_lookup _ _ _ _ Hc Hs) as (Hs0 & m & Hm).
  rewrite (proj2 (Z.eqb_neq s 0)) by done.
  apply shoare_bind. unfold afp_server_reconnect_loud.
  apply shoare_bind, shoare_ask; [by apply guarantees_any|]. intros mesg _. apply shoare_bind.
  eapply shoare_mono; [|eapply reconnect_circular; [done|done|done|by eapply Ha]].
  intros [rc msg] w' Hrc. cbn [fst] in Hrc. do 2 apply shoare_ret.
  destruct (Z.eqb_spec rc 0) as [E0|E0]; cbn [negb]; [|done]. intros _ Hready n.
  unfold process_server_fds. 
  change (prog_bind (find_server n (fun m => ready (sm_fd m)) w') (fun x =>
    (if x.1 =? 0 then mret (0, 0)
     else m ← load x.1; ret ← recv x.1;
          if ret =? -1 then loop_disconnect x.1;; mret (-1, sm_fd m) else mret (1, sm_fd m)) x.2)
    = NoFuel).
  by rewrite (circular_find n l) by auto.
Qed.

(** ** The end of the daemon *)

(** What the front end does to unmount comes to an end. *)
Context (Hunmount : forall c, hoare (anything False) c unmount (fun _ _ => True)).

Abbreviation C := (anything False).

Lemma ends_bind {A B} c (m : M A) (f : A -> M B) (Q : B -> client -> Prop) :
  hoare C c m (fun _ _ => True) -> (forall a c', hoare C c' (f a) Q) -> hoare C c (m ≫= f) Q.
Proof using Type. intros Hm Hf. apply hoare_bind. eapply hoare_mono; [|exact Hm]. auto. Qed.

Lemma ends_ask c {X : Set} (e : env X) : hoare C c (ask e) (fun _ _ => True).
Proof using Type. apply hoare_ask; [by apply guarantees_any|done]. Qed.

Lemma ends_call c {A} (q : request) (f : answer -> A) :
  hoare C c (a ← send q; mret (f a)) (fun _ _ => True).
Proof using Type. apply ends_bind; [apply ends_ask|done]. Qed.

Lemma ends_forks c : hoare C c (remove_fork_list forkid_of) (fun _ _ => True).
Proof using Type.
  unfold remove_fork_list. apply ends_bind; [done|]. intros c0 c'. clear c. revert c'.
  induction (cl_forks c0) as [|p l IH]; intros c; cbn [close_forks]; [done|].
  apply ends_bind; [apply ends_call|]. intros _ c1. apply ends_bind; [apply ends_call|].
  intros _ c2. apply ends_bind; [done|]. intros _ c3. apply ends_bind; [apply ends_ask|]. auto.
Qed.

Lemma last_unmounted c others :
  Session.something_is_mounted others = false ->
  hoare C c (afp_unmount_volume forkid_of unmount others AFP_VOLUME_MOUNTED)
    (fun x _ => x = (-1, AFP_VOLUME_UNMOUNTED, true)).
Proof using Hunmount.
  intros Ho. unfold afp_unmount_volume. cbn [Z.eqb negb].
  apply ends_bind; [apply ends_bind; [done|]; intros ? ?; apply ends_call|]. intros _ c1.
  apply ends_bind; [done|]. intros _ c2. apply ends_bind; [apply ends_forks|]. intros _ c3.
  apply ends_bind; [done|]. intros v c4. apply ends_bind.
  { destruct (negb _); [|done]. apply ends_bind; [apply ends_call|done]. }
  intros _ c5. apply ends_bind; [done|]. intros v' c6. apply ends_bind; [done|]. intros _ c7.
  apply ends_bind; [apply Hunmount|]. intros _ c8. rewrite Ho.
  apply ends_bind; [apply ends_call|]. done.
Qed.

(** A volume that is not mounted is left alone. *)
Lemma unmounted_stays w s m i v (Q : Z -> world -> Prop) :
  wo_heap w !! s = Some m -> sm_volumes m !! i = Some v -> vm_mounted v <> AFP_VOLUME_MOUNTED ->
  (forall m' rc, sm_next m' = sm_next m -> vm_mounted <$> sm_volumes m' = vm_mounted <$> sm_volumes m ->
     Q rc (set_heap <[s := m']> w)) ->
  shoare C w (unmount_volume fuel forkid_of unmount s i) Q.
Proof using Type.
  intros Hs Hi Hm HQ. unfold unmount_volume. apply shoare_bind. eapply shoare_on_volume; [done|done|].
  unfold afp_unmount_volume. rewrite (proj2 (Z.eqb_neq _ _)) by done. cbn [negb].
  apply hoare_bind, hoare_ret, hoare_ret. apply shoare_ret. apply HQ; [done|].
  cbn. rewrite list_fmap_insert. apply list_insert_id. by rewrite list_lookup_fmap, Hi.
Qed.

(** The last volume takes its server along. *)
Lemma last_volume w l s m i v (Q : Z -> world -> Prop) :
  chain (wo_heap w) (wo_base w) l -> s ∈ l -> (length l <= fuel)%nat ->
  wo_heap w !! s = Some m -> sm_volumes m !! i = Some v -> vm_mounted v = AFP_VOLUME_MOUNTED ->
  Session.something_is_mounted (others i m) = false ->
  (forall rc w', wo_heap w' !! s = None -> Q rc w') ->
  shoare C w (unmount_volume fuel forkid_of unmount s i) Q.
Proof using Hunmount.
  intros Hc Hl Hf Hs Hi Hm Ho HQ. unfold unmount_volume. apply shoare_bind.
  eapply shoare_on_volume; [done|done|]. rewrite Hm. apply hoare_bind.
  eapply hoare_mono; [|by apply last_unmounted]. intros x c ->. apply hoare_ret. cbn [fst snd].
  apply shoare_bind. eapply remove_ok; [|exact Hl|apply lookup_insert_eq|done|].
  { cbn. by eapply chain_update. }
  intros w' _ [Hw' _] _. apply shoare_ret. by apply HQ.
Qed.

(** Only the volume [i] is mounted. *)
Definition only_mounted (i : nat) (mounted : list Z) : Prop :=
  mounted !! i = Some AFP_VOLUME_MOUNTED /\
  forall j x, j <> i -> mounted !! j = Some x -> x = AFP_VOLUME_UNMOUNTED.

Lemma only_others i mounted :
  only_mounted i mounted -> Session.something_is_mounted (delete i mounted) = false.
Proof using Type.
  intros [_ Ho]. unfold Session.something_is_mounted.
  apply Bool.not_true_iff_false. rewrite existsb_exists. intros (x & Hin & Hx).
  apply list_elem_of_In, list_elem_of_lookup in Hin as [j Hj].
  assert (x = AFP_VOLUME_UNMOUNTED) as ->; [|done].
  destruct (decide (j < i)%nat).
  - rewrite list_lookup_delete_lt in Hj by done. by apply (Ho j); [lia|].
  - rewrite list_lookup_delete_ge in Hj by lia. by apply (Ho (S j)); [lia|].
Qed.

Lemma end_volumes_crash n j w l s m i :
  chain (wo_heap w) (wo_base w) l -> s ∈ l -> (length l <= fuel)%nat ->
  wo_heap w !! s = Some m -> only_mounted i (vm_mounted <$> sm_volumes m) ->
  (j <= i)%nat -> (length (sm_volumes m) < n + j)%nat ->
  shoare C w (end_volumes fuel forkid_of unmount n j s) (fun _ _ => False).
Proof using Hunmount.
  revert j w m. induction n as [|n IH]; intros j w m Hc Hl Hf Hs Ho Hji Hn.
  - destruct Ho as [Hi _]. apply lookup_lt_Some in Hi. rewrite length_fmap in Hi. lia.
  - cbn [end_volumes]. apply shoare_bind. eapply shoare_load; [done|].
    pose proof (proj1 Ho) as Hi. apply lookup_lt_Some in Hi. rewrite length_fmap in Hi.
    destruct (lookup_lt_is_Some_2 (sm_volumes m) j) as [v Hv]; [lia|]. rewrite Hv.
    apply shoare_bind. destruct (decide (j = i)) as [->|Hne].
    + eapply last_volume; [done|done|done|done|done| | |].
      * destruct Ho as [H _]. rewrite list_lookup_fmap, Hv in H. by injection H.
      * unfold others. rewrite list_fmap_delete. by apply only_others.
      * intros rc w' Hfree. destruct n as [|n]; [lia|]. cbn [end_volumes].
        apply shoare_bind, shoare_bind, shoare_get. by rewrite Hfree.
    + assert (vm_mounted v = AFP_VOLUME_UNMOUNTED) as Hm.
      { apply (proj2 Ho j); [done|]. by rewrite list_lookup_fmap, Hv. }
      eapply unmounted_stays; [done|done|by rewrite Hm|]. intros m' rc Hnext Hms.
      eapply IH; [|done|done|apply lookup_insert_eq|by rewrite Hms|lia|].
      * cbn. by eapply chain_update.
      * apply (f_equal length) in Hms. rewrite !length_fmap in Hms. lia.
Qed.

(** C25: the end of the daemon reads freed memory.  When the first server of the list is
    connected and one of its volumes is mounted, [fuse_forced_ending_hook] never returns:
    unmounting that volume frees the server, and the loop goes on with it. *)
Theorem ending_reads_freed w l s m i :
  chain (wo_heap w) (wo_base w) (s :: l) -> (length l < fuel)%nat ->
  wo_heap w !! s = Some m -> sm_connect_state m = SERVER_STATE_CONNECTED ->
  only_mounted i (vm_mounted <$> sm_volumes m) -> (length (sm_volumes m) < 256)%nat ->
  shoare C w (fuse_forced_ending_hook fuel forkid_of unmount) (fun _ _ => False).
Proof using Hunmount.
  intros Hc Hf Hs Hst Ho Hn. pose proof Hc as (Hb & Hs0 & _).
  unfold fuse_forced_ending_hook. apply shoare_bind, shoare_bind, shoare_get, shoare_ret.
  rewrite Hb. assert (exists k, fuel = S k) as [k Hk] by (destruct fuel; [lia|by eexists]).
  rewrite Hk at 2. cbn [end_servers]. rewrite (proj2 (Z.eqb_neq s 0)) by done.
  apply shoare_bind. eapply shoare_load; [done|]. apply shoare_bind. rewrite Hst. cbn [Z.eqb].
  eapply shoare_mono; [|eapply end_volumes_crash; [exact Hc|by left|simpl; lia|done|done|lia|lia]].
  done.
Qed.

End daemon.

(** ** A volume that is not mounted *)

Definition refused (volumes : list volume_mem) (volname volpassword : list Z) : Prop :=
  exists found, find_volume (vm_volume <$> volumes) volname = Some found /\
  match found with
  | None => True
  | Some i => exists v, volumes !! i = Some v /\
      (vm_mounted v = AFP_VOLUME_MOUNTED \/
       has (vo_flags (vm_volume v)) HasPassword = true /\ cstr volpassword = Some [])
  end.

(** A volume that the server does not have, that is mounted already, or that has a
    password when none was given, is not mounted: the server is not asked for anything,
    nothing is accessed that is not there, and of the state at most the password of that
    volume changes. *)
Theorem mount_refused fuel forkid_of unmount w s m volname volpassword :
  wo_heap w !! s = Some m -> refused (sm_volumes m) volname volpassword ->
  shoare (mk_contract (fun _ => False) (fun _ _ _ => True) False False) w
    (mount_volume fuel forkid_of unmount s volname volpassword)
    (fun x w' => x = None /\ wo_base w' = wo_base w /\ wo_fds w' = wo_fds w /\
       (wo_heap w' = wo_heap w \/
        exists i v password, sm_volumes m !! i = Some v /\
          wo_heap w' = <[s := set_sm_volume i (set_vm_volpassword password v) m]> (wo_heap w))).
Proof.
  intros Hs (found & Hf & Hr). unfold mount_volume. apply shoare_bind. eapply shoare_load; [done|].
  apply shoare_bind. eapply shoare_lift; [done|]. destruct found as [i|].
  2: { apply shoare_ret. split_and!; [done..|by left]. }
  destruct Hr as (v & Hv & Hr). unfold volume_at. apply shoare_bind, shoare_bind.
  eapply shoare_load; [done|]. eapply shoare_lift; [done|].
  destruct (Z.eqb_spec (vm_mounted v) AFP_VOLUME_MOUNTED) as [E|E].
  { apply shoare_ret. split_and!; [done..|by left]. }
  destruct Hr as [?|[Hp He]]; [done|]. rewrite Hp.
  apply shoare_bind. unfold update_volume, volume_at. apply shoare_bind, shoare_bind.
  eapply shoare_load; [done|]. eapply shoare_lift; [done|]. eapply shoare_update; [done|].
  apply shoare_bind. rewrite He. apply shoare_ret, shoare_ret. split_and!; [done..|].
  right. by exists i, v, (take 8 volpassword).
Qed.

(** ** Examples *)

Definition named_server : server_mem :=
  set_sm_status
    (mk_status (in_array 33 (str "tc")) (in_array 255 (str "tc")) (in_array 255 (str "tc"))
       (replicate 273 0) (replicate 16 7) 0 0 (replicate 10 0)) lost_server.

Definition named_world : world := mk_world {[1 := named_server]} 1 no_descriptors.

Lemma named_chain m : chain {[1 := set_sm_next 0 m]} 1 [1].
Proof. split_and!; [done|done|]. eexists. split; [apply lookup_singleton_eq|done]. Qed.

Definition resumed : outcome (Z * world) :=
  (run (reachable (fun _ => mk_answer 0 None []))
     (process_resume toy_gcrypt init_uams None 1 (fun _ => 0) (mret tt) (str "tc") named_world)
     tt).1.2.

(** The server is resumed, and a client on the descriptor 7 is never heard. *)
Lemma resume_stops_daemon_witness :
  exists w', resumed = Done (AFP_SERVER_RESULT_OKAY, w') /\
    forall n, process_server_fds n (fun fd => fd =? 7) (fun _ => mret 0) w' = NoFuel.
Proof.
  assert (forall s m, wo_heap named_world !! s = Some m -> sm_address m <> []) as Ha.
  { intros s m Hm. cbn [wo_heap named_world] in Hm. by apply lookup_singleton_Some in Hm as [_ <-]. }
  pose proof (resume_stops_daemon toy_gcrypt init_uams None 1 (fun _ => 0) (mret tt) named_world [1]
    (str "tc") (fun fd => fd =? 7) (fun _ => mret 0) (named_chain named_server) (Nat.le_refl 1) Ha)
    as Hok.
  assert (match resumed with
          | Done (rc, w') => (rc =? AFP_SERVER_RESULT_OKAY) &&
              negb (holds_at (wo_heap w') (fun m => sm_fd m =? 7) 1)
          | _ => false end = true) as Hrc by by vm_compute.
  destruct (wp_run sockets _ _ _ _ tt (reachable_keeps (fun _ => mk_answer 0 None [])) I Hok)
    as (_ & Hr & _).
  unfold resumed in *. destruct (run _ _ tt).1.2 as [[rc w']| |]; [|done|done].
  apply andb_true_iff in Hrc as [->%Z.eqb_eq Hh%negb_true_iff]. exists w'. split; [done|].
  apply Hr; [done|]. by intros s ->%list_elem_of_singleton.
Defined.

(** The volume "Disk" is mounted. *)
Lemma mount_refused_witness :
  let m := set_sm_volumes [set_vm_mounted AFP_VOLUME_MOUNTED
             (closed_volume (set_vo_volume_name_printable (in_array 33 (str "Disk")) zero_volume))]
             named_server in
  shoare (mk_contract (fun _ => False) (fun _ _ _ => True) False False)
    (mk_world {[1 := m]} 1 no_descriptors)
    (mount_volume 1 (fun _ => 0) (mret tt) 1 (str "Disk") (replicate 9 0)) (fun x _ => x = None) /\
  find_volume (vm_volume <$> sm_volumes m) (str "Disk") = Some (Some 0%nat).
Proof.
  intros m. split; [|by vm_compute].
  eapply shoare_mono; [|apply (mount_refused 1 (fun _ => 0) (mret tt) (mk_world {[1 := m]} 1 no_descriptors)
    1 m (str "Disk") (replicate 9 0))].
  - by intros x w' [-> _].
  - apply lookup_singleton_eq.
  - exists (Some 0%nat). split; [by vm_compute|]. eexists. split; [reflexivity|by left].
Defined.

Definition mounted_server : server_mem :=
  set_sm_volumes [set_vm_mounted AFP_VOLUME_MOUNTED (closed_volume zero_volume)]
    (set_sm_connect_state SERVER_STATE_CONNECTED named_server).
Definition mounted_world : world := mk_world {[1 := mounted_server]} 1 no_descriptors.

Lemma ending_reads_freed_witness :
  shoare (anything False) mounted_world (fuse_forced_ending_hook 1 (fun _ => 0) (mret tt))
    (fun _ _ => False) /\
  (run (reachable (fun _ => mk_answer 0 None []))
     (fuse_forced_ending_hook 1 (fun _ => 0) (mret tt) mounted_world) tt).1.2 = Crashed.
Proof.
  split; [|by vm_compute].
  apply (ending_reads_freed 1 (fun _ => 0) (mret tt) (fun c => hoare_ret _ c tt _ I) mounted_world [] 1 mounted_server 0).
  - apply (named_chain mounted_server).
  - simpl; lia.
  - done.
  - done.
  - split; [done|]. intros [|j] x Hj Hx; [done|by destruct j].
  - simpl; lia.
Defined.

End Mount.
