(* ===== verification/StatusText.v ===== *)
(** * The text of the status: lib/status.c, lib/debug.c, and its way to the client

    [afp_status_header] and [afp_status_server] write to an array of the caller, the names
    of the commands come from lib/debug.c, and process_status of fuse/commands.c hands the
    text to log_for_client of lib/log.c. *)

From stdpp Require Import gmap.
From S2P Require Import Prelude Text Constants Types Utils Dsi ProtoFiles ProtoVolume Client.
From S2P Require Import UamsDef Status Lowlevel Auth Session Daemon Servers Connect Handshake Mount.

Module StatusText.
Import Text Utils Dsi ProtoFiles ProtoVolume Client UamsDef Status Lowlevel Auth Session Daemon.
Import Servers.

Definition newline : list Z := [10].

(** ** Names of commands: lib/debug.c *)

Definition afp_command_names : list (list Z) :=
  [str "Zero"; str "afpByteRangeLock"; str "afpCloseVol"; str "afpCloseDir"; str "afpCloseFork";
   str "afpCopyFile"; str "afpCreateDir"; str "afpCreateFile"; str "afpDelete";
   str "afpEnumerate"; str "afpFlush"; str "afpFlushFork"; str "Unknown"; str "Unknown";
   str "afpGetForkParms"; str "afpGetSrvrInfo"; str "afpGetSrvrParms"; str "afpGetVolParms";
   str "afpLogin"; str "afpLoginCont"; str "afpLogout"; str "afpMapID"; str "afpMapName";
   str "afpMoveAndRename"; str "afpOpenVol"; str "afpOpenDir"; str "afpOpenFork"; str "afpRead";
   str "afpRename"; str "afpSetDirParms"; str "afpSetFileParms"; str "afpSetForkParms";
   str "afpSetVolParms"; str "afpWrite"; str "afpGetFileDirParms"; str "afpSetFileDirParms";
   str "afpChangePassword"; str "afpGetUserInfo"; str "afpGetSrvrMsg"; str "Unknown 39";
   str "Unknown 40"; str "Unknown 41"; str "Unknown 42"; str "Unknown 43"; str "Unknown 44";
   str "Unknown 45"; str "Unknown 46"; str "Unknown 47"; str "afpOpenDT"; str "Unknown 49";
   str "Unknown 50"; str "afpGetIcon"; str "afpGetIconInfo"; str "Unknown 53"; str "Unknown 54";
   str "Unknown 55"; str "afpAddComment"; str "afpRemoveComment"; str "afpGetComment";
   str "afpByteRangeLockExt"; str "afpReadExt"; str "afpWriteExt"; str "afpGetAuthMethods";
   str "afp_LoginExt"; str "afpGetSessionToken"; str "afpDisconnectOldSession";
   str "afpEnumerateExt"; str "afpCatSearchExt"; str "afpEnumerateExt2"; str "afpGetExtAttr";
   str "afpSetExtAttr"; str "afpRemoveExtAttr"; str "afpListExtAttrs";
   str "Some AFP 3.2 undocumented feature"; str "Unknown 76"; str "Unknown 77";
   str "Unknown 78"; str "Unknown 79"; str "Unknown 80"; str "Unknown 81"; str "Unknown 82";
   str "Unknown 83"; str "Unknown 84"; str "Unknown 85"; str "Unknown 86"; str "Unknown 87";
   str "Unknown 88"; str "Unknown 89"; str "Unknown 90"; str "Unknown 91"; str "Unknown 92";
   str "Unknown 93"; str "Unknown 94"; str "Unknown 95"; str "Unknown 96"; str "Unknown 97";
   str "Unknown 98"; str "Unknown 99"; str "Unknown 100"; str "Unknown 101"; str "Unknown 102";
   str "Unknown 103"; str "Unknown 104"; str "Unknown 105"; str "Unknown 106";
   str "Unknown 107"; str "Unknown 108"; str "Unknown 109"; str "Unknown 110";
   str "Unknown 111"; str "Unknown 112"; str "Unknown 113"; str "Unknown 114";
   str "Unknown 115"; str "Unknown 116"; str "Unknown 117"; str "Unknown 118";
   str "Unknown 119"; str "Unknown 120"; str "Unknown 121"; str "afpZzzzz"; str "Unknown 123";
   str "Unknown 124"; str "Unknown 125"; str "Unknown 126"; str "Unknown 127";
   str "Unknown 128"; str "Unknown 129"; str "Unknown 130"; str "Unknown 131";
   str "Unknown 132"; str "Unknown 133"; str "Unknown 134"; str "Unknown 135";
   str "Unknown 136"; str "Unknown 137"; str "Unknown 138"; str "Unknown 139";
   str "Unknown 140"; str "Unknown 141"; str "Unknown 142"; str "Unknown 143";
   str "Unknown 144"; str "Unknown 145"; str "Unknown 146"; str "Unknown 147";
   str "Unknown 148"; str "Unknown 149"; str "Unknown 150"; str "Unknown 151";
   str "Unknown 152"; str "Unknown 153"; str "Unknown 154"; str "Unknown 155";
   str "Unknown 156"; str "Unknown 157"; str "Unknown 158"; str "Unknown 159";
   str "Unknown 160"; str "Unknown 161"; str "Unknown 162"; str "Unknown 163";
   str "Unknown 164"; str "Unknown 165"; str "Unknown 166"; str "Unknown 167";
   str "Unknown 168"; str "Unknown 169"; str "Unknown 170"; str "Unknown 171";
   str "Unknown 172"; str "Unknown 173"; str "Unknown 174"; str "Unknown 175";
   str "Unknown 176"; str "Unknown 177"; str "Unknown 178"; str "Unknown 179";
   str "Unknown 180"; str "Unknown 181"; str "Unknown 182"; str "Unknown 183";
   str "Unknown 184"; str "Unknown 185"; str "Unknown 186"; str "Unknown 187";
   str "Unknown 188"; str "Unknown 189"; str "Unknown 190"; str "Unknown 191"; str "afpAddIcon";
   str "Unknown 193"; str "Unknown 194"; str "Unknown 195"; str "Unknown 196";
   str "Unknown 197"; str "Unknown 198"; str "Unknown 199"; str "Unknown 200";
   str "Unknown 201"; str "Unknown 202"; str "Unknown 203"; str "Unknown 204";
   str "Unknown 205"; str "Unknown 206"; str "Unknown 207"; str "Unknown 208";
   str "Unknown 209"; str "Unknown 210"; str "Unknown 211"; str "Unknown 212";
   str "Unknown 213"; str "Unknown 214"; str "Unknown 215"; str "Unknown 216";
   str "Unknown 217"; str "Unknown 218"; str "Unknown 219"; str "Unknown 220";
   str "Unknown 221"; str "Unknown 222"; str "Unknown 223"; str "Unknown 224";
   str "Unknown 225"; str "Unknown 226"; str "Unknown 227"; str "Unknown 228";
   str "Unknown 229"; str "Unknown 230"; str "Unknown 231"; str "Unknown 232";
   str "Unknown 233"; str "Unknown 234"; str "Unknown 235"; str "Unknown 236";
   str "Unknown 237"; str "Unknown 238"; str "Unknown 239"; str "Unknown 240";
   str "Unknown 241"; str "Unknown 242"; str "Unknown 243"; str "Unknown 244";
   str "Unknown 245"; str "Unknown 246"; str "Unknown 247"; str "Unknown 248";
   str "Unknown 249"; str "Unknown 250"; str "Unknown 251"; str "Unknown 252";
   str "Unknown 253"; str "Unknown 254"; str "Unknown 255"].

(** The argument is a [char]; [None] is a read outside of the table. *)
Definition afp_get_command_name (subcommand : Z) : option (list Z) :=
  let code := if subcommand <? 128 then subcommand else subcommand - 256 in
  if code <? 0 then None else afp_command_names !! Z.to_nat code.

(** ** Printing

    The functions print to an output [O]; [emit s] is
    [pos+=snprintf(text+pos,*len-pos,...)] of a format that gives [s]. *)

Definition AFPFS_VERSION : list Z := str "0.8.2".

(** The counters [stats] of a server. *)
Record server_stats := mk_stats {
  st_runt_packets : Z; st_rx_bytes : Z; st_tx_bytes : Z; st_requests_pending : Z }.

Section status.
Context {O : Type} (emit : list Z -> O -> option O).

Definition print_permissions (m : server_mem) (fl : Z) (o : O) : option O :=
  o ← emit (str "        Unix permissions: "
      ++ (if has fl VOLUME_EXTRA_FLAGS_VOL_SUPPORTS_UNIX then str "Yes" else str "No")) o;
  if sv_server_type (sm_core m) =? AFPFS_SERVER_TYPE_NETATALK then
    o ← emit (str ", Netatalk permissions broken: ") o;
    if has fl VOLUME_EXTRA_FLAGS_VOL_CHMOD_KNOWN then
      if has fl VOLUME_EXTRA_FLAGS_VOL_CHMOD_BROKEN
      then emit (str "Yes" ++ newline) o
      else emit (str "No" ++ newline) o
    else emit (str "Unknown" ++ newline) o
  else Some o.

Definition print_volume_status (m : server_mem) (vm : volume_mem) (o : O)
    : option O :=
  let v := vm_volume vm in
  let mounted := vm_mounted vm =? AFP_VOLUME_MOUNTED in
  name ← cstr (vo_volume_name_printable v);
  place ← (if mounted then cstr (vm_mountpoint vm) else Some (str "No"));
  o ← emit (str "    Volume " ++ name ++ str ", id " ++ signed (vo_volid v)
      ++ str ", attribs 0x" ++ hex (vo_attributes v) ++ str " mounted: " ++ place
      ++ (if mounted && volume_readonly v then str " (read only)" else []) ++ newline) o;
  if mounted then
    let '(hits, misses, expired, force_removed) := vm_stats vm in
    mapping ← get_mapping_name (vo_mapping v);
    o ← emit (str "        did cache stats: " ++ long_decimal misses ++ str " miss, "
        ++ long_decimal hits ++ str " hit, " ++ long_decimal expired ++ str " expired, "
        ++ long_decimal force_removed ++ str " force removal" ++ newline
        ++ str "        uid/gid mapping: " ++ mapping ++ str " ("
        ++ signed (sv_server_uid (sm_core m)) ++ str "/" ++ signed (sv_server_gid (sm_core m))
        ++ str ")" ++ newline) o;
    print_permissions m (vo_extra_flags v) o
  else Some o.

(** [sprintf(signature_string+(j*2),"%02x",...)] for every byte of the signature. *)
Fixpoint signature_loop (j : nat) (signature signature_string : list Z) : option (list Z) :=
  match signature with
  | [] => Some signature_string
  | c :: signature =>
    signature_string ← blit (j * 2) (hex_char c ++ [0]) signature_string;
    signature_loop (S j) signature signature_string
  end.

(** The array has room for two digits of every byte and the NUL. *)
Definition signature_text (signature : list Z) : option (list Z) :=
  array ← signature_loop 0 (take 16 signature) (replicate 33 0); cstr array.

Definition AF_INET : Z := 2.
Definition AF_INET6 : Z := 10.

(** The function of the C library: an address of a family in text. *)
Context (inet_ntop : Z -> list Z -> list Z).

(** The addresses lie behind family and port. *)
Definition address_text (a : addrinfo) : option (list Z) :=
  if ai_family a =? AF_INET6 then inet_ntop AF_INET6 <$> slice 8 16 (ai_sockaddr a)
  else if ai_family a =? AF_INET then inet_ntop AF_INET <$> slice 4 4 (ai_sockaddr a)
  else Some (str "unknown address family").

(** [for (j=1;j<0x100;j<<=1)] *)
Fixpoint print_uams (bits : list Z) (supported used : Z) (firsttime : bool) (o : O)
    : option O :=
  match bits with
  | [] => Some o
  | j :: bits =>
    if has supported j then
      o ← (if firsttime then emit (str ", ") o else Some o);
      name ← mjoin (uam_bitmap_to_string j);
      o ← emit (if j =? used then name ++ str " (used)" else name) o;
      print_uams bits supported used true o
    else print_uams bits supported used firsttime o
  end.

Fixpoint print_requests (requests : list dsi_request) (o : O) : option O :=
  match requests with
  | [] => Some o
  | r :: requests =>
    name ← afp_get_command_name (rq_subcommand r);
    o ← emit (str "         request " ++ signed (rq_requestid r) ++ str ", " ++ name ++ newline) o;
    print_requests requests o
  end.

Fixpoint print_volumes (m : server_mem) (volumes : list volume_mem) (o : O)
    : option O :=
  match volumes with
  | [] => Some o
  | v :: volumes =>
    o ← print_volume_status m v o;
    o ← emit newline o;
    print_volumes m volumes o
  end.

(** [afp_status_server] up to the volumes. *)
Definition print_description (m : server_mem) (st : server_stats) (o : O) : option O :=
  signature ← signature_text (ss_signature (sm_status m));
  used ← sm_used_address m;
  ip_addr ← address_text used;
  name ← cstr (ss_server_name_printable (sm_status m));
  version ← sm_using_version m;
  o ← emit (str "Server " ++ name ++ newline
      ++ str "    connection: " ++ ip_addr ++ str ":" ++ signed (ntohs (ai_protocol used)) ++ str " "
      ++ (if sm_connect_state m =? SERVER_STATE_DISCONNECTED
          then str "(disconnected)" else str "(active)") ++ newline
      ++ str "    using AFP version: " ++ version ++ newline) o;
  o ← emit (str "    server UAMs: ") o;
  o ← print_uams (Z.shiftl 1 <$> seqZ 0 8) (ss_supported_uams (sm_status m)) (sm_using_uam m)
        false o;
  loginmesg ← cstr (sm_loginmesg m);
  machine ← cstr (ss_block (sm_status m));
  o ← emit (newline ++ str "    login message: " ++ loginmesg ++ newline
      ++ str "    type: " ++ machine) o;
  o ← emit (newline ++ str "    signature: " ++ signature ++ newline
      ++ str "    transmit delay: " ++ decimal (sm_tx_delay m) ++ str "ms" ++ newline
      ++ str "    quantums: " ++ decimal (sv_tx_quantum (sm_core m)) ++ str "(tx) "
      ++ decimal (sv_rx_quantum (sm_core m)) ++ str "(rx)" ++ newline
      ++ str "    last request id: " ++ signed (sm_lastrequestid m) ++ str " in queue: "
      ++ long_decimal (st_requests_pending st) ++ newline) o;
  o ← print_requests (sm_requests m) o;
  emit (str "    transfer: " ++ long_decimal (st_rx_bytes st) ++ str "(rx) "
      ++ long_decimal (st_tx_bytes st) ++ str "(tx)" ++ newline
      ++ str "    runt packets: " ++ long_decimal (st_runt_packets st) ++ newline) o.

Definition print_server (len : Z) (m : server_mem) (st : server_stats) (o : O) : option O :=
  o ← print_description m st o;
  if len =? 0 then Some o else print_volumes m (sm_volumes m) o.

End status.

(** ** The array

    [text] and [pos]. *)
Definition output : Type := list Z * Z.

Definition emit_array (len : Z) (s : list Z) (o : output) : option output :=
  let '(text, pos) := o in
  '(n, text) ← Text.snprintf pos (u64 (len - pos)) s text;
  Some (text, pos + n).

(** [memset(text,0,len)] *)
Definition clear (text : list Z) (len : Z) : option (list Z) :=
  if len <? 0 then None else zero_fill 0 (Z.to_nat len) text.

Definition header_text (uam_names : list Z) : list Z :=
  str "AFPFS Version: " ++ AFPFS_VERSION ++ newline
  ++ str "UAMs compiled in: " ++ uam_names ++ newline.

(** The return value, the text and [*len]. *)
Definition afp_status_header (uam_names text : list Z) (len : Z) : option (Z * list Z * Z) :=
  text ← clear text len;
  '(pos, text) ← Text.snprintf 0 (u64 len) (header_text uam_names) text;
  let len := len - pos in
  Some (if len =? 0 then -1 else pos, text, len).

Section text.
Context (inet_ntop : Z -> list Z -> list Z).

Definition no_server_text : list Z := str "Not connected to any servers" ++ newline.

(** The return value, the text and [*len]; [None] for the server is NULL. *)
Definition afp_status_server (s : option (server_mem * server_stats)) (text : list Z) (len : Z)
    : option (Z * list Z * Z) :=
  text ← clear text len;
  '(text, pos) ← match s with
                 | None => emit_array len no_server_text (text, 0)
                 | Some (m, st) => print_server (emit_array len) inet_ntop len m st (text, 0)
                 end;
  Some (pos, text, len - pos).

End text.

(** ** The process of a command: process_status of fuse/commands.c, lib/log.c *)

(** A format without arguments: "%%" is a percent sign, another conversion would read an
    argument that is not there. *)
Fixpoint expand_format (format : list Z) : option (list Z) :=
  match format with
  | [] => Some []
  | c :: rest =>
    if c =? 37 then
      match rest with
      | d :: rest => if d =? 37 then cons 37 <$> expand_format rest else None
      | [] => None
      end
    else cons c <$> expand_format rest
  end.

(** [log_for_client] of a front end: the text is the format, of the result 1023 characters
    are kept. *)
Definition log_for_client (format : list Z) (c : fuse_client) : option fuse_client :=
  new_message ← expand_format format; Some (fuse_log_for_client (take 1023 new_message) c).

Definition STATUS_SIZE : Z := 40960.

Section commands.
Context (inet_ntop : Z -> list Z -> list Z) (stats_of : Z -> server_stats) (uam_names : list Z).

(** [for (s=get_server_base();s;s=s->next)] *)
Fixpoint status_servers (n : nat) (s : Z) (text : list Z) (len : Z) (c : fuse_client)
    : SM fuse_client :=
  if s =? 0 then mret c
  else
    match n with
    | O => sresult Starved
    | S n =>
      m ← load s;
      '(_, text, len) ← slift (afp_status_server inet_ntop (Some (m, stats_of s)) text len);
      shown ← slift (cstr text);
      c ← slift (log_for_client shown c);
      m ← load s;
      status_servers n (sm_next m) text len c
    end.

(** The array holds [text] at first. *)
Definition process_status (fuel : nat) (text : list Z) (incoming_size : Z) (c : fuse_client)
    : SM (Z * fuse_client) :=
  if u64 (incoming_size + 1) <? 66 then mret (AFP_SERVER_RESULT_ERROR, c)
  else
    '(_, text, len) ← slift (afp_status_header uam_names text STATUS_SIZE);
    shown ← slift (cstr text);
    c ← slift (log_for_client shown c);
    s ← get_server_base;
    c ← status_servers fuel s text len c;
    mret (AFP_SERVER_RESULT_OKAY, c).

(** [com_status] of cmdline/cmdline_afp.c: what is printed. *)
Definition com_status (text : list Z) (s : option (server_mem * server_stats))
    : option (list Z) :=
  '(_, text, _) ← afp_status_header uam_names text STATUS_SIZE;
  header ← cstr text;
  '(_, text, _) ← afp_status_server inet_ntop s text STATUS_SIZE;
  status ← cstr text;
  Some (header ++ status).

End commands.

(** ** Names of commands *)

(** From 74 on the names are those of the commands two numbers above. *)
Lemma command_names_shifted :
  afp_get_command_name 122 = Some (str "Unknown 124") /\
  afp_get_command_name 120 = Some (str "afpZzzzz") /\
  forall subcommand, 128 <= subcommand -> subcommand < 256 -> afp_get_command_name subcommand = None.
Proof.
  split_and!; [reflexivity|reflexivity|]. intros x H1 H2. unfold afp_get_command_name.
  rewrite (proj2 (Z.ltb_ge x 128)) by lia. by rewrite (proj2 (Z.ltb_lt (x - 256) 0)) by lia.
Qed.

(** ** The signature *)

(** What is left of "%02x" of a byte when the next one is written over its end. *)
Definition shown (c : Z) : list Z := take 2 (hex_char c).

Lemma hex_char_length c : byte_ok c ->
  length (hex_char c) = if c <? 128 then 2%nat else 8%nat.
Proof.
  intros Hc. apply Nat.eqb_eq. revert c Hc.
  apply (byte_forall (fun c => (length (hex_char c) =? (if (c <? 128)%Z then 2 else 8))%nat)).
  vm_compute. reflexivity.
Qed.

Definition positive (c : Z) : bool := c <? 128.

Lemma signature_loop_ok j sig (front rest : list Z) :
  bytes_ok sig -> length front = (j * 2)%nat -> length rest = S (2 * length sig) ->
  (sig = [] -> rest = [0]) ->
  signature_loop j sig (front ++ rest) =
    if forallb positive (drop (length sig - 3) sig)
    then Some (front ++ concat (shown <$> sig) ++ [0]) else None.
Proof.
  intros Hs. revert j front rest. induction Hs as [|c sig Hc Hs IH]; intros j front rest Hf Hr H0.
  { by rewrite H0. }
  pose proof (hex_char_length c Hc) as Hl. cbn [signature_loop]. cbn [length] in Hr.
  destruct (decide (positive c = false /\ (length sig < 3)%nat)) as [[E Hshort]|Hok].
  { assert (blit (j * 2) (hex_char c ++ [0]) (front ++ rest) = None) as ->.
    { apply blit_None. unfold positive in E. rewrite E in Hl. rewrite !length_app, Hl. simpl. lia. }
    cbn [length]. replace (S (length sig) - 3)%nat with 0%nat by lia. cbn [drop forallb].
    by rewrite E. }
  assert (length (hex_char c ++ [0%Z]) <= length rest)%nat as Hfit.
  { rewrite length_app, Hl. unfold positive in Hok. simpl. destruct (c <? 128); [lia|].
    assert (~ (length sig < 3)%nat) by tauto. lia. }
  rewrite (blit_app front (hex_char c ++ [0%Z]) rest) by (done || lia). cbn [mbind option_bind].
  assert (2 <= length (hex_char c))%nat as H2 by (rewrite Hl; case_match; lia).
  rewrite <- (take_drop 2 (hex_char c)) at 1. rewrite <- !app_assoc, app_assoc.
  rewrite IH; [|rewrite length_app, length_take; lia| |].
  - assert (forallb positive (drop (length sig - 3) sig) =
            forallb positive (drop (length (c :: sig) - 3) (c :: sig))) as ->.
    { cbn [length]. destruct (decide (length sig < 3)%nat) as [Hn|Hn].
      - replace (S (length sig) - 3)%nat with 0%nat by lia.
        replace (length sig - 3)%nat with 0%nat by lia. cbn [drop forallb].
        destruct (positive c) eqn:E; [done|]. exfalso. by apply Hok.
      - by replace (S (length sig) - 3)%nat with (S (length sig - 3)) by lia. }
    clear IH. destruct (forallb _ _); [|done]. cbn [fmap list_fmap concat]. by rewrite <- !app_assoc.
  - rewrite !length_app, !length_drop in *. simpl in *. lia.
  - intros ->. simpl in Hok. assert (positive c = true) as E.
    { destruct (positive c); [done|]. exfalso. apply Hok. split; [done|lia]. }
    unfold positive in E. rewrite E in Hl. rewrite drop_ge by lia. simpl.
    rewrite drop_ge; [done|]. rewrite length_app, Hl. simpl in *. lia.
Qed.

Lemma hex_char_nul_free c : byte_ok c -> nul_free (hex_char c).
Proof.
  intros Hc. pose proof (number_nul_free 16 8) as Hn. unfold hex_char, hex.
  repeat case_match; try apply Hn; try done. apply Forall_cons. split; [done|by apply Hn].
Qed.

(** The signature in the status is written outside of its array if one of its last three
    bytes is above 127; otherwise every byte above 127 is shown as "ff". *)
Theorem signature_overruns sig :
  bytes_ok sig -> length sig = 16%nat ->
  signature_text sig =
    if forallb positive (drop 13 sig) then Some (concat (shown <$> sig)) else None.
Proof.
  intros Hs Hl. unfold signature_text. rewrite take_ge by lia.
  pose proof (signature_loop_ok 0 sig [] (replicate 33 0)) as Hok. cbn [app] in Hok.
  rewrite Hok; [|done|done|by rewrite length_replicate, Hl|].
  2: { intros ->. discriminate Hl. }
  clear Hok. rewrite Hl. change (16 - 3)%nat with 13%nat. destruct (forallb _ _); [|done]. cbn [mbind option_bind].
  apply cstr_app. clear Hl. induction Hs as [|c sig Hc Hs IH]; [constructor|].
  cbn [fmap list_fmap concat]. apply Forall_app. split; [|done].
  by apply Forall_take, hex_char_nul_free.
Qed.

Lemma signature_overruns_witness :
  signature_text (replicate 15 1 ++ [200]) = None /\
  signature_text (200 :: replicate 15 1) = Some (str "ff" ++ concat (replicate 15 (str "01"))).
Proof.
  split; (rewrite signature_overruns; [reflexivity|by apply (bool_decide_unpack (bytes_ok _))|reflexivity]).
Defined.

(** ** The text as a whole *)

(** The output that is only the text. *)
Definition emit_text (s t : list Z) : option (list Z) := Some (t ++ s).

Definition server_text (inet_ntop : Z -> list Z -> list Z) (m : server_mem) (st : server_stats)
    : option (list Z) := print_server emit_text inet_ntop 1 m st [].

(** What a function prints to the text, with [len] bytes of room in an array: behind [t], as
    long as it fits, and in any case with the right position. *)
Definition array_of (len : Z) (tail t : list Z) : output :=
  (t ++ replicate (Z.to_nat len - length t) 0 ++ tail, Z.of_nat (length t)).

Definition limit : Z := 2147483648.

Record prints (len : Z) (p : list Z -> option (list Z)) (q : output -> option output) : Prop := {
  prints_extends t t' : p t = Some t' -> t `prefix_of` t';
  prints_fits tail t t' : p t = Some t' -> Z.of_nat (length t') < len ->
    q (array_of len tail t) = Some (array_of len tail t');
  prints_moves t t' o o' : p t = Some t' -> Z.of_nat (length t') < limit ->
    snd o = Z.of_nat (length t) -> Z.of_nat (length (fst o)) = len -> q o = Some o' ->
    snd o' = Z.of_nat (length t') /\ Z.of_nat (length (fst o')) = len }.

Section prints.
Context (len : Z) (Hlen : 0 < len < limit).

Lemma prints_emit s : prints len (emit_text s) (emit_array len s).
Proof using Hlen.
  unfold emit_text. split.
  - intros t t' [= <-]. by apply prefix_app_r.
  - intros tail t t' [= <-]. rewrite length_app. intros Hs. unfold emit_array, array_of.
    unfold limit in *.
    rewrite (snprintf_fits _ _ _ s); [|done|lia|rewrite length_app, length_replicate; lia].
    cbn [mbind option_bind]. f_equal. f_equal; [|rewrite length_app; lia].
    rewrite <- app_assoc. do 2 f_equal. rewrite drop_app_le by (rewrite length_replicate; lia).
    rewrite drop_replicate, length_app.
    replace (Z.to_nat len - (length t + length s))%nat
      with (S (Z.to_nat len - length t - S (length s))) by lia. done.
  - intros t t' [text pos] o' [= <-]. rewrite length_app. cbn [fst snd]. unfold limit. intros Hs -> Ht.
    unfold emit_array, Text.snprintf. rewrite i32_small by lia.
    destruct (if _ =? 0 then _ else _) as [text'|] eqn:E; [|done]. cbn [mbind option_bind].
    intros [= <-]. cbn [fst snd]. split; [lia|]. destruct (_ =? 0); [by injection E as <-|].
    destruct (_ <? 0); [done|]. by rewrite (blit_length _ _ _ _ E).
Qed.

Lemma prints_ret : prints len Some Some.
Proof using Type. split; [by intros t t' [= <-]|by intros tail t t' [= <-]|by intros t t' o o' [= <-] ? ? ? [= <-]]. Qed.

Lemma prints_bind p p' q q' :
  prints len p q -> prints len p' q' ->
  prints len (fun t => t ← p t; p' t) (fun o => o ← q o; q' o).
Proof using Type.
  intros H H'. split.
  - intros t t' (u & Hu & Ht)%bind_Some. apply (prints_extends _ _ _ H) in Hu.
    apply (prints_extends _ _ _ H') in Ht. by transitivity u.
  - intros tail t t' (u & Hu & Ht)%bind_Some Hl.
    pose proof (prefix_length _ _ (prints_extends _ _ _ H' _ _ Ht)).
    rewrite (prints_fits _ _ _ H _ _ _ Hu) by lia. cbn [mbind option_bind].
    by apply (prints_fits _ _ _ H').
  - intros t t' o o' (u & Hu & Ht)%bind_Some Hl Ho Hs (o1 & Ho1 & Ho')%bind_Some.
    pose proof (prefix_length _ _ (prints_extends _ _ _ H' _ _ Ht)).
    destruct (prints_moves _ _ _ H _ _ _ _ Hu ltac:(lia) Ho Hs Ho1) as [Ho1' Hs1'].
    exact (prints_moves _ _ _ H' _ _ _ _ Ht Hl Ho1' Hs1' Ho').
Qed.

Lemma prints_none : prints len (fun _ => None) (fun _ => None).
Proof using Type. by split. Qed.

Lemma prints_read {A} (r : option A) p q :
  (forall a, prints len (p a) (q a)) ->
  prints len (fun t => a ← r; p a t) (fun o => a ← r; q a o).
Proof using Type. destruct r as [a|]; [intros H; exact (H a)|intros _; apply prints_none]. Qed.

Lemma prints_if (b : bool) p p' q q' :
  prints len p q -> prints len p' q' ->
  prints len (fun t => if b then p t else p' t) (fun o => if b then q o else q' o).
Proof using Type. by destruct b. Qed.

Hint Resolve prints_emit prints_ret prints_none : prints.

Ltac solve_prints :=
  repeat first
    [ solve [auto with prints nocore]
    | apply prints_if
    | apply prints_read; intros ?
    | apply prints_bind
    | case_match ].

Lemma prints_volume m vm :
  prints len (print_volume_status emit_text m vm) (print_volume_status (emit_array len) m vm).
Proof using Hlen. unfold print_volume_status, print_permissions. solve_prints. Qed.
Hint Resolve prints_volume : prints.

Lemma prints_uams bits supported used firsttime :
  prints len (print_uams emit_text bits supported used firsttime)
    (print_uams (emit_array len) bits supported used firsttime).
Proof using Hlen.
  revert firsttime. induction bits as [|j bits IH]; intros firsttime; cbn [print_uams]; solve_prints.
Qed.

Lemma prints_requests requests :
  prints len (print_requests emit_text requests) (print_requests (emit_array len) requests).
Proof using Hlen. induction requests as [|r requests IH]; cbn [print_requests]; solve_prints. Qed.

Lemma prints_volumes m volumes :
  prints len (print_volumes emit_text m volumes) (print_volumes (emit_array len) m volumes).
Proof using Hlen. induction volumes as [|v volumes IH]; cbn [print_volumes]; solve_prints. Qed.
Hint Resolve prints_uams prints_requests prints_volumes : prints.

Lemma prints_description inet_ntop m st :
  prints len (print_description emit_text inet_ntop m st)
    (print_description (emit_array len) inet_ntop m st).
Proof using Hlen. unfold print_description. solve_prints. Qed.
Hint Resolve prints_description : prints.

Lemma prints_server inet_ntop m st :
  prints len (print_server emit_text inet_ntop 1 m st) (print_server (emit_array len) inet_ntop len m st).
Proof using Hlen.
  unfold print_server. rewrite (proj2 (Z.eqb_neq len 0)) by lia. cbn [Z.eqb]. solve_prints.
Qed.

End prints.

Lemma print_volumes_snoc {O} (emit : list Z -> O -> option O) m volumes v o :
  print_volumes emit m (volumes ++ [v]) o =
    (o ← print_volumes emit m volumes o; o ← print_volume_status emit m v o; emit newline o).
Proof.
  revert o. induction volumes as [|w volumes IH]; intros o; cbn [app print_volumes].
  - cbn [mbind option_bind]. destruct (print_volume_status _ _ _ _); [|done].
    cbn [mbind option_bind]. by destruct (emit _ _).
  - destruct (print_volume_status _ _ _ _); [|done]. cbn [mbind option_bind].
    destruct (emit _ _); [|done]. apply IH.
Qed.

Lemma clear_array front tail len :
  0 <= len -> Z.of_nat (length front) = len ->
  clear (front ++ tail) len = Some (replicate (Z.to_nat len) 0 ++ tail).
Proof.
  intros Hl Ht. unfold clear, zero_fill. rewrite (proj2 (Z.ltb_ge len 0)) by lia.
  rewrite blit_in_range by (rewrite length_app, length_replicate; lia). rewrite length_replicate.
  cbn [take app Nat.add]. by rewrite drop_app_length' by lia.
Qed.

(** A text that fits into the [len] bytes of [front]. *)
Lemma server_text_fits inet_ntop m st t front tail len :
  server_text inet_ntop m st = Some t -> Z.of_nat (length t) < len < limit ->
  Z.of_nat (length front) = len ->
  afp_status_server inet_ntop (Some (m, st)) (front ++ tail) len =
    Some (Z.of_nat (length t), t ++ replicate (Z.to_nat len - length t) 0 ++ tail,
          len - Z.of_nat (length t)).
Proof.
  unfold server_text. intros Ht Hlen Hf. unfold afp_status_server.
  rewrite clear_array by (done || lia). cbn [mbind option_bind].
  assert (0 < len < limit) as Hl by lia.
  pose proof (prints_fits _ _ _ (prints_server len Hl inet_ntop m st) tail [] t Ht) as Hp.
  unfold array_of in Hp. cbn [app length] in Hp. rewrite Nat.sub_0_r in Hp.
  change (Z.of_nat 0) with 0 in Hp. by rewrite Hp by lia.
Qed.

(** C40: The status of a server is right if it is shorter than the array.  If it is longer than
    the array by two characters or more, and the server has a volume, then something is
    written outside of the array: [snprintf] counts the characters that did not fit, and the
    room that is left, now negative, becomes a large size for the next one. *)
Theorem status_text_overruns inet_ntop m st t text len :
  server_text inet_ntop m st = Some t -> Z.of_nat (length t) < limit ->
  0 < len < limit -> Z.of_nat (length text) = len ->
  (Z.of_nat (length t) < len ->
     afp_status_server inet_ntop (Some (m, st)) text len =
       Some (Z.of_nat (length t), t ++ replicate (Z.to_nat len - length t) 0,
             len - Z.of_nat (length t))) /\
  (sm_volumes m <> [] -> len < Z.of_nat (length t) - 1 ->
     afp_status_server inet_ntop (Some (m, st)) text len = None).
Proof.
  intros Ht Hlim Hl Hs. rewrite <- (app_nil_r text). split.
  { intros Hfit. rewrite (server_text_fits _ _ _ t) by (done || lia). by rewrite app_nil_r. }
  intros Hv Hlong. unfold afp_status_server, server_text in *.
  rewrite clear_array by (done || lia). rewrite app_nil_r. cbn [mbind option_bind].
  destruct (exists_last Hv) as (volumes & v & Hvols).
  unfold print_server in *. rewrite (proj2 (Z.eqb_neq len 0)) by lia. cbn [Z.eqb] in Ht.
  set (p := fun (O : Type) (emit : list Z -> O -> option O) (o : O) =>
    o ← print_description emit inet_ntop m st o;
    o ← print_volumes emit m volumes o; print_volume_status emit m v o).
  assert (prints len (p _ emit_text) (p _ (emit_array len))) as Hp.
  { apply prints_bind; [by apply prints_description|]. apply prints_bind;
      [by apply prints_volumes|by apply prints_volume]. }
  assert (forall O (emit : list Z -> O -> option O) o,
    (o ← print_description emit inet_ntop m st o; print_volumes emit m (sm_volumes m) o) =
    (o ← p _ emit o; emit newline o)) as Hsplit.
  { intros O emit o. unfold p. rewrite Hvols.
    destruct (print_description emit inet_ntop m st o) as [o1|]; [|done].
    cbn [mbind option_bind]. rewrite print_volumes_snoc. by destruct (print_volumes emit m volumes o1). }
  rewrite Hsplit in *. apply bind_Some in Ht as (u & Hu & [= <-]).
  rewrite length_app in Hlong, Hlim. cbn [length] in Hlong, Hlim.
  destruct (p _ (emit_array len) (replicate (Z.to_nat len) 0, 0)) as [[text' pos]|] eqn:E; [|done].
  cbn [mbind option_bind].
  destruct (prints_moves _ _ _ Hp _ _ (replicate (Z.to_nat len) 0, 0) _ Hu ltac:(simpl in *; lia)
    ltac:(done) ltac:(cbn [fst]; rewrite length_replicate; lia) E) as [Hpos Hlen'].
  cbn [fst snd] in *. subst pos. unfold emit_array, limit in *.
  by rewrite snprintf_behind by (simpl in *; lia).
Qed.

(** ** The answer to the client *)

(** Text that is its own format. *)
Definition plain (t : list Z) : Prop := nul_free t /\ Forall (fun c => c <> 37) t.

Lemma plain_by_computing t :
  Is_true (bool_decide (nul_free t /\ Forall (fun c => c <> 37) t)) -> plain t.
Proof. apply bool_decide_unpack. Qed.

Lemma expand_plain t : Forall (fun c => c <> 37) t -> expand_format t = Some t.
Proof.
  induction 1 as [|c t Hc Ht IH]; [done|]. cbn [expand_format].
  rewrite (proj2 (Z.eqb_neq c 37)) by done. by rewrite IH.
Qed.

(** A conversion in the text, such as one in the name of a volume, reads an argument that
    was not passed. *)
Lemma percent_undefined t c rest :
  Forall (fun c => c <> 37) t -> c <> 37 -> expand_format (t ++ 37 :: c :: rest) = None.
Proof.
  intros Ht Hc. induction Ht as [|d t Hd Ht IH]; cbn [app expand_format].
  - cbn [Z.eqb Pos.eqb]. by rewrite (proj2 (Z.eqb_neq c 37)).
  - rewrite (proj2 (Z.eqb_neq d 37)) by done. by rewrite IH.
Qed.

Definition room_of_client : nat := 2047.

(** The client after the texts were logged. *)
Definition logged (texts : list (list Z)) (c : fuse_client) : fuse_client :=
  mk_fuse_client (fc_fd c) (fc_incoming c)
    (take room_of_client (fc_string c ++ concat (take 1023 <$> texts))).

Lemma log_plain t c :
  plain t -> (length (fc_string c) <= room_of_client)%nat ->
  log_for_client t c = Some (logged [t] c).
Proof.
  intros [_ Hp] Hc. unfold log_for_client. rewrite expand_plain by done.
  cbn [mbind option_bind fmap list_fmap concat]. unfold fuse_log_for_client, logged.
  cbn [fmap list_fmap concat]. do 2 f_equal. rewrite app_nil_r, take_app, (take_ge (fc_string c)) by done.
  f_equal. f_equal. change MAX_CLIENT_RESPONSE with (S room_of_client). lia.
Qed.

Lemma take_of_take n (a r : list Z) : take n (take n a ++ r) = take n (a ++ r).
Proof.
  rewrite !take_app, take_take, length_take, Nat.min_id.
  destruct (decide (length a <= n)%nat); [by rewrite Nat.min_r by done|].
  rewrite Nat.min_l by lia. by replace (n - n)%nat with (n - length a)%nat by lia.
Qed.

Lemma logged_cons t texts c : logged texts (logged [t] c) = logged (t :: texts) c.
Proof.
  unfold logged. cbn [fc_fd fc_incoming fc_string fmap list_fmap concat]. f_equal.
  by rewrite app_nil_r, take_of_take, app_assoc.
Qed.

Section answer.
Context (inet_ntop : Z -> list Z -> list Z) (stats_of : Z -> server_stats) (uam_names : list Z).
Context (w : world).

(** The text of a server of the list. *)
Definition has_text (s : Z) (t : list Z) : Prop :=
  exists m, wo_heap w !! s = Some m /\ server_text inet_ntop m (stats_of s) = Some t /\ plain t.

Lemma status_servers_ok fuel base l texts text len c :
  chain (wo_heap w) base l -> (length l <= fuel)%nat -> Forall2 has_text l texts ->
  Z.of_nat (length (concat texts)) < len -> len <= Z.of_nat (length text) < limit ->
  (length (fc_string c) <= room_of_client)%nat ->
  status_servers inet_ntop stats_of fuel base text len c w = Ret (logged texts c, w).
Proof using Type.
  revert base l texts text len c. induction fuel as [|fuel IH]; intros base l texts text len c Hc Hf Ht Hr Hl Hs.
  { destruct l; [|simpl in Hf; lia]. cbn [chain] in Hc. inversion Ht; subst. unfold logged.
    cbn [fmap list_fmap concat]. rewrite app_nil_r, take_ge by done. by destruct c. }
  destruct Ht as [|s t l texts (m & Hm & Hst & Hp) Ht].
  { cbn [chain] in Hc. subst base. unfold logged. cbn [fmap list_fmap concat].
    rewrite app_nil_r, take_ge by done. by destruct c. }
  destruct Hc as (-> & Hs0 & m' & Hm' & Hc). rewrite Hm in Hm'. injection Hm' as <-.
  cbn [status_servers]. rewrite (proj2 (Z.eqb_neq s 0)) by done.
  cbn [concat] in Hr. rewrite length_app in Hr.
  assert (Z.of_nat (length (take (Z.to_nat len) text)) = len) as Hlen by (rewrite length_take; lia).
  pose proof (server_text_fits inet_ntop m (stats_of s) t (take (Z.to_nat len) text)
    (drop (Z.to_nat len) text) len Hst ltac:(lia) Hlen) as Hfit. rewrite take_drop in Hfit.
  unfold load, mbind, SM_bind, sget, slift. cbn [prog_bind fst snd]. rewrite Hm. cbn [prog_bind fst snd].
  rewrite Hfit. cbn [prog_bind fst snd].
  destruct (Z.to_nat len - length t)%nat as [|k] eqn:Ek; [lia|]. cbn [replicate app].
  rewrite cstr_app by apply Hp. cbn [prog_bind fst snd].
  rewrite log_plain by done. cbn [prog_bind fst snd]. rewrite Hm. cbn [prog_bind fst snd].
  rewrite <- (logged_cons t texts).
  apply (IH _ l); [done|simpl in Hf; lia|done|lia| |].
  - rewrite length_app. cbn [length]. rewrite length_app, length_replicate, length_drop. lia.
  - unfold logged. cbn [fc_string]. rewrite length_take. lia.
Qed.

(** C39: The answer to a request for the status, of 65 bytes or more: the result is success, and
    the text that of the header and of the servers in the order of the list, of each the first
    1023 characters, and altogether 2047 at most.  Every server has a text ([has_text]): the
    last three bytes of its signature are below 128, or [signature_overruns]; there is no
    percent sign and no NUL in the texts ([plain]), which are used as formats; and all of them
    together are shorter than the array, or [status_text_overruns]. *)
Theorem status_answer fuel l texts text incoming_size c :
  chain (wo_heap w) (wo_base w) l -> (length l <= fuel)%nat -> Forall2 has_text l texts ->
  plain (header_text uam_names) ->
  Z.of_nat (length (header_text uam_names ++ concat texts)) < STATUS_SIZE ->
  Z.of_nat (length text) = STATUS_SIZE -> 65 <= incoming_size < limit -> fc_string c = [] ->
  process_status inet_ntop stats_of uam_names fuel text incoming_size c w =
    Ret ((AFP_SERVER_RESULT_OKAY,
          mk_fuse_client (fc_fd c) (fc_incoming c)
            (take 2047 (concat (take 1023 <$> header_text uam_names :: texts)))), w).
Proof using Type.
  intros Hc Hf Ht Hp Hr Htext Hi Hs. unfold process_status, limit in *.
  unfold u64. rewrite Z.mod_small by lia. rewrite (proj2 (Z.ltb_ge _ 66)) by lia.
  rewrite length_app in Hr. unfold afp_status_header.
  rewrite <- (app_nil_r text), clear_array by (done || lia). cbn [mbind option_bind].
  assert (Z.of_nat (length (header_text uam_names)) < STATUS_SIZE) as Hh by lia.
  rewrite app_nil_r.
  pose proof (snprintf_fits 0 [] (replicate (Z.to_nat STATUS_SIZE) 0)
    (header_text uam_names) STATUS_SIZE eq_refl ltac:(by unfold STATUS_SIZE)) as Hsn.
  rewrite length_replicate, Z2Nat.id in Hsn by (by unfold STATUS_SIZE).
  specialize (Hsn ltac:(lia)). cbn [app] in Hsn. rewrite Hsn. clear Hsn.
  cbn [mbind option_bind app]. unfold mbind, SM_bind, slift. cbn [prog_bind fst snd].
  rewrite cstr_app by apply Hp. cbn [prog_bind fst snd].
  rewrite log_plain by (rewrite ?Hs; simpl; auto; lia). cbn [prog_bind fst snd].
  unfold get_server_base, sget, mbind, SM_bind. cbn [prog_bind fst snd mret SM_ret].
  rewrite (status_servers_ok _ _ l texts); try done.
  - cbn [prog_bind fst snd]. rewrite logged_cons. unfold logged. by rewrite Hs.
  - lia.
  - rewrite length_app. cbn [length]. rewrite length_drop, length_replicate.
    unfold limit, STATUS_SIZE in *. lia.
  - unfold logged. cbn [fc_string]. rewrite length_take. lia.
Qed.

End answer.

(** ** Examples *)

Definition toy_ntop (family : Z) (bytes : list Z) : list Z :=
  match decimal <$> bytes with
  | [a; b; c; d] => a ++ str "." ++ b ++ str "." ++ c ++ str "." ++ d
  | _ => str "::1"
  end.

Definition sample_address : addrinfo := mk_addrinfo AF_INET 1 6 1 0 ([2; 0; 2; 36; 127; 0; 0; 1]
  ++ replicate 8 0).

(** A server with one volume, which is mounted at "/mnt". *)
Definition sample_status_server : server_mem :=
  set_sm_using_version (Some (str "AFPX03"))
    (set_sm_used_address (Some sample_address)
       (set_sm_loginmesg (replicate 200 0)
          (set_sm_volumes
             [set_vm_mountpoint (in_array 255 (str "/mnt"))
                (set_vm_mounted AFP_VOLUME_MOUNTED
                   (Connect.closed_volume
                      (set_vo_volume_name_printable (in_array 33 (str "Disk")) zero_volume)))]
             (set_sm_connect_state SERVER_STATE_CONNECTED Mount.named_server)))).

Definition sample_stats : server_stats := mk_stats 0 0 0 0.

Definition sample_text : list Z :=
  default [] (server_text toy_ntop sample_status_server sample_stats).

(** The "port" is the protocol number of TCP with its bytes swapped. *)
Example sample_connection : take 41 sample_text =
  str "Server tc" ++ newline ++ str "    connection: 127.0.0.1:1536 ".
Proof. vm_compute. reflexivity. Qed.

(** The text of this server has 588 characters: an array of 400 is overrun. *)
Lemma status_text_overruns_witness :
  afp_status_server toy_ntop (Some (sample_status_server, sample_stats)) (replicate 400 7) 400 = None /\
  afp_status_server toy_ntop (Some (sample_status_server, sample_stats)) (replicate 1000 7) 1000 =
    Some (Z.of_nat (length sample_text), sample_text ++ replicate (1000 - length sample_text) 0,
          1000 - Z.of_nat (length sample_text)).
Proof.
  assert (server_text toy_ntop sample_status_server sample_stats = Some sample_text) as Ht
    by (vm_compute; reflexivity).
  assert (Z.of_nat (length sample_text) < limit) as Hl by by vm_compute.
  assert (0 < 400 < limit /\ 0 < 1000 < limit) as [H4 H10] by (unfold limit; lia).
  split.
  - refine (proj2 (status_text_overruns toy_ntop sample_status_server sample_stats sample_text
      (replicate 400 7) 400 Ht Hl H4 eq_refl) _ _); [discriminate|by vm_compute].
  - refine (proj1 (status_text_overruns toy_ntop sample_status_server sample_stats sample_text
      (replicate 1000 7) 1000 Ht Hl H10 eq_refl) _); by vm_compute.
Defined.

Lemma status_answer_witness :
  process_status toy_ntop (fun _ => sample_stats) (str "DHX2") 1
    (replicate (Z.to_nat STATUS_SIZE) 7) 67 (mk_fuse_client 5 [] [])
    (mk_world {[1 := sample_status_server]} 1 no_descriptors) =
  Ret ((AFP_SERVER_RESULT_OKAY,
        mk_fuse_client 5 [] (take 2047 (header_text (str "DHX2") ++ sample_text))),
       mk_world {[1 := sample_status_server]} 1 no_descriptors).
Proof.
  rewrite (status_answer toy_ntop (fun _ => sample_stats) (str "DHX2")
    (mk_world {[1 := sample_status_server]} 1 no_descriptors) 1 [1] [sample_text]
    (replicate (Z.to_nat STATUS_SIZE) 7) 67 (mk_fuse_client 5 [] [])).
  - do 3 f_equal.
  - exact (Mount.named_chain sample_status_server).
  - apply Nat.le_refl.
  - constructor; [|constructor]. exists sample_status_server. split; [apply lookup_singleton_eq|].
    split; [vm_compute; reflexivity|].
    apply plain_by_computing. vm_compute. exact I.
  - apply plain_by_computing. vm_compute. exact I.
  - by vm_compute.
  - by rewrite length_replicate, Z2Nat.id.
  - unfold limit. lia.
  - done.
Defined.

End StatusText.
