(* ===== verification/MainLoop.v ===== *)
(** * The main loop: lib/loop.c, fuse_scan_extra_fds, and what a server sends unasked

    The loop that waits for sockets, its start and its end, the acceptance of clients of
    the daemon (fuse/commands.c), and the attention messages of lib/dsi.c. *)

From stdpp Require Import gmap relations.
From S2P Require Import Prelude Constants Types Utils Dsi ProtoFiles ProtoVolume Client.
From S2P Require Import Auth Session Daemon Servers Connect Mount.

Module MainLoop.
Import Utils Dsi ProtoFiles ProtoVolume Client Auth Session Daemon Servers Connect Mount.

(** ** The end of the program

    [exit_program] is 1 when the program is to end, 2 when its end has been prepared. *)

Definition SIGINT : Z := 2.
Definition SIGTERM : Z := 15.
Definition EINTR : Z := 4.

Definition trigger_exit (exit_program : Z) : Z := 1.

Definition termination_handler (signum exit_program : Z) : Z :=
  if (signum =? SIGINT) || (signum =? SIGTERM) then trigger_exit exit_program else exit_program.

(** A thread that runs [just_end_it_now]: not started, behind the test of [ending], in the
    hook of the front end, and done, with the hook or without. *)
Inductive ending_thread := Created | Checked | Hook | Finished | Refused.

Record ending_state := mk_ending {
  es_exit_program : Z; es_ending : Z; es_threads : list ending_thread; es_returned : bool }.

(** The signals, the threads, and the loop: [pselect] comes back, and the loop ends, or
    creates a thread, or, if [pselect] was interrupted, two. *)
Inductive ending_step : ending_state -> ending_state -> Prop :=
| step_signal x e ts r signum :
    ending_step (mk_ending x e ts r) (mk_ending (termination_handler signum x) e ts r)
| step_turn x e ts (interrupted : bool) :
    ending_step (mk_ending x e ts false)
      (mk_ending x e
         (if x =? 1 then ts ++ replicate (if interrupted then 2 else 1) Created else ts)
         (x =? 2))
| step_check x e ts r i :
    ts !! i = Some Created ->
    ending_step (mk_ending x e ts r)
      (mk_ending x e (<[i := if e =? 0 then Checked else Refused]> ts) r)
| step_enter x e ts r i :
    ts !! i = Some Checked -> ending_step (mk_ending x e ts r) (mk_ending x 1 (<[i := Hook]> ts) r)
| step_leave x e ts r i :
    ts !! i = Some Hook -> ending_step (mk_ending x e ts r) (mk_ending 2 e (<[i := Finished]> ts) r).

Definition starting : ending_state := mk_ending 0 0 [] false.

(** ** The loop *)

(** [exit_program], [loop_started] and [fderrors]. *)
Record loop := mk_loop { lp_exit_program : Z; lp_loop_started : Z; lp_fderrors : Z }.

(** What happened to [exit_program] while the loop waited; 0 is the end of a thread that
    ran the hook. *)
Definition notice (events : list Z) (exit_program : Z) : Z :=
  foldl (fun x signum => if signum =? 0 then 2 else termination_handler signum x) exit_program events.

Section main_loop.
Context (fuel : nat) (recv : Z -> SM Z).

(** [scan_extra_fds] of the front end gets the descriptors that are ready. *)
Context (scan_extra_fds : Z -> list Z -> SM Z).

Definition create_ending_thread : SM unit := sask (Local LocalThread);; mret tt.

(** [if (exit_program==1) pthread_create(...)]; [deal_with_server_signals] is the same. *)
Definition deal_with_server_signals (exit_program : Z) : SM unit :=
  if exit_program =? 1 then create_ending_thread else mret tt.

(** The body of the loop; [None] is its end. *)
Definition loop_turn (command_fd : Z) (l : loop) : SM (option loop) :=
  w ← sget;
  ret ← sask (Local (LocalPselect (max_fd (wo_fds w)) (elements (rds (wo_fds w)))
                       (if lp_loop_started l =? 0 then 0 else 30)));
  events ← sask (Local LocalMeanwhile);
  let exit_program := notice (lo_bytes events) (lp_exit_program l) in
  let l := mk_loop exit_program (lp_loop_started l) (lp_fderrors l) in
  if exit_program =? 2 then mret None
  else
    deal_with_server_signals exit_program;;
    if lo_ret ret <? 0 then
      if lo_mode ret =? EINTR then deal_with_server_signals exit_program;; mret (Some l)
      else if lo_mode ret =? EBADF then
        if 100 <? lp_fderrors l then mret (Some l)
        else mret (Some (mk_loop exit_program (lp_loop_started l) (lp_fderrors l + 1)))
      else mret (Some l)
    else
      let l := mk_loop exit_program (lp_loop_started l) 0 in
      if lo_ret ret =? 0 then
        mret (Some (if lp_loop_started l =? 0 then mk_loop exit_program 1 0 else l))
      else
        '(found, _) ← process_server_fds fuel (fun fd => bool_decide (fd ∈ lo_bytes ret)) recv;
        if (found =? -1) || (found =? 1) then mret (Some l)
        else scan_extra_fds command_fd (lo_bytes ret);; mret (Some l).

Fixpoint loop_turns (turns : nat) (command_fd : Z) (l : loop) : SM Z :=
  match turns with
  | O => sresult Starved
  | S turns =>
    l ← loop_turn command_fd l;
    match l with
    | None => mret (-1)
    | Some l => loop_turns turns command_fd l
    end
  end.

(** [FD_ZERO] leaves [max_fd] as it was. *)
Definition afp_main_loop (turns : nat) (command_fd : Z) (l : loop) : SM Z :=
  smodify (set_fds (fun d => mk_descriptors ∅ (max_fd d)));;
  (if 0 <=? command_fd then smodify (set_fds (add_fd command_fd)) else mret tt);;
  loop_turns turns command_fd l.

End main_loop.

(** The loop on a thread of its own, for the programs without one. *)
Definition afp_main_quick_startup : SM Z := sask (Local LocalThread);; mret 0.

(** ** Clients of the daemon: fuse/commands.c *)

Definition AFP_CLIENT_INCOMING_BUF : Z := 2048.

Section clients.
Context (malloc : gset Z -> Z).

Definition set_incoming (p : Z) (bytes : list Z) (client_base : clients) : clients :=
  (fun pc => if pc.1 =? p then (p, mk_fuse_client (fc_fd pc.2) bytes (fc_string pc.2)) else pc)
    <$> client_base.

(** The thread of the command is created, or the client is removed. *)
Definition process_command (p : Z) (c : fuse_client) (client_base : clients) : SM (Z * clients) :=
  r ← sask (Local (LocalRead (fc_fd c) AFP_CLIENT_INCOMING_BUF));
  if lo_ret r <=? 0 then
    let client_base := (remove_client p client_base).1 in
    sask (Local (LocalClose (fc_fd c)));;
    smodify (set_fds (rm_fd (fc_fd c)));; mret (0, client_base)
  else
    sask (Local LocalThread);; mret (0, set_incoming p (lo_bytes r) client_base).

Definition fuse_process_client_fds (ready : list Z) (client_base : clients) : SM (Z * clients) :=
  match Daemon.fuse_process_client_fds (fun fd => bool_decide (fd ∈ ready)) client_base with
  | None => mret (0, client_base)
  | Some (p, c) =>
    '(rc, client_base) ← process_command p c client_base;
    mret (if rc <? 0 then -1 else 1, client_base)
  end.

(** The new descriptor is added to those that are ready.  [process_command] never fails, so
    the case of -1 is left out. *)
Definition fuse_scan_extra_fds (command_fd : Z) (ready : list Z) (client_base : clients)
    : SM (Z * clients) :=
  '(ready, client_base) ←
    (if bool_decide (command_fd ∈ ready) then
       r ← sask (Local (LocalAccept command_fd));
       let new_fd := lo_ret r in
       if 0 <=? new_fd then
         smodify (set_fds (fun d => mk_descriptors (rds d) (Z.max (max_fd d) (new_fd + 1))));;
         mret (new_fd :: ready,
               fuse_add_client (malloc (list_to_set client_base.*1)) new_fd client_base)
       else mret (ready, client_base)
     else mret (ready, client_base));
  '(rc, client_base) ← fuse_process_client_fds ready client_base;
  if rc =? 1 then mret (1, client_base)
  else sask (Sleep 10);; mret (0, client_base).

End clients.

(** ** Messages of the server: lib/dsi.c *)

Definition AFPATTN_SHUTDOWN : Z := 0x8000.
Definition AFPATTN_CRASH : Z := 0x4000.
Definition AFPATTN_MESG : Z := 0x2000.
Definition AFPMESG_SERVER : Z := 1.

Definition maintenance : list Z := str "The server is going down for maintenance.".

(** [packet] is [attention_buffer]; the result is what is said to the user: the id and the
    minutes. *)
Definition dsi_incoming_attention (s : Z) (packet : list Z) : SM (option (Z * Z)) :=
  length ← slift (ld32 8 packet);
  flags ← slift (if 2 <=? ntohl length then ld16 16 packet else Some 0);
  id ← slift (ld16 2 packet);
  let flags := ntohs flags in
  let '(checkmessage, shutdown, mins) :=
    if 2 <=? ntohl length
    then (has flags AFPATTN_MESG, has flags (Z.lor AFPATTN_CRASH AFPATTN_SHUTDOWN), Z.land flags 0xff)
    else (true, false, 0) in
  shutdown ←
    (if checkmessage : bool then
       m ← load s;
       (if sm_using_version m then mret tt else sresult Crashed);;
       '(_, mesg) ← FPGetSrvrMsg AFPMESG_SERVER
                      (if 30 <=? sv_av_number (sm_core m) then 1 else 0)
                      DSI_DEFAULT_TIMEOUT (replicate 200 0);
       mret (shutdown || bytes_eqb (take 41 mesg) maintenance)
     else mret shutdown);
  if shutdown : bool then
    loop_disconnect s;;
    update s (set_sm_connect_state SERVER_STATE_DISCONNECTED);;
    mret (Some (ntohs id, mins))
  else mret None.

Definition dsi_incoming_closesession (fuel : nat) (forkid_of : Z -> Z) (unmount : M unit) (s : Z)
    : SM unit :=
  afp_unmount_all_volumes fuel forkid_of unmount s;; loop_disconnect s.

(** ** Waiting for the loop to start

    [afp_wait_for_started_loop] on another thread: before its test, between the test and
    [pthread_cond_wait], waiting, and behind.  The loop sets [loop_started] and signals the
    condition once. *)
Inductive waiter := Testing | Decided | Waiting | Passed.

Record start_state := mk_start { st_loop_started : Z; st_waiters : list waiter }.

Definition wake (x : waiter) : waiter := match x with Waiting => Passed | _ => x end.

Inductive start_step : start_state -> start_state -> Prop :=
| step_test b ws i :
    ws !! i = Some Testing ->
    start_step (mk_start b ws)
      (mk_start b (<[i := if b =? 0 then Decided else Passed]> ws))
| step_wait b ws i :
    ws !! i = Some Decided -> start_step (mk_start b ws) (mk_start b (<[i := Waiting]> ws))
| step_started ws : start_step (mk_start 0 ws) (mk_start 1 (wake <$> ws)).

(** ** The end waits for the hook *)

Definition reached : ending_state -> Prop := rtc ending_step starting.

(** The loop ends after a thread has run the hook to its end. *)
Definition after_hook (st : ending_state) : Prop :=
  es_exit_program st = 2 \/ es_returned st = true -> Finished ∈ es_threads st.

Lemma handler_no_end signum x : termination_handler signum x = 2 -> x = 2.
Proof. unfold termination_handler, trigger_exit. by case_match. Qed.

Lemma insert_keeps (ts : list ending_thread) i old new x :
  ts !! i = Some old -> old <> x -> x ∈ ts -> x ∈ <[i := new]> ts.
Proof.
  intros Hi Ho [j Hj]%list_elem_of_lookup. apply list_elem_of_lookup. exists j.
  rewrite list_lookup_insert_ne; [done|]. intros ->. by simplify_eq.
Qed.

(** C29: The main loop ends, or knows that it is to end, only after one of the threads has run
    the hook of the front end to its end: no signal and no race between the threads gets
    around the hook. *)
Theorem returns_after_hook st : reached st -> after_hook st.
Proof.
  unfold reached. intros H. apply (rtc_ind_r (R := ending_step) after_hook starting); [by intros [|]| |exact H].
  clear st H. intros y z _ Hs IH. unfold after_hook in *. destruct Hs; cbn in *.
  - intros [E|E]; apply IH; [left; by eapply handler_no_end|by right].
  - intros [->|Hx%Z.eqb_eq]; (assert (Finished ∈ ts) by (apply IH; by left));
      case_match; try done; by apply elem_of_app; left.
  - intros E. eapply insert_keeps; [done|done|by apply IH].
  - intros E. eapply insert_keeps; [done|done|by apply IH].
  - intros _. apply list_elem_of_lookup. exists i. apply list_lookup_insert_eq.
    by eapply lookup_lt_Some.
Qed.

Lemma returns_after_hook_witness :
  after_hook (mk_ending 2 1 [Finished] true).
Proof.
  apply returns_after_hook. unfold reached, starting.
  eapply rtc_l; [apply (step_signal 0 0 [] false SIGTERM)|].
  eapply rtc_l; [apply (step_turn _ _ _ false)|]. cbn.
  eapply rtc_l; [by apply (step_check _ _ _ _ 0)|]. cbn.
  eapply rtc_l; [by apply (step_enter _ _ _ _ 0)|]. cbn.
  eapply rtc_l; [by apply (step_leave _ _ _ _ 0)|]. cbn.
  eapply rtc_l; [apply (step_turn 2 1 [Finished] false)|]. apply rtc_refl.
Defined.

(** An interrupted [pselect] creates two threads, and both can run the hook. *)
Lemma hooks_overlap : reached (mk_ending 1 1 [Hook; Hook] false).
Proof.
  unfold reached, starting. eapply rtc_l; [apply (step_signal 0 0 [] false SIGINT)|].
  eapply rtc_l; [apply (step_turn _ _ _ true)|]. cbn.
  eapply rtc_l; [by apply (step_check _ _ _ _ 0)|].
  eapply rtc_l; [by apply (step_check _ _ _ _ 1)|]. cbn.
  eapply rtc_l; [by apply (step_enter _ _ _ _ 0)|].
  eapply rtc_l; [by apply (step_enter _ _ _ _ 1)|]. apply rtc_refl.
Qed.

(** [ending] is set, no thread is on its way through the hook, and the loop does not know
    that the end was prepared. *)
Definition lost_end (st : ending_state) : Prop :=
  es_exit_program st <> 2 /\ es_ending st = 1 /\ es_returned st = false /\
  Forall (fun t => t <> Checked /\ t <> Hook) (es_threads st).

Lemma lost_end_step st st' : ending_step st st' -> lost_end st -> lost_end st'.
Proof.
  unfold lost_end. intros Hs (Hx & He & Hr & Ht). destruct Hs; cbn in *; subst.
  - split_and!; try done. intros E. by apply handler_no_end in E.
  - split_and!; try done; [by apply Z.eqb_neq|]. case_match; [|done].
    apply Forall_app. split; [done|]. by destruct interrupted; repeat constructor.
  - split_and!; try done. by apply Forall_insert.
  - by pose proof (Forall_lookup_1 _ _ _ _ Ht H) as [? _].
  - by pose proof (Forall_lookup_1 _ _ _ _ Ht H) as [_ ?].
Qed.

(** C30: A signal that comes when the end has been prepared, but before the loop has seen it,
    makes the program run for ever: the state can be reached, and whatever happens from
    there on, the loop does not end. *)
Theorem second_signal_runs_on :
  exists st, reached st /\ es_returned st = false /\
    forall st', rtc ending_step st st' -> es_returned st' = false.
Proof.
  exists (mk_ending 1 1 [Finished] false). split; [|split; [done|]].
  - unfold reached, starting. eapply rtc_l; [apply (step_signal 0 0 [] false SIGTERM)|].
    eapply rtc_l; [apply (step_turn _ _ _ false)|]. cbn.
    eapply rtc_l; [by apply (step_check _ _ _ _ 0)|]. cbn.
    eapply rtc_l; [by apply (step_enter _ _ _ _ 0)|]. cbn.
    eapply rtc_l; [by apply (step_leave _ _ _ _ 0)|]. cbn.
    eapply rtc_l; [apply (step_signal 2 1 [Finished] false SIGTERM)|]. apply rtc_refl.
  - intros st' H.
    assert (lost_end (mk_ending 1 1 [Finished] false)) as Hl by (split_and!; try done; by repeat constructor).
    assert (lost_end st') as (_ & _ & ? & _); [|done].
    revert Hl. induction H as [|a b c Hab _ IH]; [done|]. intros Ha. apply IH. by eapply lost_end_step.
Qed.

(** ** The start *)

(** A waiter that tests [loop_started] before the loop sets it and waits after that is not
    woken: nothing can happen any more, though the loop has started. *)
Theorem start_not_noticed :
  let st := mk_start 1 [Waiting] in
  rtc start_step (mk_start 0 [Testing]) st /\ forall st', ~ start_step st st'.
Proof.
  split.
  - eapply rtc_l; [by apply (step_test 0 [Testing] 0)|]. cbn.
    eapply rtc_l; [apply (step_started [Decided])|]. cbn.
    eapply rtc_l; [by apply (step_wait 1 [Decided] 0)|]. apply rtc_refl.
  - intros st' Hs. inversion Hs as [b ws i Hi|b ws i Hi|]; subst; by destruct i as [|[]].
Qed.

(** ** Errors of descriptors *)

(** A descriptor in the set was closed, and no one ends the program. *)
Definition bad_descriptors : contract :=
  {| guarantee := fun _ => True;
     rely := fun X e =>
       match e in env X return X -> Prop with
       | Local (LocalPselect _ _ _) => fun x => lo_ret x < 0 /\ lo_mode x = EBADF
       | Local LocalMeanwhile => fun x => 0 ∉ lo_bytes x
       | _ => fun _ => True
       end;
     may_crash := False; may_starve := True |}.

Lemma notice_no_end events x : 0 ∉ events -> x <> 2 -> notice events x <> 2.
Proof.
  revert x. induction events as [|e events IH]; intros x; [done|].
  intros [H0 He]%not_elem_of_cons Hx. cbn [notice foldl]. rewrite (proj2 (Z.eqb_neq e 0)) by done.
  apply IH; [done|]. intros E. by apply handler_no_end in E.
Qed.

Lemma deal_ok C w x (Q : unit -> world -> Prop) :
  Q tt w -> shoare C w (deal_with_server_signals x) Q.
Proof.
  intros HQ. unfold deal_with_server_signals, create_ending_thread. case_match; [|by apply shoare_ret].
  apply shoare_bind, shoare_ask; [constructor|]. intros _ _. by apply shoare_ret.
Qed.

(** "Too many fd errors, exiting": but the loop goes on. *)
Theorem bad_descriptors_spin fuel recv scan_extra_fds turns command_fd l w :
  lp_exit_program l <> 2 ->
  shoare bad_descriptors w (afp_main_loop fuel recv scan_extra_fds turns command_fd l) (fun _ _ => False).
Proof.
  intros Hl. unfold afp_main_loop. apply shoare_bind, shoare_modify, shoare_bind.
  assert (forall w', shoare bad_descriptors w' (loop_turns fuel recv scan_extra_fds turns command_fd l)
            (fun _ _ => False)) as Hturns.
  2: { case_match; [apply shoare_modify|apply shoare_ret]; apply Hturns. }
  clear w. revert l Hl. induction turns as [|turns IH]; intros l Hl w; cbn [loop_turns]; [exact I|].
  apply shoare_bind. unfold loop_turn. apply shoare_bind, shoare_get, shoare_bind, shoare_ask; [constructor|].
  intros ret [Hret Herr]. apply shoare_bind, shoare_ask; [constructor|]. intros events Hev. cbv zeta.
  pose proof (notice_no_end (lo_bytes events) (lp_exit_program l) Hev Hl) as Hn.
  rewrite (proj2 (Z.eqb_neq _ 2)) by done. apply shoare_bind, deal_ok.
  rewrite (proj2 (Z.ltb_lt _ 0)) by done. rewrite Herr. cbn [Z.eqb Pos.eqb EINTR EBADF].
  case_match; apply shoare_ret; by apply IH.
Qed.

Definition closed_descriptor : handler unit :=
  fun X e w =>
    match e in env X return X * unit with
    | Local (LocalPselect _ _ _) => (mk_local (-1) EBADF [], tt)
    | e => serving (fun _ w => (mk_answer 0 None [], w)) _ e w
    end.

Lemma bad_descriptors_spin_witness :
  shoare bad_descriptors (mk_world ∅ 0 no_descriptors)
    (afp_main_loop 0 (fun _ => mret 0) (fun _ _ => mret 0) 200 3 (mk_loop 0 0 0)) (fun _ _ => False) /\
  (run closed_descriptor
     (afp_main_loop 0 (fun _ => mret 0) (fun _ _ => mret 0) 200 3 (mk_loop 0 0 0)
        (mk_world ∅ 0 no_descriptors)) tt).1.2 = Starved.
Proof. split; [by apply bad_descriptors_spin|vm_compute; reflexivity]. Defined.

(** ** A client that says nothing *)

(** Only the socket for commands is ready, a client is accepted, and nothing is read from
    it. *)
Definition silent_client (command_fd new_fd : Z) : contract :=
  {| guarantee := fun _ => True;
     rely := fun X e =>
       match e in env X return X -> Prop with
       | Local (LocalAccept _) => fun x => lo_ret x = new_fd
       | Local (LocalRead fd _) => fun _ => fd <> new_fd
       | _ => fun _ => True
       end;
     may_crash := False; may_starve := False |}.

Lemma find_last {A} (f : A -> bool) l x :
  List.find f l = None -> f x = true -> List.find f (l ++ [x]) = Some x.
Proof.
  intros Hl Hx. induction l as [|y l IH]; cbn [List.find app] in *; [by rewrite Hx|].
  destruct (f y); [done|by apply IH].
Qed.

(** The main loop reads the command of a new client at once.  Until the client sends it, the
    loop does not come back, and no socket of a server is read. *)
Theorem silent_client_blocks malloc command_fd new_fd client_base w :
  0 <= new_fd ->
  Forall (fun pc => fc_fd pc.2 <> command_fd /\ fc_fd pc.2 <> new_fd) client_base ->
  shoare (silent_client command_fd new_fd) w
    (fuse_scan_extra_fds malloc command_fd [command_fd] client_base) (fun _ _ => False).
Proof.
  intros Hfd Hc. unfold fuse_scan_extra_fds. apply shoare_bind.
  rewrite bool_decide_eq_true_2 by (by apply list_elem_of_singleton).
  apply shoare_bind, shoare_ask; [constructor|]. intros r Hr. cbn in Hr. subst new_fd.
  rewrite (proj2 (Z.leb_le 0 _)) by done. apply shoare_bind, shoare_modify, shoare_ret.
  apply shoare_bind. unfold fuse_process_client_fds, Daemon.fuse_process_client_fds, fuse_add_client.
  assert (List.find (fun pc : Z * fuse_client => bool_decide (fc_fd pc.2 ∈ [lo_ret r; command_fd]))
            client_base = None) as Hnone.
  { clear -Hc. induction Hc as [|[p c] l [H1 H2] _ IH]; [done|]. cbn [List.find snd] in *.
    rewrite bool_decide_eq_false_2; [done|]. set_solver. }
  rewrite find_last; [|done|cbn; apply bool_decide_eq_true_2; by left].
  apply shoare_bind. unfold process_command. apply shoare_bind, shoare_ask; [constructor|].
  intros x Hx. by destruct Hx.
Qed.

Lemma silent_client_blocks_witness :
  shoare (silent_client 3 7) (mk_world ∅ 0 no_descriptors)
    (fuse_scan_extra_fds (fun _ => 100) 3 [3] [(50, mk_fuse_client 5 [] [])]) (fun _ _ => False).
Proof. apply silent_client_blocks; [lia|]. repeat constructor; cbn; lia. Defined.

(** ** Attention *)

(** No request may be sent. *)
Definition silent : contract := mk_contract (fun _ => False) (fun _ _ _ => True) False False.

(** A notice that the server shuts down or has crashed, without a message, ends the
    connection at once, however many minutes it gives: the socket is closed and no longer
    watched, the state is "disconnected", and nothing else changes. *)
Theorem attention_disconnects w s m packet length flags id :
  wo_heap w !! s = Some m ->
  ld32 8 packet = Some length -> 2 <= ntohl length ->
  ld16 16 packet = Some flags -> ld16 2 packet = Some id ->
  has (ntohs flags) (Z.lor AFPATTN_CRASH AFPATTN_SHUTDOWN) = true ->
  has (ntohs flags) AFPATTN_MESG = false ->
  shoare silent w (dsi_incoming_attention s packet) (fun x w' =>
    x = Some (ntohs id, Z.land (ntohs flags) 0xff) /\ wo_base w' = wo_base w /\
    wo_fds w' = disconnected m (wo_fds w) /\
    exists m', wo_heap w' = <[s := m']> (wo_heap w) /\ sm_next m' = sm_next m /\
      sm_volumes m' = sm_volumes m /\ sm_connect_state m' = SERVER_STATE_DISCONNECTED).
Proof.
  intros Hm Hl H2 Hf Hi Hs Hg. unfold dsi_incoming_attention.
  apply shoare_bind. eapply shoare_lift; [exact Hl|].
  rewrite (proj2 (Z.leb_le 2 _)) by done.
  apply shoare_bind. eapply shoare_lift; [exact Hf|]. apply shoare_bind. eapply shoare_lift; [exact Hi|].
  rewrite Hs, Hg. apply shoare_bind, shoare_ret, shoare_bind.
  eapply disconnect_ok; [done|]. intros m' Hn Hv. apply shoare_bind.
  eapply shoare_update; [apply lookup_insert_eq|]. apply shoare_ret.
  split_and!; try done. exists (set_sm_connect_state SERVER_STATE_DISCONNECTED m').
  split_and!; try done. unfold set_heap. cbn [wo_heap]. by rewrite insert_insert_eq.
Qed.

(** "Shutting down in 10 minutes" *)
Definition shutdown_notice : list Z :=
  [0; 8; 0; 7; 0; 0; 0; 0; 0; 0; 0; 2; 0; 0; 0; 0; 0x80; 10].

Lemma attention_disconnects_witness :
  exists w', run (reachable (fun _ => mk_answer 0 None []))
    (dsi_incoming_attention 1 shutdown_notice mounted_world) tt = ([], Done (Some (7, 10), w'), tt) /\
    sm_connect_state <$> (wo_heap w' !! 1) = Some SERVER_STATE_DISCONNECTED.
Proof.
  pose proof (attention_disconnects mounted_world 1 mounted_server shutdown_notice 0x2000000 0xa80 0x700
    eq_refl eq_refl ltac:(by vm_compute) eq_refl eq_refl eq_refl eq_refl) as Hok.
  assert (keeps silent (reachable (fun _ => mk_answer 0 None [])) (fun _ => True)) as Hk by by split.
  destruct (wp_run silent _ _ _ _ tt Hk I Hok) as (Hg & Hr & _).
  destruct (run _ _ tt) as [[rs o] []]. cbn [fst snd] in *. destruct o as [[x w']| |]; [|done|done].
  destruct rs as [|q rs]; [|by inversion Hg]. exists w'.
  destruct Hr as (Hx & _ & _ & m' & E & _ & _ & Hd). cbn [fst snd] in *. subst x. split; [reflexivity|]. rewrite E, lookup_insert_eq. cbn. by rewrite Hd.
Defined.

End MainLoop.
