(* ===== verification/Getopt.v ===== *)
(** * Command lines

    The function [getopt_long] of the C library as the programs use it: options anywhere
    between the other arguments, short ones with their argument attached or behind, long
    ones that can be abbreviated. *)

From S2P Require Import Prelude.

Module Getopt.

Definition dash : Z := 45.
Definition equals : Z := 61.
Definition question : Z := 63.

(** The letters with whether they take an argument, and [struct option]: name, whether
    there is an argument, and the letter that is returned. *)
Definition short_options : Type := list (Z * bool).
Definition long_options : Type := list (list Z * bool * Z).

(** The letter that is returned, "?" for an error, and [optarg]. *)
Definition event : Type := Z * option (list Z).
Definition unknown : event := (question, None).

Definition takes_argument (opts : short_options) (c : Z) : option bool :=
  snd <$> List.find (fun o => o.1 =? c) opts.

(** The letters of one argument; the last may need the next argument. *)
Fixpoint cluster (opts : short_options) (s : list Z) : list event * option Z :=
  match s with
  | [] => ([], None)
  | c :: s =>
    match takes_argument opts c with
    | None => let '(es, next) := cluster opts s in (unknown :: es, next)
    | Some false => let '(es, next) := cluster opts s in ((c, None) :: es, next)
    | Some true => match s with [] => ([], Some c) | _ => ([(c, Some s)], None) end
    end
  end.

Definition is_prefix (a b : list Z) : bool := bool_decide (a `prefix_of` b).

(** The option with that name, or the only one that begins with it. *)
Definition find_long (longs : long_options) (name : list Z) : option (list Z * bool * Z) :=
  match List.find (fun o => bytes_eqb o.1.1 name) longs with
  | Some o => Some o
  | None => match filter (fun o => is_prefix name o.1.1 = true) longs with
            | [o] => Some o
            | _ => None
            end
  end.

(** A long option without its dashes: its events, or the letter that needs an argument. *)
Definition long_event (longs : long_options) (s : list Z) : list event * option Z :=
  let '(name, value) := match index_of equals s with
                        | Some i => (take i s, Some (drop (S i) s))
                        | None => (s, None)
                        end in
  match find_long longs name, value with
  | None, _ => ([unknown], None)
  | Some (_, true, c), Some v => ([(c, Some v)], None)
  | Some (_, true, c), None => ([], Some c)
  | Some (_, false, _), Some _ => ([unknown], None)
  | Some (_, false, c), None => ([(c, None)], None)
  end.

(** All events, and the arguments that are not options, in the order in which they stand
    from [optind] on at the end. *)
Fixpoint getopt_long (opts : short_options) (longs : long_options) (args : list (list Z))
    : list event * list (list Z) :=
  match args with
  | [] => ([], [])
  | a :: args =>
    let with_next (es : list event) (next : option Z) :=
      match next, args with
      | None, _ => let '(es', rest) := getopt_long opts longs args in (es ++ es', rest)
      | Some _, [] => (es ++ [unknown], [])
      | Some c, b :: args =>
        let '(es', rest) := getopt_long opts longs args in (es ++ (c, Some b) :: es', rest)
      end in
    match a with
    | d :: c :: s =>
      if negb (d =? dash) then let '(es, rest) := getopt_long opts longs args in (es, a :: rest)
      else if c =? dash then
        match s with
        | [] => ([], args)
        | _ => let '(es, next) := long_event longs s in with_next es next
        end
      else let '(es, next) := cluster opts (c :: s) in with_next es next
    | _ => let '(es, rest) := getopt_long opts longs args in (es, a :: rest)
    end
  end.

(** ** Option by option *)

Section lemmas.
Context (opts : short_options) (longs : long_options).

(** An argument that is no option. *)
Definition operand (a : list Z) : Prop := head a <> Some dash \/ (length a < 2)%nat.

Lemma getopt_operand a args :
  operand a ->
  getopt_long opts longs (a :: args) =
    ((getopt_long opts longs args).1, a :: (getopt_long opts longs args).2).
Proof using Type.
  intros Ha. cbn [getopt_long]. destruct (getopt_long opts longs args) as [es rest].
  destruct a as [|d [|c s]]; try done. destruct Ha as [Ha|Ha]; [|simpl in Ha; lia].
  assert (d <> dash) as Hd by (intros ->; by apply Ha).
  by rewrite (proj2 (Z.eqb_neq d dash)).
Qed.

Lemma getopt_operands args :
  Forall operand args -> getopt_long opts longs args = ([], args).
Proof using Type.
  induction 1 as [|a args Ha _ IH]; [done|]. by rewrite getopt_operand, IH.
Qed.

(** A letter with its argument behind it. *)
Lemma getopt_short c b args :
  c <> dash -> takes_argument opts c = Some true ->
  getopt_long opts longs ([dash; c] :: b :: args) =
    ((c, Some b) :: (getopt_long opts longs args).1, (getopt_long opts longs args).2).
Proof using Type.
  intros Hc Ht. cbn [getopt_long]. rewrite Z.eqb_refl, (proj2 (Z.eqb_neq c dash)) by done.
  cbn [negb cluster]. rewrite Ht. by destruct (getopt_long opts longs args).
Qed.

(** *** What is made of the characters of the arguments *)
Section characters.
Context (P : Z -> Prop).

Definition event_of (e : event) : Prop := match e.2 with Some s => Forall P s | None => True end.

Lemma cluster_of s : Forall P s -> Forall event_of (cluster opts s).1.
Proof using Type.
  induction 1 as [|c s Hc Hs IH]; cbn [cluster]; [constructor|].
  destruct (takes_argument opts c) as [[]|].
  - destruct s; [constructor|]. apply Forall_cons. by split; [|constructor].
  - destruct (cluster opts s). by constructor.
  - destruct (cluster opts s). by constructor.
Qed.

Lemma long_event_of s : Forall P s -> Forall event_of (long_event longs s).1.
Proof using Type.
  intros Hs. unfold long_event. destruct (index_of equals s) as [i|];
    destruct (find_long longs _) as [[[name []] c]|]; repeat constructor. by apply Forall_drop.
Qed.

Lemma getopt_of args :
  Forall (Forall P) args ->
  Forall event_of (getopt_long opts longs args).1 /\ Forall (Forall P) (getopt_long opts longs args).2.
Proof using Type.
  assert (forall n args, (length args <= n)%nat -> Forall (Forall P) args ->
    Forall event_of (getopt_long opts longs args).1 /\
    Forall (Forall P) (getopt_long opts longs args).2) as H; [|by eapply H].
  clear args. induction n as [|n IH]; intros args Hn Ha; [by destruct args; cbn in Hn; [|lia]|].
  destruct Ha as [|a args Ha Hargs]; [done|]. cbn [length] in Hn.
  destruct (IH args ltac:(lia) Hargs) as [He Hr].
  assert (forall es next, Forall event_of es ->
    Forall event_of (match next, args with
      | None, _ => let '(es', rest) := getopt_long opts longs args in (es ++ es', rest)
      | Some _, [] => (es ++ [unknown], [])
      | Some c, b :: args =>
        let '(es', rest) := getopt_long opts longs args in (es ++ (c, Some b) :: es', rest) end).1 /\
    Forall (Forall P) (match next, args with
      | None, _ => let '(es', rest) := getopt_long opts longs args in (es ++ es', rest)
      | Some _, [] => (es ++ [unknown], [])
      | Some c, b :: args =>
        let '(es', rest) := getopt_long opts longs args in (es ++ (c, Some b) :: es', rest) end).2) as Hnext.
  { intros es [c|] Hes.
    - destruct Hargs as [|b args Hb Hargs]; [split; [|done]; apply Forall_app_2; [done|by repeat constructor]|].
      cbn [length] in Hn. destruct (IH args ltac:(lia) Hargs) as [He' Hr'].
      destruct (getopt_long opts longs args). cbn in *. split; [|done].
      apply Forall_app_2; [done|]. by constructor.
    - destruct (getopt_long opts longs args). cbn in *. split; [by apply Forall_app_2|done]. }
  assert (Forall event_of (let '(es, rest) := getopt_long opts longs args in (es, a :: rest)).1 /\
    Forall (Forall P) (let '(es, rest) := getopt_long opts longs args in (es, a :: rest)).2) as Hoperand.
  { destruct (getopt_long opts longs args). cbn in *. by split; [|constructor]. }
  cbn [getopt_long]. destruct a as [|d [|c s]]; try done.
  apply Forall_cons in Ha as [_ Ha]. destruct (negb (d =? dash)); [done|].
  destruct (c =? dash).
  - apply Forall_cons in Ha as [_ Ha]. destruct s as [|c' s]; [done|].
    pose proof (long_event_of (c' :: s) Ha) as Hlong.
    destruct (long_event longs (c' :: s)) as [es next]. by apply Hnext.
  - pose proof (cluster_of (c :: s) Ha) as Hcluster.
    destruct (cluster opts (c :: s)) as [es next]. by apply Hnext.
Qed.

End characters.

End lemmas.

(** A password attached to its letter, an abbreviated long option, and an operand between
    options. *)
Example getopt_mixed :
  getopt_long [(117, true); (112, true)] [(str "user", true, 117); (str "pass", true, 112)]
    [str "mount"; str "-psecret"; str "--us=me"; str "host:vol"; str "--"; str "-x"] =
  ([(112, Some (str "secret")); (117, Some (str "me"))], [str "mount"; str "host:vol"; str "-x"]).
Proof. reflexivity. Qed.

End Getopt.
