(* ===== verification/MountClient.v ===== *)
(** * The client of the mount daemon: fuse/client.c

    The command lines of afp_client and mount_afp, the request they make in the outgoing
    buffer, the connection to the daemon, and how the daemon reads the request.  The answer
    is read by [Daemon.read_answer]; what is printed is left out. *)

From stdpp Require Import gmap.
From S2P Require Import Prelude Text Constants Types Utils Dsi ProtoFiles ProtoVolume Client UamsDef.
From S2P Require Import Users Url Auth Session Daemon Servers Connect Mount Getopt.

Module MountClient.
Import Text Client UamsDef Users Auth Daemon Getopt.
Import Mount.

(** Programs of their own process; they have no state of the AFP client. *)
#[export] Instance prog_ret : MRet prog := fun A => Ret.
#[export] Instance prog_monad : MBind prog := fun A B f p => prog_bind p f.

Definition pask {X : Set} (e : env X) : prog X := Ask e Ret.
Definition plift {A} (o : option A) : prog A := match o with Some a => Ret a | None => Crash end.
Definition presult {A} (o : outcome A) : prog A :=
  match o with Done a => Ret a | Crashed => Crash | Starved => NoFuel end.

(** ** The request to mount

    [outgoing_buffer] holds the command and behind it the structure, whose fields start at
    these positions of the buffer and have these sizes. *)
Inductive mount_field :=
| F_protocol | F_username | F_uamname | F_password | F_servername | F_port | F_volumename
| F_path | F_requested_version | F_zone | F_volpassword | F_uam_mask | F_mountpoint
| F_volume_options | F_map | F_changeuid.

Definition field_place (f : mount_field) : nat * nat :=
  match f with
  | F_protocol => (1, 4) | F_username => (5, 127) | F_uamname => (132, 50)
  | F_password => (182, 127) | F_servername => (309, 255) | F_port => (565, 4)
  | F_volumename => (569, 33) | F_path => (602, 768) | F_requested_version => (1373, 4)
  | F_zone => (1377, 255) | F_volpassword => (1632, 9) | F_uam_mask => (1641, 4)
  | F_mountpoint => (1645, 255) | F_volume_options => (1901, 4) | F_map => (1905, 4)
  | F_changeuid => (1909, 4)
  end%nat.
Definition offset (f : mount_field) : nat := (field_place f).1.
Definition size (f : mount_field) : nat := (field_place f).2.

Definition MAX_OUTGOING_LENGTH : nat := Z.to_nat 8192.
Definition AFP_SERVER_COMMAND_MOUNT : Z := 1.
Definition AFP_SERVER_COMMAND_PING : Z := 6.
Definition mount_length : nat := 1913.

(** [snprintf(req->field,n,"%s",s)] *)
Definition put_string (f : mount_field) (n : nat) (s buffer : list Z) : option (list Z) :=
  blit (offset f) (take (n - 1) s ++ [0]) buffer.
Definition put_int (f : mount_field) (x : Z) (buffer : list Z) : option (list Z) :=
  blit (offset f) (le_bytes 4 (u32 x)) buffer.

Definition get_string (f : mount_field) (buffer : list Z) : option (list Z) :=
  cstr (drop (offset f) buffer).
Definition get_int (f : mount_field) (buffer : list Z) : option Z := ld32 (offset f) buffer.

(** ** afp_client *)

Definition DEFAULT_MOUNT_FLAGS : Z := 0x34.

Definition mount_options : short_options :=
  (fun c => (c, true)) <$> str "aumopvV".
Definition mount_long_options : long_options :=
  [(str "afpversion", true, 118); (str "volumepassword", true, 86); (str "user", true, 117);
   (str "pass", true, 112); (str "port", true, 111); (str "uam", true, 97); (str "map", true, 109)].

(** The switch on the letter; [optarg] is there for all of them. *)
Definition mount_option (e : event) (state : list Z * Z) : option (list Z * Z) :=
  let '(buffer, uam_mask) := state in
  let store (o : option (list Z)) := buffer ← o; Some (buffer, uam_mask) in
  match e with
  | (c, Some optarg) =>
    if c =? 97 then
      Some (buffer, if bytes_eqb optarg (str "guest") then UAM_NOUSERAUTHENT
                    else uam_string_to_bitmap optarg)
    else if c =? 109 then store (put_int F_map (map_string_to_num optarg) buffer)
    else if c =? 117 then store (put_string F_username 127 optarg buffer)
    else if c =? 111 then store (put_int F_port (Url.strtol optarg) buffer)
    else if c =? 112 then store (put_string F_password 127 optarg buffer)
    else if c =? 86 then store (put_string F_volpassword 9 optarg buffer)
    else if c =? 118 then store (put_int F_requested_version (Url.strtol optarg) buffer)
    else Some state
  | (_, None) => Some state
  end.

Fixpoint mount_events (es : list event) (state : list Z * Z) : option (list Z * Z) :=
  match es with
  | [] => Some state
  | e :: es => state ← mount_option e state; mount_events es state
  end.

(** A field that is "-" is asked for. *)
Definition ask_password (f : mount_field) (n : nat) (buffer : list Z) : prog (list Z) :=
  password ← plift (get_string f buffer);
  if bytes_eqb password (str "-") then
    p ← pask (Local LocalGetpass);
    if lo_ret p <? 0 then mret buffer else plift (put_string f n (lo_bytes p) buffer)
  else mret buffer.

(** [%[^':']] *)
Fixpoint scan_name (s : list Z) : list Z :=
  match s with
  | c :: s => if (c =? 39) || (c =? 58) then [] else c :: scan_name s
  | [] => []
  end.

(** [sscanf(s,"%[^':']:%[^':']",servername,volumename)]: whether both were read.  The
    conversions have no width. *)
Definition scan_location (s buffer : list Z) : option (bool * list Z) :=
  match scan_name s with
  | [] => Some (false, buffer)
  | servername =>
    buffer ← blit (offset F_servername) (servername ++ [0]) buffer;
    match drop (length servername) s with
    | c :: rest =>
      if c =? 58 then
        match scan_name rest with
        | [] => Some (false, buffer)
        | volumename =>
          buffer ← blit (offset F_volumename) (volumename ++ [0]) buffer; Some (true, buffer)
        end
      else Some (false, buffer)
    | [] => Some (false, buffer)
    end
  end.

(** The message to send, [None] for -1.  [argv] has [argc] elements; "mount" is the first
    of the arguments that are not options. *)
Definition do_mount (buffer : list Z) (argv : list (list Z)) : prog (option (list Z)) :=
  if bool_decide (length argv < 4)%nat then mret None
  else
    buffer ← plift (zero_fill 0 mount_length buffer);
    buffer ← plift (blit 0 [AFP_SERVER_COMMAND_MOUNT] buffer);
    buffer ← plift (put_int F_port 548 buffer);
    buffer ← plift (put_int F_map AFP_MAPPING_UNKNOWN buffer);
    let '(events, rest) := getopt_long mount_options mount_long_options (drop 1 argv) in
    '(buffer, uam_mask) ← plift (mount_events events (buffer, default_uams_mask));
    buffer ← ask_password F_password 127 buffer;
    buffer ← ask_password F_volpassword 9 buffer;
    match rest with
    | _ :: location :: rest =>
      '(ok, buffer) ← plift (scan_location location buffer);
      if negb (ok : bool) then mret None
      else if uam_mask =? 0 then mret None
      else
        buffer ← plift (put_int F_uam_mask uam_mask buffer);
        buffer ← plift (put_int F_volume_options DEFAULT_MOUNT_FLAGS buffer);
        match rest with
        | mountpoint :: _ =>
          buffer ← plift (put_string F_mountpoint 255 mountpoint buffer);
          mret (Some (take mount_length buffer))
        | [] => mret None
        end
    | _ => mret None
    end.

Definition status_options : short_options := [(118, true); (115, true)].
Definition status_long_options : long_options := [(str "volume", true, 118); (str "server", true, 115)].

(** The command and two names, of which the second stays empty. *)
Definition do_status (argv : list (list Z)) : option (list Z) :=
  let option req (e : event) :=
    match e with
    | (c, Some optarg) =>
      if c =? 118 then blit 1 (take (Z.to_nat AFP_VOLUME_NAME_LEN - 1) optarg ++ [0]) req else Some req
    | _ => Some req
    end in
  let '(events, _) := getopt_long status_options status_long_options (drop 1 argv) in
  foldl (fun req e => req ← req; option req e) (Some (AFP_SERVER_COMMAND_STATUS :: replicate 66 0)) events.

(** The name of a server behind the command. *)
Definition name_command (request : list Z -> list Z) (argv : list (list Z)) : option (list Z) :=
  request <$> argv !! 2%nat.

(** Without a mount point [snprintf] gets NULL and prints it as "(null)". *)
Definition do_unmount (argv : list (list Z)) : option (list Z) :=
  if bool_decide (length argv < 2)%nat then None
  else Some (Daemon.do_unmount (default (str "(null)") (argv !! 2%nat))).

Definition begins (prefix s : list Z) : bool := bytes_eqb (take (length prefix) s) prefix.

(** The message, [None] for -1. *)
Definition prepare_buffer (buffer : list Z) (argv : list (list Z)) : prog (option (list Z)) :=
  match argv !! 1%nat with
  | None => mret None
  | Some command =>
    if begins (str "mount") command then do_mount buffer argv
    else if begins (str "resume") command then mret (name_command do_resume argv)
    else if begins (str "suspend") command then mret (name_command do_suspend argv)
    else if begins (str "status") command then m ← plift (do_status argv); mret (Some m)
    else if begins (str "unmount") command then mret (do_unmount argv)
    else if begins (str "exit") command then mret (Some do_exit)
    else mret None
  end.

(** ** mount_afp *)

(** [volpass], [readonly], and the variables [uid], [gid], [changeuid] and [changegid]. *)
Record mount_settings := mk_settings {
  se_volpass : option (list Z); se_readonly : bool; se_uid : Z; se_gid : Z;
  se_changeuid : Z; se_changegid : Z }.

(** One option, in [command], an array of 256 bytes, and [p], where it starts in the
    argument; [None] is -1. *)
Definition mount_setting (command p : list Z) (s : mount_settings) : prog (option mount_settings) :=
  let arg n := drop n command in
  if begins (str "volpass=") command then
    mret (Some (mk_settings (Some (drop 8 p)) (se_readonly s) (se_uid s) (se_gid s)
                  (se_changeuid s) (se_changegid s)))
  else if begins (str "user=") command then
    r ← pask (Local (LocalGetpwnam (arg 5%nat)));
    if lo_ret r <? 0 then mret None
    else
      euid ← pask Geteuid;
      mret (Some (mk_settings (se_volpass s) (se_readonly s) (lo_mode r) (se_gid s)
                    (if euid =? lo_mode r then se_changeuid s else 1) (se_changegid s)))
  else if begins (str "group=") command then
    r ← pask (Local (LocalGetgrnam (arg 6%nat)));
    if lo_ret r <? 0 then mret None
    else mret (Some (mk_settings (se_volpass s) (se_readonly s) (se_uid s) (lo_mode r)
                       (se_changeuid s) 1))
  else if bytes_eqb command (str "rw") then mret (Some s)
  else if bytes_eqb command (str "ro") then
    mret (Some (mk_settings (se_volpass s) true (se_uid s) (se_gid s) (se_changeuid s)
                  (se_changegid s)))
  else mret (Some s).

Definition comma : Z := 44.

(** [do { ... } while (p);] *)
Fixpoint mount_settings_loop (fuel : nat) (p : list Z) (s : mount_settings)
    : prog (option mount_settings) :=
  match fuel with
  | O => NoFuel
  | S fuel =>
    let q := index_of comma p in
    let command := match q with Some i => take i p | None => p end in
    if bool_decide (256 <= length command)%nat then Crash
    else
      s ← mount_setting command p s;
      match s, q with
      | None, _ => mret None
      | Some s, None => mret (Some s)
      | Some s, Some i => mount_settings_loop fuel (drop (S i) p) s
      end
  end.

(** The strings of a URL, each with its NUL; the port and the protocol. *)
Definition store_url (url : Url.afp_url) (buffer : list Z) : option (list Z) :=
  let put f s buffer := blit (offset f) (s ++ [0]) buffer in
  buffer ← put F_username (Url.ur_username url) buffer;
  buffer ← put F_uamname (Url.ur_uamname url) buffer;
  buffer ← put F_password (Url.ur_password url) buffer;
  buffer ← put F_servername (Url.ur_servername url) buffer;
  buffer ← put_int F_port (Url.ur_port url) buffer;
  buffer ← put F_volumename (Url.ur_volumename url) buffer;
  put F_path (Url.ur_path url) buffer.

(** [first] is what an array of [afp_parse_url] holds.  The message with the settings. *)
Definition handle_mount_afp (fuel : nat) (first buffer : list Z) (s : mount_settings)
    (argv : list (list Z)) : prog (option (list Z * mount_settings)) :=
  match argv !! 1%nat with
  | None => mret None
  | Some arg1 =>
    let with_options := begins (str "-o") arg1 in
    s ← (if with_options
         then p ← plift (argv !! 2%nat); mount_settings_loop fuel p s
         else mret (Some s));
    match s with
    | None => mret None
    | Some s =>
      let '(urlstring, mountpoint) := if with_options then (argv !! 3%nat, argv !! 4%nat)
                                      else (argv !! 1%nat, argv !! 2%nat) in
      buffer ← plift (zero_fill 0 mount_length buffer);
      buffer ← plift (put_int F_port 548 buffer);
      buffer ← plift (put_int F_changeuid (se_changeuid s) buffer);
      let options := if se_readonly s then Z.lor DEFAULT_MOUNT_FLAGS VOLUME_EXTRA_FLAGS_READONLY
                     else DEFAULT_MOUNT_FLAGS in
      buffer ← plift (put_int F_volume_options options buffer);
      buffer ← plift (put_int F_uam_mask default_uams_mask buffer);
      buffer ← plift (blit 0 [AFP_SERVER_COMMAND_MOUNT] buffer);
      buffer ← plift (put_int F_map AFP_MAPPING_UNKNOWN buffer);
      buffer ← plift (put_string F_mountpoint 255 (default (str "(null)") mountpoint) buffer);
      urlstring ← plift urlstring;
      '(rc, url) ← presult (Url.afp_parse_url fuel first Url.afp_default_url urlstring);
      if negb (rc =? 0) then mret None
      else
        buffer ← plift (store_url url buffer);
        buffer ← ask_password F_password 127 buffer;
        volpass ← match se_volpass s with
                  | Some v =>
                    if bytes_eqb v (str "-") then
                      p ← pask (Local LocalGetpass);
                      mret (if lo_ret p <? 0 then None else Some (lo_bytes p))
                    else mret (Some v)
                  | None => mret None
                  end;
        buffer ← match volpass with
                 | Some v => plift (put_string F_volpassword 9 v buffer)
                 | None => mret buffer
                 end;
        mret (Some (take mount_length buffer, s))
    end
  end.

(** ** The connection to the daemon *)

Definition SERVER_FILENAME : list Z := str "/tmp/afp_server".
Definition AFPFSD_FILENAME : list Z := str "afpfsd".

Definition command_file (uid : Z) : list Z := SERVER_FILENAME ++ str "-" ++ signed uid.

(** The name behind the last slash, of an argument that does not end in one. *)
Definition basename (s : list Z) : list Z :=
  match last_index_of 47 s with Some i => drop (S i) s | None => s end.

(** The program is replaced ([None]), or the return value.  X_OK is what access() is asked. *)
Definition exec_afpfsd (thisbin : list Z) : prog (option Z) :=
  path ← pask (Local (LocalGetenv (str "PATH")));
  filename ←
    (if lo_ret path <? 0 then
       let local := str "/usr/local/bin/" ++ AFPFSD_FILENAME in
       r ← pask (Local (LocalAccess local));
       if lo_ret r =? 0 then mret (Some local)
       else
         let usr := str "/usr/bin/" ++ AFPFSD_FILENAME in
         r ← pask (Local (LocalAccess usr));
         mret (if lo_ret r =? 0 then Some usr else None)
     else mret (Some AFPFSD_FILENAME));
  match filename with
  | None => mret (Some (-1))
  | Some filename =>
    r ← pask (Local (LocalExec filename));
    if lo_ret r =? 0 then mret None
    else if lo_mode r =? ENOENT then
      r ← pask (Local (LocalExec (basename thisbin ++ str "/" ++ AFPFSD_FILENAME)));
      mret (if lo_ret r =? 0 then None else Some (-1))
    else mret (Some (-1))
  end.

Definition start_afpfsd (thisbin : list Z) (s : mount_settings) : prog (option Z) :=
  child ← pask (Local LocalFork);
  if negb (lo_ret child =? 0) then mret (Some 0)
  else
    gid ← (if se_changegid s =? 0 then mret 0
           else r ← pask (Local (LocalSetegid (se_gid s))); mret (lo_ret r));
    if negb (gid =? 0) then mret (Some (-1))
    else
      uid ← (if se_changeuid s =? 0 then mret 0
             else r ← pask (Local (LocalSeteuid (se_uid s))); mret (lo_ret r));
      if negb (uid =? 0) then mret (Some (-1)) else exec_afpfsd thisbin.

(** The socket, or -1; [None] is a new process that has become the daemon. *)
Fixpoint connect_loop (trying : nat) (thisbin : list Z) (s : mount_settings) (sock : Z)
    : prog (option Z) :=
  match trying with
  | O => mret (Some (-1))
  | S trying =>
    let connect := pask (Local (LocalUnixConnect sock (command_file (se_uid s)))) in
    r ← connect;
    if 0 <=? lo_ret r then mret (Some sock)
    else
      started ← start_afpfsd thisbin s;
      match started with
      | None => mret None
      | Some rc =>
        if negb (rc =? 0) then mret (Some (-1))
        else
          r ← connect;
          if 0 <=? lo_ret r then mret (Some sock)
          else pask (Sleep 1);; connect_loop trying thisbin s sock
      end
  end.

Definition daemon_connect (thisbin : list Z) (s : mount_settings) : prog (option Z) :=
  sock ← pask (Local LocalUnixSocket);
  if lo_ret sock <? 0 then mret (Some (-1)) else connect_loop 2 thisbin s (lo_ret sock).

(** Up to [read_answer]: the socket on which the answer comes, -1 if there is none. *)
Definition main (fuel : nat) (first : list Z) (argv : list (list Z)) : prog (option Z) :=
  thisbin ← plift (argv !! 0%nat);
  uid ← pask Geteuid;
  let buffer := replicate MAX_OUTGOING_LENGTH 0 in
  let s := mk_settings None false uid 0 0 0 in
  message ←
    (if strstr thisbin (str "mount_afp") then handle_mount_afp fuel first buffer s argv
     else m ← prepare_buffer buffer argv; mret ((fun m => (m, s)) <$> m));
  match message with
  | None => mret (Some (-1))
  | Some (outgoing, s) =>
    sock ← daemon_connect thisbin s;
    match sock with
    | None => mret None
    | Some sock =>
      if sock <? 0 then mret (Some (-1))
      else pask (Local (LocalWrite sock outgoing));; mret (Some sock)
    end
  end.

(** ** How the daemon reads it: fuse/commands.c *)

Definition read_url (incoming : list Z) : option Url.afp_url :=
  username ← get_string F_username incoming;
  uamname ← get_string F_uamname incoming;
  password ← get_string F_password incoming;
  servername ← get_string F_servername incoming;
  port ← get_int F_port incoming;
  volumename ← get_string F_volumename incoming;
  path ← get_string F_path incoming;
  Some (Url.mk_url username uamname password servername (i32 port) volumename path).

Definition read_mount_request (incoming : list Z) : option mount_request :=
  url ← read_url incoming;
  requested_version ← get_int F_requested_version incoming;
  volpassword ← slice (offset F_volpassword) (size F_volpassword) incoming;
  uam_mask ← get_int F_uam_mask incoming;
  mountpoint ← get_string F_mountpoint incoming;
  volume_options ← get_int F_volume_options incoming;
  map ← get_int F_map incoming;
  changeuid ← get_int F_changeuid incoming;
  Some (mk_mount_request url (i32 requested_version) volpassword uam_mask mountpoint
          volume_options map (i32 changeuid)).

(** [incoming_string], cleared, with the bytes read in front. *)
Definition incoming_string (message : list Z) : list Z := resize 2048 0 message.

Definition read_command (message : list Z) : option daemon_command :=
  let incoming := incoming_string message in
  let incoming_size := Z.of_nat (length message) in
  command ← head incoming;
  if command =? AFP_SERVER_COMMAND_MOUNT then
    CommandMount incoming_size <$> read_mount_request incoming
  else if command =? AFP_SERVER_COMMAND_STATUS then Some (CommandStatus incoming_size)
  else if command =? AFP_SERVER_COMMAND_UNMOUNT then CommandUnmount <$> cstr (drop 1 incoming)
  else if command =? AFP_SERVER_COMMAND_SUSPEND then CommandSuspend <$> cstr (drop 1 incoming)
  else if command =? AFP_SERVER_COMMAND_RESUME then CommandResume <$> cstr (drop 1 incoming)
  else if command =? AFP_SERVER_COMMAND_PING then Some CommandPing
  else if command =? AFP_SERVER_COMMAND_EXIT then Some CommandExit
  else Some CommandUnknown.

(** ** Fields of the buffer *)

(** The bytes that matter of a field: a string with its NUL, or an integer. *)
Definition field_value (r : mount_request) (f : mount_field) : list Z :=
  let url := mr_url r in
  match f with
  | F_username => Url.ur_username url ++ [0]
  | F_uamname => Url.ur_uamname url ++ [0]
  | F_password => Url.ur_password url ++ [0]
  | F_servername => Url.ur_servername url ++ [0]
  | F_port => le_bytes 4 (u32 (Url.ur_port url))
  | F_volumename => Url.ur_volumename url ++ [0]
  | F_path => Url.ur_path url ++ [0]
  | F_requested_version => le_bytes 4 (u32 (mr_requested_version r))
  | F_volpassword => mr_volpassword r ++ [0]
  | F_uam_mask => le_bytes 4 (u32 (mr_uam_mask r))
  | F_mountpoint => mr_mountpoint r ++ [0]
  | F_volume_options => le_bytes 4 (u32 (mr_volume_options r))
  | F_map => le_bytes 4 (u32 (mr_map r))
  | F_changeuid => le_bytes 4 (u32 (mr_changeuid r))
  | F_protocol | F_zone => []
  end.

(** The buffer holds the request; the volume password is given up to its NUL. *)
Definition represents (buffer : list Z) (r : mount_request) : Prop :=
  length buffer = MAX_OUTGOING_LENGTH /\ head buffer = Some AFP_SERVER_COMMAND_MOUNT /\
  forall f, exists rest, slice (offset f) (size f) buffer = Some (field_value r f ++ rest).

#[export] Instance mount_field_eq_dec : EqDecision mount_field.
Proof. solve_decision. Defined.

Lemma fields_disjoint f g :
  f <> g -> (offset f + size f <= offset g)%nat \/ (offset g + size g <= offset f)%nat.
Proof.
  intros H.
  assert (bool_decide (f = g) || (offset f + size f <=? offset g)%nat
          || (offset g + size g <=? offset f)%nat = true) as Hd by (destruct f, g; reflexivity).
  rewrite bool_decide_eq_false_2 in Hd by done. cbn [orb] in Hd.
  apply orb_true_iff in Hd as [Hd|Hd]; apply Nat.leb_le in Hd; [by left|by right].
Qed.

Lemma field_bounds f : (1 <= offset f)%nat /\ (offset f + size f <= mount_length)%nat.
Proof. unfold mount_length. destruct f; cbn; lia. Qed.

Lemma slice_blit_same off len (src b b' : list Z) :
  blit off src b = Some b' -> (length src <= len)%nat -> (off + len <= length b)%nat ->
  exists rest, slice off len b' = Some (src ++ rest).
Proof.
  intros Hb Hs Hl. pose proof (blit_length _ _ _ _ Hb) as Hl'.
  apply blit_Some in Hb as [H ->]. eexists. apply slice_Some. split; [lia|].
  rewrite drop_app_length' by (rewrite length_take; lia). by rewrite take_app, take_ge.
Qed.

Lemma slice_blit_other off len off' (src b b' : list Z) :
  blit off' src b = Some b' -> (off + len <= off')%nat \/ (off' + length src <= off)%nat ->
  slice off len b' = slice off len b.
Proof.
  intros Hb Hd. pose proof (blit_length _ _ _ _ Hb) as Hl. apply blit_Some in Hb as [H ->].
  unfold slice. rewrite Hl. case_decide as Hin; [|done]. f_equal. destruct Hd as [Hd|Hd].
  - rewrite drop_app_le by (rewrite length_take; lia).
    rewrite take_app_le by (rewrite length_drop, length_take; lia).
    rewrite skipn_firstn_comm. rewrite take_take. f_equal. lia.
  - rewrite app_assoc, drop_app_ge by (rewrite length_app, length_take; lia).
    rewrite drop_drop, length_app, length_take. do 2 f_equal. lia.
Qed.

Lemma slice_take off len n (b x : list Z) :
  (off + len <= n)%nat -> (n <= length b)%nat -> slice off len (take n b ++ x) = slice off len b.
Proof.
  intros Hn Hb. rewrite <- (take_drop n b) at 2. unfold slice.
  rewrite !decide_True by (rewrite !length_app, ?length_take; lia). f_equal.
  rewrite !drop_app_le by (rewrite length_take; lia).
  by rewrite !take_app_le by (rewrite length_drop, length_take; lia).
Qed.

Lemma cstr_slice off len (b s rest : list Z) :
  slice off len b = Some (s ++ 0 :: rest) -> nul_free s -> cstr (drop off b) = Some s.
Proof.
  intros [_ Hb]%slice_Some Hs. rewrite <- (take_drop len (drop off b)), <- Hb.
  rewrite <- app_assoc. by apply (cstr_app s).
Qed.

(** Writing a field. *)
Lemma represents_write f buffer r r' :
  represents buffer r -> (length (field_value r' f) <= size f)%nat ->
  (forall g, g <> f -> field_value r' g = field_value r g) ->
  exists buffer', blit (offset f) (field_value r' f) buffer = Some buffer' /\ represents buffer' r'.
Proof.
  intros (Hl & Hh & Hf) Hs Hg. pose proof (field_bounds f) as [H1 H2].
  unfold mount_length in H2.
  assert (length buffer = Z.to_nat 8192) as Hl' by (rewrite Hl; reflexivity).
  destruct (blit (offset f) (field_value r' f) buffer) as [buffer'|] eqn:E.
  2: { apply blit_None in E. lia. }
  exists buffer'. split; [done|]. split_and!.
  - by rewrite (blit_length _ _ _ _ E).
  - apply blit_Some in E as [_ ->]. destruct buffer as [|c buffer]; [done|].
    destruct (offset f); [lia|]. done.
  - intros g. destruct (decide (g = f)) as [->|Hne].
    + eapply slice_blit_same; [done|done|lia].
    + rewrite Hg by done. rewrite (slice_blit_other _ _ _ _ _ _ E); [apply Hf|].
      pose proof (fields_disjoint g f Hne). lia.
Qed.

(** Reading a field. *)
Lemma represents_string f buffer r s :
  represents buffer r -> field_value r f = s ++ [0] -> nul_free s -> get_string f buffer = Some s.
Proof.
  intros (_ & _ & Hf) Hv Hs. destruct (Hf f) as [rest Hr]. rewrite Hv, <- app_assoc in Hr.
  by eapply cstr_slice.
Qed.

Lemma slice_int f buffer rest x :
  size f = 4%nat -> slice (offset f) (size f) buffer = Some (le_bytes 4 (u32 x) ++ rest) ->
  get_int f buffer = Some (u32 x).
Proof.
  intros Hs Hr. unfold get_int, ld32. rewrite Hs in Hr. pose proof (slice_length _ _ _ _ Hr) as Hl.
  rewrite length_app, length_le_bytes in Hl. destruct rest; [|simpl in Hl; lia].
  rewrite Hr, app_nil_r. cbn [fmap option_fmap option_map]. rewrite le_val_bytes. f_equal.
  apply Z.mod_small, u32_range.
Qed.

(** ** Requests as they are set *)

Definition set_mr_url (f : Url.afp_url -> Url.afp_url) (r : mount_request) : mount_request :=
  mk_mount_request (f (mr_url r)) (mr_requested_version r) (mr_volpassword r) (mr_uam_mask r)
    (mr_mountpoint r) (mr_volume_options r) (mr_map r) (mr_changeuid r).
Definition set_mr_version (x : Z) (r : mount_request) : mount_request :=
  mk_mount_request (mr_url r) x (mr_volpassword r) (mr_uam_mask r)
    (mr_mountpoint r) (mr_volume_options r) (mr_map r) (mr_changeuid r).
Definition set_mr_volpassword (x : list Z) (r : mount_request) : mount_request :=
  mk_mount_request (mr_url r) (mr_requested_version r) x (mr_uam_mask r)
    (mr_mountpoint r) (mr_volume_options r) (mr_map r) (mr_changeuid r).
Definition set_mr_uam_mask (x : Z) (r : mount_request) : mount_request :=
  mk_mount_request (mr_url r) (mr_requested_version r) (mr_volpassword r) x
    (mr_mountpoint r) (mr_volume_options r) (mr_map r) (mr_changeuid r).
Definition set_mr_mountpoint (x : list Z) (r : mount_request) : mount_request :=
  mk_mount_request (mr_url r) (mr_requested_version r) (mr_volpassword r) (mr_uam_mask r)
    x (mr_volume_options r) (mr_map r) (mr_changeuid r).
Definition set_mr_volume_options (x : Z) (r : mount_request) : mount_request :=
  mk_mount_request (mr_url r) (mr_requested_version r) (mr_volpassword r) (mr_uam_mask r)
    (mr_mountpoint r) x (mr_map r) (mr_changeuid r).
Definition set_mr_map (x : Z) (r : mount_request) : mount_request :=
  mk_mount_request (mr_url r) (mr_requested_version r) (mr_volpassword r) (mr_uam_mask r)
    (mr_mountpoint r) (mr_volume_options r) x (mr_changeuid r).

(** An option of the command line, with its argument. *)
Inductive setting :=
| User (s : list Z) | Pass (s : list Z) | Port (s : list Z) | Volume_password (s : list Z)
| Version (s : list Z) | Uam (s : list Z) | Map (s : list Z).

Definition letter (o : setting) : Z :=
  match o with
  | User _ => 117 | Pass _ => 112 | Port _ => 111 | Volume_password _ => 86
  | Version _ => 118 | Uam _ => 97 | Map _ => 109
  end.
Definition argument (o : setting) : list Z :=
  match o with
  | User s | Pass s | Port s | Volume_password s | Version s | Uam s | Map s => s
  end.

(** What it does to the request; the mask of methods is kept there as well. *)
Definition apply_setting (r : mount_request) (o : setting) : mount_request :=
  match o with
  | User s => set_mr_url (Url.set_ur_username (take 126 s)) r
  | Pass s => set_mr_url (Url.set_ur_password (take 126 s)) r
  | Port s => set_mr_url (Url.set_ur_port (i32 (Url.strtol s))) r
  | Volume_password s => set_mr_volpassword (take 8 s) r
  | Version s => set_mr_version (i32 (Url.strtol s)) r
  | Uam s => set_mr_uam_mask (if bytes_eqb s (str "guest") then UAM_NOUSERAUTHENT
                              else uam_string_to_bitmap s) r
  | Map s => set_mr_map (map_string_to_num s) r
  end.

(** The request before the options; the mask is stored at the end. *)
Definition initial_request : mount_request :=
  mk_mount_request (Url.mk_url [] [] [] [] 548 [] []) 0 [] default_uams_mask [] 0 AFP_MAPPING_UNKNOWN 0.

(** The buffer holds all of the request but the mask. *)
Definition represents_but_mask (buffer : list Z) (r : mount_request) : Prop :=
  represents buffer (set_mr_uam_mask 0 r).

Lemma u32_i32 x : u32 (i32 x) = u32 x.
Proof.
  unfold i32, u32. case_match; [by rewrite Z.mod_mod|].
  rewrite Zminus_mod, Z.mod_same, Z.sub_0_r by done. by rewrite !Z.mod_mod.
Qed.

Ltac other_fields := intros g Hg; destruct g; done || by destruct Hg.

Lemma setting_ok o buffer r :
  represents_but_mask buffer r ->
  exists buffer',
    mount_option (letter o, Some (argument o)) (buffer, mr_uam_mask r) =
      Some (buffer', mr_uam_mask (apply_setting r o)) /\
    represents_but_mask buffer' (apply_setting r o).
Proof.
  intros Hr. unfold represents_but_mask in *.
  assert (forall f, (exists buffer', blit (offset f)
      (field_value (set_mr_uam_mask 0 (apply_setting r o)) f) buffer = Some buffer' /\
      represents buffer' (set_mr_uam_mask 0 (apply_setting r o))) ->
    forall bytes, bytes = field_value (set_mr_uam_mask 0 (apply_setting r o)) f ->
    mr_uam_mask (apply_setting r o) = mr_uam_mask r ->
    exists buffer', (b ← blit (offset f) bytes buffer; Some (b, mr_uam_mask r)) =
      Some (buffer', mr_uam_mask (apply_setting r o)) /\
      represents buffer' (set_mr_uam_mask 0 (apply_setting r o))) as Hput.
  { intros f (b & Hb & Hb') bytes -> Hm. exists b. rewrite Hb, Hm. done. }
  destruct o; cbn [letter argument mount_option Z.eqb Pos.eqb];
    [apply (Hput F_username)|apply (Hput F_password)|apply (Hput F_port)|apply (Hput F_volpassword)|
     apply (Hput F_requested_version)|by exists buffer|apply (Hput F_map)];
    try done;
    try (apply represents_write with (1 := Hr); [|by other_fields]; cbn -[take length];
         rewrite ?length_app, ?length_take, ?length_le_bytes; cbn [length]; lia);
    by cbn; rewrite u32_i32.
Qed.

(** ** The command line *)

Definition setting_args (o : setting) : list (list Z) := [[dash; letter o]; argument o].
Definition setting_event (o : setting) : event := (letter o, Some (argument o)).

Lemma getopt_settings settings args :
  Forall operand args ->
  getopt_long mount_options mount_long_options (concat (setting_args <$> settings) ++ args) =
    (setting_event <$> settings, args).
Proof.
  intros Ha. induction settings as [|o settings IH]; [by apply getopt_operands|].
  cbn [fmap list_fmap concat setting_args app].
  rewrite getopt_short by (destruct o; done). by rewrite IH.
Qed.

Lemma settings_ok settings buffer r :
  represents_but_mask buffer r ->
  exists buffer',
    mount_events (setting_event <$> settings) (buffer, mr_uam_mask r) =
      Some (buffer', mr_uam_mask (foldl apply_setting r settings)) /\
    represents_but_mask buffer' (foldl apply_setting r settings).
Proof.
  revert buffer r. induction settings as [|o settings IH]; intros buffer r Hr; [by exists buffer|].
  destruct (setting_ok o buffer r Hr) as (buffer1 & E & Hr1). destruct (IH _ _ Hr1) as (buffer' & E' & Hr').
  exists buffer'. cbn [fmap list_fmap mount_events foldl].
  rewrite (E : mount_option (setting_event o) _ = _). by cbn [mbind option_bind].
Qed.

(** A buffer that was cleared for the command. *)
Lemma cleared_represents (rest : list Z) :
  length rest = (MAX_OUTGOING_LENGTH - mount_length)%nat ->
  represents (AFP_SERVER_COMMAND_MOUNT :: replicate 1912 0 ++ rest)
    (mk_mount_request (Url.mk_url [] [] [] [] 0 [] []) 0 [] 0 [] 0 0 0).
Proof.
  intros Hl. split_and!; [|done|].
  { cbn [length]. rewrite length_app, length_replicate, Hl. vm_compute. reflexivity. }
  intros f. pose proof (field_bounds f) as [H1 H2]. unfold mount_length in H2.
  assert (slice (offset f) (size f) (AFP_SERVER_COMMAND_MOUNT :: replicate 1912 0 ++ rest) =
          Some (replicate (size f) 0)) as ->.
  { apply slice_Some. cbn [length]. rewrite length_app, length_replicate. split; [lia|].
    destruct (offset f) as [|k]; [lia|]. cbn [drop].
    rewrite drop_app_le by (rewrite length_replicate; lia).
    rewrite drop_replicate, take_app_le by (rewrite length_replicate; lia).
    rewrite take_replicate. f_equal. lia. }
  destruct f; by eexists.
Qed.

Lemma initial_ok buffer :
  length buffer = MAX_OUTGOING_LENGTH ->
  exists b1 b2 b3 b4, zero_fill 0 mount_length buffer = Some b1 /\
    blit 0 [AFP_SERVER_COMMAND_MOUNT] b1 = Some b2 /\ put_int F_port 548 b2 = Some b3 /\
    put_int F_map AFP_MAPPING_UNKNOWN b3 = Some b4 /\ represents_but_mask b4 initial_request.
Proof.
  intros Hl. assert (length buffer = Z.to_nat 8192) as Hl' by (rewrite Hl; reflexivity).
  unfold zero_fill. rewrite blit_in_range by (rewrite length_replicate; unfold mount_length; lia).
  eexists. cbn [take app].
  rewrite length_replicate. cbn [Nat.add]. set (rest := drop mount_length buffer).
  assert (length rest = (MAX_OUTGOING_LENGTH - mount_length)%nat) as Hrest
    by (unfold rest; rewrite length_drop; lia).
  exists (AFP_SERVER_COMMAND_MOUNT :: replicate 1912 0 ++ rest).
  destruct (represents_write F_port _ _ (mk_mount_request (Url.mk_url [] [] [] [] 548 [] []) 0 [] 0 [] 0 0 0)
    (cleared_represents rest Hrest)) as (b3 & E3 & H3); [by vm_compute|other_fields|].
  destruct (represents_write F_map _ _ (set_mr_uam_mask 0 initial_request) H3)
    as (b4 & E4 & H4); [by vm_compute|other_fields|].
  exists b3, b4. split_and!; try done.
Qed.

(** ** The location *)

Definition name_char (c : Z) : Prop := c <> 0 /\ c <> 39 /\ c <> 58.

Lemma scan_name_app name rest :
  Forall name_char name -> match rest with c :: _ => c = 58 | [] => True end ->
  scan_name (name ++ rest) = name.
Proof.
  intros Hn Hr. induction Hn as [|c name (_ & H1 & H2) _ IH]; cbn [app scan_name].
  - destruct rest as [|c rest]; [done|]. by subst c.
  - rewrite (proj2 (Z.eqb_neq c 39)), (proj2 (Z.eqb_neq c 58)) by done. cbn [orb]. by rewrite IH.
Qed.

Definition locate (server volume : list Z) (r : mount_request) : mount_request :=
  set_mr_url (fun u => Url.set_ur_volumename volume (Url.set_ur_servername server u)) r.

Lemma location_ok server volume buffer r :
  represents_but_mask buffer r -> Forall name_char server -> Forall name_char volume ->
  server <> [] -> volume <> [] -> (length server < 255)%nat -> (length volume < 33)%nat ->
  exists buffer', scan_location (server ++ 58 :: volume) buffer = Some (true, buffer') /\
    represents_but_mask buffer' (locate server volume r).
Proof.
  intros Hr Hs Hv Hs0 Hv0 Hsl Hvl. unfold scan_location.
  destruct (represents_write F_servername _ _
    (set_mr_uam_mask 0 (set_mr_url (Url.set_ur_servername server) r)) Hr)
    as (b1 & E1 & H1); [cbn -[length]; rewrite length_app; cbn [length]; lia|other_fields|].
  destruct (represents_write F_volumename _ _
    (set_mr_uam_mask 0 (locate server volume r)) H1)
    as (b2 & E2 & H2); [cbn -[length]; rewrite length_app; cbn [length]; lia|other_fields|].
  exists b2. split; [|done]. rewrite scan_name_app by done.
  destruct server as [|c server']; [done|].
  rewrite (E1 : blit (offset F_servername) ((c :: server') ++ [0]) buffer = Some b1). cbn [mbind option_bind].
  rewrite drop_app_length. cbn [Z.eqb Pos.eqb].
  pose proof (scan_name_app volume [] Hv I) as Hscan. rewrite app_nil_r in Hscan. rewrite Hscan.
  destruct volume as [|d volume']; [done|].
  by rewrite (E2 : blit (offset F_volumename) ((d :: volume') ++ [0]) b1 = Some b2).
Qed.

(** ** The request arrives *)

Definition expected (settings : list setting) (server volume mountpoint : list Z) : mount_request :=
  set_mr_mountpoint (take 254 mountpoint)
    (set_mr_volume_options DEFAULT_MOUNT_FLAGS
       (locate server volume (foldl apply_setting initial_request settings))).

(** The strings and numbers of a request that a buffer can hold. *)
Definition storable (r : mount_request) : Prop :=
  let url := mr_url r in
  nul_free (Url.ur_username url) /\ nul_free (Url.ur_uamname url) /\
  nul_free (Url.ur_password url) /\ nul_free (Url.ur_servername url) /\
  nul_free (Url.ur_volumename url) /\ nul_free (Url.ur_path url) /\
  nul_free (mr_volpassword r) /\ nul_free (mr_mountpoint r) /\
  i32 (Url.ur_port url) = Url.ur_port url /\ i32 (mr_requested_version r) = mr_requested_version r /\
  u32 (mr_uam_mask r) = mr_uam_mask r /\ u32 (mr_volume_options r) = mr_volume_options r /\
  u32 (mr_map r) = mr_map r /\ i32 (mr_changeuid r) = mr_changeuid r.

Lemma i32_u32 x : i32 (u32 x) = i32 x.
Proof. unfold i32, u32. by rewrite Z.mod_mod. Qed.

Lemma i32_i32 x : i32 (i32 x) = i32 x.
Proof. by rewrite <- i32_u32, u32_i32, i32_u32. Qed.

Lemma length_message (buffer : list Z) :
  length buffer = MAX_OUTGOING_LENGTH -> length (take mount_length buffer) = mount_length.
Proof.
  intros Hl. rewrite length_take, Hl. unfold mount_length, MAX_OUTGOING_LENGTH. lia.
Qed.

Lemma incoming_message (buffer : list Z) :
  length buffer = MAX_OUTGOING_LENGTH ->
  incoming_string (take mount_length buffer) =
    take mount_length buffer ++ replicate (2048 - mount_length) 0.
Proof.
  intros Hl. pose proof (length_message buffer Hl) as Hm. unfold incoming_string.
  rewrite resize_ge by (rewrite Hm; unfold mount_length; lia). by rewrite Hm.
Qed.

Lemma incoming_field (buffer : list Z) f :
  length buffer = MAX_OUTGOING_LENGTH ->
  slice (offset f) (size f) (incoming_string (take mount_length buffer)) =
    slice (offset f) (size f) buffer.
Proof.
  intros Hl. rewrite incoming_message by done. apply slice_take; [apply field_bounds|].
  rewrite Hl. unfold mount_length, MAX_OUTGOING_LENGTH. lia.
Qed.

Lemma incoming_head (buffer : list Z) c :
  length buffer = MAX_OUTGOING_LENGTH -> head buffer = Some c ->
  head (incoming_string (take mount_length buffer)) = Some c.
Proof.
  intros Hl Hc. rewrite incoming_message by done. clear Hl. unfold mount_length.
  destruct buffer as [|d buffer]; [discriminate Hc|]. cbn [take app head] in *. exact Hc.
Qed.

Lemma mount_length_Z : Z.of_nat mount_length = 1913.
Proof. reflexivity. Qed.

(** The daemon reads the request as it stands in the buffer. *)
Lemma request_read buffer r :
  represents buffer r -> storable r ->
  exists array, cstr array = Some (mr_volpassword r) /\
    read_command (take mount_length buffer) =
      Some (CommandMount 1913 (set_mr_volpassword array r)).
Proof.
  intros (Hl & Hh & Hf) (Hu & Ha & Hp & Hs & Hv & Hpa & Hvp & Hm & Hpo & Hve & Hum & Hvo & Hma & Hc).
  unfold read_command. rewrite length_message, (incoming_head _ _ Hl Hh), mount_length_Z by done.
  pose proof (fun f => incoming_field buffer f Hl) as Hsame. clear Hh Hl.
  revert Hsame. generalize (incoming_string (take mount_length buffer)). intros incoming Hsame.
  assert (forall f s, field_value r f = s ++ [0] -> nul_free s -> get_string f incoming = Some s) as Hstr.
  { intros f s E Hn. destruct (Hf f) as [rest Hrest]. rewrite E, <- app_assoc, <- Hsame in Hrest.
    by eapply cstr_slice. }
  assert (forall f x, field_value r f = le_bytes 4 (u32 x) -> size f = 4%nat ->
            get_int f incoming = Some (u32 x)) as Hint.
  { intros f x E Hs4. destruct (Hf f) as [rest Hrest]. rewrite E, <- Hsame in Hrest.
    by eapply slice_int. }
  destruct (Hf F_volpassword) as [rest Hrest]. rewrite <- Hsame in Hrest.
  exists (field_value r F_volpassword ++ rest). split.
  { cbn [field_value]. rewrite <- app_assoc. by apply (cstr_app (mr_volpassword r)). }
  cbn [mbind option_bind Z.eqb Pos.eqb AFP_SERVER_COMMAND_MOUNT].
  unfold read_mount_request, read_url.
  rewrite (Hstr F_username _ eq_refl Hu), (Hstr F_uamname _ eq_refl Ha),
    (Hstr F_password _ eq_refl Hp), (Hstr F_servername _ eq_refl Hs),
    (Hstr F_volumename _ eq_refl Hv), (Hstr F_path _ eq_refl Hpa),
    (Hstr F_mountpoint _ eq_refl Hm).
  rewrite (Hint F_port _ eq_refl eq_refl), (Hint F_requested_version _ eq_refl eq_refl),
    (Hint F_uam_mask _ eq_refl eq_refl), (Hint F_volume_options _ eq_refl eq_refl),
    (Hint F_map _ eq_refl eq_refl), (Hint F_changeuid _ eq_refl eq_refl).
  cbn [mbind option_bind]. rewrite Hrest. cbn [mbind option_bind fmap option_fmap option_map].
  do 2 f_equal. destruct r as [[] ? ? ? ? ? ? ?]. unfold set_mr_volpassword. cbn in *.
  by rewrite !i32_u32, Hpo, Hve, Hum, Hvo, Hma, Hc.
Qed.

(** ** From the command line to the daemon *)

Lemma find_string_bound name strings i j :
  find_string name strings i = Some j -> (j < i + length strings)%nat.
Proof.
  revert i. induction strings as [|[|c s] strings IH]; intros i; cbn [find_string length]; try done.
  destruct (casecmp name (c :: s)); [intros [= <-]; lia|]. intros H%IH. lia.
Qed.

Lemma u32_uam s : u32 (uam_string_to_bitmap s) = uam_string_to_bitmap s.
Proof.
  unfold uam_string_to_bitmap. destruct (find_string s afp_strings 0) as [i|] eqn:E; [|done].
  apply find_string_bound in E. cbn [length afp_strings Nat.add] in E.
  do 9 (destruct i as [|i]; [done|]). lia.
Qed.

Lemma u32_map s : u32 (map_string_to_num s) = map_string_to_num s.
Proof.
  unfold map_string_to_num. destruct (find_string s afp_map_strings 0) as [i|] eqn:E; [|done].
  apply find_string_bound in E. cbn [length afp_map_strings Nat.add] in E. apply u32_small. lia.
Qed.

Lemma storable_setting o r :
  nul_free (argument o) -> storable r -> storable (apply_setting r o).
Proof.
  intros Ho (?&?&?&?&?&?&?&?&?&?&?&?&?&?).
  destruct o; cbn [argument] in Ho; unfold storable; cbn -[take i32 u32 Z.modulo];
    split_and!; try done; try (by apply Forall_take); try apply i32_i32; try apply u32_map.
  case_match; [done|apply u32_uam].
Qed.

Lemma storable_settings settings r :
  Forall nul_free (argument <$> settings) -> storable r -> storable (foldl apply_setting r settings).
Proof.
  revert r. induction settings as [|o settings IH]; intros r Hs Hr; [done|].
  apply Forall_cons in Hs as [Ho Hs]. apply IH; [done|]. by apply storable_setting.
Qed.

Lemma storable_initial : storable initial_request.
Proof. unfold storable, nul_free. split_and!; constructor || done. Qed.

Lemma name_char_nul_free s : Forall name_char s -> nul_free s.
Proof. intros H. eapply Forall_impl; [exact H|]. by intros c (? & _). Qed.

Lemma storable_expected settings server volume mountpoint :
  Forall nul_free (argument <$> settings) -> nul_free mountpoint ->
  Forall name_char server -> Forall name_char volume ->
  storable (expected settings server volume mountpoint).
Proof.
  intros Hs Hm Hserver%name_char_nul_free Hvolume%name_char_nul_free.
  destruct (storable_settings settings initial_request Hs storable_initial) as (?&?&?&?&?&?&?&?&?&?&?&?&?&?).
  unfold storable. cbn -[take i32 u32 Z.modulo foldl]. split_and!; try done. by apply Forall_take.
Qed.

(** A field that is not "-" is left alone. *)
Lemma ask_password_skips f n buffer s :
  get_string f buffer = Some s -> s <> str "-" -> ask_password f n buffer = Ret buffer.
Proof.
  intros Hs Hd. unfold ask_password. rewrite Hs. cbn [plift mbind prog_monad prog_bind].
  unfold bytes_eqb. by rewrite bool_decide_eq_false_2.
Qed.

Lemma argv_events settings args :
  Forall operand args ->
  getopt_long mount_options mount_long_options (str "mount" :: concat (setting_args <$> settings) ++ args) =
    (setting_event <$> settings, str "mount" :: args).
Proof.
  intros Ha. rewrite getopt_operand by (left; discriminate). by rewrite (getopt_settings settings args Ha).
Qed.

(** What [do_mount] stores behind the location. *)
Lemma stored_end r buffer mountpoint :
  represents_but_mask buffer r ->
  exists b1 b2 b3, put_int F_uam_mask (mr_uam_mask r) buffer = Some b1 /\
    put_int F_volume_options DEFAULT_MOUNT_FLAGS b1 = Some b2 /\
    put_string F_mountpoint 255 mountpoint b2 = Some b3 /\
    represents b3 (set_mr_mountpoint (take 254 mountpoint) (set_mr_volume_options DEFAULT_MOUNT_FLAGS r)).
Proof.
  intros H0.
  destruct (represents_write F_uam_mask _ _ r H0) as (b1 & E1 & H1);
    [cbn [field_value]; by rewrite length_le_bytes|other_fields|].
  destruct (represents_write F_volume_options _ _ (set_mr_volume_options DEFAULT_MOUNT_FLAGS r) H1)
    as (b2 & E2 & H2); [cbn [field_value]; by rewrite length_le_bytes|other_fields|].
  destruct (represents_write F_mountpoint _ _
    (set_mr_mountpoint (take 254 mountpoint) (set_mr_volume_options DEFAULT_MOUNT_FLAGS r)) H2)
    as (b3 & E3 & H3); [|other_fields|by exists b1, b2, b3].
  cbn [field_value mr_mountpoint set_mr_mountpoint]. rewrite length_app, length_take.
  change (size F_mountpoint) with 255%nat. cbn [length]. lia.
Qed.

Lemma plift_bind {A B} (a : A) (f : A -> prog B) : (plift (Some a) ≫= f) = f a.
Proof. reflexivity. Qed.
Lemma ret_bind {A B} (a : A) (f : A -> prog B) : (Ret a ≫= f) = f a.
Proof. reflexivity. Qed.
Ltac run := rewrite ?plift_bind, ?ret_bind; cbv beta iota.

(** The buffer from step to step. *)
Lemma do_mount_steps argv buffer b1 b2 b3 b4 b5 b6 b7 b8 b9 events command location mountpoint mask
    password volpassword :
  (4 <= length argv)%nat ->
  zero_fill 0 mount_length buffer = Some b1 -> blit 0 [AFP_SERVER_COMMAND_MOUNT] b1 = Some b2 ->
  put_int F_port 548 b2 = Some b3 -> put_int F_map AFP_MAPPING_UNKNOWN b3 = Some b4 ->
  getopt_long mount_options mount_long_options (drop 1 argv) = (events, [command; location; mountpoint]) ->
  mount_events events (b4, default_uams_mask) = Some (b5, mask) ->
  get_string F_password b5 = Some password -> password <> str "-" ->
  get_string F_volpassword b5 = Some volpassword -> volpassword <> str "-" ->
  scan_location location b5 = Some (true, b6) -> mask <> 0 ->
  put_int F_uam_mask mask b6 = Some b7 -> put_int F_volume_options DEFAULT_MOUNT_FLAGS b7 = Some b8 ->
  put_string F_mountpoint 255 mountpoint b8 = Some b9 ->
  do_mount buffer argv = Ret (Some (take mount_length b9)).
Proof.
  intros Ha E1 E2 E3 E4 Eg E5 Hp Hp' Hv Hv' E6 Hm E7 E8 E9.
  unfold do_mount. rewrite bool_decide_eq_false_2 by lia.
  rewrite E1. run. rewrite E2. run. rewrite E3. run. rewrite E4. run. rewrite Eg, E5. run.
  rewrite (ask_password_skips _ _ _ _ Hp Hp'). run. rewrite (ask_password_skips _ _ _ _ Hv Hv'). run.
  rewrite E6. run. rewrite (proj2 (Z.eqb_neq _ 0) Hm). cbn [negb].
  rewrite E7. run. rewrite E8. run. by rewrite E9.
Qed.

(** C12: What is said on the command line of afp_client reaches the daemon: options in any
    number and order, a later one overriding an earlier one, the server, the volume and
    the mount point make a message of fixed length, from which the daemon reads the request
    that the command line means, with texts cut to the size of their fields.  Names of
    server and volume must fit, since they are stored without a check, and no password may
    be "-", which would be asked for. *)
Theorem mount_request_received (program : list Z) settings server volume mountpoint buffer :
  let r := expected settings server volume mountpoint in
  length buffer = MAX_OUTGOING_LENGTH ->
  Forall nul_free (argument <$> settings) -> nul_free mountpoint ->
  Forall name_char server -> Forall name_char volume -> server <> [] -> volume <> [] ->
  (length server < 255)%nat -> (length volume < 33)%nat ->
  operand (server ++ 58 :: volume) -> operand mountpoint ->
  Url.ur_password (mr_url r) <> str "-" -> mr_volpassword r <> str "-" -> mr_uam_mask r <> 0 ->
  exists message array,
    do_mount buffer (program :: str "mount" :: concat (setting_args <$> settings) ++
                       [server ++ 58 :: volume; mountpoint]) = Ret (Some message) /\
    length message = mount_length /\ cstr array = Some (mr_volpassword r) /\
    read_command message = Some (CommandMount 1913 (set_mr_volpassword array r)).
Proof.
  intros r Hl Hs Hm Hserver Hvolume Hs0 Hv0 Hsl Hvl Ho1 Ho2 Hp Hvp Hu.
  destruct (initial_ok buffer Hl) as (b1 & b2 & b3 & b4 & E1 & E2 & E3 & E4 & H4).
  destruct (settings_ok settings b4 initial_request H4) as (b5 & E5 & H5).
  destruct (location_ok server volume b5 _ H5 Hserver Hvolume Hs0 Hv0 Hsl Hvl) as (b6 & E6 & H6).
  destruct (stored_end _ b6 mountpoint H6) as (b7 & b8 & b9 & E7 & E8 & E9 & H9).
  assert (storable (foldl apply_setting initial_request settings)) as (_&_&Hpw&_&_&_&Hvpw&_)
    by (by apply storable_settings, storable_initial).
  destruct (request_read b9 r H9) as (array & Ha & Hread); [by apply storable_expected|].
  exists (take mount_length b9), array. split_and!; [|by apply length_message; destruct H9|done|done].
  eapply (do_mount_steps _ buffer b1 b2 b3 b4 b5 b6 b7 b8 b9);
    [cbn [length]; rewrite length_app; cbn [length]; lia|exact E1|exact E2|exact E3|exact E4| |
     exact E5|exact (represents_string F_password _ _ _ H5 eq_refl Hpw)|exact Hp|
     exact (represents_string F_volpassword _ _ _ H5 eq_refl Hvpw)|exact Hvp|exact E6|exact Hu|
     exact E7|exact E8|exact E9].
  apply argv_events. apply Forall_cons; split; [done|by apply Forall_singleton].
Qed.

Lemma mount_request_received_witness :
  exists message array,
    do_mount (replicate MAX_OUTGOING_LENGTH 0)
      [str "afp_client"; str "mount"; str "-u"; str "me"; str "-o"; str "5480"; str "-p"; str "secret";
       str "host:vol"; str "/mnt"] = Ret (Some message) /\
    length message = mount_length /\ cstr array = Some [] /\
    read_command message = Some (CommandMount 1913 (set_mr_volpassword array
      (expected [User (str "me"); Port (str "5480"); Pass (str "secret")] (str "host") (str "vol")
         (str "/mnt")))).
Proof.
  refine (mount_request_received (str "afp_client") [User (str "me"); Port (str "5480"); Pass (str "secret")]
    (str "host") (str "vol") (str "/mnt") (replicate MAX_OUTGOING_LENGTH 0) _ _ _ _ _ _ _ _ _ _ _ _ _ _).
  1: by rewrite length_replicate.
  1-4: repeat constructor; discriminate.
  1-2: discriminate.
  1-2: cbn; lia.
  1-2: left; discriminate.
  1-3: vm_compute; discriminate.
Defined.

(** *** What the command line does not catch *)

(** The text of [option_text] as [mount_settings_loop] reads it. *)
Definition no_settings : mount_settings := mk_settings None false 1000 0 0 0.

(** The volume password of "volpass=secret,ro" is "secret,ro": the rest of the text is
    taken, of which eight characters are sent. *)
Example volpass_takes_rest :
  mount_settings_loop 3 (str "volpass=secret,ro") no_settings =
    Ret (Some (mk_settings (Some (str "secret,ro")) true 1000 0 0 0)).
Proof. reflexivity. Qed.

(** The version of the usage text is read up to its period. *)
Example version_of_usage : mr_requested_version (apply_setting initial_request (Version (str "3.1"))) = 3.
Proof. reflexivity. Qed.

(** Without a mount point "(null)" is sent. *)
Example unmount_nothing :
  read_command <$> do_unmount [str "afp_client"; str "unmount"] = Some (Some (CommandUnmount (str "(null)"))).
Proof. vm_compute. reflexivity. Qed.

Lemma name_request_read command n name :
  nul_free name -> (0 < n)%nat -> (n < 2048)%nat ->
  cstr (drop 1 (incoming_string (name_request command n name))) = Some (take (n - 1) name) /\
  head (incoming_string (name_request command n name)) = Some command.
Proof.
  intros Hn H0 H1. unfold incoming_string, name_request.
  assert (length (take (n - 1) name) < n)%nat as Hl by (rewrite length_take; lia).
  rewrite (resize_ge (take (n - 1) name) n) by lia. rewrite resize_ge by (cbn [length]; rewrite length_app, length_replicate; lia).
  split; [|done]. cbn [app drop skipn]. rewrite <- app_assoc.
  destruct (n - length (take (n - 1) name))%nat as [|k] eqn:E; [lia|]. cbn [replicate app].
  apply (cstr_app (take (n - 1) name)). by apply Forall_take.
Qed.

Lemma read_named command n f name :
  (forall s, (if command =? AFP_SERVER_COMMAND_UNMOUNT then CommandUnmount <$> s
              else if command =? AFP_SERVER_COMMAND_SUSPEND then CommandSuspend <$> s
              else if command =? AFP_SERVER_COMMAND_RESUME then CommandResume <$> s else None) = f <$> s) ->
  2 < command < 6 -> nul_free name -> (0 < n)%nat -> (n < 2048)%nat ->
  read_command (name_request command n name) = f <$> Some (take (n - 1) name).
Proof.
  intros Hf Hc Hn H0 H1. destruct (name_request_read command n name Hn H0 H1) as [Hs Hh].
  unfold read_command. rewrite Hh, Hs. cbn [mbind option_bind].
  unfold AFP_SERVER_COMMAND_MOUNT, AFP_SERVER_COMMAND_STATUS in *.
  rewrite (proj2 (Z.eqb_neq command 1)), (proj2 (Z.eqb_neq command 2)) by lia.
  rewrite <- Hf. by assert (command = 3 \/ command = 4 \/ command = 5) as [-> |[-> | ->]] by lia.
Qed.

Lemma unmount_named (program command name : list Z) :
  do_unmount [program; command; name] = Some (name_request AFP_SERVER_COMMAND_UNMOUNT 255 name).
Proof. reflexivity. Qed.
Lemma suspend_named (program command name : list Z) :
  name_command do_suspend [program; command; name] = Some (name_request AFP_SERVER_COMMAND_SUSPEND 33 name).
Proof. reflexivity. Qed.
Lemma resume_named (program command name : list Z) :
  name_command do_resume [program; command; name] = Some (name_request AFP_SERVER_COMMAND_RESUME 33 name).
Proof. reflexivity. Qed.

(** The other requests are read as they were made. *)
Theorem name_commands_received (program command name : list Z) :
  nul_free name ->
  read_command <$> do_unmount [program; command; name] = Some (Some (CommandUnmount (take 254 name))) /\
  read_command <$> name_command do_suspend [program; command; name] =
    Some (Some (CommandSuspend (take 32 name))) /\
  read_command <$> name_command do_resume [program; command; name] =
    Some (Some (CommandResume (take 32 name))).
Proof.
  intros Hn. rewrite unmount_named, suspend_named, resume_named.
  cbn [fmap option_fmap option_map]. 
  rewrite (read_named _ _ CommandUnmount), (read_named _ _ CommandSuspend),
    (read_named _ _ CommandResume) by (done || lia). done.
Qed.

(** ** The type of the messages *)

(** The length of the message belongs to its command, and it consists of bytes. *)
Definition message_length (command : Z) : option nat :=
  if command =? AFP_SERVER_COMMAND_MOUNT then Some mount_length
  else if command =? AFP_SERVER_COMMAND_STATUS then Some 67%nat
  else if command =? AFP_SERVER_COMMAND_UNMOUNT then Some 256%nat
  else if (command =? AFP_SERVER_COMMAND_SUSPEND) || (command =? AFP_SERVER_COMMAND_RESUME) then Some 34%nat
  else if command =? AFP_SERVER_COMMAND_EXIT then Some 1%nat
  else None.

Definition message_ok (m : list Z) : Prop :=
  bytes_ok m /\ exists command, head m = Some command /\ message_length command = Some (length m).

(** What is typed is bytes. *)
Definition typing : contract :=
  mk_contract (fun _ => True)
    (fun X e => match e in env X return X -> Prop with
                | Local LocalGetpass => fun r => bytes_ok (lo_bytes r)
                | _ => fun _ => True end) True False.

Definition buffer_ok (b : list Z) : Prop :=
  bytes_ok b /\ length b = MAX_OUTGOING_LENGTH /\ head b = Some AFP_SERVER_COMMAND_MOUNT.

Lemma field_ok f bytes b b' :
  bytes_ok bytes -> buffer_ok b -> blit (offset f) bytes b = Some b' -> buffer_ok b'.
Proof.
  intros Hb (Hok & Hl & Hh) E. split_and!.
  - exact (blit_ok _ _ _ _ Hb Hok E).
  - by rewrite (blit_length _ _ _ _ E).
  - apply blit_Some in E as [_ ->]. pose proof (field_bounds f) as [H1 _].
    destruct b as [|c b]; [discriminate Hh|]. destruct (offset f); [lia|exact Hh].
Qed.

Lemma put_string_ok f n s b b' :
  bytes_ok s -> buffer_ok b -> put_string f n s b = Some b' -> buffer_ok b'.
Proof.
  intros Hs. apply field_ok. apply Forall_app_2; [by apply Forall_take|]. by repeat constructor.
Qed.

Lemma put_int_ok f x b b' : buffer_ok b -> put_int f x b = Some b' -> buffer_ok b'.
Proof. apply field_ok. apply le_bytes_ok. Qed.

Lemma wp_plift {A B} (o : option A) (k : A -> prog B) Q :
  (forall a, o = Some a -> wp typing (k a) Q) -> wp typing (plift o ≫= k) Q.
Proof. intros H. destruct o; [by apply H|exact I]. Qed.

Lemma zero_fill_typed n (b b' : list Z) :
  zero_fill 0 n b = Some b' -> length b' = length b /\ (bytes_ok b -> bytes_ok b').
Proof.
  unfold zero_fill. intros E. split; [exact (blit_length _ _ _ _ E)|]. intros Hb.
  refine (blit_ok _ _ _ _ _ Hb E). by apply Forall_replicate.
Qed.

Lemma begin_ok buffer b1 b2 :
  length buffer = MAX_OUTGOING_LENGTH -> bytes_ok buffer -> zero_fill 0 mount_length buffer = Some b1 ->
  blit 0 [AFP_SERVER_COMMAND_MOUNT] b1 = Some b2 -> buffer_ok b2.
Proof.
  intros Hl Hb [Hl1 H1]%zero_fill_typed E2. specialize (H1 Hb).
  assert (bytes_ok [AFP_SERVER_COMMAND_MOUNT]) as Hc by by repeat constructor.
  split_and!; [exact (blit_ok _ _ _ _ Hc H1 E2)| |].
  - rewrite (blit_length _ _ _ _ E2), Hl1. exact Hl.
  - apply blit_Some in E2 as [_ ->]. reflexivity.
Qed.

Lemma mount_events_ok es st st' :
  Forall (event_of byte_ok) es -> buffer_ok st.1 -> mount_events es st = Some st' -> buffer_ok st'.1.
Proof.
  intros Hes. revert st. induction Hes as [|[c optarg] es He _ IH]; intros [b mask] Hb; cbn [mount_events];
    [by intros [= <-]|].
  intros [[b1 mask1] [E1 E]]%bind_Some. eapply IH; [|exact E]. clear IH E. unfold mount_option in E1; cbv zeta in E1.
  destruct optarg as [s|]; [|by simplify_eq]. unfold event_of in He. cbn [fst snd] in *.
  repeat case_match; simplify_eq; try done.
  all: apply bind_Some in E1 as (b2 & E1 & E2); simplify_eq;
    first [by eapply put_int_ok|by eapply put_string_ok].
Qed.

Lemma ask_password_ok f n b : buffer_ok b -> wp typing (ask_password f n b) buffer_ok.
Proof.
  intros Hb. unfold ask_password. apply wp_plift. intros password _. case_match; [|done].
  apply wp_bind. split; [by repeat constructor|]. intros p Hp. cbn [wp]. case_match; [done|].
  destruct (put_string f n (lo_bytes p) b) as [b'|] eqn:E; [|exact I].
  exact (put_string_ok _ _ _ _ _ Hp Hb E).
Qed.

Lemma scan_name_ok s : bytes_ok s -> bytes_ok (scan_name s).
Proof. induction 1; cbn [scan_name]; [constructor|]. case_match; by constructor. Qed.

Lemma scan_location_ok s b ok b' :
  bytes_ok s -> buffer_ok b -> scan_location s b = Some (ok, b') -> buffer_ok b'.
Proof.
  intros Hs Hb. unfold scan_location. pose proof (scan_name_ok s Hs) as Hn.
  destruct (scan_name s) as [|c name] eqn:En; [by intros [= <- <-]|].
  intros [b1 [E1 E]]%bind_Some.
  assert (buffer_ok b1) as Hb1 by (eapply field_ok; [|exact Hb|exact E1]; apply Forall_app_2; [done|by repeat constructor]).
  assert (bytes_ok (drop (length (c :: name)) s)) as Hd by by apply Forall_drop.
  destruct (drop (length (c :: name)) s) as [|d rest]; [by simplify_eq|].
  destruct (d =? 58); [|by simplify_eq]. apply Forall_cons in Hd as [_ Hd%scan_name_ok].
  destruct (scan_name rest) as [|e volume]; [by simplify_eq|].
  apply bind_Some in E as [b2 [E2 [= <- <-]]].
  eapply field_ok; [|exact Hb1|exact E2]. apply Forall_app_2; [done|by repeat constructor].
Qed.

Lemma message_of_buffer b : buffer_ok b -> message_ok (take mount_length b).
Proof.
  intros (Hb & Hl & Hh). split; [by apply Forall_take|]. exists AFP_SERVER_COMMAND_MOUNT.
  rewrite length_message by done. split; [|done]. by destruct b.
Qed.

(** A message, if there is one. *)
Definition sends_ok (o : option (list Z)) : Prop := match o with Some m => message_ok m | None => True end.

Lemma do_mount_ok buffer argv :
  length buffer = MAX_OUTGOING_LENGTH -> bytes_ok buffer -> Forall bytes_ok argv ->
  wp typing (do_mount buffer argv) sends_ok.
Proof.
  intros Hl Hb Ha. unfold do_mount. case_match; [exact I|].
  apply wp_plift. intros b1 E1. apply wp_plift. intros b2 E2.
  pose proof (begin_ok _ _ _ Hl Hb E1 E2) as H2. apply wp_plift. intros b3 E3.
  apply (put_int_ok _ _ _ _ H2) in E3. apply wp_plift. intros b4 E4. apply (put_int_ok _ _ _ _ E3) in E4.
  pose proof (getopt_of mount_options mount_long_options byte_ok (drop 1 argv) (Forall_drop _ _ _ Ha)) as [He Hr].
  destruct (getopt_long _ _ _) as [events rest]. cbn [fst snd] in He, Hr.
  apply wp_plift. intros [b5 mask] E5. apply (mount_events_ok _ (b4, default_uams_mask) _ He E4) in E5. cbn [fst] in E5.
  apply wp_bind. eapply wp_mono; [|by apply ask_password_ok]. intros b6 H6.
  apply wp_bind. eapply wp_mono; [|by apply ask_password_ok]. intros b7 H7.
  destruct rest as [|? [|location rest]]; try exact I.
  apply Forall_cons in Hr as [_ Hr]. apply Forall_cons in Hr as [Hloc Hr].
  apply wp_plift. intros [ok b8] E8. apply (scan_location_ok _ _ _ _ Hloc H7) in E8.
  destruct ok; [|exact I]. cbn [negb]. case_match; [exact I|].
  apply wp_plift. intros b9 E9. apply (put_int_ok _ _ _ _ E8) in E9.
  apply wp_plift. intros b10 E10. apply (put_int_ok _ _ _ _ E9) in E10.
  destruct rest as [|mountpoint rest]; [exact I|]. apply Forall_cons in Hr as [Hm _].
  apply wp_plift. intros b11 E11. apply (put_string_ok _ _ _ _ _ Hm E10) in E11.
  by apply message_of_buffer.
Qed.

Lemma named_ok command n name :
  message_length command = Some (S n) -> 0 <= command < 256 -> (0 < n)%nat -> bytes_ok name ->
  message_ok (name_request command n name).
Proof.
  intros Hlen Hc H0 Hn. unfold name_request. split.
  - apply Forall_cons. split; [done|]. apply Forall_resize; [done|]. by apply Forall_take.
  - exists command. split; [done|]. cbn [length]. by rewrite length_resize.
Qed.

Lemma status_ok argv m : Forall bytes_ok argv -> do_status argv = Some m -> message_ok m.
Proof.
  intros Ha. unfold do_status.
  pose proof (getopt_of status_options status_long_options byte_ok (drop 1 argv) (Forall_drop _ _ _ Ha)) as [He _].
  destruct (getopt_long _ _ _) as [events rest]. cbn [fst] in He.
  set (Good := fun b => bytes_ok b /\ length b = 67%nat /\ head b = Some AFP_SERVER_COMMAND_STATUS).
  assert (forall events b, Forall (event_of byte_ok) events -> (forall b', b = Some b' -> Good b') ->
    forall m, foldl (fun req e => req ← req; match e with
      | (c, Some optarg) => if c =? 118 then
          blit 1 (take (Z.to_nat AFP_VOLUME_NAME_LEN - 1) optarg ++ [0]) req else Some req
      | _ => Some req end) b events = Some m -> Good m) as Hfold.
  { clear. intros events. induction events as [|[c optarg] events IH]; intros b He Hb m; cbn [foldl]; [apply Hb|].
    apply Forall_cons in He as [He1 He]. apply IH; [done|]. intros b' [b1 [-> E]]%bind_Some.
    destruct (Hb b1 eq_refl) as (H1 & H2 & H3). destruct optarg as [s|]; [|by simplify_eq].
    destruct (c =? 118); [|by simplify_eq]. split_and!.
    - eapply blit_ok; [|exact H1|exact E]. apply Forall_app_2; [by apply Forall_take|by repeat constructor].
    - by rewrite (blit_length _ _ _ _ E).
    - apply blit_Some in E as [_ ->]. destruct b1 as [|d b1]; [discriminate H3|exact H3]. }
  intros E. apply (Hfold events _ He) in E as (H1 & H2 & H3).
  2: { intros b' [= <-]. split_and!; [by repeat constructor|done|done]. }
  split; [done|]. exists AFP_SERVER_COMMAND_STATUS. by rewrite H2.
Qed.

(** C18: Every message of afp_client has its type: whatever the command line and the
    passwords, which are bytes, the message that is sent begins with a command, has exactly
    the length that belongs to this command, and consists of bytes; no loop runs out of
    fuel. *)
Theorem messages_typed buffer argv :
  length buffer = MAX_OUTGOING_LENGTH -> bytes_ok buffer -> Forall bytes_ok argv ->
  wp typing (prepare_buffer buffer argv) sends_ok.
Proof.
  intros Hl Hb Ha. unfold prepare_buffer. destruct (argv !! 1%nat) as [command|]; [|exact I].
  assert (forall name, argv !! 2%nat = Some name -> bytes_ok name) as Hname
    by (intros name; by apply Forall_lookup_1).
  case_match; [by apply do_mount_ok|]. case_match; [|case_match; [|case_match; [|case_match; [|case_match]]]].
  - unfold name_command. destruct (argv !! 2%nat) as [name|]; [|exact I].
    apply named_ok; [done|done|lia|by apply Hname].
  - unfold name_command. destruct (argv !! 2%nat) as [name|]; [|exact I].
    apply named_ok; [done|done|lia|by apply Hname].
  - apply wp_plift. intros m E. by eapply status_ok.
  - unfold do_unmount. case_match; [exact I|]. apply named_ok; [done|done|lia|].
    destruct (argv !! 2%nat) as [name|]; [by apply Hname|by repeat constructor].
  - split; [by repeat constructor|]. by eexists.
  - exact I.
Qed.

Lemma messages_typed_witness :
  wp typing (prepare_buffer (replicate MAX_OUTGOING_LENGTH 0)
    [str "afp_client"; str "mount"; str "-p"; str "-"; str "host:vol"; str "/mnt"]) sends_ok.
Proof.
  apply messages_typed.
  - by rewrite length_replicate.
  - by apply Forall_replicate.
  - repeat (apply Forall_cons; split; [by repeat constructor|]). by apply Forall_nil.
Defined.

End MountClient.
