(* ===== verification/CommandThread.v ===== *)
(** * A command of the daemon from the request to the answer: process_command_thread in
    fuse/commands.c

    The thread of a client: the request is read, the command is done, the answer is
    written, and the client is forgotten.  The text of the answer is what the commands log;
    it is an argument here, and [StatusText] has it for "status". *)

From stdpp Require Import gmap.
From S2P Require Import Prelude Text Constants Types Utils ProtoFiles Client Auth Session Daemon.
From S2P Require Import Servers Connect Mount MountClient MainLoop.

Module CommandThread.
Import Utils ProtoFiles Client Auth Session Daemon Servers Connect Mount MountClient MainLoop.

Section thread.
Context (G : gcrypt) (r : registry) (iconv : option (list Z -> list Z)) (malloc : gset Z -> Z).
Context (fuel : nat) (forkid_of : Z -> Z) (unmount : M unit) (pw_name : list Z).
Context (start_fuse : Z -> nat -> SM (Z * Z)).

(** What is logged for the client by a command with its result, and the bytes that lie
    between the fields of [struct afp_server_response]. *)
Context (logged : daemon_command -> Z -> list Z) (padding : list Z).

Definition process_command : daemon_command -> SM (Z * bool) :=
  Mount.process_command G r iconv malloc fuel forkid_of unmount pw_name start_fuse.

Definition process_ping (logs : list Z) (c : fuse_client) : Z * fuse_client :=
  (AFP_SERVER_RESULT_OKAY, fuse_log_for_client logs c).

(** The third component is [exit_program]. *)
Definition process_exit (logs : list Z) (c : fuse_client) (exit_program : Z) : Z * fuse_client * Z :=
  (AFP_SERVER_RESULT_OKAY, fuse_log_for_client logs c, trigger_exit exit_program).

(** The list of clients behind it, and whether the program is to end. *)
Definition process_command_thread (p : Z) (c : fuse_client) (client_base : clients)
    : SM (clients * bool) :=
  command ← slift (read_command (fc_incoming c));
  '(ret, exit) ← process_command command;
  let c := fuse_log_for_client (logged command ret) c in
  sask (Local (LocalWrite (fc_fd c) (response padding ret (fc_string c))));;
  if fc_fd c =? 0 then mret (client_base, exit)
  else
    smodify (set_fds (rm_fd (fc_fd c)));;
    sask (Local (LocalClose (fc_fd c)));;
    mret ((remove_client p client_base).1, exit).

(** ** What the client gets *)

(** What is done with a descriptor. *)
Inductive socket_event := Wrote (fd : Z) (bytes : list Z) | Closed (fd : Z).

(** An environment together with what is written and closed. *)
Definition recording {W} (g : handler W) : handler (W * list socket_event) :=
  fun X e =>
    match e in env X return W * list socket_event -> X * (W * list socket_event) with
    | Local (LocalWrite fd bytes) => fun w =>
        let '(x, w0) := g _ (Local (LocalWrite fd bytes)) w.1 in (x, (w0, w.2 ++ [Wrote fd bytes]))
    | Local (LocalClose fd) => fun w =>
        let '(x, w0) := g _ (Local (LocalClose fd)) w.1 in (x, (w0, w.2 ++ [Closed fd]))
    | e => fun w => let '(x, w0) := g _ e w.1 in (x, (w0, w.2))
    end.

(** The pieces in which something arrives, none of them empty. *)
Definition pieces_of (answer : list Z) (segs : list (list Z)) : Prop :=
  concat segs = answer /\ Forall (fun s => 0 < length s)%nat segs.

(** What the other side of the connection learns when it is sent this answer and no piece of
    it is more than thirty seconds late, the time [read_answer] waits.  With the eight
    bytes of the header in the first piece it has the result and the text, whatever follows;
    cut in any other way, and with the connection closed behind it, the result and a beginning
    of the text ([short_header_truncates]). *)
Definition client_learns (answer : list Z) (ret : Z) (text : list Z) : Prop :=
  (forall first segs tail, pieces_of answer (first :: segs) -> (8 <= length first)%nat ->
     read_answer (S (length segs)) ((first :: segs) ++ tail) = Done (ret, Some text)) /\
  (forall segs tail, pieces_of answer segs -> exists printed,
     read_answer (S (length segs)) (segs ++ [] :: tail) = Done (ret, Some printed) /\
     printed `prefix_of` text).

(** The thread writes the answer, with the result of the command and the text that was
    logged, and nothing else, closes the connection, and forgets the client. *)
Lemma thread_writes {W} (g : handler W) p c client_base command ret exit rs w w' wo wo' written :
  read_command (fc_incoming c) = Some command -> fc_fd c <> 0 ->
  run (recording g) (process_command command w) (wo, []) = (rs, Done (ret, exit, w'), (wo', written)) ->
  exists wo'', run (recording g) (process_command_thread p c client_base w) (wo, []) =
    (rs, Done ((remove_client p client_base).1, exit, set_fds (rm_fd (fc_fd c)) w'),
     (wo'', written ++ [Wrote (fc_fd c)
                          (response padding ret (fc_string (fuse_log_for_client (logged command ret) c)));
                        Closed (fc_fd c)])).
Proof using Type.
  intros Hc Hfd Hrun. unfold process_command_thread, mbind, SM_bind. rewrite Hc.
  cbn [slift prog_bind fst snd]. rewrite (run_bind _ _ _ _ _ _ _ Hrun). cbn [fst snd].
  set (c' := fuse_log_for_client (logged command ret) c). change (fc_fd c') with (fc_fd c).
  unfold sask. cbn [prog_bind run recording fst snd].
  destruct (g local_result (Local (LocalWrite (fc_fd c) (response padding ret (fc_string c')))) wo') as [x wo1].
  rewrite (proj2 (Z.eqb_neq _ 0) Hfd). cbn [prog_bind smodify run recording fst snd].
  destruct (g local_result (Local (LocalClose (fc_fd c))) wo1) as [y wo2].
  cbn [prog_bind run fst snd mret SM_ret requests_of app]. rewrite !app_nil_r, <- app_assoc. by exists wo2.
Qed.

Lemma response_learned text ret :
  length padding = 3%nat -> 0 <= ret < 128 -> nul_free text ->
  (length text < MAX_CLIENT_RESPONSE - 8)%nat -> client_learns (response padding ret text) ret text.
Proof using Type.
  intros Hp Hr Hn Hl. split.
  - intros first segs tail (Hcat & Hs%Forall_cons) H8. eapply answer_received; try done. by apply Hs.
  - intros segs tail (Hcat & Hs). eapply answer_in_pieces; try done. lia.
Qed.

(** C13: A client of the daemon learns how its command ended.  When the thread has read the
    command and done it with some result, from 0 to 127, exactly one more message is written,
    the answer, to the descriptor of the client, which is closed behind it; the client is
    taken from the list and nothing more is sent to a server.  In whatever pieces the answer
    arrives in time, the client ends with this result; it prints the text that was logged for it,
    at least when the header of eight bytes is in the first piece, and otherwise it may print
    a beginning of it.  The text has no NUL and is shorter than 2040 bytes. *)
Theorem command_answered {W} (g : handler W) p c client_base command ret exit rs w w' wo wo' written :
  read_command (fc_incoming c) = Some command -> fc_fd c <> 0 -> length padding = 3%nat ->
  run (recording g) (process_command command w) (wo, []) = (rs, Done (ret, exit, w'), (wo', written)) ->
  0 <= ret < 128 -> let c' := fuse_log_for_client (logged command ret) c in
  nul_free (fc_string c') -> (length (fc_string c') < MAX_CLIENT_RESPONSE - 8)%nat ->
  exists wo'' answer,
    run (recording g) (process_command_thread p c client_base w) (wo, []) =
      (rs, Done ((remove_client p client_base).1, exit, set_fds (rm_fd (fc_fd c)) w'),
       (wo'', written ++ [Wrote (fc_fd c) answer; Closed (fc_fd c)])) /\
    client_learns answer ret (fc_string c').
Proof using Type.
  intros Hc Hfd Hp Hrun Hret c' Hn Hl.
  destruct (thread_writes g p c client_base _ _ _ _ _ _ _ _ _ Hc Hfd Hrun) as [wo'' H].
  eexists wo'', _. split; [exact H|]. by apply response_learned.
Qed.

End thread.

(** "unmount" of a mount point that is not known, answered in two pieces. *)
Definition a_client : fuse_client := mk_fuse_client 9 (Daemon.do_unmount (str "/mnt")) [].
Definition no_world : world := mk_world ∅ 0 no_descriptors.
Definition a_message (command : daemon_command) (ret : Z) : list Z := str "no".

Lemma command_answered_witness :
  exists wo'' answer,
    run (recording (serving (fun _ w => (mk_answer 0 None [], w))))
      (process_command_thread toy_gcrypt init_uams None (fun _ => 1) 5 id (mret tt) [] (fun _ _ => mret (0, 0))
         a_message [0; 0; 0] 4 a_client [(4, a_client)] no_world) (tt, []) =
      ([], Done ([], false, set_fds (rm_fd 9) no_world), (wo'', [] ++ [Wrote 9 answer; Closed 9])) /\
    client_learns answer AFP_SERVER_RESULT_ERROR (str "no").
Proof.
  eapply (command_answered toy_gcrypt init_uams None (fun _ => 1) 5 id (mret tt) [] (fun _ _ => mret (0, 0))
    a_message [0; 0; 0] _ 4 a_client [(4, a_client)] (CommandUnmount (str "/mnt")) AFP_SERVER_RESULT_ERROR);
    [vm_compute; reflexivity|discriminate|reflexivity|vm_compute; reflexivity|split; [discriminate|reflexivity]| |].
  - by repeat constructor.
  - vm_compute. lia.
Defined.

End CommandThread.
