(* ===== verification/Clients.v ===== *)
(** * The clients of the daemon at the same time, in whole steps: fuse/commands.c

    The main loop accepts clients and reads their commands; each command has a thread of its
    own, which answers and forgets the client.  The steps of the main loop and of the threads
    are interleaved here, and each walk along the list of clients is one step, as [Daemon] has
    it.  This is a specification: nothing in the code protects the list, and [Walks] takes
    the walks apart into their loads and stores. *)

From stdpp Require Import gmap relations.
From S2P Require Import Prelude Daemon.

Module Clients.
Import Daemon.

(** ** The state *)

(** The main loop waits, has put a new client into the list, or reads from a client. *)
Inductive main_phase := Waiting | Accepted (new_fd : Z) | Reading (p : Z).

(** A thread does its command, has written the answer, has closed the descriptor, or has
    come to its end. *)
Inductive thread_phase := Commanding | Answered | Closed | Finished.

(** [th_client] is the argument [other].  The connection its command came over, and the
    command, are known to no one in the program. *)
Record thread := mk_thread {
  th_client : Z; th_connection : nat; th_command : list Z; th_phase : thread_phase }.

(** The structures that are allocated, the list that begins at [client_base], the connection
    behind each open descriptor, and how many connections there were so far. *)
Record daemon := mk_daemon {
  dm_store : gmap Z fuse_client; dm_list : list Z; dm_open : gmap Z nat; dm_accepted : nat;
  dm_main : main_phase; dm_threads : list thread }.

Definition idle_daemon : daemon := mk_daemon ∅ [] ∅ 0 Waiting [].

Definition client_base (store : gmap Z fuse_client) (l : list Z) : clients :=
  (fun p => (p, default (mk_fuse_client 0 [] []) (store !! p))) <$> l.

Definition set_phase (t : thread) (ph : thread_phase) : thread :=
  mk_thread (th_client t) (th_connection t) (th_command t) ph.

(** [free] where the client is in the list. *)
Definition forget (p : Z) (store : gmap Z fuse_client) (l : list Z) : gmap Z fuse_client * list Z :=
  let '(rest, ret) := remove_client p (client_base store l) in
  (if ret =? 0 then delete p store else store, rest.*1).

(** ** The steps

    [accept] and [malloc] choose what is not in use.  Only the new descriptor can be that of
    a client among those that are ready: no client is watched.  [malloc] and [read] do not
    fail here. *)

(** [fuse_scan_extra_fds] up to the call of [fuse_process_client_fds]. *)
Definition accept_client (new_fd p : Z) (d : daemon) : daemon :=
  mk_daemon (<[p := mk_fuse_client new_fd [] []]> (dm_store d))
    (fuse_add_client p new_fd (client_base (dm_store d) (dm_list d))).*1
    (<[new_fd := dm_accepted d]> (dm_open d)) (S (dm_accepted d)) (Accepted new_fd) (dm_threads d).

(** [fuse_process_client_fds] up to [read]. *)
Definition choose_client (new_fd : Z) (d : daemon) : daemon :=
  let chosen := fuse_process_client_fds (fun fd => fd =? new_fd) (client_base (dm_store d) (dm_list d)) in
  mk_daemon (dm_store d) (dm_list d) (dm_open d) (dm_accepted d)
    (match chosen with Some (p, _) => Reading p | None => Waiting end) (dm_threads d).

(** [process_command] when a command was read. *)
Definition start_command (p : Z) (c : fuse_client) (connection : nat) (command : list Z) (d : daemon)
    : daemon :=
  mk_daemon (<[p := mk_fuse_client (fc_fd c) command (fc_string c)]> (dm_store d))
    (dm_list d) (dm_open d) (dm_accepted d) Waiting
    (dm_threads d ++ [mk_thread p connection command Commanding]).

(** [process_command] when nothing was read. *)
Definition drop_client (p : Z) (c : fuse_client) (d : daemon) : daemon :=
  let store := <[p := mk_fuse_client 0 (fc_incoming c) (fc_string c)]> (dm_store d) in
  let '(store, l) := forget p store (dm_list d) in
  mk_daemon store l (delete (fc_fd c) (dm_open d)) (dm_accepted d) Waiting (dm_threads d).

(** [process_command_thread]: up to the [write] and the test behind it, [close], and
    [remove_client]. *)
Definition answer_client (i : nat) (t : thread) (c : fuse_client) (d : daemon) : daemon :=
  mk_daemon (dm_store d) (dm_list d) (dm_open d) (dm_accepted d) (dm_main d)
    (<[i := set_phase t (if fc_fd c =? 0 then Finished else Answered)]> (dm_threads d)).

Definition close_client (i : nat) (t : thread) (c : fuse_client) (d : daemon) : daemon :=
  mk_daemon (dm_store d) (dm_list d) (delete (fc_fd c) (dm_open d)) (dm_accepted d) (dm_main d)
    (<[i := set_phase t Closed]> (dm_threads d)).

Definition forget_client (i : nat) (t : thread) (d : daemon) : daemon :=
  let '(store, l) := forget (th_client t) (dm_store d) (dm_list d) in
  mk_daemon store l (dm_open d) (dm_accepted d) (dm_main d)
    (<[i := set_phase t Finished]> (dm_threads d)).

Inductive client_step (d : daemon) : daemon -> Prop :=
| step_accept new_fd p :
    dm_main d = Waiting -> dm_open d !! new_fd = None -> dm_store d !! p = None ->
    client_step d (accept_client new_fd p d)
| step_choose new_fd :
    dm_main d = Accepted new_fd -> client_step d (choose_client new_fd d)
| step_read p c connection command :
    dm_main d = Reading p -> dm_store d !! p = Some c -> dm_open d !! fc_fd c = Some connection ->
    command <> [] -> client_step d (start_command p c connection command d)
| step_nothing p c :
    dm_main d = Reading p -> dm_store d !! p = Some c -> client_step d (drop_client p c d)
| step_answer i t c :
    dm_threads d !! i = Some t -> th_phase t = Commanding -> dm_store d !! th_client t = Some c ->
    client_step d (answer_client i t c d)
| step_close i t c :
    dm_threads d !! i = Some t -> th_phase t = Answered -> dm_store d !! th_client t = Some c ->
    client_step d (close_client i t c d)
| step_forget i t :
    dm_threads d !! i = Some t -> th_phase t = Closed -> client_step d (forget_client i t d).

(** No client of the list has the descriptor that [accept] has returned. *)
Definition unclaimed (d : daemon) (new_fd : Z) : Prop :=
  forall p c, p ∈ dm_list d -> dm_store d !! p = Some c -> fc_fd c <> new_fd.

(** A step that does not accept a connection under a descriptor which a client of the list
    still has. *)
Definition calm_step (d d' : daemon) : Prop :=
  client_step d d' /\
  forall new_fd, dm_main d = Waiting -> dm_main d' = Accepted new_fd -> unclaimed d new_fd.

(** ** The list *)

Lemma client_base_keys store l : (client_base store l).*1 = l.
Proof. unfold client_base. rewrite <- list_fmap_compose. apply list_fmap_id. Qed.

(** What is left is a part of the list without the client, and a client is freed exactly if
    it was in the list. *)
Lemma forget_ok p store l store' l' :
  forget p store l = (store', l') -> NoDup l ->
  sublist l' l /\ p ∉ l' /\ (store' = delete p store \/ store' = store /\ p ∉ l).
Proof.
  unfold forget. intros H Hl. destruct l as [|q l].
  { cbn in H. simplify_eq. split_and!; [done|set_solver|]. right. split; [done|set_solver]. }
  assert (NoDup (q :: (client_base store l).*1)) as Hn by by rewrite client_base_keys.
  cbn [client_base fmap list_fmap] in H. fold (client_base store l) in H.
  rewrite remove_client_spec in H by done. rewrite client_base_keys in H.
  destruct (Z.eqb_spec p q) as [->|Hne]; [|case_decide as Hp]; cbn in H; simplify_eq;
    (split_and!; [| |by (left + (right; split; [done|apply not_elem_of_cons])) ]).
  - apply sublist_nil_l.
  - set_solver.
  - apply sublist_skip. rewrite <- (client_base_keys store l) at 2. apply fmap_sublist, sublist_filter.
  - apply not_elem_of_cons. split; [done|]. intros ([q' c'] & -> & Hf)%list_elem_of_fmap.
    by apply list_elem_of_filter in Hf as [? _].
  - by rewrite client_base_keys.
  - rewrite client_base_keys. by apply not_elem_of_cons.
Qed.

(** The list has no client twice and none that was freed, in all runs. *)
Definition tidy (d : daemon) : Prop :=
  NoDup (dm_list d) /\ forall p, p ∈ dm_list d -> is_Some (dm_store d !! p).

Lemma forget_list p store l store' l' :
  forget p store l = (store', l') -> NoDup l ->
  NoDup l' /\ (forall q, q ∈ l' -> q ∈ l /\ q <> p) /\ (forall q, q <> p -> store' !! q = store !! q).
Proof.
  intros H Hl. destruct (forget_ok _ _ _ _ _ H Hl) as (Hsub & Hp & Hst).
  split_and!; [by eapply sublist_NoDup| |].
  - intros q Hq. split; [by eapply sublist_subseteq|by intros ->].
  - intros q Hq. destruct Hst as [->|[-> _]]; [by rewrite lookup_delete_ne|done].
Qed.

Lemma accept_list new_fd p d : dm_list (accept_client new_fd p d) = dm_list d ++ [p].
Proof. cbn. unfold fuse_add_client. by rewrite fmap_app, client_base_keys. Qed.

Lemma tidy_new d p : tidy d -> dm_store d !! p = None -> p ∉ dm_list d.
Proof. intros [_ Hs] Hp Hin. destruct (Hs p Hin). congruence. Qed.

(** What changes is the structure of a client that is forgotten. *)
Lemma tidy_forget p store l store' l' :
  forget p store l = (store', l') -> NoDup l -> (forall q, q ∈ l -> q <> p -> is_Some (store !! q)) ->
  NoDup l' /\ forall q, q ∈ l' -> is_Some (store' !! q).
Proof.
  intros H Hl Hs. apply forget_list in H as (Hl' & Hin & Hst); [|done]. split; [done|].
  intros q [Hq Hne]%Hin. rewrite Hst by done. by apply Hs.
Qed.

Lemma tidy_step d d' : tidy d -> client_step d d' -> tidy d'.
Proof.
  intros Ht Hstep. pose proof Ht as [Hl Hs].
  destruct Hstep as [new_fd p Hm Hfd Hp|new_fd Hm|p c k command Hm Hp Hk _|p c Hm Hp|?|?|i t Hi Hph]; try done.
  - split; rewrite accept_list.
    + apply NoDup_app. split_and!; [done| |apply NoDup_singleton].
      intros q Hq ->%list_elem_of_singleton. by eapply tidy_new.
    + intros q Hq. cbn. destruct (decide (q = p)) as [->|]; [by rewrite lookup_insert_eq|].
      rewrite lookup_insert_ne by done. apply Hs. set_solver.
  - split; [done|]. intros q Hq. cbn. destruct (decide (q = p)) as [->|]; [by rewrite lookup_insert_eq|].
    rewrite lookup_insert_ne by done. by apply Hs.
  - unfold tidy, drop_client. destruct (forget _ _ _) as [store l] eqn:E. eapply tidy_forget; [done..|].
    intros q Hq Hne. rewrite lookup_insert_ne by done. by apply Hs.
  - unfold tidy, forget_client. destruct (forget _ _ _) as [store l] eqn:E.
    eapply tidy_forget; [done..|]. intros q Hq _. by apply Hs.
Qed.

Lemma idle_tidy : tidy idle_daemon.
Proof. split; [constructor|]. intros p Hp. by apply elem_of_nil in Hp. Qed.

(** ** Runs without a descriptor that is still claimed *)

Definition active (t : thread) : Prop := th_phase t <> Finished.

(** The thread has its structure, with its command in it, and while it has not closed it,
    the descriptor there is that of its connection. *)
Definition thread_ok (d : daemon) (t : thread) : Prop :=
  (th_connection t < dm_accepted d)%nat /\
  (active t -> exists c, dm_store d !! th_client t = Some c /\ fc_incoming c = th_command t /\
     (th_phase t <> Closed -> dm_open d !! fc_fd c = Some (th_connection t))).

(** No thread has the connection, and none that is on its way has the structure. *)
Definition unserved (ts : list thread) (connection : nat) (p : Z) : Prop :=
  forall i t, ts !! i = Some t -> th_connection t <> connection /\ (active t -> th_client t <> p).

Definition main_ok (d : daemon) : Prop :=
  match dm_main d with
  | Waiting => True
  | Accepted fd => exists k, dm_open d !! fd = Some k /\
      (forall i t, dm_threads d !! i = Some t -> th_connection t <> k) /\
      (forall p c, p ∈ dm_list d -> dm_store d !! p = Some c -> fc_fd c = fd -> unserved (dm_threads d) k p)
  | Reading p => exists c k, dm_store d !! p = Some c /\ dm_open d !! fc_fd c = Some k /\
      unserved (dm_threads d) k p
  end.

Record orderly (d : daemon) : Prop := {
  or_tidy : tidy d;
  or_open : forall fd k, dm_open d !! fd = Some k -> (k < dm_accepted d)%nat;
  or_threads : forall i t, dm_threads d !! i = Some t -> thread_ok d t;
  or_apart : forall i j t u, dm_threads d !! i = Some t -> dm_threads d !! j = Some u -> i <> j ->
    th_connection t <> th_connection u /\ (active t -> active u -> th_client t <> th_client u);
  or_main : main_ok d }.

(** A thread that goes on stays apart from what it was apart from. *)
Lemma unserved_phase ts i t ph k p :
  ts !! i = Some t -> active t -> unserved ts k p -> unserved (<[i := set_phase t ph]> ts) k p.
Proof.
  intros Hi Ha H j u [(-> & <- & _)|[_ Hu]]%list_lookup_insert_Some; [|by eapply H].
  destruct (H j t Hi) as [? Hc]. split; [done|]. intros _. by apply Hc.
Qed.

Lemma apart_phase d i t ph j k u v :
  orderly d -> dm_threads d !! i = Some t -> active t ->
  <[i := set_phase t ph]> (dm_threads d) !! j = Some u ->
  <[i := set_phase t ph]> (dm_threads d) !! k = Some v -> j <> k ->
  th_connection u <> th_connection v /\ (active u -> active v -> th_client u <> th_client v).
Proof.
  intros H Hi Ha Hj Hk Hjk.
  apply list_lookup_insert_Some in Hj as [(-> & <- & _)|[? Hj]];
    apply list_lookup_insert_Some in Hk as [(-> & <- & _)|[? Hk]]; [done| | |by eapply (or_apart _ H)].
  - destruct (or_apart _ H j k t v) as [? Hc]; [done..|]. split; [done|]. intros _. by apply Hc.
  - destruct (or_apart _ H j k u t) as [? Hc]; [done..|]. split; [done|]. intros ? _. by apply Hc.
Qed.

Lemma idle_orderly : orderly idle_daemon.
Proof. split; try done. apply idle_tidy. Qed.

Lemma accept_orderly d new_fd p :
  orderly d -> dm_main d = Waiting -> dm_open d !! new_fd = None -> dm_store d !! p = None ->
  unclaimed d new_fd -> orderly (accept_client new_fd p d).
Proof.
  intros [Hl Ho Ht Ha _] Hm Hfd Hp Hc. pose proof (tidy_new d p Hl Hp) as Hnew.
  assert (unserved (dm_threads d) (dm_accepted d) p) as Hns.
  { intros i t Hi. destruct (Ht i t Hi) as [? Hx]. split; [lia|]. intros Hact.
    destruct (Hx Hact) as (c & Ec & _). congruence. }
  split; [by eapply tidy_step, step_accept| | |exact Ha|].
  - intros fd k. cbn. rewrite lookup_insert_Some. intros [[_ <-]|[_ Hk]]; [lia|]. apply Ho in Hk. lia.
  - intros i t Hi. cbn in Hi. destruct (Ht i t Hi) as [? Hx]. split; cbn; [lia|]. intros Hact.
    destruct (Hx Hact) as (c & Ec & Ei & Eo). exists c. rewrite lookup_insert_ne by (intros ->; congruence).
    split_and!; [done..|]. intros Hcl. specialize (Eo Hcl). by rewrite lookup_insert_ne by congruence.
  - unfold main_ok. rewrite accept_list. cbn. exists (dm_accepted d). rewrite lookup_insert_eq.
    split_and!; [done|intros i t Hi; by eapply Hns|]. intros q c Hq Ec Ef.
    apply elem_of_app in Hq as [Hq| ->%list_elem_of_singleton]; [|exact Hns].
    rewrite lookup_insert_ne in Ec by (by intros ->). by destruct (Hc q c Hq Ec).
Qed.

Lemma find_spec {A} (f : A -> bool) l x : List.find f l = Some x -> x ∈ l /\ f x = true.
Proof. intros [? ?]%List.find_some. split; [by apply list_elem_of_In|done]. Qed.

Lemma choose_orderly d new_fd :
  orderly d -> dm_main d = Accepted new_fd -> orderly (choose_client new_fd d).
Proof.
  intros [Hl Ho Ht Ha Hm] E. split; try done. unfold main_ok in *. rewrite E in Hm. cbn.
  destruct (fuse_process_client_fds _ _) as [[p c']|] eqn:Ef; [|done]. cbn.
  apply find_spec in Ef as [Hin Hfd]. destruct Hm as (k & Hk & _ & Hun).
  unfold client_base in Hin. apply list_elem_of_fmap in Hin as (q & [= <- ->] & Hp).
  destruct (proj2 Hl p Hp) as [c Hc]. rewrite Hc in Hfd. apply Z.eqb_eq in Hfd. cbn in Hfd.
  exists c, k. split_and!; [done|by rewrite Hfd|]. by eapply Hun.
Qed.

Lemma start_orderly d p c k command :
  orderly d -> dm_main d = Reading p -> dm_store d !! p = Some c -> dm_open d !! fc_fd c = Some k ->
  command <> [] ->
  orderly (start_command p c k command d).
Proof.
  intros [Hl Ho Ht Ha Hm] E Hp Hk Hcmd. unfold main_ok in Hm. rewrite E in Hm.
  destruct Hm as (c' & k' & Ec & Ek & Hun).
  rewrite Hp in Ec. injection Ec as <-. rewrite Hk in Ek. injection Ek as <-.
  assert (forall i t, dm_threads (start_command p c k command d) !! i = Some t ->
    dm_threads d !! i = Some t \/ i = length (dm_threads d) /\ t = mk_thread p k command Commanding) as Hin.
  { cbn. intros i t. rewrite lookup_app_Some. intros [?|[Hge Hx]]; [by left|right].
    apply list_lookup_singleton_Some in Hx as [? <-]. split; [lia|done]. }
  split; [by eapply tidy_step, step_read|done| | |done].
  - intros i t [Hi|[-> ->]]%Hin.
    + destruct (Ht i t Hi) as [? Hx]. split; [done|]. intros Hact. destruct (Hun i t Hi) as [_ Hne].
      cbn. rewrite lookup_insert_ne by (intros E'; by apply (Hne Hact)). by apply Hx.
    + split; [|]; cbn.
      * by eapply Ho.
      * intros _. exists (mk_fuse_client (fc_fd c) command (fc_string c)). by rewrite lookup_insert_eq.
  - intros i j t u [Hi|[-> ->]]%Hin [Hj|[-> ->]]%Hin Hne; [by eapply Ha| | |done].
    + destruct (Hun i t Hi). cbn. split; [done|]. auto.
    + destruct (Hun j u Hj) as [? Hc]. cbn. split; [done|]. intros _ Hu E'. by apply Hc.
Qed.

Lemma drop_orderly d p c :
  orderly d -> dm_main d = Reading p -> dm_store d !! p = Some c -> orderly (drop_client p c d).
Proof.
  intros [Hl Ho Ht Ha Hm] E Hp. unfold main_ok in Hm. rewrite E in Hm.
  destruct Hm as (c' & k & Ec & Hk & Hun). rewrite Hp in Ec. injection Ec as <-.
  assert (tidy (drop_client p c d)) as Hl' by by eapply tidy_step, step_nothing.
  revert Hl'. unfold drop_client. destruct (forget p _ (dm_list d)) as [store' l'] eqn:Ef. intros Hl'.
  apply forget_list in Ef as (_ & _ & Hst); [|apply Hl]. split; cbn; try done.
  - intros fd i [_ Hi]%lookup_delete_Some. by eapply Ho.
  - intros i t Hi. destruct (Ht i t Hi) as [? Hx], (Hun i t Hi) as [Hne Hcl]. split; [done|].
    intros Hact. destruct (Hx Hact) as (c' & ? & ? & Hop). exists c'. cbn.
    rewrite Hst, lookup_insert_ne by auto using not_eq_sym.
    split_and!; [done..|]. intros Hph. specialize (Hop Hph). rewrite lookup_delete_ne; [done|congruence].
Qed.

(** A thread goes on, and what it changes is its own. *)
Lemma move_orderly d i t ph store l open :
  orderly d -> dm_threads d !! i = Some t -> active t ->
  NoDup l -> (forall q, q ∈ l -> q ∈ dm_list d /\ store !! q = dm_store d !! q) ->
  (forall q, q <> th_client t -> store !! q = dm_store d !! q) ->
  (forall fd k, open !! fd = Some k -> dm_open d !! fd = Some k) ->
  (forall fd k, dm_open d !! fd = Some k -> k <> th_connection t -> open !! fd = Some k) ->
  let d' := mk_daemon store l open (dm_accepted d) (dm_main d) (<[i := set_phase t ph]> (dm_threads d)) in
  thread_ok d' (set_phase t ph) -> orderly d'.
Proof.
  intros H Hi Hact Hl Hin Hst Hop Hop' d' Hok. split; cbn; try done.
  - split; [done|]. intros q [Hq E]%Hin. cbn. rewrite E. by apply (or_tidy _ H).
  - intros fd k Hk. by eapply (or_open _ H), Hop.
  - intros j u Hj. apply list_lookup_insert_Some in Hj as [(-> & <- & _)|[Hne Hu]]; [done|].
    destruct (or_threads _ H j u Hu) as [? Hx]. split; [done|]. intros Ha.
    destruct (Hx Ha) as (c & ? & ? & Hc). destruct (or_apart _ H i j t u) as [? Hcl]; [done..|].
    exists c. cbn. rewrite Hst by (intros E; by apply Hcl). split_and!; [done..|].
    intros Hph. apply Hop'; [auto|done].
  - intros j k u v. by apply apart_phase.
  - pose proof (or_main _ H) as Hm. unfold main_ok in *. cbn. destruct (dm_main d) as [|fd|p]; [done| |].
    + destruct Hm as (k & Hk & Hc & Hun). exists k. split_and!.
      * apply Hop'; [done|]. intros E. by apply (Hc i t).
      * intros j u [(-> & <- & _)|[_ Hu]]%list_lookup_insert_Some; [by eapply (Hc _ t)|by eapply Hc].
      * intros q c [Hq ->]%Hin ? ?. apply unserved_phase; [done..|]. by eapply Hun.
    + destruct Hm as (c & k & Hp & Hk & Hun). destruct (Hun i t Hi) as [Hne Hcl]. exists c, k. split_and!.
      * rewrite Hst; [done|]. intros E. by apply (Hcl Hact).
      * by apply Hop'.
      * by apply unserved_phase.
Qed.

Lemma orderly_step d d' : orderly d -> calm_step d d' -> orderly d'.
Proof.
  intros H [Hs Hcalm]. destruct Hs as [new_fd p Hm Hfd Hp|new_fd Hm|p c k command Hm Hp Hk Hcmd
    |p c Hm Hp|i t c Hi Hph Hc|i t c Hi Hph Hc|i t Hi Hph].
  - by apply accept_orderly; [..|apply Hcalm].
  - by apply choose_orderly.
  - by apply start_orderly.
  - by apply drop_orderly.
  - destruct (or_threads _ H i t Hi) as [? Hx].
    assert (active t) as Hact by (unfold active; by rewrite Hph).
    apply move_orderly; try done; [apply (or_tidy _ H)|]. split; [done|]. intros _. cbn.
    destruct (Hx Hact) as (c' & ? & ? & Ho). exists c'. split_and!; [done..|]. intros _. apply Ho. by rewrite Hph.
  - destruct (or_threads _ H i t Hi) as [? Hx].
    assert (active t) as Hact by (unfold active; by rewrite Hph).
    destruct (Hx Hact) as (c' & Hc' & ? & Ho). rewrite Hc in Hc'. injection Hc' as <-.
    rewrite Hph in Ho. specialize (Ho ltac:(done)).
    apply move_orderly; try done; [apply (or_tidy _ H)| | |].
    + by intros fd k [_ ?]%lookup_delete_Some.
    + intros fd k Hk Hne. rewrite lookup_delete_ne; [done|]. intros <-. congruence.
    + split; [done|]. intros _. by exists c.
  - assert (active t) as Hact by (unfold active; by rewrite Hph).
    unfold forget_client. destruct (forget _ _ _) as [store l] eqn:Ef.
    apply forget_list in Ef as (Hl & Hin & Hst); [|apply H].
    apply move_orderly; try done.
    + intros q [Hq Hne]%Hin. split; [done|by apply Hst].
    + split; [apply (or_threads _ H i t Hi)|]. by intros [].
Qed.

End Clients.
