(* ===== verification/Walks.v ===== *)
(** * The clients of the daemon, access by access: fuse/commands.c

    Nothing locks the list of clients: while the main loop walks along it, or appends to it, a
    thread may unlink and free what it looks at.  Here the list is one of pointers, and every
    load and store of [fuse_add_client], [fuse_process_client_fds] and [remove_client] is a
    step of its own.  [Clients], where each of the three is one step, is the specification that
    this implements as long as no two of them overlap; what happens when they do is at the
    end. *)

From stdpp Require Import gmap relations.
From S2P Require Import Prelude Daemon Clients.

Module Walks.
Import Daemon Clients.

(** ** Memory *)

(** The structures that are allocated, without their [next], the [next] of each, and
    [client_base].  What is not allocated is not read or written: these accesses are [None]. *)
Record memory := mk_memory { me_store : gmap Z fuse_client; me_next : gmap Z Z; me_base : Z }.

Definition next_of (m : memory) (c : Z) : Z := default 0 (me_next m !! c).

Definition load_next (c : Z) (m : memory) : option Z := _ ← me_store m !! c; Some (next_of m c).

Definition store_next (c v : Z) (m : memory) : option memory :=
  _ ← me_store m !! c; Some (mk_memory (me_store m) (<[c := v]> (me_next m)) (me_base m)).

Definition set_base (v : Z) (m : memory) : memory := mk_memory (me_store m) (me_next m) v.

Definition set_store (s : gmap Z fuse_client) (m : memory) : memory :=
  mk_memory s (me_next m) (me_base m).

(** [malloc] and [memset], with the descriptor. *)
Definition new_client (p fd : Z) (m : memory) : memory :=
  mk_memory (<[p := mk_fuse_client fd [] []]> (me_store m)) (<[p := 0]> (me_next m)) (me_base m).

Definition free (p : Z) (m : memory) : option memory :=
  _ ← me_store m !! p; Some (set_store (delete p (me_store m)) m).

(** ** The three functions

    Each is a state for what it does next; [None] in its place is the end. *)

(** [remove_client]: at [c] behind [prev], which is 0 for NULL; with the loaded
    [toremove->next] in front of its store; in front of [free]. *)
Inductive removal := At (c prev : Z) | Linking (prev v : Z) | Freeing.

Definition removal_step (toremove : Z) (r : removal) (m : memory) : option (memory * option removal) :=
  match r with
  | At c prev =>
    if c =? 0 then Some (m, None)
    else if c =? toremove then
      if prev =? 0 then Some (set_base 0 m, Some Freeing)
      else v ← load_next toremove m; Some (m, Some (Linking prev v))
    else v ← load_next c m; Some (m, Some (At v c))
  | Linking prev v => m ← store_next prev v m; Some (m, Some Freeing)
  | Freeing => m ← free toremove m; Some (m, None)
  end.

Definition start_removal (m : memory) : removal := At (me_base m) 0.

(** [fuse_add_client] behind [malloc]: the test of [client_base]; its store; its load; the
    test of [c->next]; the load of [c->next]; its store. *)
Inductive adding := Testing | First | Start | Last (c : Z) | Advance (c : Z) | Append (c : Z).

Definition adding_step (newc : Z) (a : adding) (m : memory) : option (memory * option adding) :=
  match a with
  | Testing => Some (m, Some (if me_base m =? 0 then First else Start))
  | First => Some (set_base newc m, None)
  | Start => Some (m, Some (Last (me_base m)))
  | Last c => v ← load_next c m; Some (m, Some (if v =? 0 then Append c else Advance c))
  | Advance c => v ← load_next c m; Some (m, Some (Last v))
  | Append c => m ← store_next c newc m; Some (m, None)
  end.

(** [fuse_process_client_fds] up to [process_command]: the test of [c] and of its descriptor,
    and the load of [c->next]. *)
Inductive scanning := Look (c : Z) | Pass (c : Z).

(** It goes on, or has found a client, or none. *)
Inductive scanned := Looking (s : scanning) | Hit (c : Z) | Miss.

Definition scanning_step (ready : Z -> bool) (s : scanning) (m : memory) : option scanned :=
  match s with
  | Look c =>
    if c =? 0 then Some Miss
    else x ← me_store m !! c; Some (if ready (fc_fd x) then Hit c else Looking (Pass c))
  | Pass c => v ← load_next c m; Some (Looking (Look v))
  end.

(** ** The daemon *)

(** The main loop waits; adds a client; has added it; looks for the client to read from; reads;
    removes a client from which nothing was read; closes its descriptor. *)
Inductive loop_phase :=
| Idle | Adding (fd newc : Z) (a : adding) | Added (fd : Z) | Scanning (fd : Z) (s : scanning)
| Receiving (c : Z) | Dropping (c fd : Z) (r : removal) | Closing (fd : Z).

(** A thread behind [close] may be in [remove_client]. *)
Abbreviation remover := (thread * option removal)%type.

Record walking := mk_walking {
  wk_memory : memory; wk_open : gmap Z nat; wk_accepted : nat;
  wk_main : loop_phase; wk_threads : list remover }.

Definition at_rest : walking := mk_walking (mk_memory ∅ ∅ 0) ∅ 0 Idle [].

Definition set_main (ph : loop_phase) (m : memory) (f : walking) : walking :=
  mk_walking m (wk_open f) (wk_accepted f) ph (wk_threads f).

Definition set_thread (i : nat) (t : remover) (m : memory) (open : gmap Z nat) (f : walking) : walking :=
  mk_walking m open (wk_accepted f) (wk_main f) (<[i := t]> (wk_threads f)).

(** [accept], and [fuse_add_client] up to the first test. *)
Definition accepted (fd p : Z) (f : walking) : walking :=
  mk_walking (new_client p fd (wk_memory f)) (<[fd := wk_accepted f]> (wk_open f)) (S (wk_accepted f))
    (Adding fd p Testing) (wk_threads f).

(** [process_command] with a command, and without one up to [remove_client]. *)
Definition commanded (p : Z) (c : fuse_client) (connection : nat) (command : list Z) (f : walking) : walking :=
  mk_walking (set_store (<[p := mk_fuse_client (fc_fd c) command (fc_string c)]> (me_store (wk_memory f)))
                (wk_memory f)) (wk_open f) (wk_accepted f) Idle
    (wk_threads f ++ [(mk_thread p connection command Commanding, None)]).

Definition silent (p : Z) (c : fuse_client) (f : walking) : walking :=
  set_main (Dropping p (fc_fd c) (start_removal (wk_memory f)))
    (set_store (<[p := mk_fuse_client 0 (fc_incoming c) (fc_string c)]> (me_store (wk_memory f))) (wk_memory f)) f.

Definition closed_fd (fd : Z) (f : walking) : walking :=
  mk_walking (wk_memory f) (delete fd (wk_open f)) (wk_accepted f) Idle (wk_threads f).

Definition scan_phase (fd : Z) (s : scanned) : loop_phase :=
  match s with Looking s => Scanning fd s | Hit c => Receiving c | Miss => Idle end.

(** [process_command_thread], as in [Clients]. *)
Definition answered (i : nat) (t : thread) (c : fuse_client) (f : walking) : walking :=
  set_thread i (set_phase t (if fc_fd c =? 0 then Finished else Answered), None) (wk_memory f) (wk_open f) f.

Definition hung_up (i : nat) (t : thread) (c : fuse_client) (f : walking) : walking :=
  set_thread i (set_phase t Closed, None) (wk_memory f) (delete (fc_fd c) (wk_open f)) f.

Definition removing (i : nat) (t : thread) (r : option removal) (m : memory) (f : walking) : walking :=
  set_thread i (match r with Some _ => (t, r) | None => (set_phase t Finished, None) end) m (wk_open f) f.

Inductive walk_step (f : walking) : walking -> Prop :=
| walk_accept fd p :
    wk_main f = Idle -> wk_open f !! fd = None -> me_store (wk_memory f) !! p = None -> p <> 0 ->
    walk_step f (accepted fd p f)
| walk_add fd p a m a' :
    wk_main f = Adding fd p a -> adding_step p a (wk_memory f) = Some (m, a') ->
    walk_step f (set_main (match a' with Some a' => Adding fd p a' | None => Added fd end) m f)
| walk_search fd :
    wk_main f = Added fd -> walk_step f (set_main (Scanning fd (Look (me_base (wk_memory f)))) (wk_memory f) f)
| walk_scan fd s s' :
    wk_main f = Scanning fd s -> scanning_step (fun x => x =? fd) s (wk_memory f) = Some s' ->
    walk_step f (set_main (scan_phase fd s') (wk_memory f) f)
| walk_read p c connection command :
    wk_main f = Receiving p -> me_store (wk_memory f) !! p = Some c ->
    wk_open f !! fc_fd c = Some connection -> command <> [] ->
    walk_step f (commanded p c connection command f)
| walk_nothing p c :
    wk_main f = Receiving p -> me_store (wk_memory f) !! p = Some c -> walk_step f (silent p c f)
| walk_drop p fd r m r' :
    wk_main f = Dropping p fd r -> removal_step p r (wk_memory f) = Some (m, r') ->
    walk_step f (set_main (match r' with Some r' => Dropping p fd r' | None => Closing fd end) m f)
| walk_closed fd : wk_main f = Closing fd -> walk_step f (closed_fd fd f)
| walk_answer i t c :
    wk_threads f !! i = Some (t, None) -> th_phase t = Commanding ->
    me_store (wk_memory f) !! th_client t = Some c -> walk_step f (answered i t c f)
| walk_close i t c :
    wk_threads f !! i = Some (t, None) -> th_phase t = Answered ->
    me_store (wk_memory f) !! th_client t = Some c -> walk_step f (hung_up i t c f)
| walk_forget i t :
    wk_threads f !! i = Some (t, None) -> th_phase t = Closed ->
    walk_step f (removing i t (Some (start_removal (wk_memory f))) (wk_memory f) f)
| walk_remove i t r m r' :
    wk_threads f !! i = Some (t, Some r) -> removal_step (th_client t) r (wk_memory f) = Some (m, r') ->
    walk_step f (removing i t r' m f).

(** The next access of the main loop, or of a thread, is to memory that was freed. *)
Definition main_faults (f : walking) : Prop :=
  match wk_main f with
  | Adding _ p a => adding_step p a (wk_memory f) = None
  | Scanning fd s => scanning_step (fun x => x =? fd) s (wk_memory f) = None
  | Receiving p => me_store (wk_memory f) !! p = None
  | Dropping p _ r => removal_step p r (wk_memory f) = None
  | _ => False
  end.

Definition thread_faults (m : memory) (t : remover) : Prop :=
  match t.2 with
  | Some r => removal_step (th_client t.1) r m = None
  | None => (th_phase t.1 = Commanding \/ th_phase t.1 = Answered) /\ me_store m !! th_client t.1 = None
  end.

Definition faults (f : walking) : Prop :=
  main_faults f \/ exists t, t ∈ wk_threads f /\ thread_faults (wk_memory f) t.

(** ** Runs in which the walks do not overlap *)

Definition removers (ts : list remover) : list (thread * removal) :=
  omap (fun t => pair t.1 <$> t.2) ts.

(** How many walks on the list are under way. *)
Definition walkers (f : walking) : nat :=
  (match wk_main f with Adding _ _ _ | Scanning _ _ | Dropping _ _ _ => 1 | _ => 0 end
   + length (removers (wk_threads f)))%nat.

(** The clients that are reached from [client_base]. *)
Inductive listed (m : memory) : Z -> Prop :=
| listed_base : me_base m <> 0 -> listed m (me_base m)
| listed_next c : listed m c -> next_of m c <> 0 -> listed m (next_of m c).

(** A step that does not accept a connection under a descriptor which a client of the list
    still has. *)
Definition fresh_walk (f f' : walking) : Prop :=
  walk_step f f' /\
  forall fd p, wk_main f = Idle -> wk_main f' = Adding fd p Testing ->
    forall q c, listed (wk_memory f) q -> me_store (wk_memory f) !! q = Some c -> fc_fd c <> fd.

(** A step that does not begin a walk while another is under way. *)
Definition lone_walk (f f' : walking) : Prop := walk_step f f' /\ (walkers f' <= 1)%nat.

Definition calm_walk (f f' : walking) : Prop := fresh_walk f f' /\ lone_walk f f'.

(** ** The list as pointers *)

(** From [p] on there are the clients [l]. *)
Fixpoint linked (m : memory) (p : Z) (l : list Z) : Prop :=
  match l with
  | [] => p = 0
  | q :: l => p = q /\ q <> 0 /\ is_Some (me_store m !! q) /\ linked m (next_of m q) l
  end.

(** The first of [l], or NULL. *)
Definition front (l : list Z) : Z := default 0 (head l).

Lemma linked_front m p l : linked m p l -> p = front l.
Proof. by destruct l; [|intros [? _]]. Qed.

Lemma linked_app m p l1 l2 : linked m p (l1 ++ l2) -> linked m (front l2) l2.
Proof.
  revert p. induction l1 as [|q l1 IH]; intros p; cbn [app linked].
  - intros H. by rewrite <- (linked_front _ _ _ H).
  - intros (_ & _ & _ & H). by eapply IH.
Qed.

(** Stores elsewhere do not matter. *)
Lemma linked_same m m' p l :
  (forall q, q ∈ l -> is_Some (me_store m !! q) -> is_Some (me_store m' !! q) /\ next_of m' q = next_of m q) ->
  linked m p l -> linked m' p l.
Proof.
  revert p. induction l as [|q l IH]; intros p Hs; cbn [linked]; [done|].
  intros (-> & H0 & Hq & Hl). destruct (Hs q) as [? E]; [by left|done|]. rewrite E. split_and!; [done..|].
  apply IH; [|done]. intros x Hx. apply Hs. by right.
Qed.

Lemma linked_listed m l q : linked m (me_base m) l -> q ∈ l -> listed m q.
Proof.
  assert (forall p, (p <> 0 -> listed m p) -> linked m p l -> q ∈ l -> listed m q) as H.
  { induction l as [|x l IH]; intros p Hp; [by intros _ ?%not_elem_of_nil|].
    intros (-> & H0 & _ & Hl) [->|Hq]%elem_of_cons; [by apply Hp|].
    eapply (IH (next_of m x)); [|done..]. intros Hx. apply listed_next; [by apply Hp|done]. }
  apply H. by apply listed_base.
Qed.

Lemma load_next_ok m c l1 l2 p :
  linked m p (l1 ++ c :: l2) -> c <> 0 /\ load_next c m = Some (front l2).
Proof.
  intros H%linked_app. destruct H as (_ & H0 & [x Hx] & Hl). split; [done|].
  unfold load_next. rewrite Hx. cbn. by rewrite (linked_front _ _ _ Hl).
Qed.

(** A store to the [next] of [c]. *)
Lemma linked_store m c v p l1 l2 l3 :
  NoDup (l1 ++ c :: l2) -> (forall q, q ∈ l3 -> q <> c) -> linked m p (l1 ++ c :: l2) -> linked m v l3 ->
  exists m', store_next c v m = Some m' /\ me_store m' = me_store m /\ me_base m' = me_base m /\
    linked m' p (l1 ++ c :: l3).
Proof.
  intros Hn H3 H Hv. pose proof (linked_app _ _ _ _ H) as (_ & H0 & [x Hx] & _).
  unfold store_next. rewrite Hx. eexists. split; [done|]. split; [done|]. split; [done|].
  set (m' := mk_memory _ _ _).
  assert (forall q, q <> c -> next_of m' q = next_of m q) as Hne
    by (intros q Hq; unfold next_of; cbn; by rewrite lookup_insert_ne).
  assert (next_of m' c = v) as Hc by (unfold next_of; cbn; by rewrite lookup_insert_eq).
  revert p H Hn. induction l1 as [|q l1 IH]; intros p; cbn [app linked].
  - intros (-> & _ & _ & _) _. split_and!; [done|done|by exists x|]. rewrite Hc.
    eapply linked_same; [|exact Hv]. intros q Hq ?. split; [done|]. by apply Hne, H3.
  - intros (-> & Hq0 & Hq & Hl) [Hni Hn]%NoDup_cons. split_and!; [done..|].
    rewrite Hne by (intros ->; apply Hni; set_solver). by apply IH.
Qed.

(** ** Removing *)

(** What [remove_client] leaves: nothing if the client is the first. *)
Definition without (p : Z) (l : list Z) : list Z :=
  match l with [] => [] | q :: _ => if p =? q then [] else filter (fun x => x <> p) l end.

Lemma forget_without p store l :
  NoDup l -> forget p store l = if decide (p ∈ l) then (delete p store, without p l) else (store, l).
Proof.
  intros Hl. unfold forget. destruct l as [|q l].
  { cbn. rewrite decide_False by (by intros ?%not_elem_of_nil). done. }
  assert (NoDup (q :: (client_base store l).*1)) as Hn by by rewrite client_base_keys.
  cbn [client_base fmap list_fmap]. fold (client_base store l).
  rewrite remove_client_spec by done. rewrite client_base_keys. unfold without.
  destruct (Z.eqb_spec p q) as [->|Hne].
  { rewrite decide_True by (by left). done. }
  rewrite (filter_cons_True (fun x => x <> p)) by auto using not_eq_sym. case_decide as Hp.
  - rewrite decide_True by (by right). cbn. f_equal. f_equal. clear.
    unfold client_base. induction l as [|x l IH]; [done|]. cbn [fmap list_fmap]. rewrite !filter_cons.
    cbn [fst]. case_decide; [by cbn; rewrite IH|done].
  - rewrite decide_False by (by rewrite elem_of_cons; intros [?|?]). cbn. by rewrite client_base_keys.
Qed.

Lemma filter_none (p : Z) (l : list Z) : p ∉ l -> filter (fun x => x <> p) l = l.
Proof.
  induction l as [|x l IH]; [done|]. rewrite not_elem_of_cons. intros [? ?].
  by rewrite filter_cons, decide_True, IH by auto.
Qed.

Lemma without_found p l1 x l2 :
  NoDup (l1 ++ x :: p :: l2) -> without p (l1 ++ x :: p :: l2) = l1 ++ x :: l2.
Proof.
  intros H. assert (p ∉ l1 /\ p <> x /\ p ∉ l2) as (H1 & H2 & H3).
  { apply NoDup_app in H as (_ & Hd & H). rewrite !NoDup_cons, not_elem_of_cons in H.
    split_and!; [|naive_solver..]. intros Hp. apply (Hd p Hp). right. by left. }
  assert (filter (fun y => y <> p) (l1 ++ x :: p :: l2) = l1 ++ x :: l2) as E.
  { rewrite filter_app, !filter_cons, (decide_True (P := x <> p)), (decide_False (P := p <> p)) by naive_solver.
    by rewrite !filter_none. }
  destruct l1 as [|y l1]; cbn [app without]; (rewrite (proj2 (Z.eqb_neq _ _)); [exact E|]); [done|].
  intros ->. apply H1. by left.
Qed.

Lemma without_front p l : without p (p :: l) = [].
Proof. cbn. by rewrite Z.eqb_refl. Qed.

Lemma without_absent p l : p ∉ without p l.
Proof.
  destruct l as [|q l]; [apply not_elem_of_nil|]. cbn [without].
  destruct (p =? q); [apply not_elem_of_nil|]. by intros [? _]%list_elem_of_filter.
Qed.

(** [remove_client] on the list [l]. *)
Definition removal_ok (m : memory) (p : Z) (l : list Z) (r : removal) : Prop :=
  match r with
  | At c prev => linked m (me_base m) l /\ exists l1 l2, l = l1 ++ l2 /\ c = front l2 /\ p ∉ l1 /\
      prev = default 0 (last l1)
  | Linking prev v => linked m (me_base m) l /\ exists l1 l2, l = l1 ++ prev :: p :: l2 /\ v = front l2
  | Freeing => p ∈ l /\ is_Some (me_store m !! p) /\ linked m (me_base m) (without p l)
  end.

(** It goes on, and in the end has done what [forget] does. *)
Lemma removal_goes_on m p l r :
  NoDup l -> removal_ok m p l r ->
  exists m' r', removal_step p r m = Some (m', r') /\
    match r' with
    | Some r' => me_store m' = me_store m /\ removal_ok m' p l r'
    | None => exists l', forget p (me_store m) l = (me_store m', l') /\ linked m' (me_base m') l'
    end.
Proof.
  intros Hl. destruct r as [c prev|prev v|]; cbn [removal_ok removal_step].
  - intros [H (l1 & l2 & -> & -> & Hp & ->)]. destruct l2 as [|c l2].
    { cbn. eexists _, _. split; [done|]. exists l1. rewrite app_nil_r in *. split; [|done].
      by rewrite forget_without, decide_False. }
    destruct (load_next_ok m c l1 l2 _ H) as [H0 Hn]. change (front (c :: l2)) with c.
    rewrite (proj2 (Z.eqb_neq _ _) H0). destruct (Z.eqb_spec c p) as [->|Hne].
    + destruct l1 as [|x l0 _] using rev_ind.
      * cbn. eexists _, _. split; [done|]. split; [done|].
        cbn [removal_ok app]. rewrite without_front.
        pose proof (linked_app m _ [] _ H) as (_ & _ & ? & _). split_and!; [by left|done|done].
      * rewrite last_snoc. change (default 0 (Some x)) with x. rewrite <- app_assoc in *. cbn [app] in *.
        destruct (load_next_ok m x l0 (p :: l2) _ H) as [Hx _]. rewrite (proj2 (Z.eqb_neq _ _) Hx).
        rewrite Hn. cbn [mbind option_bind]. eexists _, _. split; [done|]. split; [done|]. split; [done|].
        by exists l0, l2.
    + rewrite Hn. cbn [mbind option_bind]. eexists _, _. split; [done|]. split; [done|]. split; [done|].
      exists (l1 ++ [c]), l2. rewrite <- app_assoc, last_snoc. split_and!; [done|done| |done].
      rewrite elem_of_app, list_elem_of_singleton. naive_solver.
  - intros [H (l1 & l2 & -> & ->)].
    assert (forall q, q ∈ l2 -> q <> prev) as H2.
    { intros q Hq ->. apply NoDup_app in Hl as (_ & _ & [Hx _]%NoDup_cons). apply Hx. by right. }
    pose proof (linked_app m (me_base m) (l1 ++ [prev; p]) l2) as H3. rewrite <- app_assoc in H3. cbn [app] in H3.
    pose proof (linked_app m (me_base m) (l1 ++ [prev]) (p :: l2)) as H4. rewrite <- app_assoc in H4. cbn [app] in H4.
    destruct (linked_store m prev (front l2) _ l1 (p :: l2) l2 Hl H2 H (H3 H)) as (m' & -> & Hs & Hb & Hm).
    cbn [mbind option_bind]. exists m', (Some Freeing). split; [done|]. split; [done|].
    cbn [removal_ok]. rewrite Hs, Hb, without_found by done.
    destruct (H4 H) as (_ & _ & ? & _). split_and!; [|done..]. rewrite elem_of_app. right. right. by left.
  - intros (Hp & [x Hx] & H). unfold free. rewrite Hx. cbn [mbind option_bind]. eexists _, _. split; [done|].
    exists (without p l). rewrite forget_without, decide_True by done. split; [done|].
    eapply linked_same; [|exact H]. intros q Hq ?. split; [|done]. cbn.
    rewrite lookup_delete_ne; [done|]. intros ->. by apply (without_absent q l).
Qed.

(** Another store to a structure does not matter to it. *)
Lemma removal_store m p l r s :
  (forall q, is_Some (me_store m !! q) -> is_Some (s !! q)) ->
  removal_ok m p l r -> removal_ok (set_store s m) p l r.
Proof.
  intros Hs. assert (forall q l, linked m q l -> linked (set_store s m) q l) as Hl.
  { intros q l' H. eapply linked_same; [|exact H]. intros x _ Hx. split; [by apply Hs|done]. }
  destruct r; cbn [removal_ok]; naive_solver.
Qed.

(** ** Adding and looking *)

(** [fuse_add_client] of [p] to the list [l]. *)
Definition adding_ok (m : memory) (p : Z) (l : list Z) (a : adding) : Prop :=
  linked m (me_base m) l /\ p <> 0 /\ is_Some (me_store m !! p) /\ next_of m p = 0 /\ p ∉ l /\
  match a with
  | Testing => True
  | First => l = []
  | Start => l <> []
  | Last c => exists l1 l2, l = l1 ++ c :: l2
  | Advance c => exists l1 x l2, l = l1 ++ c :: x :: l2
  | Append c => exists l1, l = l1 ++ [c]
  end.

Lemma linked_end m p l : linked m p l -> p = 0 -> l = [].
Proof. destruct l; [done|]. intros (<- & H & _) E. by destruct (H E). Qed.

Lemma adding_goes_on m p l a :
  NoDup l -> adding_ok m p l a ->
  exists m' a', adding_step p a m = Some (m', a') /\ me_store m' = me_store m /\
    match a' with
    | Some a' => adding_ok m' p l a'
    | None => linked m' (me_base m') (l ++ [p])
    end.
Proof.
  intros Hl (H & Hp0 & Hp & Hpn & Hni & Ha). unfold adding_ok.
  destruct a as [| | |c|c|c]; cbn [adding_step].
  - eexists m, _. split; [done|]. split; [done|]. split_and!; [done..|].
    destruct (Z.eqb_spec (me_base m) 0) as [E|E]; [by eapply linked_end|]. intros ->. by destruct E.
  - subst l. eexists (set_base p m), _. split; [done|]. split; [done|].
    cbn [app linked]. by split_and!.
  - eexists m, _. split; [done|]. split; [done|]. split_and!; [done..|].
    destruct l as [|c l]; [done|]. destruct H as [-> _]. by exists [], l.
  - destruct Ha as (l1 & l2 & ->). destruct (load_next_ok _ _ _ _ _ H) as [Hc ->]. cbn [mbind option_bind].
    eexists m, _. split; [done|]. split; [done|]. split_and!; [done..|].
    pose proof (linked_app m (me_base m) (l1 ++ [c]) l2) as H2. rewrite <- app_assoc in H2. specialize (H2 H).
    destruct (Z.eqb_spec (front l2) 0) as [E|E].
    + rewrite (linked_end _ _ _ H2 E). by exists l1.
    + destruct l2 as [|x l2]; [done|]. by exists l1, x, l2.
  - destruct Ha as (l1 & x & l2 & ->). destruct (load_next_ok _ _ _ _ _ H) as [Hc ->]. cbn [mbind option_bind].
    eexists m, _. split; [done|]. split; [done|]. split_and!; [done..|].
    exists (l1 ++ [c]), l2. by rewrite <- app_assoc.
  - destruct Ha as (l1 & ->).
    destruct (linked_store m c p (me_base m) l1 [] [p] Hl) as (m' & -> & Hs & Hb & Hm); [|exact H| |].
    + intros q ->%list_elem_of_singleton ->. apply Hni. rewrite elem_of_app. right. by left.
    + cbn [linked]. by rewrite Hpn.
    + cbn [mbind option_bind]. eexists m', _. split; [done|]. split; [done|]. by rewrite Hb, <- app_assoc.
Qed.

(** [fuse_process_client_fds] on the list [l]: what it has passed does not have the
    descriptor. *)
Definition scanning_ok (m : memory) (fd : Z) (l : list Z) (s : scanning) : Prop :=
  linked m (me_base m) l /\
  match s with
  | Look c => exists l1 l2, l = l1 ++ l2 /\ c = front l2 /\
      Forall (fun q => (fc_fd <$> me_store m !! q) <> Some fd) l1
  | Pass c => exists l1 l2, l = l1 ++ c :: l2 /\
      Forall (fun q => (fc_fd <$> me_store m !! q) <> Some fd) (l1 ++ [c])
  end.

Lemma find_passed fd (store : gmap Z fuse_client) l1 l2 :
  Forall (fun q => (fc_fd <$> store !! q) <> Some fd) l1 -> (forall q, q ∈ l1 -> is_Some (store !! q)) ->
  fuse_process_client_fds (fun x => x =? fd) (client_base store (l1 ++ l2)) =
    fuse_process_client_fds (fun x => x =? fd) (client_base store l2).
Proof.
  intros H Hs. induction H as [|q l1 Hq _ IH]; [done|]. cbn. destruct (Hs q) as [c Hc]; [by left|].
  rewrite Hc in *. cbn in Hq |- *. rewrite (proj2 (Z.eqb_neq _ _)) by congruence.
  apply IH. intros x Hx. apply Hs. by right.
Qed.

Lemma linked_stored m p l q : linked m p l -> q ∈ l -> is_Some (me_store m !! q).
Proof.
  revert p. induction l as [|x l IH]; intros p; [by intros _ ?%not_elem_of_nil|].
  intros (_ & _ & ? & Hl) [->|Hq]%elem_of_cons; [done|]. by eapply IH.
Qed.

Lemma scanning_goes_on m fd l s :
  scanning_ok m fd l s ->
  exists s', scanning_step (fun x => x =? fd) s m = Some s' /\
    match s' with
    | Looking s' => scanning_ok m fd l s'
    | Hit c => exists x, fuse_process_client_fds (fun x => x =? fd) (client_base (me_store m) l) = Some (c, x)
    | Miss => fuse_process_client_fds (fun x => x =? fd) (client_base (me_store m) l) = None
    end.
Proof.
  intros [H Hs]. pose proof (fun q => linked_stored _ _ _ q H) as Hst. destruct s as [c|c]; cbn [scanning_step].
  - destruct Hs as (l1 & l2 & -> & -> & Hl1).
    assert (forall q, q ∈ l1 -> is_Some (me_store m !! q)) as Hq
      by (intros q Hq; apply Hst; set_solver).
    destruct l2 as [|c l2].
    { cbn. eexists. split; [done|]. by rewrite find_passed. }
    destruct (load_next_ok _ _ _ _ _ H) as [H0 _]. change (front (c :: l2)) with c.
    rewrite (proj2 (Z.eqb_neq _ _) H0). destruct (Hst c) as [x Hx]; [set_solver|]. rewrite Hx.
    cbn [mbind option_bind]. destruct (Z.eqb_spec (fc_fd x) fd) as [E|E].
    + eexists. split; [done|]. exists x. rewrite find_passed by done. cbn. rewrite Hx. cbn.
      by rewrite (proj2 (Z.eqb_eq _ _) E).
    + eexists. split; [done|]. split; [done|]. exists l1, l2. split; [done|].
      apply Forall_app. split; [done|]. apply Forall_singleton. rewrite Hx. cbn. congruence.
  - destruct Hs as (l1 & l2 & -> & Hl1). destruct (load_next_ok _ _ _ _ _ H) as [_ ->].
    cbn [mbind option_bind]. eexists. split; [done|]. split; [done|]. exists (l1 ++ [c]), l2.
    by rewrite <- app_assoc.
Qed.

(** ** The whole steps *)

Definition main_of (ph : loop_phase) : main_phase :=
  match ph with
  | Idle | Dropping _ _ _ | Closing _ => Waiting
  | Adding fd _ _ | Added fd | Scanning fd _ => Accepted fd
  | Receiving p => Reading p
  end.

(** A descriptor that is no longer used is closed a little later. *)
Definition open_of (ph : loop_phase) (open : gmap Z nat) : gmap Z nat :=
  match ph with Dropping _ fd _ | Closing fd => delete fd open | _ => open end.

(** The list [l] of the whole steps, with the structures [store]: while a client is added it
    is there already, while the main loop removes one it is gone already, and while a thread
    removes one it is still there. *)
Definition memory_ok (f : walking) (store : gmap Z fuse_client) (l : list Z) : Prop :=
  let m := wk_memory f in
  match wk_main f with
  | Adding fd p a => me_store m = store /\ exists l', l = l' ++ [p] /\ adding_ok m p l' a
  | Scanning fd s => me_store m = store /\ scanning_ok m fd l s
  | Dropping p _ r => exists l', NoDup l' /\ forget p (me_store m) l' = (store, l) /\ removal_ok m p l' r
  | _ => me_store m = store /\
    match removers (wk_threads f) with
    | [] => linked m (me_base m) l
    | (t, r) :: _ => removal_ok m (th_client t) l r
    end
  end.

Record related (f : walking) (d : daemon) : Prop := {
  re_threads : dm_threads d = (wk_threads f).*1;
  re_removers : forall i t r, wk_threads f !! i = Some (t, Some r) -> th_phase t = Closed;
  re_accepted : dm_accepted d = wk_accepted f;
  re_open : dm_open d = open_of (wk_main f) (wk_open f);
  re_main : dm_main d = main_of (wk_main f);
  re_memory : memory_ok f (dm_store d) (dm_list d);
  re_alone : (walkers f <= 1)%nat }.

Lemma at_rest_related : related at_rest idle_daemon.
Proof. split; try done. by cbn; lia. Qed.

(** Every structure of the whole steps is there. *)
Lemma related_store f d q c :
  related f d -> dm_store d !! q = Some c -> me_store (wk_memory f) !! q = Some c.
Proof.
  intros H. pose proof (re_memory _ _ H) as Hm. unfold memory_ok in Hm. destruct (wk_main f).
  1-5,7: by destruct Hm as [-> _].
  destruct Hm as (l' & Hl & Hf & _). rewrite forget_without in Hf by done.
  case_decide; injection Hf as <- _; [|done]. by intros [_ ?]%lookup_delete_Some.
Qed.

Lemma removers_insert ts i x y :
  ts !! i = Some x ->
  exists l1 l2, removers ts = l1 ++ removers [x] ++ l2 /\ removers (<[i := y]> ts) = l1 ++ removers [y] ++ l2.
Proof.
  intros Hi. exists (removers (take i ts)), (removers (drop (S i) ts)).
  rewrite <- (take_drop_middle ts i x Hi) at 1. rewrite insert_take_drop by by eapply lookup_lt_Some.
  assert (forall z l, removers (z :: l) = removers [z] ++ removers l) as Hc by (by intros [t [r|]] l).
  assert (forall l l', removers (l ++ l') = removers l ++ removers l') as Ha by (intros; apply omap_app).
  by rewrite !Ha, (Hc x), (Hc y).
Qed.

Lemma removers_same ts i t t' :
  ts !! i = Some (t, None) -> removers (<[i := (t', None)]> ts) = removers ts.
Proof. intros Hi. by destruct (removers_insert ts i _ (t', None) Hi) as (l1 & l2 & -> & ->). Qed.

Lemma removers_alone ts i t r y :
  ts !! i = Some (t, Some r) -> (length (removers ts) <= 1)%nat ->
  removers ts = [(t, r)] /\ removers (<[i := y]> ts) = removers [y].
Proof.
  intros Hi. destruct (removers_insert ts i _ y Hi) as (l1 & l2 & -> & ->).
  cbn. rewrite length_app. cbn [length]. intros H.
  destruct l1; [|simpl in H; lia]. destruct l2; [|simpl in H; lia]. by rewrite app_nil_r.
Qed.

Lemma threads_insert (ts : list remover) i t o : (<[i := (t, o)]> ts).*1 = <[i := t]> (ts.*1).
Proof. by rewrite list_fmap_insert. Qed.

Lemma threads_lookup f d i t o :
  related f d -> wk_threads f !! i = Some (t, o) -> dm_threads d !! i = Some t.
Proof. intros H Hi. by rewrite (re_threads _ _ H), list_lookup_fmap, Hi. Qed.

Lemma no_removers f : (walkers f <= 1)%nat ->
  match wk_main f with Adding _ _ _ | Scanning _ _ | Dropping _ _ _ => True | _ => False end ->
  removers (wk_threads f) = [].
Proof.
  unfold walkers. intros Hw Hm. destruct (removers (wk_threads f)) as [|t l]; [done|].
  destruct (wk_main f); try done; simpl in Hw; lia.
Qed.

Lemma idle_memory f d :
  related f d -> removers (wk_threads f) = [] ->
  match wk_main f with Adding _ _ _ | Scanning _ _ | Dropping _ _ _ => False | _ => True end ->
  me_store (wk_memory f) = dm_store d /\ linked (wk_memory f) (me_base (wk_memory f)) (dm_list d).
Proof.
  intros H Hr Hm. pose proof (re_memory _ _ H) as Hx. unfold memory_ok in Hx. rewrite Hr in Hx.
  by destruct (wk_main f).
Qed.

(** A step of the main loop that is none of the whole steps. *)
Lemma stutter f d ph m :
  related f d -> let f' := set_main ph m f in
  (walkers f' <= 1)%nat -> open_of ph (wk_open f) = open_of (wk_main f) (wk_open f) ->
  main_of ph = main_of (wk_main f) -> memory_ok f' (dm_store d) (dm_list d) -> related f' d.
Proof.
  intros H f' Hw Ho Hm Hmem. split; [apply H|apply H|apply H| | |done|done]; cbn.
  - rewrite Ho. apply H.
  - rewrite Hm. apply H.
Qed.

(** *** The main loop and the list *)

Lemma simulate_accept f d fd p :
  related f d -> calm_walk f (accepted fd p f) ->
  wk_main f = Idle -> wk_open f !! fd = None -> me_store (wk_memory f) !! p = None -> p <> 0 ->
  exists d', related (accepted fd p f) d' /\ calm_step d d'.
Proof.
  intros H ((_ & Hc) & _ & Hw) Hm Hfd Hp Hp0. pose proof (no_removers _ Hw I) as Hr. cbn in Hr.
  destruct (idle_memory f d H Hr) as [Hst Hl]; [by rewrite Hm|].
  assert (dm_open d = wk_open f) as Ho by (rewrite (re_open _ _ H); by rewrite Hm).
  exists (accept_client fd p d). split.
  - split; try done; cbn [wk_threads wk_main wk_accepted wk_open wk_memory accepted].
    + apply H.
    + apply H.
    + cbn. by rewrite (re_accepted _ _ H).
    + cbn. by rewrite Ho, (re_accepted _ _ H).
    + unfold memory_ok. cbn [wk_main accepted]. rewrite accept_list. split; [cbn; by rewrite Hst|].
      exists (dm_list d). split; [done|].
      assert (p ∉ dm_list d) as Hni by (intros Hin; destruct (linked_stored _ _ _ _ Hl Hin); congruence).
      split_and!; [|done|cbn; by rewrite lookup_insert_eq|unfold next_of; cbn; by rewrite lookup_insert_eq|done|done].
      eapply linked_same; [|exact Hl]. intros q Hq Hs. assert (q <> p) by (by intros ->).
      unfold next_of. cbn. rewrite !lookup_insert_ne by done. done.
  - split.
    + apply step_accept; [by rewrite (re_main _ _ H), Hm|by rewrite Ho|by rewrite <- Hst].
    + intros new_fd _ [= <-] q c Hq Hs. eapply (Hc fd p Hm eq_refl q); [by eapply linked_listed|].
      by rewrite Hst.
Qed.

Lemma simulate_add f d fd p a m a' :
  related f d -> orderly d -> wk_main f = Adding fd p a -> adding_step p a (wk_memory f) = Some (m, a') ->
  related (set_main (match a' with Some a' => Adding fd p a' | None => Added fd end) m f) d.
Proof.
  intros H Hd Hm Hs. pose proof (re_alone _ _ H) as Hw.
  assert (removers (wk_threads f) = []) as Hr by (apply no_removers; by rewrite ?Hm).
  pose proof (re_memory _ _ H) as Hx. unfold memory_ok in Hx. rewrite Hm in Hx.
  destruct Hx as (Hst & l & Hl & Ha). pose proof (proj1 (or_tidy _ Hd)) as Hnd. rewrite Hl in Hnd.
  apply NoDup_app in Hnd as (Hnd & _). destruct (adding_goes_on _ _ _ _ Hnd Ha) as (m' & a1 & E & Hst' & Ha').
  rewrite Hs in E. injection E as <- <-. apply stutter; [done|..]; destruct a' as [a'|];
    rewrite ?Hm; try done; unfold walkers, memory_ok; cbn [wk_main set_main wk_threads wk_memory]; rewrite ?Hr.
  - simpl. lia.
  - simpl. lia.
  - split; [congruence|]. by exists l.
  - split; [congruence|]. by rewrite Hl.
Qed.

Lemma simulate_search f d fd :
  related f d -> wk_main f = Added fd ->
  let f' := set_main (Scanning fd (Look (me_base (wk_memory f)))) (wk_memory f) f in
  (walkers f' <= 1)%nat -> related f' d.
Proof.
  intros H Hm f' Hw. pose proof (no_removers f' Hw I) as Hr. cbn in Hr.
  destruct (idle_memory f d H Hr) as [Hst Hl]; [by rewrite Hm|].
  apply stutter; [done|done|by rewrite Hm|by rewrite Hm|]. unfold memory_ok. cbn.
  split; [done|]. split; [done|]. exists [], (dm_list d). split_and!; [done| |constructor].
  by apply linked_front in Hl.
Qed.

Lemma simulate_scan f d fd s s' :
  related f d -> wk_main f = Scanning fd s -> scanning_step (fun x => x =? fd) s (wk_memory f) = Some s' ->
  let f' := set_main (scan_phase fd s') (wk_memory f) f in
  exists d', related f' d' /\ (d' = d \/ calm_step d d').
Proof.
  intros H Hm Hs f'. pose proof (re_alone _ _ H) as Hw.
  assert (removers (wk_threads f) = []) as Hr by (apply no_removers; by rewrite ?Hm).
  pose proof (re_memory _ _ H) as Hx. unfold memory_ok in Hx. rewrite Hm in Hx. destruct Hx as (Hst & Hx).
  destruct (scanning_goes_on _ _ _ _ Hx) as (s1 & E & Hs1). rewrite Hs in E. injection E as <-.
  assert (dm_open d = wk_open f) as Ho by (rewrite (re_open _ _ H); by rewrite Hm).
  assert (calm_step d (choose_client fd d)) as Hstep.
  { split; [apply step_choose; by rewrite (re_main _ _ H), Hm|]. intros fd' E. by rewrite (re_main _ _ H), Hm in E. }
  destruct s' as [s'|c|].
  - exists d. split; [|by left]. apply stutter; [done| |by rewrite Hm|by rewrite Hm|done].
    unfold walkers. cbn [set_main wk_threads]. rewrite Hr. simpl. lia.
  - destruct Hs1 as [x Hx1]. exists (choose_client fd d). split; [|by right].
    rewrite Hst in Hx1. split; try apply H; [done| | |].
    + cbn. by rewrite Hx1.
    + unfold memory_ok. unfold f'. cbn [scan_phase set_main wk_main wk_threads wk_memory]. rewrite Hr.
      split; [done|]. apply Hx.
    + unfold walkers, f'. cbn [scan_phase set_main wk_main wk_threads wk_memory]. rewrite Hr. simpl. lia.
  - exists (choose_client fd d). split; [|by right]. rewrite Hst in Hs1. split; try apply H; [done| | |].
    + cbn. by rewrite Hs1.
    + unfold memory_ok. unfold f'. cbn [scan_phase set_main wk_main wk_threads wk_memory]. rewrite Hr.
      split; [done|]. apply Hx.
    + unfold walkers, f'. cbn [scan_phase set_main wk_main wk_threads wk_memory]. rewrite Hr. simpl. lia.
Qed.

(** *** The main loop and a client *)

Lemma idle_main f d ph :
  related f d -> wk_main f = ph ->
  match ph with Adding _ _ _ | Scanning _ _ | Dropping _ _ _ => False | _ => True end ->
  me_store (wk_memory f) = dm_store d /\
  match removers (wk_threads f) with
  | [] => linked (wk_memory f) (me_base (wk_memory f)) (dm_list d)
  | (t, r) :: _ => removal_ok (wk_memory f) (th_client t) (dm_list d) r
  end.
Proof.
  intros H <- Hm. pose proof (re_memory _ _ H) as Hx. unfold memory_ok in Hx. by destruct (wk_main f).
Qed.

Lemma insert_stored {A} (s : gmap Z A) p c q : is_Some (s !! q) -> is_Some (<[p := c]> s !! q).
Proof.
  intros Hq. destruct (decide (q = p)) as [->|]; [by rewrite lookup_insert_eq|by rewrite lookup_insert_ne].
Qed.

Lemma linked_set_store m s p l :
  (forall q, is_Some (me_store m !! q) -> is_Some (s !! q)) -> linked m p l -> linked (set_store s m) p l.
Proof. intros Hs. apply linked_same. intros q _ Hq. split; [by apply Hs|done]. Qed.

Lemma simulate_read f d p c k command :
  related f d -> wk_main f = Receiving p -> me_store (wk_memory f) !! p = Some c ->
  wk_open f !! fc_fd c = Some k -> command <> [] ->
  exists d', related (commanded p c k command f) d' /\ calm_step d d'.
Proof.
  intros H Hm Hp Hk Hcmd. destruct (idle_main f d _ H Hm I) as [Hst Hl].
  assert (dm_open d = wk_open f) as Ho by (rewrite (re_open _ _ H); by rewrite Hm).
  assert (dm_main d = Reading p) as Hmd by by rewrite (re_main _ _ H), Hm.
  exists (start_command p c k command d). split.
  - assert (removers (wk_threads (commanded p c k command f)) = removers (wk_threads f)) as Hr.
    { unfold removers. cbn [commanded wk_threads]. rewrite omap_app. by rewrite app_nil_r. }
    split; try done.
    + cbn. by rewrite fmap_app, (re_threads _ _ H).
    + intros i t r. cbn. rewrite lookup_app_Some. intros [Hi|[_ Hi]]; [by eapply re_removers|].
      by apply list_lookup_singleton_Some in Hi as [_ [=]].
    + apply H.
    + unfold memory_ok. rewrite Hr. cbn [wk_main commanded wk_memory set_store me_store start_command dm_store dm_list].
      rewrite Hst. split; [done|]. destruct (removers (wk_threads f)) as [|[t r] l].
      * rewrite <- Hst. apply linked_set_store; [intros q; apply insert_stored|done].
      * rewrite <- Hst. apply removal_store; [intros q; apply insert_stored|done].
    + pose proof (re_alone _ _ H) as Hw. unfold walkers in *. rewrite Hr. rewrite Hm in Hw. exact Hw.
  - split; [apply step_read; [done|by rewrite <- Hst|by rewrite Ho|done]|]. intros fd E. by rewrite Hmd in E.
Qed.

Lemma simulate_nothing f d p c :
  related f d -> orderly d -> wk_main f = Receiving p -> me_store (wk_memory f) !! p = Some c ->
  (walkers (silent p c f) <= 1)%nat ->
  exists d', related (silent p c f) d' /\ calm_step d d'.
Proof.
  intros H Hd Hm Hp Hw. pose proof (no_removers _ Hw I) as Hr.
  change (wk_threads (silent p c f)) with (wk_threads f) in Hr.
  destruct (idle_main f d _ H Hm I) as [Hst Hl]. rewrite Hr in Hl.
  assert (dm_open d = wk_open f) as Ho by (rewrite (re_open _ _ H); by rewrite Hm).
  assert (dm_main d = Reading p) as Hmd by by rewrite (re_main _ _ H), Hm.
  pose proof (proj1 (or_tidy _ Hd)) as Hnd.
  exists (drop_client p c d). split.
  2: { split; [apply step_nothing; [done|by rewrite <- Hst]|]. intros fd E. by rewrite Hmd in E. }
  unfold drop_client. destruct (forget p _ (dm_list d)) as [store l] eqn:Ef. rewrite <- Hst in Ef.
  split; try apply H; try done.
  - cbn. by rewrite Ho.
  - unfold memory_ok. cbn [wk_main silent set_main wk_memory set_store me_store dm_store dm_list].
    exists (dm_list d). split; [done|]. split; [done|]. unfold start_removal. cbn [removal_ok me_base]. split.
    + apply linked_set_store; [intros q; apply insert_stored|done].
    + exists [], (dm_list d). split_and!; [done|by apply linked_front in Hl|apply not_elem_of_nil|done].
Qed.

Lemma simulate_drop f d p fd r m r' :
  related f d -> wk_main f = Dropping p fd r -> removal_step p r (wk_memory f) = Some (m, r') ->
  related (set_main (match r' with Some r' => Dropping p fd r' | None => Closing fd end) m f) d.
Proof.
  intros H Hm Hs. pose proof (re_alone _ _ H) as Hw.
  assert (removers (wk_threads f) = []) as Hr by (apply no_removers; by rewrite ?Hm).
  pose proof (re_memory _ _ H) as Hx. unfold memory_ok in Hx. rewrite Hm in Hx.
  destruct Hx as (l & Hnd & Hf & Hx). destruct (removal_goes_on _ _ _ _ Hnd Hx) as (m' & r1 & E & Hr').
  rewrite Hs in E. injection E as <- <-. apply stutter; [done|..]; destruct r' as [r'|];
    rewrite ?Hm; try done; unfold walkers, memory_ok; cbn [wk_main set_main wk_threads wk_memory]; rewrite ?Hr.
  - simpl. lia.
  - simpl. lia.
  - destruct Hr' as [Hst Hr']. exists l. by rewrite Hst.
  - destruct Hr' as (l' & Hf' & Hl'). rewrite Hf in Hf'. injection Hf' as -> ->. done.
Qed.

(** *** The threads *)

(** What a thread does with its own client. *)
Lemma simulate_own f d i t ph open :
  related f d -> wk_threads f !! i = Some (t, None) ->
  let f' := set_thread i (set_phase t ph, None) (wk_memory f) open f in
  let d' := mk_daemon (dm_store d) (dm_list d) (open_of (wk_main f) open) (dm_accepted d) (dm_main d)
              (<[i := set_phase t ph]> (dm_threads d)) in
  related f' d'.
Proof.
  intros H Hi f' d'. pose proof (removers_same _ i _ (set_phase t ph) Hi) as Hr.
  split; try apply H; [| |done| |].
  - cbn. by rewrite list_fmap_insert, (re_threads _ _ H).
  - intros j u r. cbn. intros [(-> & E & _)|[_ Hj]]%list_lookup_insert_Some; [done|by eapply re_removers].
  - pose proof (re_memory _ _ H) as Hx. unfold memory_ok in *. cbn [wk_main f' set_thread wk_memory wk_threads].
    by rewrite Hr.
  - pose proof (re_alone _ _ H) as Hx. unfold walkers in *. cbn [wk_main f' set_thread wk_memory wk_threads].
    by rewrite Hr.
Qed.

Lemma own_structure f d i t c :
  related f d -> orderly d -> wk_threads f !! i = Some (t, None) -> active t ->
  me_store (wk_memory f) !! th_client t = Some c -> dm_store d !! th_client t = Some c.
Proof.
  intros H Hd Hi Ha Hc. destruct (or_threads _ Hd i t (threads_lookup _ _ _ _ _ H Hi)) as [_ Hx].
  destruct (Hx Ha) as (c' & Hc' & _). pose proof (related_store _ _ _ _ H Hc'). congruence.
Qed.

Lemma calm_thread d d' : client_step d d' -> dm_main d' = dm_main d -> calm_step d d'.
Proof. intros H E. split; [done|]. intros fd Hw Ha. congruence. Qed.

Lemma open_of_delete ph fd open : open_of ph (delete fd open) = delete fd (open_of ph open).
Proof. destruct ph; cbn; try done; apply delete_delete. Qed.

Lemma simulate_answer f d i t c :
  related f d -> orderly d -> wk_threads f !! i = Some (t, None) -> th_phase t = Commanding ->
  me_store (wk_memory f) !! th_client t = Some c ->
  exists d', related (answered i t c f) d' /\ calm_step d d'.
Proof.
  intros H Hd Hi Hph Hc. eexists. split; [by apply simulate_own|]. rewrite <- (re_open _ _ H).
  apply calm_thread; [|done]. apply step_answer; [by eapply threads_lookup|done|].
  eapply own_structure; try done. unfold active. by rewrite Hph.
Qed.

Lemma simulate_close f d i t c :
  related f d -> orderly d -> wk_threads f !! i = Some (t, None) -> th_phase t = Answered ->
  me_store (wk_memory f) !! th_client t = Some c ->
  exists d', related (hung_up i t c f) d' /\ calm_step d d'.
Proof.
  intros H Hd Hi Hph Hc. eexists. split; [by apply simulate_own|]. rewrite open_of_delete, <- (re_open _ _ H).
  apply calm_thread; [|done]. apply step_close; [by eapply threads_lookup|done|].
  eapply own_structure; try done. unfold active. by rewrite Hph.
Qed.

Lemma walking_main f i t r m open :
  (walkers (set_thread i (t, Some r) m open f) <= 1)%nat -> (i < length (wk_threads f))%nat ->
  match wk_main f with Adding _ _ _ | Scanning _ _ | Dropping _ _ _ => False | _ => True end.
Proof.
  intros Hw Hi. apply lookup_lt_is_Some in Hi as [x Hx].
  destruct (removers_insert _ _ _ (t, Some r) Hx) as (l1 & l2 & _ & E). unfold walkers in Hw.
  cbn [set_thread wk_main wk_threads] in Hw. rewrite E, !length_app in Hw. simpl in Hw.
  destruct (wk_main f); simpl in Hw; try done; lia.
Qed.

Lemma simulate_forget f d i t :
  related f d -> wk_threads f !! i = Some (t, None) -> th_phase t = Closed ->
  let f' := removing i t (Some (start_removal (wk_memory f))) (wk_memory f) f in
  (walkers f' <= 1)%nat -> related f' d.
Proof.
  intros H Hi Hph f' Hw. pose proof (walking_main _ _ _ _ _ _ Hw (lookup_lt_Some _ _ _ Hi)) as Hm.
  destruct (removers_insert _ _ _ (t, Some (start_removal (wk_memory f))) Hi) as (l1 & l2 & E1 & E2).
  assert (l1 = [] /\ l2 = []) as [-> ->].
  { unfold walkers, f', removing in Hw. cbn [set_thread wk_main wk_threads] in Hw.
    rewrite E2, !length_app in Hw. simpl in Hw. destruct l1, l2; simpl in Hw; (done || lia). }
  destruct (idle_memory f d H E1 Hm) as [Hst Hl].
  split; try apply H; [| | |done].
  - cbn. rewrite list_fmap_insert. cbn. rewrite list_insert_id; [apply H|]. by rewrite list_lookup_fmap, Hi.
  - intros j u r. cbn. intros [(-> & [= <- <-] & _)|[_ Hj]]%list_lookup_insert_Some; [done|by eapply re_removers].
  - assert (me_store (wk_memory f) = dm_store d /\ removal_ok (wk_memory f) (th_client t) (dm_list d)
      (start_removal (wk_memory f))) as Hok.
    { split; [done|]. split; [done|]. exists [], (dm_list d).
      split_and!; [done|by apply linked_front in Hl|apply not_elem_of_nil|done]. }
    unfold memory_ok. cbn [wk_main f' removing set_thread wk_memory wk_threads]. rewrite E2.
    by destruct (wk_main f).
Qed.

Lemma quiet_main f :
  (walkers f <= 1)%nat -> removers (wk_threads f) <> [] ->
  match wk_main f with Adding _ _ _ | Scanning _ _ | Dropping _ _ _ => False | _ => True end.
Proof.
  unfold walkers. intros Hw Hr. destruct (removers (wk_threads f)); [done|].
  destruct (wk_main f); simpl in Hw; (done || lia).
Qed.

Lemma simulate_remove f d i t r m r' :
  related f d -> orderly d -> wk_threads f !! i = Some (t, Some r) ->
  removal_step (th_client t) r (wk_memory f) = Some (m, r') ->
  exists d', related (removing i t r' m f) d' /\ (d' = d \/ calm_step d d').
Proof.
  intros H Hd Hi Hs. pose proof (re_alone _ _ H) as Hw.
  assert (length (removers (wk_threads f)) <= 1)%nat as Hlen by (unfold walkers in Hw; lia).
  destruct (removers_alone _ _ _ _ (match r' with Some _ => (t, r') | None => (set_phase t Finished, None) end)
    Hi Hlen) as [E1 E2].
  pose proof (quiet_main f Hw ltac:(by rewrite E1)) as Hm.
  destruct (idle_main f d _ H eq_refl Hm) as [Hst Hx]. rewrite E1 in Hx.
  destruct (removal_goes_on _ _ _ _ (proj1 (or_tidy _ Hd)) Hx) as (m' & r1 & E & Hr'). rewrite Hs in E.
  injection E as <- <-. pose proof (threads_lookup _ _ _ _ _ H Hi) as Hti. destruct r' as [r'|].
  - exists d. split; [|by left]. split; try apply H.
    + cbn. rewrite list_fmap_insert. cbn. rewrite list_insert_id; [apply H|]. by rewrite list_lookup_fmap, Hi.
    + intros j u r0. cbn. intros [(-> & [= <- <-] & _)|[_ Hj]]%list_lookup_insert_Some; by eapply re_removers.
    + destruct Hr' as [Hst' Hr']. unfold memory_ok. cbn [wk_main removing set_thread wk_memory wk_threads].
      rewrite E2. destruct (wk_main f); try done; (split; [congruence|exact Hr']).
    + unfold walkers in *. cbn [wk_main removing set_thread wk_memory wk_threads]. by rewrite E2; rewrite E1 in Hw.
  - destruct Hr' as (l' & Hf & Hl'). rewrite Hst in Hf. exists (forget_client i t d). split.
    + unfold forget_client. rewrite Hf. split; try apply H.
      * cbn. by rewrite list_fmap_insert, (re_threads _ _ H).
      * intros j u r0. cbn. intros [(-> & E & _)|[_ Hj]]%list_lookup_insert_Some; [done|by eapply re_removers].
      * unfold memory_ok. cbn [wk_main removing set_thread wk_memory wk_threads]. rewrite E2.
        by destruct (wk_main f).
      * unfold walkers in *. cbn [wk_main removing set_thread wk_memory wk_threads]. rewrite E2. rewrite E1 in Hw.
        simpl in *. lia.
    + right. apply calm_thread; [apply step_forget; [done|by eapply re_removers]|].
      unfold forget_client. by rewrite Hf.
Qed.

(** *** Every step *)

Lemma simulate_closed f d fd :
  related f d -> wk_main f = Closing fd -> related (closed_fd fd f) d.
Proof.
  intros H Hm. pose proof (idle_main f d _ H Hm I) as Hx. split; try apply H; cbn.
  - rewrite (re_open _ _ H). by rewrite Hm.
  - rewrite (re_main _ _ H). by rewrite Hm.
  - exact Hx.
  - pose proof (re_alone _ _ H) as Hw. unfold walkers in *. by rewrite Hm in Hw.
Qed.

(** While the walks do not overlap, the daemon does what the whole steps do. *)
Lemma walks_refine f f' d :
  related f d -> orderly d -> calm_walk f f' -> exists d', related f' d' /\ orderly d'.
Proof.
  intros H Hd Hstep. pose proof Hstep as ((Hs & _) & _ & Hw).
  assert (forall f', (exists d', related f' d' /\ (d' = d \/ calm_step d d')) ->
    exists d', related f' d' /\ orderly d') as Hmay.
  { intros g (d' & Hr & [E|Hc]); exists d'; (split; [done|]); [by rewrite E|by eapply orderly_step]. }
  assert (forall f', (exists d', related f' d' /\ calm_step d d') -> exists d', related f' d' /\ orderly d') as Hdo.
  { intros g (d' & ? & ?). apply Hmay. exists d'. auto. }
  destruct Hs as [fd p Hm Hfd Hp Hp0|fd p a m a' Hm Ha|fd Hm|fd s s' Hm Ha|p c k command Hm Hp Hk Hcmd
    |p c Hm Hp|p fd r m r' Hm Ha|fd Hm|i t c Hi Hph Hc|i t c Hi Hph Hc|i t Hi Hph|i t r m r' Hi Ha].
  - apply Hdo. by apply simulate_accept.
  - exists d. split; [by eapply simulate_add|done].
  - exists d. split; [by eapply simulate_search|done].
  - apply Hmay. by eapply simulate_scan.
  - apply Hdo. by apply simulate_read.
  - apply Hdo. by apply simulate_nothing.
  - exists d. split; [by eapply simulate_drop|done].
  - exists d. split; [by apply simulate_closed|done].
  - apply Hdo. by apply simulate_answer.
  - apply Hdo. by apply simulate_close.
  - exists d. split; [by apply simulate_forget|done].
  - apply Hmay. by eapply simulate_remove.
Qed.

Lemma calm_related f : rtc calm_walk at_rest f -> exists d, related f d /\ orderly d.
Proof.
  intros H. apply (rtc_ind_r (R := calm_walk) (fun f => exists d, related f d /\ orderly d) at_rest); [| |exact H].
  - exists idle_daemon. split; [apply at_rest_related|apply idle_orderly].
  - intros x y _ Hs (d & Hr & Ho). by eapply walks_refine.
Qed.

(** *** What the whole steps promise *)

Lemma main_safe f d : related f d -> orderly d -> ~ main_faults f.
Proof.
  intros H Hd. pose proof (re_memory _ _ H) as Hx. unfold main_faults, memory_ok in *.
  destruct (wk_main f) as [|fd p a|fd|fd s|p|p fd r|fd] eqn:Hm; try (by intros []); intros E.
  - destruct Hx as (_ & l & Hl & Ha). pose proof (proj1 (or_tidy _ Hd)) as Hnd. rewrite Hl in Hnd.
    apply NoDup_app in Hnd as (Hnd & _). destruct (adding_goes_on _ _ _ _ Hnd Ha) as (? & ? & ? & _). congruence.
  - destruct Hx as [_ Hx]. destruct (scanning_goes_on _ _ _ _ Hx) as (? & ? & _). congruence.
  - pose proof (or_main _ Hd) as Hmd. unfold main_ok in Hmd. rewrite (re_main _ _ H), Hm in Hmd. cbn in Hmd.
    destruct Hmd as (c & _ & Hc & _). destruct Hx as [Hst _]. congruence.
  - destruct Hx as (l & Hnd & _ & Hr). destruct (removal_goes_on _ _ _ _ Hnd Hr) as (? & ? & ? & _). congruence.
Qed.

Lemma thread_safe f d t : related f d -> orderly d -> t ∈ wk_threads f -> ~ thread_faults (wk_memory f) t.
Proof.
  intros H Hd [i Hi]%list_elem_of_lookup. unfold thread_faults. destruct t as [t [r|]]; cbn [fst snd].
  - intros E. pose proof (re_alone _ _ H) as Hw.
    assert (length (removers (wk_threads f)) <= 1)%nat as Hlen by (unfold walkers in Hw; lia).
    destruct (removers_alone _ _ _ _ (t, Some r) Hi Hlen) as [E1 _].
    destruct (idle_main f d _ H eq_refl (quiet_main f Hw ltac:(by rewrite E1))) as [_ Hx]. rewrite E1 in Hx.
    destruct (removal_goes_on _ _ _ _ (proj1 (or_tidy _ Hd)) Hx) as (? & ? & ? & _). congruence.
  - intros [Hph E]. destruct (or_threads _ Hd i t (threads_lookup _ _ _ _ _ H Hi)) as [_ Hx].
    destruct Hx as (c & Hc & _); [unfold active; by destruct Hph as [-> | ->]|].
    pose proof (related_store _ _ _ _ H Hc). congruence.
Qed.

Lemma open_of_subset ph open fd (k : nat) : open_of ph open !! fd = Some k -> open !! fd = Some k.
Proof. destruct ph; cbn; try done; by intros [_ ?]%lookup_delete_Some. Qed.

(** C26: The clients of the daemon do not disturb each other, in every interleaving of the
    loads and stores of the main loop and of the threads in which no walk on the list of
    clients begins while another is under way, and no connection is accepted under a
    descriptor that a client of the list still has: no structure is used that was freed, the
    command a thread works on is the one that was read for it and its answer goes to the
    connection which this command came over, and no connection has two threads.  Nothing in
    the code keeps the walks apart: see [overlapping_walks_fault]. *)
Theorem answers_reach_askers f :
  rtc calm_walk at_rest f ->
  ~ faults f /\
  (forall i t o, wk_threads f !! i = Some (t, o) -> th_phase t = Commanding -> exists c,
     me_store (wk_memory f) !! th_client t = Some c /\ fc_incoming c = th_command t /\
     wk_open f !! fc_fd c = Some (th_connection t)) /\
  (forall i j t u o o', wk_threads f !! i = Some (t, o) -> wk_threads f !! j = Some (u, o') ->
     th_connection t = th_connection u -> i = j).
Proof.
  intros (d & H & Hd)%calm_related. split_and!.
  - intros [Hm|(t & Ht & Hf)]; [by eapply main_safe|by eapply thread_safe].
  - intros i t o Hi Hph. destruct (or_threads _ Hd i t (threads_lookup _ _ _ _ _ H Hi)) as [_ Hx].
    destruct Hx as (c & Hc & ? & Hop); [unfold active; by rewrite Hph|]. exists c.
    split_and!; [by eapply related_store|done|]. apply (open_of_subset (wk_main f)). rewrite <- (re_open _ _ H).
    apply Hop. by rewrite Hph.
  - intros i j t u o o' Hi Hj E. destruct (decide (i = j)) as [|Hne]; [done|].
    destruct (or_apart _ Hd i j t u) as [? _]; [by eapply threads_lookup..|done|done].
Qed.

(** ** Runs by computation *)

(** Who goes on, and what [accept], [malloc] and [read] give. *)
Inductive choice := Accept (fd p : Z) | Loop | Command (command : list Z) | Nothing | Thread (i : nat).

Definition do_loop (f : walking) : option walking :=
  match wk_main f with
  | Adding fd p a =>
    '(m, a') ← adding_step p a (wk_memory f);
    Some (set_main (match a' with Some a' => Adding fd p a' | None => Added fd end) m f)
  | Added fd => Some (set_main (Scanning fd (Look (me_base (wk_memory f)))) (wk_memory f) f)
  | Scanning fd s =>
    s' ← scanning_step (fun x => x =? fd) s (wk_memory f); Some (set_main (scan_phase fd s') (wk_memory f) f)
  | Dropping p fd r =>
    '(m, r') ← removal_step p r (wk_memory f);
    Some (set_main (match r' with Some r' => Dropping p fd r' | None => Closing fd end) m f)
  | Closing fd => Some (closed_fd fd f)
  | _ => None
  end.

Definition do_thread (i : nat) (f : walking) : option walking :=
  '(t, o) ← wk_threads f !! i;
  match o with
  | Some r => '(m, r') ← removal_step (th_client t) r (wk_memory f); Some (removing i t r' m f)
  | None =>
    match th_phase t with
    | Commanding => c ← me_store (wk_memory f) !! th_client t; Some (answered i t c f)
    | Answered => c ← me_store (wk_memory f) !! th_client t; Some (hung_up i t c f)
    | Closed => Some (removing i t (Some (start_removal (wk_memory f))) (wk_memory f) f)
    | Finished => None
    end
  end.

Definition do_walk (ch : choice) (f : walking) : option walking :=
  match ch, wk_main f with
  | Accept fd p, Idle =>
    if decide (wk_open f !! fd = None /\ me_store (wk_memory f) !! p = None /\ p <> 0)
    then Some (accepted fd p f) else None
  | Command command, Receiving p =>
    c ← me_store (wk_memory f) !! p; k ← wk_open f !! fc_fd c;
    if decide (command = []) then None else Some (commanded p c k command f)
  | Nothing, Receiving p => c ← me_store (wk_memory f) !! p; Some (silent p c f)
  | Loop, _ => do_loop f
  | Thread i, _ => do_thread i f
  | _, _ => None
  end.

(** No structure at all has the descriptor. *)
Definition is_fresh (ch : choice) (f : walking) : bool :=
  match ch with
  | Accept fd _ => forallb (fun qc => negb (fc_fd qc.2 =? fd)) (map_to_list (me_store (wk_memory f)))
  | _ => true
  end.

Fixpoint do_walks (fresh lone : bool) (chs : list choice) (f : walking) : option walking :=
  match chs with
  | [] => Some f
  | ch :: chs =>
    f' ← do_walk ch f;
    if (fresh && negb (is_fresh ch f)) || (lone && (1 <? walkers f')%nat) then None
    else do_walks fresh lone chs f'
  end.

Lemma do_loop_sound f f' :
  do_loop f = Some f' -> walk_step f f' /\ (wk_main f = Idle -> False).
Proof.
  unfold do_loop. destruct (wk_main f) as [|fd p a|fd|fd s|p|p fd r|fd] eqn:Hm; try done.
  - intros ([m a'] & Ha & [= <-])%bind_Some. split; [by eapply walk_add|done].
  - intros [= <-]. split; [by eapply walk_search|done].
  - intros (s' & Hs & [= <-])%bind_Some. split; [by eapply walk_scan|done].
  - intros ([m r'] & Hr & [= <-])%bind_Some. split; [by eapply walk_drop|done].
  - intros [= <-]. split; [by eapply walk_closed|done].
Qed.

Lemma do_thread_sound i f f' :
  do_thread i f = Some f' -> walk_step f f' /\ wk_main f' = wk_main f.
Proof.
  unfold do_thread. intros ([t o] & Hi & H)%bind_Some. destruct o as [r|].
  - apply bind_Some in H as ([m r'] & Hr & [= <-]). split; [by eapply walk_remove|done].
  - destruct (th_phase t) eqn:Hph; [| | |done].
    + apply bind_Some in H as (c & Hc & [= <-]). split; [by eapply walk_answer|done].
    + apply bind_Some in H as (c & Hc & [= <-]). split; [by eapply walk_close|done].
    + injection H as <-. split; [by eapply walk_forget|done].
Qed.

Lemma do_walk_sound ch f f' :
  do_walk ch f = Some f' -> walk_step f f' /\ (is_fresh ch f = true -> fresh_walk f f').
Proof.
  intros H. assert (walk_step f f' /\ (wk_main f = Idle -> forall fd p, wk_main f' = Adding fd p Testing ->
    exists q, ch = Accept fd q)) as [Hs Hacc].
  { unfold do_walk in H. destruct ch as [fd p| |command| |i].
    - destruct (wk_main f) eqn:Hm; try done. case_decide as Hd; [|done]. injection H as <-.
      destruct Hd as (? & ? & ?). split; [by apply walk_accept|]. intros _ fd' p' [= <- <-]. by exists p.
    - destruct (do_loop_sound _ _ H) as [? Hi]. split; [done|]. intros E. by destruct (Hi E).
    - destruct (wk_main f) eqn:Hm; try done. apply bind_Some in H as (x & Hx & H).
      apply bind_Some in H as (k & Hk & H). case_decide; [done|]. injection H as <-.
      split; [by eapply walk_read|done].
    - destruct (wk_main f) eqn:Hm; try done. apply bind_Some in H as (x & Hx & [= <-]).
      split; [by eapply walk_nothing|done].
    - destruct (do_thread_sound _ _ _ H) as [? E]. split; [done|]. intros Hi fd p Hm. congruence. }
  split; [done|]. intros Hf. split; [done|]. intros fd p Hm Ha q c _ Hq E.
  destruct (Hacc Hm fd p Ha) as [p' ->]. cbn in Hf. rewrite forallb_forall in Hf.
  specialize (Hf (q, c) (proj1 (list_elem_of_In _ _) (proj2 (elem_of_map_to_list _ _ _) Hq))).
  cbn in Hf. by rewrite E, Z.eqb_refl in Hf.
Qed.

Lemma do_walks_sound fresh lone chs f f' :
  do_walks fresh lone chs f = Some f' ->
  rtc (fun f f' => walk_step f f' /\ (fresh = true -> fresh_walk f f') /\ (lone = true -> lone_walk f f')) f f'.
Proof.
  revert f. induction chs as [|ch chs IH]; intros f; cbn [do_walks]; [intros [= <-]; apply rtc_refl|].
  intros (e & He & Hr)%bind_Some. destruct (_ || _) eqn:E; [done|]. apply orb_false_elim in E as [E1 E2].
  destruct (do_walk_sound _ _ _ He) as [Hs Hf]. eapply rtc_l; [|by apply IH]. split_and!; [done| |].
  - intros ->. apply Hf. by destruct (is_fresh ch f).
  - intros ->. split; [done|]. rewrite andb_true_l in E2. apply Nat.ltb_ge in E2. lia.
Qed.

Lemma calm_run chs f : do_walks true true chs at_rest = Some f -> rtc calm_walk at_rest f.
Proof. intros H. eapply rtc_subrel; [|by eapply do_walks_sound]. intros x y (? & ? & ?). split; auto. Qed.

(** Two clients at the same time; the second has its command first. *)
Definition side_by_side : list choice :=
  Accept 5 100 :: replicate 4 Loop ++ [Command [1; 10]] ++
  Accept 6 101 :: replicate 8 Loop ++ [Command [6]] ++ replicate 7 (Thread 1).

Lemma answers_reach_askers_witness :
  exists f, rtc calm_walk at_rest f /\ ~ faults f /\
    (exists t, wk_threads f !! 0%nat = Some (t, None) /\ th_phase t = Commanding /\ th_command t = [1; 10]) /\
    (forall i t o, wk_threads f !! i = Some (t, o) -> th_phase t = Commanding -> exists c,
       me_store (wk_memory f) !! th_client t = Some c /\ fc_incoming c = th_command t /\
       wk_open f !! fc_fd c = Some (th_connection t)).
Proof.
  assert (do_walks true true side_by_side at_rest =
    Some (mk_walking (mk_memory {[100 := mk_fuse_client 5 [1; 10] []]} (<[100 := 0]> {[101 := 0]}) 100)
            {[5 := 0%nat]} 2 Idle
            [(mk_thread 100 0 [1; 10] Commanding, None); (mk_thread 101 1 [6] Finished, None)])) as E
    by (vm_compute; reflexivity).
  pose proof (calm_run _ _ E) as Hr. eexists. split; [exact Hr|].
  destruct (answers_reach_askers _ Hr) as (Hf & Ha & _). split; [exact Hf|]. split; [|exact Ha].
  eexists. by split_and!.
Defined.

(** ** What can go wrong *)

(** The first client has been answered when the second is accepted; the main loop looks at the
    first and, in front of its [next], the thread of the first frees it. *)
Definition overlap : list choice :=
  Accept 5 100 :: replicate 4 Loop ++ [Command [6]; Thread 0; Thread 0] ++
  Accept 6 101 :: replicate 6 Loop ++ replicate 3 (Thread 0).

(** With no descriptor used twice, the main loop can walk over a client that its thread has
    freed: [fuse_process_client_fds] loads [c->next] from freed memory. *)
Theorem overlapping_walks_fault :
  exists f, rtc fresh_walk at_rest f /\ wk_main f = Scanning 6 (Pass 100) /\
    me_store (wk_memory f) !! 100 = None /\ faults f.
Proof.
  assert (do_walks true false overlap at_rest =
    Some (mk_walking (mk_memory {[101 := mk_fuse_client 6 [] []]} (<[100 := 101]> {[101 := 0]}) 0)
            {[6 := 1%nat]} 2 (Scanning 6 (Pass 100)) [(mk_thread 100 0 [6] Finished, None)])) as E
    by (vm_compute; reflexivity).
  eexists. split.
  { eapply rtc_subrel; [|by eapply do_walks_sound]. intros x y (? & Hf & _). by apply Hf. }
  split_and!; [done..|]. by left.
Qed.

(** The second client is accepted under the descriptor that the thread of the first has just
    closed; the search finds the structure of the first, which the thread then frees. *)
Definition reused_descriptor : list choice :=
  Accept 5 100 :: replicate 4 Loop ++ [Command [6]; Thread 0; Thread 0] ++
  Accept 5 101 :: replicate 6 Loop ++ [Command [7]] ++ replicate 3 (Thread 0).

(** If a descriptor is used again before the client that had it is forgotten, the command of
    the new connection goes to the structure of the old client, which is freed while the
    thread of the new command still works on it; the walks need not overlap for that. *)
Theorem reused_descriptor_faults :
  exists f, rtc lone_walk at_rest f /\ faults f /\
    exists t c, (t, None) ∈ wk_threads f /\ th_phase t = Commanding /\
      me_store (wk_memory f) !! th_client t = None /\ wk_open f !! 5 = Some (th_connection t) /\
      c <> th_client t /\ fc_fd <$> (me_store (wk_memory f) !! c) = Some 5.
Proof.
  set (t := mk_thread 100 1 [7] Commanding).
  assert (do_walks false true reused_descriptor at_rest =
    Some (mk_walking (mk_memory {[101 := mk_fuse_client 5 [] []]} (<[100 := 101]> {[101 := 0]}) 0)
            {[5 := 1%nat]} 2 Idle [(mk_thread 100 0 [6] Finished, None); (t, None)])) as E
    by (vm_compute; reflexivity).
  eexists. split.
  { eapply rtc_subrel; [|by eapply do_walks_sound]. intros x y (? & _ & Hl). by apply Hl. }
  assert ((t, None) ∈ [(mk_thread 100 0 [6] Finished, None); (t, None) : remover]) as Ht by (right; left).
  split; [right; exists (t, None); split; [done|]|].
  - split; [by left|done].
  - exists t, 101. by split_and!.
Qed.

(** ** A client that is lost *)

Definition removal_avoids (p : Z) (r : removal) : Prop :=
  match r with At c prev => c <> p | Linking prev v => v <> p | Freeing => True end.

(** The main loop has no pointer to [p], and does not close [fd]. *)
Definition main_avoids (fd p : Z) (ph : loop_phase) : Prop :=
  match ph with
  | Idle | Added _ => True
  | Adding _ q a => q <> p
  | Scanning _ (Look c) | Scanning _ (Pass c) => c <> p
  | Receiving q => q <> p
  | Dropping q fd' r => q <> p /\ fd' <> fd /\ removal_avoids p r
  | Closing fd' => fd' <> fd
  end.

Definition thread_avoids (p : Z) (k : nat) (t : remover) : Prop :=
  th_connection t.1 <> k /\ (active t.1 \/ is_Some t.2 -> th_client t.1 <> p) /\
  (forall r, t.2 = Some r -> removal_avoids p r).

(** The connection [k] of the client [p], to which no pointer is left. *)
Record lost (fd p : Z) (k : nat) (f : walking) : Prop := {
  ls_fd : fd <> 0 /\ p <> 0;
  ls_open : wk_open f !! fd = Some k /\ (k < wk_accepted f)%nat /\
            forall fd', wk_open f !! fd' = Some k -> fd' = fd;
  ls_store : is_Some (me_store (wk_memory f) !! p) /\
             forall q c, me_store (wk_memory f) !! q = Some c -> fc_fd c = fd -> q = p;
  ls_base : me_base (wk_memory f) <> p;
  ls_next : forall q, is_Some (me_store (wk_memory f) !! q) -> next_of (wk_memory f) q <> p;
  ls_main : main_avoids fd p (wk_main f);
  ls_threads : forall i t, wk_threads f !! i = Some t -> thread_avoids p k t }.

(** The pointers and structures of memory that do not lead to [p]. *)
Definition memory_avoids (fd p : Z) (m : memory) : Prop :=
  (is_Some (me_store m !! p) /\ forall q c, me_store m !! q = Some c -> fc_fd c = fd -> q = p) /\
  me_base m <> p /\ forall q, is_Some (me_store m !! q) -> next_of m q <> p.

Lemma lost_memory fd p k f : lost fd p k f -> memory_avoids fd p (wk_memory f).
Proof. intros H. split; [apply H|]. split; apply H. Qed.

Lemma load_next_avoids fd p c m v : memory_avoids fd p m -> load_next c m = Some v -> v <> p.
Proof.
  intros (_ & _ & Hn) H. unfold load_next in H. apply bind_Some in H as (x & Hx & [= <-]).
  apply Hn. by exists x.
Qed.

Lemma store_next_avoids fd p c v m m' :
  memory_avoids fd p m -> v <> p -> store_next c v m = Some m' -> memory_avoids fd p m'.
Proof.
  intros (Hs & Hb & Hn) Hv H. unfold store_next in H. apply bind_Some in H as (? & _ & [= <-]).
  split; [done|]. split; [done|]. intros q Hq. unfold next_of. cbn. destruct (decide (q = c)) as [->|].
  - by rewrite lookup_insert_eq.
  - rewrite lookup_insert_ne by done. by apply Hn.
Qed.

Lemma base_avoids fd p v m : memory_avoids fd p m -> v <> p -> memory_avoids fd p (set_base v m).
Proof. by intros (? & ? & ?) ?. Qed.

Lemma removal_avoids_step fd p toremove r m m' r' :
  memory_avoids fd p m -> p <> 0 -> toremove <> p -> removal_avoids p r ->
  removal_step toremove r m = Some (m', r') ->
  memory_avoids fd p m' /\ forall r1, r' = Some r1 -> removal_avoids p r1.
Proof.
  intros Hm H0 Ht Hr H. destruct r as [c prev|prev v|]; cbn [removal_step] in H.
  - destruct (c =? 0); [by simplify_eq|]. destruct (c =? toremove).
    + destruct (prev =? 0).
      * simplify_eq. split; [by apply base_avoids|]. by intros ? [= <-].
      * apply bind_Some in H as (v & Hv & [= <- <-]). split; [done|]. intros ? [= <-].
        by eapply load_next_avoids.
    + apply bind_Some in H as (v & Hv & [= <- <-]). split; [done|]. intros ? [= <-].
      by eapply load_next_avoids.
  - apply bind_Some in H as (m1 & Hm1 & [= <- <-]). split; [by eapply store_next_avoids|]. by intros ? [= <-].
  - apply bind_Some in H as (m1 & Hm1 & [= <- <-]). split; [|done]. unfold free in Hm1.
    apply bind_Some in Hm1 as (x & Hx & [= <-]). destruct Hm as ([Hp Hu] & ? & Hn).
    split; [split|split; [done|]]; cbn.
    + by rewrite lookup_delete_ne.
    + intros q c [_ ?]%lookup_delete_Some. by eapply Hu.
    + intros q [y [_ Hq]%lookup_delete_Some]. apply Hn. by exists y.
Qed.

Lemma adding_avoids_step fd p newc a m m' a' :
  memory_avoids fd p m -> newc <> p -> adding_step newc a m = Some (m', a') -> memory_avoids fd p m'.
Proof.
  intros Hm Hp H. destruct a; cbn [adding_step] in H.
  - by simplify_eq.
  - simplify_eq. by apply base_avoids.
  - by simplify_eq.
  - by apply bind_Some in H as (? & _ & [= <- _]).
  - by apply bind_Some in H as (? & _ & [= <- _]).
  - apply bind_Some in H as (m1 & Hm1 & [= <- _]). by eapply store_next_avoids.
Qed.

(** A client that is not [p] gets other contents, and not the descriptor [fd]. *)
Lemma client_avoids fd p q c m :
  memory_avoids fd p m -> is_Some (me_store m !! q) -> q <> p -> fc_fd c <> fd ->
  memory_avoids fd p (set_store (<[q := c]> (me_store m)) m).
Proof.
  intros ([Hp Hu] & Hb & Hn) Hs Hq Hc. split; [split|split; [done|]]; cbn.
  - by rewrite lookup_insert_ne.
  - intros q' c'. rewrite lookup_insert_Some. intros [[<- <-]|[_ ?]]; [done|by eapply Hu].
  - intros x Hx. apply Hn. destruct (decide (x = q)) as [->|]; [done|]. by rewrite lookup_insert_ne in Hx.
Qed.

Lemma lost_main fd p k f ph m :
  lost fd p k f -> memory_avoids fd p m -> main_avoids fd p ph -> lost fd p k (set_main ph m f).
Proof. intros H (? & ? & ?) Hph. by split; try apply H. Qed.

Lemma lost_thread fd p k f i t m open :
  lost fd p k f -> memory_avoids fd p m -> thread_avoids p k t ->
  (open !! fd = Some k /\ forall fd', open !! fd' = Some k -> fd' = fd) ->
  lost fd p k (set_thread i t m open f).
Proof.
  intros H (? & ? & ?) Ht [Ho Hi]. split; try apply H; try done.
  - split_and!; [done|apply H|done].
  - intros j u. cbn. intros [(-> & <- & _)|[_ Hj]]%list_lookup_insert_Some; [done|by eapply H].
Qed.

Lemma lost_accept fd p k f fd' q :
  lost fd p k f -> wk_open f !! fd' = None -> me_store (wk_memory f) !! q = None -> lost fd p k (accepted fd' q f).
Proof.
  intros H Ho Hq. pose proof H as [Hfd (Hop & Hk & Hinj) ([c0 Hc0] & Hu) Hb Hn _ Hth].
  assert (q <> p) by congruence. assert (fd' <> fd) by congruence. split; cbn; try done.
  - rewrite lookup_insert_ne by done. split_and!; [done|lia|].
    intros x. rewrite lookup_insert_Some. intros [[_ <-]|[_ ?]]; [lia|auto].
  - rewrite lookup_insert_ne by done. split; [by eexists|].
    intros q' c. rewrite lookup_insert_Some. intros [[_ <-]|[_ ?]]; [done|eauto].
  - intros x. unfold next_of. cbn. destruct (decide (x = q)) as [->|].
    + rewrite !lookup_insert_eq. intros _ E. cbn in E. destruct Hfd. congruence.
    + rewrite !lookup_insert_ne by done. apply Hn.
Qed.

Lemma lost_loop fd p k f f' : lost fd p k f -> do_loop f = Some f' -> lost fd p k f'.
Proof.
  intros H Hs. pose proof (lost_memory _ _ _ _ H) as Hm. pose proof (ls_main _ _ _ _ H) as Ha.
  pose proof (proj2 (ls_fd _ _ _ _ H)) as Hp0. unfold do_loop in Hs.
  destruct (wk_main f) as [|fd' q a|fd'|fd' s|q|q fd' r|fd']; try done; cbn in Ha.
  - apply bind_Some in Hs as ([m a'] & Hx & [= <-]). apply lost_main; [done|by eapply adding_avoids_step|].
    by destruct a'.
  - injection Hs as <-. apply lost_main; [done|done|apply Hm].
  - apply bind_Some in Hs as (s' & Hx & [= <-]). apply lost_main; [done|done|].
    destruct s as [c|c]; cbn [scanning_step] in Hx.
    + destruct (c =? 0); [by simplify_eq|]. apply bind_Some in Hx as (x & _ & [= <-]). by destruct (_ =? _).
    + apply bind_Some in Hx as (v & Hv & [= <-]). by eapply load_next_avoids.
  - apply bind_Some in Hs as ([m r'] & Hx & [= <-]). destruct Ha as (Hq & Hf & Hr).
    destruct (removal_avoids_step _ _ _ _ _ _ _ Hm Hp0 Hq Hr Hx) as [Hm' Hr'].
    apply lost_main; [done|done|]. destruct r' as [r'|]; [|done]. split_and!; [done|done|by apply Hr'].
  - injection Hs as <-. split; try apply H; [|done]. cbn. rewrite lookup_delete_ne by done. split_and!.
    + apply H.
    + apply H.
    + intros x [_ ?]%lookup_delete_Some. by apply (ls_open _ _ _ _ H).
Qed.

Lemma lost_client fd p k f q c f' :
  lost fd p k f -> wk_main f = Receiving q -> me_store (wk_memory f) !! q = Some c ->
  f' = silent q c f \/ (exists k' command, wk_open f !! fc_fd c = Some k' /\ f' = commanded q c k' command f) ->
  lost fd p k f'.
Proof.
  intros H E Hq Hf'. pose proof (lost_memory _ _ _ _ H) as Hm. pose proof (ls_main _ _ _ _ H) as Ha.
  rewrite E in Ha. cbn in Ha.
  assert (fc_fd c <> fd) as Hc by (intros Ef; apply Ha; by apply (proj2 (ls_store _ _ _ _ H) q c)).
  destruct Hf' as [->|(k' & command & Hk' & ->)].
  - apply lost_main; [done|apply client_avoids; [done|by eexists|done|]|].
    + cbn. by intros <-; apply (proj1 (ls_fd _ _ _ _ H)).
    + split_and!; [done|done|]. apply Hm.
  - destruct (client_avoids fd p q (mk_fuse_client (fc_fd c) command (fc_string c)) _ Hm ltac:(by eexists)
      Ha Hc) as (? & ? & ?).
    split; try done; try apply H. intros i t. cbn. rewrite lookup_app_Some.
    intros [Ht|[_ [_ <-]%list_lookup_singleton_Some]]; [by eapply H|].
    split_and!; cbn; [|done|done]. intros ->. by apply Hc, (proj2 (proj2 (ls_open _ _ _ _ H))).
Qed.

Lemma lost_threads fd p k f f' i t o :
  lost fd p k f -> wk_threads f !! i = Some (t, o) -> do_thread i f = Some f' -> lost fd p k f'.
Proof.
  intros H Hi Hd. pose proof (lost_memory _ _ _ _ H) as Hm. pose proof (ls_threads _ _ _ _ H _ _ Hi) as (Hk & Hc & Hr).
  pose proof (proj1 (ls_open _ _ _ _ H)) as Ho. pose proof (proj2 (proj2 (ls_open _ _ _ _ H))) as Hinj.
  cbn [fst snd] in *. unfold do_thread in Hd. rewrite Hi in Hd. cbn [mbind option_bind] in Hd. destruct o as [r|].
  - apply bind_Some in Hd as ([m r'] & Hx & [= <-]).
    destruct (removal_avoids_step _ _ _ _ _ _ _ Hm (proj2 (ls_fd _ _ _ _ H)) (Hc ltac:(by right; eexists))
      (Hr r eq_refl) Hx) as [Hm' Hr'].
    apply lost_thread; [done|done| |done]. destruct r' as [r'|]; cbn.
    + split_and!; [done|intros _; apply Hc; by right; eexists|]. intros ? [= <-]. by apply Hr'.
    + split_and!; [done| |done]. intros [Ha|[? ?]]; [by destruct Ha|done].
  - destruct (th_phase t) eqn:Hph; [| | |done].
    + apply bind_Some in Hd as (c & _ & [= <-]). apply lost_thread; [done|done| |done].
      split_and!; [done| |done]. intros _. apply Hc. left. unfold active. by rewrite Hph.
    + apply bind_Some in Hd as (c & Hq & [= <-]).
      assert (th_client t <> p) as Hne by (apply Hc; left; unfold active; by rewrite Hph).
      assert (fc_fd c <> fd) as Hf by (intros E; by apply Hne, (proj2 (ls_store _ _ _ _ H) _ c)).
      apply lost_thread; [done|done| |].
      * by split_and!.
      * rewrite lookup_delete_ne by done. split; [done|]. intros x [_ ?]%lookup_delete_Some. auto.
    + injection Hd as <-. apply lost_thread; [done|done| |done].
      split_and!; [done| |].
      * intros _. apply Hc. left. unfold active. by rewrite Hph.
      * intros ? [= <-]. apply Hm.
Qed.

Lemma lost_step fd p k f f' : lost fd p k f -> walk_step f f' -> lost fd p k f'.
Proof.
  intros H Hs. destruct Hs as [fd' q E Hfd Hq _|fd' q a m a' E Hx|fd' E|fd' s s' E Hx
    |q c k' command E Hq Hk' _|q c E Hq|q fd' r m r' E Hx|fd' E|i t c Hi Hph Hc|i t c Hi Hph Hc|i t Hi Hph
    |i t r m r' Hi Hx].
  - by apply lost_accept.
  - apply (lost_loop _ _ _ _ _ H). unfold do_loop. by rewrite E, Hx.
  - apply (lost_loop _ _ _ _ _ H). unfold do_loop. by rewrite E.
  - apply (lost_loop _ _ _ _ _ H). unfold do_loop. by rewrite E, Hx.
  - eapply lost_client; [done..|]. right. eauto.
  - eapply lost_client; [done..|]. by left.
  - apply (lost_loop _ _ _ _ _ H). unfold do_loop. by rewrite E, Hx.
  - apply (lost_loop _ _ _ _ _ H). unfold do_loop. by rewrite E.
  - apply (lost_threads _ _ _ _ _ _ _ _ H Hi). unfold do_thread. rewrite Hi. cbn. by rewrite Hph, Hc.
  - apply (lost_threads _ _ _ _ _ _ _ _ H Hi). unfold do_thread. rewrite Hi. cbn. by rewrite Hph, Hc.
  - apply (lost_threads _ _ _ _ _ _ _ _ H Hi). unfold do_thread. rewrite Hi. cbn. by rewrite Hph.
  - apply (lost_threads _ _ _ _ _ _ _ _ H Hi). unfold do_thread. rewrite Hi. cbn. by rewrite Hx.
Qed.

(** Two clients, one after the other: the thread of the first is behind [close] when the
    second is accepted, and forgets the first before the second is looked for. *)
Definition second_client : list choice :=
  Accept 5 100 :: replicate 4 Loop ++ [Command [6]; Thread 0; Thread 0] ++
  Accept 6 101 :: replicate 4 Loop ++ replicate 3 (Thread 0) ++ [Loop; Loop].

Definition deserted : walking :=
  mk_walking (mk_memory {[101 := mk_fuse_client 6 [] []]} (<[100 := 101]> {[101 := 0]}) 0)
    {[6 := 1%nat]} 2 Idle [(mk_thread 100 0 [6] Finished, None)].

Lemma deserted_lost : rtc calm_walk at_rest deserted /\ lost 6 101 1 deserted.
Proof.
  split; [apply (calm_run second_client); vm_compute; reflexivity|]. split; cbn; try done.
  - split_and!; [done|lia|]. by intros fd [? _]%lookup_singleton_Some.
  - split; [by eexists|]. by intros q c [? _]%lookup_singleton_Some.
  - by intros q [x [<- _]%lookup_singleton_Some].
  - intros i t [_ <-]%list_lookup_singleton_Some. split_and!; [done| |done]. intros [Ha|[? ?]]; [by destruct Ha|done].
Qed.

(** C38: A client can be lost: a connection is accepted and stays open, but whatever the daemon
    and its clients do from there on, in any interleaving, no thread is ever created for a
    command of it, and so it is never answered.  The first client of the list was removed
    after the new one was added, which empties the list.  No descriptor is used twice for
    that, and no two walks on the list overlap. *)
Theorem lost_client_waits :
  exists f fd k, rtc calm_walk at_rest f /\ wk_open f !! fd = Some k /\
    forall f', rtc walk_step f f' ->
      wk_open f' !! fd = Some k /\ forall t o, (t, o) ∈ wk_threads f' -> th_connection t <> k.
Proof.
  destruct deserted_lost as (Hr & Hl). exists deserted, 6, 1%nat. split_and!; [exact Hr|done|].
  intros f' H. assert (lost 6 101 1 f') as Hl'.
  { clear Hr. revert Hl. revert H. generalize deserted. intros f H.
    induction H as [|x y z Hxy _ IH]; [done|]. intros Hx. apply IH. by eapply lost_step. }
  split; [by apply Hl'|]. intros t o [i Hi]%list_elem_of_lookup. by destruct (ls_threads _ _ _ _ Hl' i _ Hi).
Qed.

End Walks.
