(* ===== verification/Mounting.v ===== *)
(** * A mount, end to end: process_mount in fuse/commands.c

    A request to mount a volume that meets a machine which accepts the login and opens the
    volume: from the request of the client to the answer, through the two connections of
    [Handshake], the opening of the volume of [Session] and the detection of [Users]. *)

From stdpp Require Import gmap.
From S2P Require Import Prelude Text Constants Types Utils Dsi ProtoFiles ProtoVolume Client.
From S2P Require Import Unicode Codepage Calls Did UamsDef Status Users Auth Session Daemon Url Servers.
From S2P Require Import Connect Handshake Mount MountClient CommandThread.

Module Mounting.
Import Utils Unicode Codepage Dsi ProtoFiles ProtoVolume Client Calls Did UamsDef Status Users Auth.
Import Session Daemon Servers Connect Handshake Mount MountClient CommandThread.

(** ** The machine *)

(** The reply to FPOpenVol, with the parameters [w]. *)
Definition volume_answer (bitmap : Z) (w : afp_volume) (name_off : Z) (a : answer) : Prop :=
  an_rc a = 0 /\ exists rid behind,
  let data := be_bytes 2 bitmap ++ encode_volume bitmap w name_off in
  an_packet a = Some (wire_header DSI_REPLY DSI_DSICommand rid 0 (Z.of_nat (length data)) ++ data, behind).

(** The replies about the user of the session. *)
Definition user_answers (uid gid : Z) (name : list Z) (q : request) (a : answer) : Prop :=
  an_rc a = 0 /\ exists rid behind,
  (q = user_request kFPGetUserInfo_USER_ID ->
     an_packet a = Some (user_reply rid kFPGetUserInfo_USER_ID uid, behind)) /\
  (q = user_request kFPGetUserInfo_PRI_GROUPID ->
     an_packet a = Some (user_reply rid kFPGetUserInfo_PRI_GROUPID gid, behind)) /\
  (forall pw_uid, q = afp_mapid kUserIDToUTF8Name pw_uid -> an_packet a = Some (name_reply name rid, behind)).

(** What the machine answers to requests that are not about itself, with those of the login. *)
Definition offering (bitmap : Z) (w : afp_volume) (name_off uid gid : Z) (name : list Z)
    (login : request -> answer -> Prop) (q : request) (a : answer) : Prop :=
  if rq_sub q =? afpOpenVol then volume_answer bitmap w name_off a
  else if (rq_sub q =? afpGetUserInfo) || (rq_sub q =? afpMapID) then user_answers uid gid name q a
  else login q a.

(** The machine of [welcoming], and a local one where the mount point and the device of FUSE
    can be used. *)
Definition mounting (heap : gmap Z server_mem) (l : list Z) (data : list Z) (time : Z)
    (volumes : list volume_fact) (login : request -> answer -> Prop) : contract :=
  let C := welcoming heap l data time volumes login in
  {| guarantee := guarantee C;
     rely := fun X e x => rely C X e x /\
       match e in env X return X -> Prop with
       | Local (LocalAccess _) | Local (LocalStat _) => fun x => lo_ret x = 0
       | _ => fun _ => True
       end x;
     may_crash := False; may_starve := False |}.

Section mount.
Context (G : gcrypt) (r : registry) (conv : list Z -> list Z) (malloc : gset Z -> Z).
Context `{!Malloc malloc} (fuel : nat) (forkid_of : Z -> Z) (unmount : M unit) (pw_name : list Z).
Context (heap : gmap Z server_mem) (base : Z) (l : list Z).
Context (i : server_facts) (data : list Z) (time : Z) (volumes : list volume_fact).
Context (av_name : list Z) (av uam requested : Z) (username password : list Z).
Context (j : nat) (fl : Z) (u : list Z) (w : afp_volume) (name_off uid gid : Z) (name : list Z).
Context (login : request -> answer -> Prop).

Abbreviation answers := (offering (volume_bitmap av) w name_off uid gid name login).
Abbreviation C := (mounting heap l data time volumes answers).

(** The machine as in [Handshake]. *)
Context (Hlist : chain heap base l) (Hfuel : (length l < fuel)%nat).
Context (Hdata : status_data i data) (Hlen : (18 <= length data)%nat) (Hi : facts_ok i).
Context (Hconv : (length (conv (sf_name i)) <= 255)%nat).
Context (Htime : 0 <= time < 2 ^ 32) (Hn : (length volumes < 256)%nat).
Context (Hv : Forall volume_fact_ok volumes).
Context (Hlogin : forall c, hoare (welcoming heap l data time volumes answers) c
  (afp_dologin G av_name r uam username password) (fun rc c' => rc = 0 /\ cl_server c' = cl_server c)).

(** The volume and the user. *)
Context (Hj : volumes !! j = Some (fl, u)) (Hw : volume_ok w) (Hoff : 0 <= name_off < 65536).
Context (Hfix : vo_signature w = AFP_VOL_FIXED).
Context (Huid : 0 <= uid < 4294967296) (Hgid : 0 <= gid < 4294967296).
Context (Hname : nul_free name) (Hname0 : (0 < length name < 255)%nat).

(** *** The parts under one contract *)

Lemma mounting_welcomes w0 {A} (p : SM A) (Q : A -> world -> Prop) :
  shoare (welcoming heap l data time volumes answers) w0 p Q -> shoare C w0 p Q.
Proof using Type. apply wp_weaken; try done. by intros X e x [H _]. Qed.

Lemma mounting_opens c {A} (p : M A) (Q : A -> client -> Prop) :
  hoare (volume_server (volume_bitmap av) w name_off) c p Q -> hoare C c p Q.
Proof using Type.
  apply wp_refine; [|done|done]. intros X e He.
  destruct e as [q|n| | | | | | | | | | | | | | | |]; try (split; [constructor|done]).
  apply Forall_singleton in He as [Hd Hs]. split.
  - apply Forall_singleton. change (rq_sub q <> afpGetSessionToken). by rewrite Hs.
  - intros a [H _]. cbn [rely welcoming] in H. unfold offering in H. by rewrite Hd, Hs in H.
Qed.

Lemma mounting_maps pw_uid c {A} (p : M A) (Q : A -> client -> Prop) :
  hoare (user_server uid gid name pw_uid) c p Q -> hoare C c p Q.
Proof using Type.
  apply wp_refine; [|done|done]. intros X e He.
  destruct e as [q|n| | | | | | | | | | | | | | | |]; try (split; [constructor|done]).
  - apply (proj1 (Forall_singleton _ _)) in He. cbn [guarantee user_server] in He. split.
    + apply Forall_singleton. by destruct He as [->|[->| ->]].
    + intros a [H _]. cbn [rely welcoming] in H.
      assert (user_answers uid gid name q a) as (H0 & rid & behind & H1 & H2 & H3)
        by by destruct He as [->|[->| ->]].
      split; [done|]. exists rid, behind. split_and!; [done|done|]. apply H3.
  - split; [constructor|]. by intros x [H _].
Qed.

(** *** The mapping of ids *)

Lemma detection_ends c :
  vo_mapping (cl_volume c) <> AFP_MAPPING_UNKNOWN \/
  has (vo_attributes (cl_volume c)) kNoNetworkUserIDs = true \/
  has (vo_attributes (cl_volume c)) kSupportsUTF8Names = true ->
  hoare C c (afp_detect_mapping pw_name)
    (fun _ c' => exists k, cl_volume c' = set_vo_mapping k (cl_volume c)).
Proof using Huid Hgid Hname Hname0.
  intros Hd. destruct (decide (vo_mapping (cl_volume c) = AFP_MAPPING_UNKNOWN)) as [Hm|Hm].
  2: { unfold afp_detect_mapping, volume, server.
    apply hoare_bind, hoare_bind, hoare_get, hoare_ret, hoare_bind, hoare_bind, hoare_get, hoare_ret.
    rewrite (proj2 (Z.eqb_neq _ _) Hm). apply hoare_ret. exists (vo_mapping (cl_volume c)).
    by destruct (cl_volume c). }
  destruct (has (vo_attributes (cl_volume c)) kNoNetworkUserIDs) eqn:Hk.
  { unfold afp_detect_mapping, volume, server, set_mapping.
    apply hoare_bind, hoare_bind, hoare_get, hoare_ret, hoare_bind, hoare_bind, hoare_get, hoare_ret.
    rewrite Hm, Hk. apply hoare_bind, hoare_modify, hoare_ret. by eexists. }
  destruct Hd as [?|[?|Hu]]; [done|done|].
  eapply hoare_mono; [|eapply mounting_maps, detect_mapping_ok; done].
  intros rc c' [_ [_ ->]]. by eexists.
Qed.

(** *** The server with the volume *)

Abbreviation closed := (Connect.closed_volume <$> (listed_volume av <$> volumes)).

(** The new server with the state [v] of the volume, everything else as it was. *)
Record holding (fd : Z) (core : afp_server) (v : volume_mem) (m : server_mem) : Prop := {
  ho_next : sm_next m = base;
  ho_state : sm_connect_state m = SERVER_STATE_CONNECTED;
  ho_fd : sm_fd m = fd;
  ho_core : sm_core m = core;
  ho_volumes : sm_volumes m = <[j := v]> closed }.

Lemma holding_volume fd core v m : holding fd core v m -> sm_volumes m !! j = Some v.
Proof using Hj.
  intros H. rewrite (ho_volumes _ _ _ _ H). apply list_lookup_insert_eq.
  rewrite !length_fmap. by eapply lookup_lt_Some.
Qed.

Lemma holding_set fd core v m core' v' :
  holding fd core v m -> holding fd core' v' (set_sm_core core' (set_sm_volume j v' m)).
Proof using Type.
  intros H. constructor; try done; cbn; try apply H. by rewrite (ho_volumes _ _ _ _ H), list_insert_insert_eq.
Qed.

Section focus.
Context (fds : descriptors) (s fd : Z) (core : afp_server) (v : volume_mem) (m : server_mem).
Context (Hm : holding fd core v m).

Lemma held_volume (Q : volume_mem -> world -> Prop) :
  Q v (at_server heap s fds s m) -> shoare C (at_server heap s fds s m) (volume_at s j) Q.
Proof using Hj Hm.
  intros HQ. apply shoare_bind, at_load. eapply shoare_lift; [by eapply holding_volume|done].
Qed.

Lemma held_update f (Q : unit -> world -> Prop) :
  (forall m', holding fd core (f v) m' -> Q tt (at_server heap s fds s m')) ->
  shoare C (at_server heap s fds s m) (update_volume s j f) Q.
Proof using Hj Hm.
  intros HQ. apply shoare_bind, held_volume, at_update, HQ.
  pose proof (holding_set _ _ _ _ core (f v) Hm) as H. constructor; try apply H. apply Hm.
Qed.

Lemma held_program {A} (p : volume_mem -> server_mem -> M (A * Z)) (Q : A -> world -> Prop) :
  hoare C (volume_client m v) (p v m) (fun x c => forall m',
    holding fd (cl_server c) (volume_of v x.2 c) m' -> Q x.1 (at_server heap s fds s m')) ->
  shoare C (at_server heap s fds s m) (on_volume s j p) Q.
Proof using Hj Hm.
  intros Hp. eapply shoare_on_volume; [apply lookup_insert_eq|by eapply holding_volume|].
  eapply hoare_mono; [|exact Hp]. intros x c HQ. unfold at_server, set_heap in *.
  cbn [wo_heap wo_base wo_fds]. rewrite insert_insert_eq. by apply HQ, holding_set with (v := v) (core := core).
Qed.

End focus.

(** *** Opening the volume *)

Abbreviation listed := (listed_volume av (fl, u)).
Abbreviation opened core := (opened_volume u core listed w).

Lemma cstr_ends x : exists s, cstr (x ++ [0]) = Some s.
Proof using Type.
  induction x as [|b x [s IH]]; [by eexists|]. cbn. destruct (b =? 0); [by eexists|]. rewrite IH. by eexists.
Qed.

Lemma opening_ok fds s fd core v m (Q : Z -> world -> Prop) :
  holding fd core v m -> vm_volume v = listed -> sv_av_number core = av ->
  (forall core' v' m', holding fd core' v' m' -> vm_mounted v' = AFP_VOLUME_MOUNTED ->
     vm_volume v' = set_vo_extra_flags (unix_flags core (opened core)) (opened core) ->
     Q 0 (at_server heap s fds s m')) ->
  shoare C (at_server heap s fds s m) (volopen fuel forkid_of unmount s j) Q.
Proof using Hfix Hj Hoff Hv Hw.
  intros Hm Hvol Hav HQ. unfold volopen. apply shoare_bind. eapply held_program; [done|].
  destruct (cstr_ends (vm_volpassword v)) as [password' ->]. cbn [lift].
  pose proof (Forall_lookup_1 _ _ _ _ Hv Hj) as (_ & Hu & Hpre & Hl & Hwl). cbn [snd] in *.
  pose proof (connect_volume_ok forkid_of unmount (others j m) password' u core listed w (vm_mounted v)
    name_off _ Hu Hpre Hl Hwl (in_array_split 33 _ Hwl) (length_in_array 33 _) (length_in_array 33 _) Hw Hoff
    (volume_client m v) 1024 (mk_message (replicate 1024 0) 0)) as Hok.
  rewrite Hav in Hok.
  apply hoare_bind, hoare_ret, hoare_bind, mounting_opens. eapply hoare_mono; [|apply Hok].
  - intros [[[rc mounted] last] msg] c' (E & _ & Hc & _). cbn [fst] in E. injection E as -> -> ->.
    apply hoare_ret. intros m' Hm'. apply shoare_ret. eapply HQ; [exact Hm'|done|exact Hc].
  - unfold volume_client. destruct (vm_stats v) as [[[]]]. apply Hm.
  - unfold volume_client. by destruct (vm_stats v) as [[[]]].
  - done.
  - by split.
  - done.
  - done.
Qed.

Lemma mount_volume_ok fds s fd core m volname volpassword (Q : option nat -> world -> Prop) :
  holding fd core (Connect.closed_volume listed) m -> sv_av_number core = av ->
  find_volume (listed_volume av <$> volumes) volname = Some (Some j) ->
  (has fl HasPassword = true -> exists b pw, cstr volpassword = Some (b :: pw)) ->
  (forall core' v' m', holding fd core' v' m' -> vm_mounted v' = AFP_VOLUME_MOUNTED ->
     vm_volume v' = set_vo_extra_flags (unix_flags core (opened core)) (opened core) ->
     Q (Some j) (at_server heap s fds s m')) ->
  shoare C (at_server heap s fds s m) (mount_volume fuel forkid_of unmount s volname volpassword) Q.
Proof using Hfix Hj Hoff Hv Hw.
  intros Hm Hav Hfind Hpw HQ. unfold mount_volume. apply shoare_bind, at_load.
  assert (vm_volume <$> sm_volumes m = listed_volume av <$> volumes) as ->.
  { rewrite (ho_volumes _ _ _ _ Hm).
    assert (closed !! j = Some (Connect.closed_volume listed)) as Hc.
    { rewrite !list_lookup_fmap.
      exact (f_equal (fun o => Connect.closed_volume <$> (listed_volume av <$> o)) Hj). }
    rewrite (list_insert_id _ _ _ Hc), <- list_fmap_compose. apply list_fmap_id. }
  apply shoare_bind. eapply shoare_lift; [exact Hfind|].
  apply shoare_bind. eapply held_volume; [done|]. cbn [vm_mounted Connect.closed_volume].
  change (AFP_VOLUME_UNMOUNTED =? AFP_VOLUME_MOUNTED) with false. cbv iota.
  change (vo_flags (vm_volume _)) with fl.
  assert (forall password m', holding fd core (set_vm_volpassword password (Connect.closed_volume listed)) m' ->
    shoare C (at_server heap s fds s m')
      (rc ← volopen fuel forkid_of unmount s j; mret (if rc =? 0 then Some j else None)) Q) as Hopen.
  { intros password' m' Hm'. apply shoare_bind. eapply opening_ok; [done..|].
    intros core' v' m'' Hm'' Hmounted Hvol. apply shoare_ret. by eapply HQ. }
  destruct (has fl HasPassword) eqn:E.
  - destruct (Hpw eq_refl) as (b & pw & ->). apply shoare_bind. eapply held_update; [done|].
    intros m' Hm'. apply shoare_bind, shoare_ret. by eapply Hopen.
  - apply shoare_bind. eapply held_update; [done|]. intros m' Hm'. by eapply Hopen.
Qed.

(** *** The command *)

Context (start_fuse : Z -> nat -> SM (Z * Z)).

(** libfuse mounts, and does nothing else to the state. *)
Context (Hfuse : forall s w0 (Q : Z * Z -> world -> Prop),
  (forall errno, Q (0, errno) w0) -> shoare C w0 (start_fuse s j) Q).

(** What a request must say that this machine mounts. *)
Record mountable (req : mount_request) : Prop := {
  mt_username : Url.ur_username (mr_url req) = username;
  mt_password : Url.ur_password (mr_url req) = password;
  mt_requested : mr_requested_version req = requested;
  mt_version : pick_version (resize 10 0 (known_versions (sf_versions i))) (u8 requested) =
    Some (Some (av_name, av));
  mt_uam : pick_uam (uam_mask (sf_uams i))
    (anonymous_mask (mr_url req) (uam_mask (sf_uams i)) (mr_uam_mask req)) = uam;
  mt_method : uam <> -1;
  mt_new : Forall (fun p => holds_at heap (same_signature (sf_signature i)) p = false) l;
  mt_volume : find_volume (listed_volume av <$> volumes) (Url.ur_volumename (mr_url req)) = Some (Some j);
  mt_volpassword : has fl HasPassword = true -> exists b pw, cstr (mr_volpassword req) = Some (b :: pw);
  mt_map : mr_map req <> AFP_MAPPING_UNKNOWN \/ has (vo_attributes w) kNoNetworkUserIDs = true \/
           has (vo_attributes w) kSupportsUTF8Names = true }.

(** The server that a mount adds: connected and watched, the volume with the id and the
    attributes of the machine, the options of the request and its mount point, the other
    volumes closed. *)
Definition mounted_as (req : mount_request) (fds : descriptors) (m : server_mem) : Prop :=
  sm_next m = base /\ sm_connect_state m = SERVER_STATE_CONNECTED /\ sm_fd m ∈ rds fds /\
  exists v, sm_volumes m = <[j := v]> closed /\ vm_mounted v = AFP_VOLUME_MOUNTED /\
    vm_mountpoint v = resize 255 0 (take 254 (mr_mountpoint req)) /\
    vo_volid (vm_volume v) = vo_volid w /\ vo_attributes (vm_volume v) = vo_attributes w /\
    Z.land (vo_extra_flags (vm_volume v)) (mr_volume_options req) = mr_volume_options req.

Lemma opened_parameters core :
  vo_volid (opened core) = vo_volid w /\ vo_attributes (opened core) = vo_attributes w.
Proof using Type.
  destruct (bitmap_bits core) as (_ & Ha & _ & Hid).
  unfold opened_volume, updated. cbn. by rewrite Ha, Hid.
Qed.

(** From the volume on. *)
Lemma mount_ends fds s fd core m req (Q : Z -> world -> Prop) :
  fd ∈ rds fds -> mountable req -> sv_av_number core = av ->
  holding fd core (Connect.closed_volume listed) m ->
  (forall m', mounted_as req fds m' -> Q 0 (at_server heap s fds s m')) ->
  shoare C (at_server heap s fds s m)
    (volume ← mount_volume fuel forkid_of unmount s (Url.ur_volumename (mr_url req)) (mr_volpassword req);
     match volume with
     | None => mount_failed fuel s
     | Some i =>
       update_volume s i (fun v =>
         set_vm_volume (set_vo_mapping (mr_map req)
           (set_vo_extra_flags (Z.lor (vo_extra_flags (vm_volume v)) (mr_volume_options req)) (vm_volume v))) v);;
       on_volume s i (fun v _ => afp_detect_mapping pw_name;; mret (tt, vm_mounted v));;
       update_volume s i (fun v => set_vm_mountpoint (resize 255 0 (take 254 (mr_mountpoint req))) v);;
       '(fuse_result, _) ← start_fuse s i;
       if fuse_result =? 0 then
         v ← volume_at s i;
         if vm_mounted v =? AFP_VOLUME_UNMOUNTED then mount_failed fuel s else mret 0
       else if fuse_result =? ETIMEDOUT then mret 0
       else update_volume s i (set_vm_mounted AFP_VOLUME_UNMOUNTED);; mount_failed fuel s
     end) Q.
Proof using Hfix Hfuse Hgid Hj Hname Hname0 Hoff Huid Hv Hw.
  intros Hfd Hreq Hav Hm HQ. destruct (opened_parameters core) as [Hid Hat].
  apply shoare_bind. eapply mount_volume_ok; [done|done|apply Hreq|apply Hreq|].
  intros core1 v1 m1 Hm1 Hmounted Hvol. apply shoare_bind. eapply held_update; [done|].
  intros m2 Hm2. set (v2 := set_vm_volume _ v1) in Hm2. apply shoare_bind. eapply held_program; [done|].
  assert (cl_volume (volume_client m2 v2) = vm_volume v2) as Hcv.
  { unfold volume_client. by destruct (vm_stats v2) as [[[]]]. }
  assert (vo_attributes (vm_volume v2) = vo_attributes w) as Ha2.
  { change (vo_attributes (vm_volume v1) = vo_attributes w). by rewrite Hvol. }
  assert (vo_volid (vm_volume v2) = vo_volid w) as Hid2.
  { change (vo_volid (vm_volume v1) = vo_volid w). by rewrite Hvol. }
  apply hoare_bind. eapply hoare_mono; [|apply detection_ends].
  2: { rewrite Hcv, Ha2. apply Hreq. }
  intros _ c [k Hc]. rewrite Hcv in Hc. apply hoare_ret. intros m3 Hm3. cbn [fst snd] in *.
  apply shoare_bind. eapply held_update; [done|]. intros m4 Hm4.
  apply shoare_bind, Hfuse. intros errno. cbn [Z.eqb].
  apply shoare_bind. eapply held_volume; [done|].
  assert (vm_mounted v2 = AFP_VOLUME_MOUNTED) as Hmv by exact Hmounted.
  cbn [vm_mounted set_vm_mountpoint volume_of]. rewrite Hmv. apply shoare_ret, HQ.
  destruct Hm4 as [N S F _ V]. split_and!; [done|done|by rewrite F|]. eexists. split; [exact V|].
  cbn [vm_mounted vm_mountpoint vm_volume set_vm_mountpoint volume_of]. rewrite Hc.
  split_and!; [done|done|exact Hid2|exact Ha2|].
  cbn [vo_extra_flags set_vo_mapping]. unfold v2. cbn [vm_volume set_vm_volume vo_extra_flags set_vo_mapping
    set_vo_extra_flags]. apply Z.bits_inj. intros b. rewrite Z.land_spec, Z.lor_spec. by destruct (Z.testbit _ b), (Z.testbit _ b).
Qed.

Lemma process_mount_ok fds req (Q : Z -> world -> Prop) :
  mountable req ->
  (forall s fds' m, s <> 0 -> heap !! s = None -> mounted_as req fds' m ->
     Q 0 (at_server heap s fds' s m)) ->
  shoare C (mk_world heap base fds)
    (process_mount G r (Some conv) malloc fuel forkid_of unmount pw_name start_fuse 1913 req) Q.
Proof using All.
  intros Hreq HQ. unfold process_mount. change (u64 (1913 - 1) <? sizeof_mount_request) with false. cbv iota.
  apply shoare_bind, shoare_ask; [constructor|]. intros x1 [_ ->]. cbn [Z.eqb negb].
  apply shoare_bind, shoare_ask; [constructor|]. intros x2 [_ ->]. cbn [Z.eqb negb].
  apply shoare_bind, shoare_ask; [constructor|]. intros x3 [_ ->]. cbn [Z.eqb negb].
  pose proof Hreq as [R1 R2 R3 R4 R5 R6 R7 _ _ _].
  apply shoare_bind, mounting_welcomes.
  eapply shoare_mono; [|eapply full_connect_ok with (i := i) (Q := fun s w' => exists fds' m, s <> 0 /\
    heap !! s = None /\ sm_next m = base /\ sm_fd m ∈ rds fds' /\
    established conv i volumes av uam m /\ w' = at_server heap s fds' s m)]; try done.
  - intros s w' (fds' & m & Hs0 & Hs & Hnext & Hfd & He & ->).
    rewrite (proj2 (Z.eqb_neq s 0)) by done.
    eapply mount_ends with (core := sm_core m); [exact Hfd|done|apply He| |].
    + constructor; try done; [apply He|]. rewrite (es_volumes _ _ _ _ _ _ He). symmetry.
      apply list_insert_id. rewrite !list_lookup_fmap.
      exact (f_equal (fun o => Connect.closed_volume <$> (listed_volume av <$> o)) Hj).
    + intros m' Hm'. by eapply HQ.
  - intros s fds' m ? ? ? ? ?. by exists fds', m.
Qed.

(** *** From the request to the answer *)

Context (logged : daemon_command -> Z -> list Z) (padding : list Z).

Lemma recording_keeps {W} (D : contract) (g : handler W) (I : W -> Prop) :
  keeps D g I -> keeps D (recording g) (fun x => I x.1).
Proof using Type.
  intros Hg X e x Hx He. specialize (Hg X e x.1 Hx He).
  destruct e as [q|n| | | | | | | | | |call| | | | | | ]; try destruct call; cbn [recording];
    by destruct (g _ _ x.1).
Qed.

(** C5: A mount succeeds, from the request of the client to its exit.  On a machine that can be
    reached, tells its status as the protocol prescribes, accepts the login and opens the
    volume that was asked for, the thread of the command ends; the list of servers has one
    more in front, connected and watched, which has the volume mounted on the mount point
    with the options of the request, its other volumes closed, and everything else is as it
    was; the connection of the client is closed behind the answer, and the client ends with
    0 in whatever pieces the answer comes in time, and prints what was logged, of which it may print
    a beginning only when the header of eight bytes is not in the first piece.  What is logged
    has no NUL and is shorter than 2040 bytes. *)
Theorem mount_succeeds {W} (g : handler W) (I : W -> Prop) wo fds req p c client_base :
  keeps C g I -> I wo -> mountable req ->
  read_command (fc_incoming c) = Some (CommandMount 1913 req) ->
  fc_fd c <> 0 -> length padding = 3%nat ->
  let c' := fuse_log_for_client (logged (CommandMount 1913 req) 0) c in
  nul_free (fc_string c') -> (length (fc_string c') < MAX_CLIENT_RESPONSE - 8)%nat ->
  exists rs wo' written answer s fds' m,
    run (recording g)
      (process_command_thread G r (Some conv) malloc fuel forkid_of unmount pw_name start_fuse logged padding
         p c client_base (mk_world heap base fds)) (wo, []) =
      (rs, Done ((remove_client p client_base).1, false,
                 set_fds (rm_fd (fc_fd c)) (mk_world (<[s := m]> heap) s fds')),
       (wo', written ++ [Wrote (fc_fd c) answer; Closed (fc_fd c)])) /\
    heap !! s = None /\ chain (<[s := m]> heap) s (s :: l) /\ mounted_as req fds' m /\
    client_learns answer 0 (fc_string c').
Proof using All.
  intros Hg HI Hreq Hread Hfd Hpad c' Hn' Hl'.
  pose proof (process_mount_ok fds req (fun rc w' => rc = 0 /\ exists s fds' m, s <> 0 /\
    heap !! s = None /\ mounted_as req fds' m /\ w' = at_server heap s fds' s m) Hreq) as Hok.
  assert (shoare C (mk_world heap base fds)
    (CommandThread.process_command G r (Some conv) malloc fuel forkid_of unmount pw_name start_fuse
       (CommandMount 1913 req))
    (fun x w' => x = (0, false) /\ exists s fds' m, s <> 0 /\
       heap !! s = None /\ mounted_as req fds' m /\ w' = at_server heap s fds' s m)) as Hcommand.
  { apply shoare_bind. eapply shoare_mono; [|apply Hok; intros s fds' m ? ? ?; split; [done|by exists s, fds', m]].
    intros rc w' [-> Hw']. by apply shoare_ret. }
  destruct (wp_run _ _ _ _ _ (wo, []) (recording_keeps _ _ _ Hg) HI Hcommand) as (_ & Ha & _).
  destruct (run _ _ _) as [[rs o] [wo' written]] eqn:E. cbn [fst snd] in Ha.
  destruct o as [[x w']| |]; [|done|done].
  destruct Ha as [Hx (s & fds' & m & Hs0 & Hs & Hm & Hw')]. cbn [fst snd] in Hx, Hw'. subst x w'.
  destruct (thread_writes G r (Some conv) malloc fuel forkid_of unmount pw_name start_fuse logged padding
    g p c client_base _ _ _ _ _ _ _ _ _ Hread Hfd E) as [wo'' H].
  eexists rs, wo'', written, _, s, fds', m. split_and!; [exact H|done| |exact Hm|].
  - split_and!; [done|done|]. exists m. split; [apply lookup_insert_eq|].
    destruct Hm as (-> & _). apply chain_insert; [done|]. intros Hin.
    destruct (chain_lookup _ _ _ _ Hlist Hin) as (_ & x & Hx). congruence.
  - by apply response_learned.
Qed.

End mount.

(** ** An example: "Backup", with a password *)

Definition mount_arguments : list (list Z) :=
  [str "afp_client"; str "mount"; str "-V"; str "pw"; str "tc.local:Backup"; str "/mnt"].

Definition mount_message : list Z :=
  match MountClient.do_mount (replicate MAX_OUTGOING_LENGTH 0) mount_arguments with
  | Ret (Some message) => message
  | _ => []
  end.

Definition mount_meant : mount_request :=
  match read_command mount_message with
  | Some (CommandMount _ req) => req
  | _ => mk_mount_request (cr_url anonymous_request) 0 [] 0 [] 0 0 0
  end.

Definition backup_answer (q : request) : answer :=
  let data := be_bytes 2 (volume_bitmap 31) ++ encode_volume (volume_bitmap 31) server_volume 60 in
  if rq_dsi q =? DSI_DSIGetStatus then host_answer 0 q
  else if rq_dsi q =? DSI_DSIOpenSession then host_answer 0 q
  else if rq_sub q =? afpOpenVol then
    mk_answer 0 (Some (wire_header DSI_REPLY DSI_DSICommand 4 0 (Z.of_nat (length data)) ++ data, [])) []
  else if (rq_sub q =? afpGetUserInfo) || (rq_sub q =? afpMapID) then user_answer 0 20 (str "ann") q
  else host_answer 0 q.

Abbreviation backup_answers :=
  (offering (volume_bitmap 31) server_volume 60 0 20 (str "ann") (host_login 0)).

Lemma user_answers_given uid gid name q : user_answers uid gid name q (user_answer uid gid name q).
Proof.
  split; [unfold user_answer; by repeat case_decide|]. exists 9, []. unfold user_answer.
  split_and!; [intros ->; by rewrite decide_True|intros ->|intros pw_uid ->].
  - rewrite decide_False by discriminate. by rewrite decide_True.
  - by rewrite !decide_False by discriminate.
Qed.

Lemma backup_keeps :
  keeps (mounting ∅ [] host_status 1000 host_volumes backup_answers) (reachable backup_answer) (fun _ => True).
Proof.
  intros X e x _ _. split; [|done].
  destruct e as [q|n| | | | | | | | | |call| | | | | | ]; cbn [rely mounting welcoming reachable serving fst];
    try done.
  - split; [|done]. unfold backup_answer, offering.
    destruct (rq_dsi q =? DSI_DSIGetStatus) eqn:E1; [unfold host_answer; rewrite E1; split; [done|by exists (replicate 16 0), []]|].
    destruct (rq_dsi q =? DSI_DSIOpenSession) eqn:E2; [unfold host_answer; rewrite E1, E2; by exists (replicate 22 0), []|].
    destruct (Z.eqb_spec (rq_sub q) afpOpenVol) as [->|].
    { split; [done|]. by exists 4, []. }
    destruct (Z.eqb_spec (rq_sub q) afpGetUserInfo) as [->|]; [apply user_answers_given|].
    destruct (Z.eqb_spec (rq_sub q) afpMapID) as [->|]; [apply user_answers_given|]. cbn [orb].
    unfold host_answer. rewrite E1, E2.
    destruct (_ =? afpGetSrvrParms); [by exists (replicate 16 0), []|]. by destruct (_ =? afpGetSrvrMsg).
  - split; [apply length_replicate|done].
  - by destruct call.
  - split; [|done]. by exists (mk_addrinfo 2 1 6 100 0 []), [].
Qed.

Lemma anonymous_logs_in_there c :
  hoare (welcoming ∅ [] host_status 1000 host_volumes backup_answers) c
    (afp_dologin toy_gcrypt (str "AFP3.1") init_uams UAM_NOUSERAUTHENT [] [])
    (fun rc c' => rc = 0 /\ cl_server c' = cl_server c).
Proof.
  change (afp_dologin _ _ _ _ _ _) with (noauth_login (str "AFP3.1") [] []).
  unfold noauth_login, result_of, FPLogin.
  apply hoare_bind, hoare_bind, hoare_ask; [constructor|]. intros j _.
  apply hoare_bind. rewrite login_wire by (vm_compute; lia). apply hoare_ret.
  apply hoare_bind, hoare_ask; [by repeat constructor|]. intros a Ha.
  change (a = mk_answer 0 None []) in Ha. subst a. by apply hoare_bind, hoare_ret, hoare_ret.
Qed.

Lemma mount_meant_mountable :
  mountable ∅ [] host_facts host_volumes (str "AFP3.1") 31 UAM_NOUSERAUTHENT 0 [] [] 1 0x80 server_volume
    mount_meant.
Proof.
  constructor; try (vm_compute; done).
  - intros _. by exists 112, [119].
  - right. right. by vm_compute.
Qed.

Lemma mount_succeeds_witness :
  let c := mk_fuse_client 9 mount_message [] in
  exists rs wo' written answer s fds' m,
    run (recording (reachable backup_answer))
      (process_command_thread toy_gcrypt init_uams (Some (fun s => s)) next_address 1 id (mret tt) (str "ann")
         (fun _ _ => mret (0, 0)) (fun _ _ => str "Mounted") [0; 0; 0] 4 c [(4, c)] no_servers) (tt, []) =
      (rs, Done ([], false, set_fds (rm_fd 9) (mk_world (<[s := m]> ∅) s fds')),
       (wo', written ++ [Wrote 9 answer; Closed 9])) /\
    (sm_volumes m !! 1%nat) ≫= (fun v => cstr (vm_mountpoint v)) = Some (str "/mnt") /\
    client_learns answer 0 (str "Mounted").
Proof.
  intros c.
  destruct (mount_succeeds toy_gcrypt init_uams (fun s => s) next_address 1 id (mret tt) (str "ann") ∅ 0 []
    host_facts host_status 1000 host_volumes (str "AFP3.1") 31 UAM_NOUSERAUTHENT 0 [] [] 1 0x80 (str "Backup")
    server_volume 60 0 20 (str "ann") (host_login 0) eq_refl Nat.lt_0_1 host_laid_out
    ltac:(vm_compute; lia) host_facts_ok ltac:(vm_compute; lia) ltac:(lia) ltac:(vm_compute; lia)
    host_volumes_ok anonymous_logs_in_there eq_refl ltac:(repeat split; by vm_compute) ltac:(lia) eq_refl
    ltac:(lia) ltac:(lia) ltac:(by apply (bool_decide_unpack (nul_free _))) ltac:(vm_compute; lia)
    (fun _ _ => mret (0, 0)) ltac:(intros s w0 Q HQ; by apply shoare_ret) (fun _ _ => str "Mounted") [0; 0; 0]
    (reachable backup_answer) (fun _ => True) tt no_descriptors mount_meant 4 c [(4, c)]
    backup_keeps I mount_meant_mountable ltac:(vm_compute; reflexivity) ltac:(done) eq_refl
    ltac:(by apply (bool_decide_unpack (nul_free _))) ltac:(vm_compute; lia))
    as (rs & wo' & written & answer & s & fds' & m & Hr & _ & _ & (_ & _ & _ & v & Hv & _ & Hp & _) & Ha).
  exists rs, wo', written, answer, s, fds', m. split; [exact Hr|]. split; [|exact Ha].
  rewrite Hv. cbn. rewrite Hp. by vm_compute.
Defined.

End Mounting.
