(* ===== verification/Conversation.v ===== *)
(** * afp_client and the daemon, end to end

    What is typed to afp_client (fuse/client.c) becomes a message, the thread of the daemon
    (fuse/commands.c) looks for the server or the volume on the list of lib/afp.c, and the
    answer becomes the exit status of afp_client: the commands "unmount", "suspend" and
    "resume" with a name the daemon does not know. *)

From stdpp Require Import gmap.
From S2P Require Import Prelude Text Constants Types Utils ProtoFiles Client Auth Session Daemon.
From S2P Require Import Servers Connect Mount MountClient MainLoop CommandThread.

Module Conversation.
Import Utils ProtoFiles Client Auth Session Daemon Servers Connect Mount MountClient MainLoop CommandThread.

(** The commands with a name, the word that is typed, and how much of the name goes
    into the message. *)
Inductive named := Unmounting | Suspending | Resuming.

Definition word (k : named) : list Z :=
  match k with Unmounting => str "unmount" | Suspending => str "suspend" | Resuming => str "resume" end.
Definition sent_name (k : named) (name : list Z) : list Z :=
  match k with Unmounting => take 254 name | _ => take 32 name end.
Definition command_of (k : named) (name : list Z) : daemon_command :=
  match k with
  | Unmounting => CommandUnmount name | Suspending => CommandSuspend name | Resuming => CommandResume name
  end.
Definition message_of (k : named) (name : list Z) : list Z :=
  match k with
  | Unmounting => Daemon.do_unmount name | Suspending => do_suspend name | Resuming => do_resume name
  end.

(** The server that such a command is for. *)
Definition is_meant (k : named) (name : list Z) (m : server_mem) : bool :=
  match k with
  | Unmounting => if volume_mounted_on name 0 (sm_volumes m) then true else false
  | _ => same_name name m
  end.

Lemma message_prepared {W} (h : handler W) buffer program k name wo :
  run h (prepare_buffer buffer [program; word k; name]) wo = ([], Done (Some (message_of k name)), wo).
Proof. by destruct k. Qed.

Lemma message_read k name :
  nul_free name -> read_command (message_of k name) = Some (command_of k (sent_name k name)).
Proof.
  intros Hn. destruct k; cbn [message_of]; unfold Daemon.do_unmount, do_suspend, do_resume.
  - by rewrite (read_named _ _ CommandUnmount) by (done || lia).
  - by rewrite (read_named _ _ CommandSuspend) by (done || lia).
  - by rewrite (read_named _ _ CommandResume) by (done || lia).
Qed.

Section daemon.
Context (G : gcrypt) (r : registry) (iconv : option (list Z -> list Z)) (malloc : gset Z -> Z).
Context (fuel : nat) (forkid_of : Z -> Z) (unmount : M unit) (pw_name : list Z).
Context (start_fuse : Z -> nat -> SM (Z * Z)).
Context (logged : daemon_command -> Z -> list Z) (padding : list Z).

Lemma nobody_meant k name w l :
  chain (wo_heap w) (wo_base w) l -> (length l <= fuel)%nat ->
  Forall (fun s => forall m, wo_heap w !! s = Some m -> is_meant k name m = false) l ->
  find_server fuel (is_meant k name) w = Ret (0, w).
Proof using Type.
  intros Hc Hf Hl. unfold find_server, sget, mbind, SM_bind. cbn [prog_bind fst snd].
  rewrite (chain_find _ _ _ _ _ Hc Hf).
  enough (List.find (holds_at (wo_heap w) (is_meant k name)) l = None) as -> by done.
  clear -Hl. induction Hl as [|s l Hs _ IH]; [done|]. cbn [List.find]. unfold holds_at at 1.
  destruct (wo_heap w !! s) as [m|]; [by rewrite (Hs m)|exact IH].
Qed.

Lemma unknown_is_error k name w l :
  chain (wo_heap w) (wo_base w) l -> (length l <= fuel)%nat ->
  Forall (fun s => forall m, wo_heap w !! s = Some m -> is_meant k name m = false) l ->
  Mount.process_command G r iconv malloc fuel forkid_of unmount pw_name start_fuse (command_of k name) w =
    Ret ((AFP_SERVER_RESULT_ERROR, false), w).
Proof using Type.
  intros Hc Hf Hl. pose proof (nobody_meant k name w l Hc Hf Hl) as Hfind.
  destruct k; cbn [command_of Mount.process_command];
    unfold process_unmount, process_suspend, process_resume, server_of_name, find_server_by_name;
    unfold mbind, SM_bind.
  - change (is_meant Unmounting name) with
      (fun m => if volume_mounted_on name 0 (sm_volumes m) then true else false) in Hfind.
    by rewrite Hfind.
  - change (is_meant Suspending name) with (same_name name) in Hfind. by rewrite Hfind.
  - change (is_meant Resuming name) with (same_name name) in Hfind. by rewrite Hfind.
Qed.

(** C14: A name that the daemon does not know is refused.  Whatever is typed behind
    "unmount", "suspend" or "resume", if no server of the list has a volume mounted there,
    or has this name, with the name cut to the size of its field, then afp_client sends
    its message, the daemon sends nothing to any server and changes none, writes one
    answer, closes the connection and forgets the client; and afp_client ends with the status
    of an error in whatever pieces the answer comes in time, and prints what the daemon logged, of
    which it may print a beginning only when the header of eight bytes is not in the first
    piece.  What is logged has no NUL and is shorter than 2040 bytes. *)
Theorem unknown_name_refused {W} (g : handler W) k buffer program name p c client_base w wo l :
  let command := command_of k (sent_name k name) in
  let text := take (MAX_CLIENT_RESPONSE - 1) (logged command AFP_SERVER_RESULT_ERROR) in
  nul_free name -> chain (wo_heap w) (wo_base w) l -> (length l <= fuel)%nat ->
  Forall (fun s => forall m, wo_heap w !! s = Some m -> is_meant k (sent_name k name) m = false) l ->
  fc_fd c <> 0 -> fc_string c = [] -> length padding = 3%nat ->
  nul_free text -> (length text < MAX_CLIENT_RESPONSE - 8)%nat ->
  exists message,
    run g (prepare_buffer buffer [program; word k; name]) wo = ([], Done (Some message), wo) /\
    (fc_incoming c = message ->
     exists wo' answer,
       run (recording g) (process_command_thread G r iconv malloc fuel forkid_of unmount pw_name start_fuse
                            logged padding p c client_base w) (wo, []) =
         ([], Done ((remove_client p client_base).1, false, set_fds (rm_fd (fc_fd c)) w),
          (wo', [Wrote (fc_fd c) answer; Closed (fc_fd c)])) /\
       client_learns answer AFP_SERVER_RESULT_ERROR text).
Proof using Type.
  intros command text Hn Hc Hf Hl Hfd Hs Hp Ht Hlt. exists (message_of k name).
  split; [apply message_prepared|]. intros Hm.
  assert (read_command (fc_incoming c) = Some command) as Hr by (rewrite Hm; by apply message_read).
  assert (run (recording g) (process_command G r iconv malloc fuel forkid_of unmount pw_name start_fuse
    command w) (wo, []) = ([], Done (AFP_SERVER_RESULT_ERROR, false, w), (wo, []))) as Hrun.
  { unfold process_command, command. by rewrite (unknown_is_error _ _ _ l). }
  destruct (thread_writes G r iconv malloc fuel forkid_of unmount pw_name start_fuse logged padding g p c
    client_base _ _ _ _ _ _ _ _ _ Hr Hfd Hrun) as [wo' Ha].
  eexists wo', _. split; [exact Ha|].
  unfold fuse_log_for_client. rewrite Hs. cbn [fc_string length app]. rewrite Nat.sub_0_r.
  by apply response_learned.
Qed.

End daemon.

(** "suspend" of a server that is not the one of the list. *)
Lemma unknown_name_refused_witness :
  exists message,
    run (serving (fun _ w => (mk_answer 0 None [], w)))
      (prepare_buffer [] [str "afp_client"; str "suspend"; str "elsewhere"]) tt =
      ([], Done (Some message), tt) /\
    (Daemon.do_suspend (str "elsewhere") = message ->
     exists wo' answer,
       run (recording (serving (fun _ w => (mk_answer 0 None [], w))))
         (process_command_thread toy_gcrypt init_uams None (fun _ => 1) 1 id (mret tt) []
            (fun _ _ => mret (0, 0)) a_message [0; 0; 0] 4
            (mk_fuse_client 9 (Daemon.do_suspend (str "elsewhere")) []) [] named_world) (tt, []) =
         ([], Done ([], false, set_fds (rm_fd 9) named_world),
          (wo', [Wrote 9 answer; Closed 9])) /\
       client_learns answer AFP_SERVER_RESULT_ERROR (str "no")).
Proof.
  apply (unknown_name_refused toy_gcrypt init_uams None (fun _ => 1) 1 id (mret tt) [] (fun _ _ => mret (0, 0))
    a_message [0; 0; 0] (serving (fun _ w => (mk_answer 0 None [], w))) Suspending [] (str "afp_client")
    (str "elsewhere") 4 (mk_fuse_client 9 (Daemon.do_suspend (str "elsewhere")) []) [] named_world tt [1]).
  - by apply (bool_decide_unpack (nul_free _)).
  - exact (named_chain named_server).
  - simpl. lia.
  - repeat constructor. intros m E. vm_compute in E. injection E as <-. vm_compute. reflexivity.
  - discriminate.
  - reflexivity.
  - reflexivity.
  - by apply (bool_decide_unpack (nul_free _)).
  - vm_compute. lia.
Defined.

End Conversation.
