(* ===== verification/Startup.v ===== *)
(** * The daemon as a program: fuse/daemon.c, fuse/fuse_error.c, start_fuse_thread

    Its command line, the test for another daemon, its socket, the thread that runs libfuse
    for a volume, and the capture of what libfuse prints. *)

From stdpp Require Import gmap.
From S2P Require Import Prelude Text Constants Types Client Status Auth Daemon Servers Connect Mount Getopt MountClient MainLoop.

Module Startup.
Import Text Client Daemon Servers Connect Mount Getopt MountClient.

(** ** The command line *)

Definition LOG_METHOD_SYSLOG : Z := 1.
Definition LOG_METHOD_STDOUT : Z := 2.

(** [fuse_log_method], and [new_log_method], [dofork] and [debug_mode] of [main]. *)
Record daemon_settings := mk_daemon {
  dm_log_method : Z; dm_new_log_method : Z; dm_dofork : bool; dm_debug_mode : bool }.

Definition daemon_options : short_options := [(108, true); (102, false); (100, false); (104, false)].
Definition daemon_long_options : long_options :=
  [(str "logmethod", true, 108); (str "foreground", false, 102); (str "debug", true, 100)].

(** [fuse_set_log_method] *)
Definition fuse_set_log_method (new_method : Z) (d : daemon_settings) : daemon_settings :=
  mk_daemon new_method (dm_new_log_method d) (dm_dofork d) (dm_debug_mode d).

(** The switch on the letter; [None] is the usage text and -1. *)
Definition daemon_option (e : event) (d : daemon_settings) : option daemon_settings :=
  let '(c, optarg) := e in
  if c =? 108 then
    let optarg := default [] optarg in
    Some (if begins (str "stdout") optarg then fuse_set_log_method LOG_METHOD_STDOUT d
          else if begins (str "syslog") optarg then fuse_set_log_method LOG_METHOD_SYSLOG d
          else d)
  else if c =? 102 then
    Some (mk_daemon (dm_log_method d) (dm_new_log_method d) false (dm_debug_mode d))
  else if c =? 100 then Some (mk_daemon (dm_log_method d) LOG_METHOD_STDOUT false true)
  else None.

Fixpoint daemon_events (es : list event) (d : daemon_settings) : option daemon_settings :=
  match es with
  | [] => Some d
  | e :: es => d ← daemon_option e d; daemon_events es d
  end.

(** At the start, with the values of the static variables. *)
Definition daemon_defaults : daemon_settings := mk_daemon LOG_METHOD_SYSLOG LOG_METHOD_SYSLOG true false.

(** The options, and [fuse_set_log_method(new_log_method)] behind the loop. *)
Definition read_options (argv : list (list Z)) : option daemon_settings :=
  d ← daemon_events (getopt_long daemon_options daemon_long_options (drop 1 argv)).1 daemon_defaults;
  Some (fuse_set_log_method (dm_new_log_method d) d).

(** ** The socket for commands *)

Definition startup_listener (commandfilename : list Z) : prog Z :=
  command_fd ← pask (Local LocalUnixSocket);
  if lo_ret command_fd <? 0 then mret (-1)
  else
    r ← pask (Local (LocalBind (lo_ret command_fd) commandfilename));
    if lo_ret r <? 0 then pask (Local (LocalClose (lo_ret command_fd)));; mret (-1)
    else pask (Local (LocalListen (lo_ret command_fd) 5));; mret (lo_ret command_fd).

Definition close_commands (commandfilename : list Z) (command_fd : Z) : prog unit :=
  pask (Local (LocalClose command_fd));; pask (Local (LocalUnlink commandfilename));; mret tt.

(** [dead]: *)
Definition remove_dead (commandfilename : list Z) (sock : Z) : prog Z :=
  pask (Local (LocalClose sock));;
  access ← pask (Local (LocalExists commandfilename));
  if lo_ret access =? 0 then
    r ← pask (Local (LocalUnlink commandfilename));
    mret (if negb (lo_ret r =? 0) then -1 else 0)
  else mret 0.

Definition remove_other_daemon (commandfilename : list Z) : prog Z :=
  access ← pask (Local (LocalExists commandfilename));
  if negb (lo_ret access =? 0) then mret 0
  else
    s ← pask (Local LocalUnixSocket);
    let sock := lo_ret s in
    let error := pask (Local (LocalClose sock));; mret (-1) in
    if sock <? 0 then error
    else
      r ← pask (Local (LocalUnixConnect sock commandfilename));
      if lo_ret r <? 0 then remove_dead commandfilename sock
      else
        w ← pask (Local (LocalWrite sock [AFP_SERVER_COMMAND_PING]));
        if lo_ret w <? 1 then remove_dead commandfilename sock
        else
          ret ← pask (Local (LocalSelect sock 10));
          if lo_ret ret =? 0 then remove_dead commandfilename sock
          else if lo_ret ret <? 0 then error
          else
            len ← pask (Local (LocalRead sock (Z.of_nat MAX_CLIENT_RESPONSE)));
            if lo_ret len <? 1 then remove_dead commandfilename sock
            else pask (Local (LocalClose sock));; mret (-1).

Section main.
Context (init_uams : Z) (afp_main_loop : Z -> prog Z).

(** The exit status, in the process in which it is one, and the settings. *)
Definition main (argv : list (list Z)) : prog (Z * daemon_settings) :=
  if init_uams <? 0 then mret (-1, daemon_defaults)
  else
    match read_options argv with
    | None => mret (-1, daemon_defaults)
    | Some d =>
      uid ← pask Geteuid;
      let commandfilename := command_file uid in
      other ← remove_other_daemon commandfilename;
      if other <? 0 then mret (-1, d)
      else
        child ← (if dm_dofork d then r ← pask (Local LocalFork); mret (lo_ret r) else mret 0);
        if child =? 0 then
          command_fd ← startup_listener commandfilename;
          if command_fd <? 0 then mret (-1, d)
          else afp_main_loop command_fd;; close_commands commandfilename command_fd;; mret (0, d)
        else mret (0, d)
    end.

End main.
(** ** A host with the daemons of its users

    What listens on a socket: nobody any more, a daemon that does not come to read, one
    that closes the connection, one that answers, and the program itself. *)
Inductive peer := Stale | Silent | Hangs_up | Answers (bytes : list Z) | Ours.

(** The sockets by their names, the one that is connected, in which process the program is,
    and its user. *)
Record host := mk_host {
  ho_sockets : gmap (list Z) peer; ho_connected : option peer; ho_child : bool; ho_uid : Z }.

Definition set_sockets (f : gmap (list Z) peer -> gmap (list Z) peer) (w : host) : host :=
  mk_host (f (ho_sockets w)) (ho_connected w) (ho_child w) (ho_uid w).
Definition set_connected (p : option peer) (w : host) : host :=
  mk_host (ho_sockets w) p (ho_child w) (ho_uid w).

Definition returns (rc : Z) : local_result := mk_local rc 0 [].
Definition there (w : host) (path : list Z) : Z := if ho_sockets w !! path then 0 else -1.

Definition host_call (call : local_call) (w : host) : local_result * host :=
  match call with
  | LocalExists path => (returns (there w path), w)
  | LocalUnixSocket => (returns 3, w)
  | LocalUnixConnect _ path =>
    match ho_sockets w !! path with
    | None | Some Stale => (returns (-1), w)
    | Some p => (returns 0, set_connected (Some p) w)
    end
  | LocalWrite _ bytes => (returns (Z.of_nat (length bytes)), w)
  | LocalSelect _ _ => (returns (match ho_connected w with Some Silent => 0 | _ => 1 end), w)
  | LocalRead _ n =>
    let bytes := match ho_connected w with Some (Answers bytes) => take (Z.to_nat n) bytes | _ => [] end in
    (mk_local (Z.of_nat (length bytes)) 0 bytes, w)
  | LocalClose _ => (returns 0, set_connected None w)
  | LocalUnlink path => (returns (there w path), set_sockets (delete path) w)
  | LocalBind _ path =>
    match ho_sockets w !! path with
    | Some _ => (returns (-1), w)
    | None => (returns 0, set_sockets <[path := Ours]> w)
    end
  | LocalFork => (returns (if ho_child w then 0 else 100), w)
  | _ => (returns 0, w)
  end.

Definition machine : handler host :=
  fun X e =>
    match e in env X return host -> X * host with
    | Local call => host_call call
    | Geteuid => fun w => (ho_uid w, w)
    | e => fun w => serving (fun _ w => (mk_answer 0 None [], w)) _ e w
    end.

(** Whether a daemon is there that answers. *)
Definition alive (o : option peer) : bool :=
  match o with Some (Answers (_ :: _)) => true | _ => false end.

Lemma connected_set p w : ho_connected (set_connected p w) = p.
Proof. reflexivity. Qed.

Ltac step :=
  cbn [pask prog_bind mbind prog_monad mret prog_ret run machine host_call returns lo_ret
       requests_of app plift presult Z.eqb Z.ltb Z.compare Z.leb Pos.eqb Pos.compare Pos.compare_cont
       negb andb length Z.of_nat Pos.of_succ_nat take];
  change (Z.of_nat 1) with 1; change (Z.of_nat 0) with 0; rewrite ?connected_set, ?take_nil.

Definition unconnected (w : host) : host := set_connected None w.

Lemma remove_dead_run path sock w :
  run machine (remove_dead path sock) w = ([], Done 0, set_sockets (delete path) (unconnected w)).
Proof.
  unfold remove_dead. step. unfold there. cbn [ho_sockets set_connected].
  destruct (ho_sockets w !! path) eqn:E; step.
  - unfold there. cbn [ho_sockets set_connected]. by rewrite E.
  - unfold set_sockets, unconnected, set_connected. cbn. by rewrite delete_id.
Qed.

(** Another daemon stays if it answers, or else its socket goes. *)
Lemma remove_other_run path w :
  ho_connected w = None ->
  run machine (remove_other_daemon path) w =
    (if alive (ho_sockets w !! path) then ([], Done (-1), w)
     else ([], Done 0, set_sockets (delete path) w)).
Proof.
  intros Hc. assert (unconnected w = w) as Hw by (destruct w; cbn in *; by subst).
  assert (forall p, unconnected (set_connected p w) = w) as Hw' by (intros p; by rewrite <- Hw at 2).
  unfold remove_other_daemon. step. unfold there.
  destruct (ho_sockets w !! path) as [p|] eqn:E; step.
  - rewrite E. destruct p as [| | |[|c bytes]|]; repeat (progress step).
    + by rewrite remove_dead_run, Hw.
    + by rewrite remove_dead_run, Hw'.
    + by rewrite remove_dead_run, Hw'.
    + by rewrite remove_dead_run, Hw'.
    + cbn [alive]. change (Z.to_nat (Z.of_nat MAX_CLIENT_RESPONSE)) with 2048%nat. cbn [take length].
      rewrite (proj2 (Z.ltb_ge _ 1)) by lia. step. f_equal. apply Hw'.
    + by rewrite remove_dead_run, Hw'.
  - cbn [alive]. unfold set_sockets. rewrite delete_id by done. by destruct w.
Qed.

Lemma startup_listener_run path w :
  ho_sockets w !! path = None ->
  run machine (startup_listener path) w = ([], Done 3, set_sockets <[path := Ours]> w).
Proof. intros E. unfold startup_listener. step. by rewrite E. Qed.

Lemma close_commands_run path w :
  run machine (close_commands path 3) w = ([], Done tt, set_sockets (delete path) (unconnected w)).
Proof. reflexivity. Qed.

Lemma run_mbind {W A B} (h : handler W) (p : prog A) (f : A -> prog B) w rs a w' :
  run h p w = (rs, Done a, w') ->
  run h (p ≫= f) w = let '(rs', o, w'') := run h (f a) w' in (rs ++ rs', o, w'').
Proof. apply run_bind. Qed.

Ltac run_then H := rewrite (run_mbind _ _ _ _ _ _ _ H); cbv beta iota.

(** C21: One daemon for a user.  If another one answers, the program ends with -1 and leaves
    its socket; without one, whatever a dead daemon has left, the process that does not
    fork, or the child, listens on the socket of the user, runs the main loop, and removes
    the socket, and the parent ends with 0.  No other socket is touched. *)
Theorem daemon_startup init_uams afp_main_loop argv d w rs rc w2 :
  0 <= init_uams -> read_options argv = Some d -> ho_connected w = None ->
  let path := command_file (ho_uid w) in
  run machine (afp_main_loop 3) (set_sockets (fun s => <[path := Ours]> (delete path s)) w) =
    (rs, Done rc, w2) ->
  run machine (main init_uams afp_main_loop argv) w =
    if alive (ho_sockets w !! path) then ([], Done (-1, d), w)
    else if dm_dofork d && negb (ho_child w)
    then ([], Done (0, d), set_sockets (delete path) w)
    else (rs, Done (0, d), set_sockets (delete path) (unconnected w2)).
Proof.
  intros Hu Hd Hc path Hloop. pose proof (remove_other_run path w Hc) as Hother.
  unfold main. rewrite (proj2 (Z.ltb_ge init_uams 0)), Hd by done. step. fold path.
  destruct (alive (ho_sockets w !! path)); run_then Hother; step; [done|].
  assert (ho_sockets (set_sockets (delete path) w) !! path = None) as Hfree by apply lookup_delete_eq.
  destruct (dm_dofork d); step; [destruct (ho_child w) eqn:Echild; step|]; try done.
  all: cbn [set_sockets ho_child]; rewrite ?Echild; step; try done.
  all: run_then (startup_listener_run path _ Hfree); step; run_then Hloop;
    run_then (close_commands_run path w2); step; by rewrite app_nil_r.
Qed.

Definition with_socket (p : peer) : host := mk_host {[command_file 1000 := p]} None false 1000.

Lemma daemon_startup_witness :
  run machine (main 0 (fun _ => Ret (-1)) [str "afpfsd"; str "-f"]) (with_socket Stale) =
    ([], Done (0, mk_daemon LOG_METHOD_SYSLOG LOG_METHOD_SYSLOG false false),
     set_sockets (delete (command_file 1000))
       (set_sockets (fun s => <[command_file 1000 := Ours]> (delete (command_file 1000) s)) (with_socket Stale))).
Proof.
  exact (daemon_startup 0 (fun _ => Ret (-1)) [str "afpfsd"; str "-f"] _ (with_socket Stale) _ _ _
           ltac:(done) eq_refl eq_refl eq_refl).
Defined.

(** *** What the start does not take into account *)

(** A daemon that does not answer within ten seconds, as when it waits for a client that
    does not speak, is taken for dead: its socket goes to the new one. *)
Example silent_daemon_replaced :
  (run machine (remove_other_daemon (command_file 1000)) (with_socket Silent)).1.2 = Done 0 /\
  ho_sockets (run machine (remove_other_daemon (command_file 1000)) (with_socket Silent)).2 = ∅.
Proof. split; reflexivity. Qed.

(** The status of the parent says nothing about the child. *)
Example parent_succeeds (w : host) :
  (run machine (main 0 (fun _ => Ret (-1)) [str "afpfsd"])
     (mk_host ∅ None false 1000)).1.2 = Done (0, daemon_defaults).
Proof. reflexivity. Qed.

(** The long form of "-d" wants an argument. *)
Example long_debug :
  read_options [str "afpfsd"; str "--debug"] = None /\
  read_options [str "afpfsd"; str "-d"] = read_options [str "afpfsd"; str "--debug=x"].
Proof. split; reflexivity. Qed.

(** Option by option, the method to use behind the loop is the one of [debug_mode]. *)
Definition by_debug (d : daemon_settings) : Z :=
  if dm_debug_mode d then LOG_METHOD_STDOUT else LOG_METHOD_SYSLOG.

Lemma daemon_events_method es d d' :
  dm_new_log_method d = by_debug d -> daemon_events es d = Some d' -> dm_new_log_method d' = by_debug d'.
Proof.
  revert d. induction es as [|[c optarg] es IH]; intros d Hd; cbn [daemon_events]; [by intros [= <-]|].
  unfold daemon_option. repeat case_match; cbn [mbind option_bind]; try done; by apply IH.
Qed.

(** The option "-l" has no effect: whatever method it names, when the options have been
    read the daemon logs to syslog, or, with "-d", to stdout. *)
Theorem logmethod_overridden argv d : read_options argv = Some d -> dm_log_method d = by_debug d.
Proof.
  unfold read_options. intros [d' [E [= <-]]]%bind_Some. cbn.
  rewrite (daemon_events_method _ daemon_defaults d' eq_refl E). done.
Qed.

Lemma logmethod_overridden_witness :
  read_options [str "afpfsd"; str "-l"; str "stdout"] =
    Some (mk_daemon LOG_METHOD_SYSLOG LOG_METHOD_SYSLOG true false) /\
  LOG_METHOD_SYSLOG = by_debug (mk_daemon LOG_METHOD_SYSLOG LOG_METHOD_SYSLOG true false).
Proof.
  split; [reflexivity|]. exact (logmethod_overridden [str "afpfsd"; str "-l"; str "stdout"] _ eq_refl).
Defined.

(** ** The thread of a volume *)

Definition mountstring_len : nat := 68.

(** The arguments for libfuse. *)
Definition fuse_arguments (debug_mode : bool) (changeuid : Z) (server_name volume_name mountpoint : list Z)
    : list (list Z) :=
  [take (mountstring_len - 1) (server_name ++ str ":" ++ volume_name); mountpoint] ++
  [if debug_mode then str "-d" else str "-f"] ++
  (if changeuid =? 0 then [] else [str "-o"; str "allow_other"]) ++ [str "-s"].

(** [captured_fd] *)
Definition TMP_FILE : list Z := str "/tmp/fuse_stderr".
Definition stderr : Z := 2.

Definition fuse_capture_stderr_start : prog Z :=
  captured_fd ← pask (Local (LocalDup stderr));
  pask (Local (LocalReopen TMP_FILE stderr));; mret (lo_ret captured_fd).

(** The message for the client, if there is one; [buf] is an array of 1024 bytes. *)
Definition report_fuse_errors (captured_fd : Z) : prog (option (list Z)) :=
  pask (Local (LocalDup2 captured_fd stderr));;
  pask (Local (LocalClose captured_fd));;
  fd ← pask (Local (LocalOpen TMP_FILE 0 0));
  if lo_ret fd <? 0 then mret None
  else
    len ← pask (Local (LocalRead (lo_ret fd) 1024));
    pask (Local (LocalClose (lo_ret fd)));;
    pask (Local (LocalUnlink TMP_FILE));;
    if 0 <? lo_ret len then
      buf ← plift (cstr (resize 1024 0 (lo_bytes len)));
      mret (Some (str "FUSE reported the following error:" ++ [10] ++ buf))
    else mret None.

(** [fuse_result], [fuse_errno], and [captured_fd]. *)
Definition afp_register_fuse (fuse_main : list (list Z) -> SM (Z * Z)) (fuseargv : list (list Z))
    : SM (Z * Z * Z) :=
  captured_fd ← sprog fuse_capture_stderr_start;
  '(ret, errno) ← fuse_main fuseargv;
  mret (ret, errno, captured_fd).

Definition start_fuse_thread (fuse_main : list (list Z) -> SM (Z * Z)) (debug_mode : bool) (changeuid : Z)
    (server : Z) (i : nat) : SM (Z * Z * Z) :=
  m ← load server;
  v ← volume_at server i;
  server_name ← slift (cstr (Status.ss_server_name_printable (sm_status m)));
  volume_name ← slift (cstr (vo_volume_name_printable (vm_volume v)));
  mountpoint ← slift (cstr (vm_mountpoint v));
  afp_register_fuse fuse_main (fuse_arguments debug_mode changeuid server_name volume_name mountpoint).

(** [priv] is the session of libfuse, [thread] its thread. *)
Definition SIGHUP : Z := 1.
Definition fuse_unmount_volume (priv thread : Z) : prog Z :=
  (if priv =? 0 then mret tt
   else
     pask (Local (LocalFuseExit priv));;
     pask (Local (LocalKill thread SIGHUP));;
     pask (Local (LocalJoin thread));; mret tt);;
  mret 0.

(** ** Registration of the front end: lib/client.c

    What the library calls; the text of [log_for_client] goes into the answer for a client
    of the daemon and nowhere for the front end that prints it. *)
Record libafpclient := mk_libafpclient {
  lc_unmount_volume : option (Z -> Z -> prog Z);
  lc_log_for_client : list Z -> fuse_client -> fuse_client;
  lc_forced_ending_hook : option (SM unit);
  lc_scan_extra_fds : option (Z -> list Z -> clients -> SM (Z * clients));
  lc_loop_started : option (SM unit) }.

Definition null_afpclient : libafpclient := mk_libafpclient None (fun _ c => c) None None None.

Definition libafpclient_register (tmpclient : option libafpclient) : libafpclient :=
  match tmpclient with Some client => client | None => null_afpclient end.

(** The daemon, with what its hook and its test of descriptors need. *)
Definition fuse_register_afpclient (fuel : nat) (forkid_of : Z -> Z) (unmount : M unit)
    (malloc : gset Z -> Z) : libafpclient :=
  libafpclient_register
    (Some (mk_libafpclient (Some fuse_unmount_volume) fuse_log_for_client
             (Some (fuse_forced_ending_hook fuel forkid_of unmount))
             (Some (MainLoop.fuse_scan_extra_fds malloc)) None)).

(** *** The test of another daemon is answered *)
Example ping_answered G r iconv malloc fuel forkid_of unmount pw_name start_fuse w :
  read_command [AFP_SERVER_COMMAND_PING] = Some CommandPing /\
  process_command G r iconv malloc fuel forkid_of unmount pw_name start_fuse CommandPing w =
    Ret (AFP_SERVER_RESULT_OKAY, false, w).
Proof. split; reflexivity. Qed.

(** ** Two mounts at once share what was captured

    The open descriptors, with whether what is written comes out where the daemon's messages
    did at its start, and [captured_fd], which is static. *)
#[local] Notation files := (gmap Z bool).

Definition lowest (fds : files) : Z :=
  default 0 (List.find (fun fd => bool_decide (fds !! fd = None)) (seqZ 0 (Z.of_nat (base.size fds) + 1))).

Definition file_call (call : local_call) (fds : files) : local_result * files :=
  match call with
  | LocalDup fd =>
    match fds !! fd with
    | Some t => (returns (lowest fds), <[lowest fds := t]> fds)
    | None => (returns (-1), fds)
    end
  | LocalDup2 fd newfd =>
    match fds !! fd with
    | Some t => (returns newfd, <[newfd := t]> fds)
    | None => (returns (-1), fds)
    end
  | LocalReopen _ fd => (returns 0, <[fd := false]> fds)
  | LocalOpen _ _ _ => (returns (lowest fds), <[lowest fds := false]> fds)
  | LocalClose fd => (returns 0, delete fd fds)
  | _ => (returns 0, fds)
  end.

Definition descriptor_table : handler files :=
  fun X e =>
    match e in env X return files -> X * files with
    | Local call => file_call call
    | e => fun w => serving (fun _ w => (mk_answer 0 None [], w)) _ e w
    end.

(** A thread of libfuse starts, and a command looks at what came of it. *)
Inductive mount_action := Capture | Report.

Definition act (st : files * Z) (a : mount_action) : files * Z :=
  let '(fds, captured_fd) := st in
  match a with
  | Capture =>
    match run descriptor_table fuse_capture_stderr_start fds with
    | (_, Done fd, fds) => (fds, fd)
    | (_, _, fds) => (fds, captured_fd)
    end
  | Report => ((run descriptor_table (report_fuse_errors captured_fd) fds).2, captured_fd)
  end.

(** The messages go elsewhere, and what was captured would not bring them back. *)
Definition lost (st : files * Z) : Prop :=
  st.1 !! stderr = Some false /\ st.2 <> stderr /\ st.1 !! st.2 <> Some true.

Lemma lowest_free (fds : files) t : fds !! stderr = Some t -> lowest fds <> stderr.
Proof.
  intros Ht. unfold lowest. destruct (List.find _ _) as [fd|] eqn:E; [|done].
  apply find_some in E as [_ E%bool_decide_eq_true]. intros Hfd. cbn in Hfd. subst fd. congruence.
Qed.

Lemma act_keeps_lost st a : lost st -> lost (act st a).
Proof.
  destruct st as [fds captured_fd]. intros (Ht & Hne & Hc). cbn [fst snd] in *.
  destruct a; cbn [act].
  - unfold fuse_capture_stderr_start.
    cbn [run pask prog_bind mbind prog_monad mret prog_ret descriptor_table file_call]. rewrite Ht.
    cbn [run pask prog_bind lo_ret returns]. pose proof (lowest_free fds false Ht) as Hl.
    unfold lost. cbn [fst snd]. split_and!; [apply lookup_insert_eq|done|].
    by rewrite lookup_insert_ne, lookup_insert_eq.
  - unfold report_fuse_errors.
    cbn [run pask prog_bind mbind prog_monad mret prog_ret descriptor_table file_call lo_ret].
    assert (exists fds1, (match fds !! captured_fd with
      | Some t => (returns stderr, <[stderr := t]> fds) | None => (returns (-1), fds) end).2 = fds1 /\
      fds1 !! stderr = Some false) as (fds1 & E1 & H1).
    { destruct (fds !! captured_fd) as [[]|] eqn:E; eexists; (split; [reflexivity|]); try done.
      apply lookup_insert_eq. }
    destruct (match fds !! captured_fd with Some _ => _ | None => _ end) as [r fds']. cbn in E1. subst fds'.
    assert (delete captured_fd fds1 !! stderr = Some false) as H2 by by rewrite lookup_delete_ne.
    pose proof (lowest_free _ _ H2) as Hl. set (fds2 := delete captured_fd fds1) in *.
    set (fd := lowest fds2) in *.
    assert (forall t, fds2 !! captured_fd = Some t -> False) as Hgone
      by (intros t [? _]%lookup_delete_Some; done).
    destruct (lo_ret (returns fd) <? 0);
      cbn [run mret prog_ret descriptor_table file_call lo_ret returns Z.ltb Z.compare snd];
      unfold lost; cbn [fst snd]; (split_and!; [|done|]).
    + by rewrite lookup_insert_ne.
    + intros [[_ ?]|[_ ?]]%lookup_insert_Some; [done|by eapply Hgone].
    + by rewrite lookup_delete_ne, lookup_insert_ne.
    + intros [_ [[_ ?]|[_ ?]]%lookup_insert_Some]%lookup_delete_Some; [done|by eapply Hgone].
Qed.

Lemma acts_keep_lost actions st : lost st -> lost (foldl act st actions).
Proof. revert st. induction actions as [|a actions IH]; intros st Hl; [done|]. by apply IH, act_keeps_lost. Qed.

(** A daemon whose messages go to a file of their own, as with "2>log", with its socket. *)
Definition with_log : files := {[0 := false; 1 := false; 2 := true; 3 := false]}.

(** One mount after another leaves the messages where they were. *)
Example captured_and_restored :
  (foldl act (with_log, -1) [Capture; Report; Capture; Report]).1 !! stderr = Some true.
Proof. vm_compute. reflexivity. Qed.

(** Two mounts at the same time lose the messages of the daemon: the second thread
    captures the file of the first one over the descriptor that was kept, the reports close
    it, and whatever is mounted and reported later, what the daemon prints never comes out
    where it did. *)
Theorem stderr_lost actions :
  (foldl act (with_log, -1) ([Capture; Capture; Report; Report] ++ actions)).1 !! stderr <> Some true.
Proof.
  rewrite foldl_app. destruct (acts_keep_lost actions (foldl act (with_log, -1) [Capture; Capture; Report; Report]))
    as [H _]; [by vm_compute|]. by rewrite H.
Qed.

End Startup.
