(* ===== verification/Afpcmd.v ===== *)
(** * The command line client as a program: cmdline/cmdline_main.c, and connecting in
    cmdline/cmdline_afp.c and cmdline/cmdline_testafp.c

    The start with its options and its URL, connections, the loop over the command lines,
    which dispatches to the commands of [Cmdline], completion and help, and the program's
    test of its URL parser. *)

From stdpp Require Import gmap.
From S2P Require Import Prelude Text Constants Types Utils Dsi ProtoFiles ProtoVolume Client UamsDef.
From S2P Require Import Calls Users Lowlevel Midlevel Url Auth Session Daemon Servers Connect Mount Cmdline Getopt.

Module Afpcmd.
Import Text Utils Dsi ProtoFiles ProtoVolume Client Calls Users Lowlevel Midlevel Auth Session Daemon Servers
  Connect Mount Cmdline Getopt.

(** ** The state

    [curdir], [url], [server] (0 for NULL), and [vol] by its index among the volumes of the
    server. *)
Record front := mk_front {
  fr_curdir : list Z; fr_url : Url.afp_url; fr_server : Z; fr_vol : option nat }.

Definition set_fr_url x f := mk_front (fr_curdir f) x (fr_server f) (fr_vol f).
Definition set_fr_server x f := mk_front (fr_curdir f) (fr_url f) x (fr_vol f).
Definition set_fr_vol x f := mk_front (fr_curdir f) (fr_url f) (fr_server f) x.
Definition set_fr_curdir x f := mk_front x (fr_url f) (fr_server f) (fr_vol f).

(** What a command of [Cmdline] sees, and what it leaves; the volume is [i] if there is
    one. *)
Definition shell_of (f : front) (volumes : list afp_volume) (mounted : Z) (others : list Z) : shell :=
  mk_shell (fr_curdir f) (fr_url f) (negb (fr_server f =? 0))
    (bool_decide (is_Some (fr_vol f))) volumes mounted others.

Definition front_of (f : front) (i : option nat) (sh : shell) : front :=
  mk_front (sh_curdir sh) (sh_url sh) (if sh_server sh then fr_server f else 0)
    (if sh_vol sh then i else None).

Definition volumes_of (m : server_mem) : list afp_volume := vm_volume <$> sm_volumes m.

(** A command on the volume [i] of the server, or without a volume, or without a server. *)
Definition shell_command {A} (i : option nat) (p : shell -> M (A * shell)) (f : front) : SM (A * front) :=
  if fr_server f =? 0 then
    '((a, sh), _) ← sprog (p (shell_of f [] 0 []) (session_client (new_server [] 0 0)));
    mret (a, front_of f i sh)
  else
    match i with
    | Some j =>
      '(a, sh) ← on_volume (fr_server f) j (fun v m =>
        '(a, sh) ← p (shell_of f (volumes_of m) (vm_mounted v) (others j m));
        mret ((a, sh), sh_mounted sh));
      mret (a, front_of f i sh)
    | None =>
      m ← load (fr_server f);
      '(a, sh) ← on_server (fr_server f) (p (shell_of f (volumes_of m) 0 []));
      mret (a, front_of f i sh)
    end.

(** A command that leaves the variables as they are. *)
Definition on_shell {A} (p : shell -> M A) (f : front) : SM (A * front) :=
  shell_command (fr_vol f) (fun sh => a ← p sh; mret (a, sh)) f.

Section connecting.
Context (G : gcrypt) (r : registry) (iconv : option (list Z -> list Z)) (malloc : gset Z -> Z).
Context (fuel : nat) (forkid_of : Z -> Z) (icon first : list Z).

(** ** Connecting *)

(** [strncpy] fills the field without a NUL, and the server's name follows it. *)
Definition cmdline_getpass (url : Url.afp_url) : SM Url.afp_url :=
  if bytes_eqb (Url.ur_password url) (str "-") then
    p ← sask (Local LocalGetpass);
    if lo_ret p <? 0 then sresult Crashed
    else
      let passwd := take 127 (lo_bytes p) in
      mret (Url.set_ur_password
              (passwd ++ if bool_decide (length passwd < 127)%nat then [] else Url.ur_servername url) url)
  else mret url.

(** The return value and [server]. *)
Definition server_subconnect (url : Url.afp_url) : SM (Z * Z) :=
  let connect uam_mask :=
    s ← afp_server_full_connect G r iconv malloc fuel (mk_connection_request url 31 uam_mask);
    mret (if s =? 0 then -1 else 0, s) in
  match Url.ur_uamname url with
  | [] => connect default_uams_mask
  | name => let mask := find_uam_by_name r name in if mask =? 0 then mret (-1, 0) else connect mask
  end.

(** [connect_volume], on the volume it finds. *)
Definition front_connect_volume (volumename : list Z) (f : front) : SM (Z * front) :=
  match volumename with
  | [] => mret (-1, f)
  | _ =>
    m ← load (fr_server f);
    i ← slift (find_volume (volumes_of m) volumename);
    shell_command i (fun sh => connect_volume forkid_of sh volumename) f
  end.

Definition com_connect (arg : list Z) (f : front) : SM (Z * front) :=
  if negb (fr_server f =? 0) then mret (-1, f)
  else
    '(rc, tmpurl) ← sresult (Url.afp_parse_url fuel first Url.afp_default_url arg);
    url ← (if negb (rc =? 0) then
             h ← sask (Local (LocalHost arg));
             mret (if lo_ret h <? 0 then None
                   else Some (Url.set_ur_servername
                                (if bool_decide (length arg < 33)%nat then arg
                                 else take 33 arg ++ drop 33 (Url.ur_servername (fr_url f))) (fr_url f)))
           else mret (Some tmpurl));
    match url with
    | None => mret (-1, f)
    | Some url =>
      url ← cmdline_getpass url;
      let f := set_fr_url url f in
      '(rc, s) ← server_subconnect url;
      if negb (rc =? 0) then mret (-1, f)
      else
        '(_, f) ← front_connect_volume (Url.ur_volumename url) (set_fr_server s f);
        mret (0, f)
    end.

(** [cmdline_afp_exit] and [com_disconnect]: nothing is registered to unmount with. *)
Definition cmdline_afp_exit (f : front) : SM unit :=
  match fr_vol f with
  | Some i => unmount_volume fuel forkid_of (mret tt) (fr_server f) i;; mret tt
  | None => mret tt
  end.

Definition com_disconnect (f : front) : SM (Z * front) :=
  if fr_server f =? 0 then mret (-1, f)
  else cmdline_afp_exit f;; mret (0, mk_front [slash] (fr_url f) 0 None).

(** ** The URL of the command line *)

(** Whether the program goes on, or has ended with a status. *)
Inductive start := Goes_on (f : front) | Exits (status : Z).

(** [just_end_it_now] with the hook of the program. *)
Definition ending (f : front) : SM start := cmdline_afp_exit f;; mret (Exits 1).

Definition cmdline_server_startup (recursive : bool) (f : front) : SM start :=
  '(rc, s) ← server_subconnect (fr_url f);
  let f := set_fr_server s f in
  if negb (rc =? 0) then mret (Goes_on f)
  else
    match Url.ur_volumename (fr_url f) with
    | [] =>
      m ← load s;
      names ← sask (Memory 1024);
      slift (afp_list_volnames (volumes_of m) 1024 names);; mret (Goes_on f)
    | volumename =>
      '(ret, f) ← front_connect_volume volumename f;
      if negb (ret =? 0) then ending f
      else
        match Url.ur_path (fr_url f) with
        | [] => mret (Goes_on f)
        | path =>
          '((ret, stbuf), f) ← on_shell (fun _ => ml_getattr path) f;
          if negb (ret =? 0) then ending f
          else if has (st_mode stbuf) S_IFDIR then
            let f := set_fr_curdir (take (max_path - 1) path) f in
            if recursive then
              '(_, f) ← shell_command (fr_vol f) (recursive_get fuel icon path) f; mret (Goes_on f)
            else mret (Goes_on f)
          else
            '(_, f) ← shell_command (fr_vol f) (com_get fuel icon path) f; ending f
        end
    end.

(** [pw_name] is the name of the user; a URL that cannot be parsed is used all the same. *)
Definition cmdline_afp_setup (pw_name : list Z) (recursive : bool) (url_string : option (list Z)) : SM start :=
  let url := Url.set_ur_username (take 127 pw_name) Url.afp_default_url in
  let f := mk_front [slash] url 0 None in
  match url_string with
  | Some ((_ :: _ :: _) as s) =>
    '(_, url) ← sresult (Url.afp_parse_url fuel first url s);
    url ← cmdline_getpass url;
    cmdline_server_startup recursive (set_fr_url url f)
  | _ => mret (Goes_on f)
  end.

(** ** The commands *)

(** The volume that "cd" names while the URL names none. *)
Definition cd_volume (arg : list Z) (f : front) : SM (option nat) :=
  '(ret, array, _) ← slift (escape_paths (replicate max_path 0) None arg);
  if negb (ret =? 0) then mret None
  else
    path ← slift (cstr array);
    match (match index_of slash path with Some t => take t path | None => path end) with
    | [] => mret None
    | volumename => m ← load (fr_server f); slift (find_volume (volumes_of m) volumename)
    end.

Definition front_cd (arg : list Z) (f : front) : SM (Z * front) :=
  i ← (if negb (fr_server f =? 0) && bool_decide (Url.ur_volumename (fr_url f) = [])
       then cd_volume arg f else mret (fr_vol f));
  shell_command i (com_cd forkid_of arg) f.

(** The packet of [com_testafp]; the rest of the 31 bytes is what [malloc] gave. *)
Definition testafp_data (i : Z) (data : list Z) : option (list Z) :=
  data ← blit 0 [0; 0; i; 4; 0; 0; 0; 1; 0; 0; 0; 0] data;
  blit 12 (str "mymountpoint" ++ [0]) data.

Fixpoint testafp_loop (n : nat) (i : Z) (data : list Z) : M unit :=
  match n with
  | O => mret tt
  | S n =>
    data ← lift (testafp_data i data);
    v ← volume;
    junk ← ask (Memory 35);
    request ← lift (afp_newcommand76 junk (vo_volid v) 31 data);
    _ ← send request;
    testafp_loop n (i + 1) data
  end.

(** [volume->server] is read first. *)
Definition com_testafp (sh : shell) : M Z :=
  data ← ask (Memory 200);
  if sh_vol sh then testafp_loop 6 0 data;; mret 0 else crash.

(** [com_status] is [StatusText.com_status] on the server and its counters. *)
Context (com_status : Z -> SM unit).

(** [command->func(word)]; [running] is the first component. *)
Definition call (c : command) (arg : list Z) (f : front) : SM (bool * front) :=
  let goes_on {A} (p : SM (A * front)) : SM (bool * front) := '(_, f) ← p; mret (true, f) in
  let on {A} (p : shell -> M A) := goes_on (on_shell p f) in
  match c with
  | Cd => goes_on (front_cd arg f)
  | Connect => goes_on (com_connect arg f)
  | Disconnect => goes_on (com_disconnect f)
  | Quit => cmdline_afp_exit f;; mret (false, f)
  | Get => goes_on (shell_command (fr_vol f) (com_get fuel icon arg) f)
  | Pass => goes_on (shell_command (fr_vol f) (com_pass arg) f)
  | User => goes_on (shell_command (fr_vol f) (com_user arg) f)
  | Lcd => on (fun _ => com_lcd arg)
  | Chmod => on (com_chmod arg)
  | Delete => on (com_delete arg)
  | Mkdir => on (com_mkdir arg)
  | Rmdir => on (com_rmdir arg)
  | Dir => on (com_dir fuel)
  | Testafp => on com_testafp
  | Pwd => on com_pwd
  | Rename => on (com_rename arg)
  | View => on (com_view fuel icon arg)
  | Touch => on (com_touch arg)
  | Put => on (com_put fuel arg)
  | Passwd =>
    using_uam ← (if fr_server f =? 0 then mret 0 else m ← load (fr_server f); mret (sm_using_uam m));
    on (com_passwd r using_uam)
  | Statvfs => on (com_statvfs arg)
  | Status => com_status (fr_server f);; mret (true, f)
  | Help | Lpwd | Test => mret (true, f)
  end.

Definition ARG_LEN : nat := 1024.

(** The body of the loop of [cmdline_ui].  [s2] has no NUL when the line fills it. *)
Definition command_line (line : list Z) (f : front) : SM (bool * front) :=
  let s := stripwhite line in
  match s with
  | [] => mret (true, f)
  | _ =>
    s2 ← slift (cstr (resize ARG_LEN 0 s));
    match execute_line s2 with
    | None => mret (true, f)
    | Some (c, arg) => call c arg f
    end
  end.

(** [lines] are what is typed, up to the end of the input. *)
Fixpoint cmdline_ui (lines : list (list Z)) (f : front) : SM front :=
  match lines with
  | [] => mret f
  | line :: lines =>
    '(running, f) ← command_line line f;
    if running : bool then cmdline_ui lines f else mret f
  end.

(** ** The program *)

(** [long_options] has no last element: [behind] is what follows it in memory. *)
Context (behind : long_options).

(** [show_usage], [recursive] and [url]; the case of "-h" falls into that of "-r". *)
Fixpoint start_options (es : list event) (o : bool * bool * option (list Z)) : bool * bool * option (list Z) :=
  match es with
  | [] => o
  | (c, optarg) :: es =>
    let '(show_usage, _, _) := o in
    start_options es
      (if c =? 104 then (true, true, optarg) else if c =? 114 then (show_usage, true, optarg) else o)
  end.

Definition main_options (argv : list (list Z)) : bool * bool * option (list Z) :=
  start_options
    (getopt_long [(114, true); (104, false)] ((str "recursive", true, 114) :: behind) (drop 1 argv)).1
    (false, false, argv !! 1%nat).

(** The exit status. *)
Definition main (pw_name : list Z) (argv lines : list (list Z)) : SM Z :=
  let '(show_usage, recursive, url) := main_options argv in
  if show_usage : bool then mret 1
  else
    st ← cmdline_afp_setup pw_name recursive url;
    match st with
    | Exits status => mret status
    | Goes_on f => cmdline_ui lines f;; mret 0
    end.

End connecting.

(** ** Completion and help *)

Definition command_names : list (list Z) := commands.*1.

(** [command_generator] with [list_index] and [len]. *)
Definition generator_state : Type := nat * nat.

Fixpoint next_match (names : list (list Z)) (text : list Z) (len list_index : nat) : option (list Z) * nat :=
  match names with
  | [] => (None, list_index)
  | name :: names =>
    if bytes_eqb (take len name) (take len text) then (Some name, S list_index)
    else next_match names text len (S list_index)
  end.

Definition command_generator (text : list Z) (state : Z) (st : generator_state)
    : option (list Z) * generator_state :=
  let '(list_index, len) := if state =? 0 then (0%nat, length text) else st in
  let '(name, list_index) := next_match (drop list_index command_names) text len list_index in
  (name, (list_index, len)).

(** The calls of [rl_completion_matches]: with 0, then with others, up to NULL. *)
Fixpoint completion_matches (fuel : nat) (text : list Z) (state : Z) (st : generator_state)
    : outcome (list (list Z)) :=
  match fuel with
  | O => Starved
  | S fuel =>
    match command_generator text state st with
    | (None, _) => Done []
    | (Some name, st) =>
      match completion_matches fuel text (state + 1) st with
      | Done names => Done (name :: names)
      | Crashed => Crashed
      | Starved => Starved
      end
    end
  end.

(** Only the first word of a line is completed. *)
Definition filename_completion (fuel : nat) (text : list Z) (start : Z) (st : generator_state)
    : outcome (list (list Z)) :=
  if start =? 0 then completion_matches fuel text 0 st else Done [].

(** The names whose help is printed, and whether there are any; or else all are listed. *)
Definition com_help (arg : list Z) : list (list Z) * bool :=
  let found := filter (fun name => bool_decide (arg = []) || bytes_eqb arg name = true) command_names in
  match found with [] => (command_names, false) | _ => (found, true) end.

(** ** Without a connection nothing is sent *)

Definition offline : contract := mk_contract (fun _ => False) (fun _ _ _ => True) True False.

Definition stays_offline {A} (p : shell -> M A) : Prop :=
  forall sh c, sh_server sh = false /\ sh_vol sh = false -> hoare offline c (p sh) (fun _ _ => True).

Lemma one_path_offline {A} arg (fail : A) k c :
  (forall filename, hoare offline c (k filename) (fun _ _ => True)) ->
  hoare offline c (one_path arg fail k) (fun _ _ => True).
Proof.
  intros Hk. unfold one_path. apply hoare_bind, hoare_ask; [by constructor|]. intros array _.
  apply hoare_bind, hoare_lift; [|done]. intros [[ret array'] o] _.
  destruct (negb (ret =? 0)); [done|]. apply hoare_bind, hoare_lift; [|done]. intros filename _. apply Hk.
Qed.

Lemma without_server {A} sh (fail : A) k : sh_server sh = false -> with_volume sh fail k = mret fail.
Proof. intros H. unfold with_volume. by rewrite H. Qed.

Lemma local_offline call c : hoare offline c (local call) (fun _ _ => True).
Proof. apply hoare_ask; [by constructor|done]. Qed.

(** Most commands look for the server first, or for the volume. *)
Create HintDb shell_commands.
#[local] Hint Unfold com_get com_chmod com_delete com_mkdir com_rmdir com_rename com_statvfs com_put
  com_view com_pwd com_dir com_passwd com_cd : shell_commands.
Ltac offline_command :=
  intros ? ? [Hno ?]; autounfold with shell_commands; rewrite ?without_server by done; rewrite ?Hno; done.

Lemma com_lcd_offline path : stays_offline (fun _ => com_lcd path).
Proof.
  intros sh c _. apply hoare_bind. eapply hoare_mono; [|apply local_offline]. done.
Qed.
Lemma com_touch_offline arg : stays_offline (com_touch arg).
Proof. intros sh c [Hs _]. apply one_path_offline. intros filename. by rewrite without_server. Qed.
Lemma com_pass_offline arg : stays_offline (com_pass arg).
Proof.
  intros sh c _. unfold com_pass. case_match; [|done].
  apply hoare_bind. eapply hoare_mono; [|apply local_offline]. done.
Qed.
Lemma com_user_offline arg : stays_offline (com_user arg).
Proof. intros sh c _. unfold com_user. repeat case_match; done. Qed.

Lemma com_testafp_offline : stays_offline com_testafp.
Proof.
  intros sh c [_ Hv]. unfold com_testafp. apply hoare_bind, hoare_ask; [by constructor|].
  intros data _. by rewrite Hv.
Qed.

#[local] Hint Resolve com_lcd_offline com_touch_offline com_pass_offline com_user_offline
  com_testafp_offline : shell_commands.
#[local] Hint Extern 2 (stays_offline _) => offline_command : shell_commands.

(** Not connected, with the state of the library as it was. *)
Definition unconnected (w : world) {A} (f : A -> front) (a : A) (w' : world) : Prop :=
  w' = w /\ fr_server (f a) = 0 /\ fr_vol (f a) = None.

Lemma shell_command_offline {A} (p : shell -> M (A * shell)) f w :
  fr_server f = 0 -> fr_vol f = None -> stays_offline p ->
  shoare offline w (shell_command (fr_vol f) p f) (unconnected w snd).
Proof.
  intros Hf Hv Hp. rewrite Hv. unfold shell_command. rewrite Hf. cbn [Z.eqb]. apply shoare_bind.
  unfold sprog, shoare. apply wp_bind. eapply wp_mono; [|apply Hp].
  - intros [[a sh] c] _. unfold unconnected. cbn. repeat case_match; done.
  - unfold shell_of. cbn. by rewrite Hf, Hv.
Qed.

Lemma on_shell_offline {A} (p : shell -> M A) f w :
  fr_server f = 0 -> fr_vol f = None -> stays_offline p ->
  shoare offline w (on_shell p f) (unconnected w snd).
Proof.
  intros Hf Hv Hp. apply shell_command_offline; [done|done|].
  intros sh c Hs. apply hoare_bind. eapply hoare_mono; [|by apply Hp]. done.
Qed.

(** The commands that make a connection, or look at the server without one. *)
Definition connects (c : command) : bool := match c with Connect | Status => true | _ => false end.

Lemma call_offline G r iconv malloc fuel forkid_of icon first com_status c arg f w :
  connects c = false -> fr_server f = 0 -> fr_vol f = None ->
  shoare offline w (call G r iconv malloc fuel forkid_of icon first com_status c arg f) (unconnected w snd).
Proof.
  intros Hc Hf Hv.
  assert (forall A (p : SM (A * front)), shoare offline w p (unconnected w snd) ->
    shoare offline w ('(_, f) ← p; mret (true, f)) (unconnected w snd)) as Hgo.
  { intros A p Hp. apply shoare_bind. eapply shoare_mono; [|exact Hp]. by intros [a f'] w' H. }
  destruct c; try discriminate Hc; cbn [call].
  all: try (apply Hgo, on_shell_offline; [done|done|solve [auto with shell_commands]]).
  all: try (apply Hgo, shell_command_offline; [done|done|solve [auto with shell_commands]]).
  all: try done.
  - apply Hgo. unfold front_cd. rewrite Hf. cbn [Z.eqb negb andb].
    apply shoare_bind, shoare_ret, shell_command_offline; [done|done|auto with shell_commands].
  - unfold cmdline_afp_exit. by rewrite Hv.
  - rewrite Hf. cbn [Z.eqb]. apply Hgo, on_shell_offline; [done|done|auto with shell_commands].
  - apply Hgo. unfold com_disconnect. by rewrite Hf.
Qed.

(** The line is empty, or its command is not one of those, or it is not known. *)
Definition offline_line (line : list Z) : Prop :=
  forall s2, cstr (resize ARG_LEN 0 (stripwhite line)) = Some s2 ->
  match execute_line s2 with Some (c, _) => connects c = false | None => True end.

(** C28: Until it is connected the client keeps to itself: whatever lines are typed, as long
    as none of them is "connect" or "status", nothing is sent, no loop runs out of fuel,
    and what the library keeps of servers and descriptors is as it was, unless a command
    crashes. *)
Theorem unconnected_keeps_to_itself G r iconv malloc fuel forkid_of icon first com_status lines f w :
  Forall offline_line lines -> fr_server f = 0 -> fr_vol f = None ->
  shoare offline w (cmdline_ui G r iconv malloc fuel forkid_of icon first com_status lines f)
    (unconnected w id).
Proof.
  intros Hl. revert f. induction Hl as [|line lines Hline _ IH]; intros f Hf Hv; cbn [cmdline_ui]; [done|].
  apply shoare_bind.
  assert (shoare offline w (command_line G r iconv malloc fuel forkid_of icon first com_status line f)
            (unconnected w snd)) as Hstep.
  { unfold command_line, offline_line in *. destruct (stripwhite line) as [|c s]; [done|].
    destruct (cstr _) as [s2|]; [|done]. specialize (Hline s2 eq_refl). apply shoare_bind. cbn [slift].
    apply (shoare_result _ _ (Done s2) s2); [done|].
    destruct (execute_line s2) as [[command arg]|]; [|done]. by apply call_offline. }
  eapply shoare_mono; [|exact Hstep]. intros [running f'] w' (-> & Hf' & Hv').
  destruct running; [by apply IH|done].
Qed.

Lemma unconnected_keeps_to_itself_witness :
  shoare offline (mk_world ∅ 0 no_descriptors)
    (cmdline_ui toy_gcrypt Auth.init_uams None (fun _ => 1) 100 id [] [] (fun _ => mret tt)
       [str "ls"; str "get file"; str "  cd dir "; str "nosuchcommand"; str "quit"; str "ls"]
       (mk_front [slash] Url.afp_default_url 0 None))
    (unconnected (mk_world ∅ 0 no_descriptors) id).
Proof.
  apply unconnected_keeps_to_itself; [|reflexivity|reflexivity].
  repeat (apply Forall_cons; split; [intros s2; vm_compute; intros [= <-]; try reflexivity; exact I|]).
  apply Forall_nil. exact I.
Defined.

(** ** Completion *)

Section completion.
Context (text : list Z).

Definition completes (name : list Z) : Prop := text `prefix_of` name.
#[local] Instance completes_dec name : Decision (completes name).
Proof using Type. unfold completes. apply _. Defined.

Lemma match_completes name :
  bytes_eqb (take (length text) name) (take (length text) text) = bool_decide (completes name).
Proof using Type.
  unfold bytes_eqb. rewrite firstn_all. apply bool_decide_ext. unfold completes. split.
  - intros E. exists (drop (length text) name). rewrite <- E at 1. by rewrite take_drop.
  - intros [rest ->]. by rewrite take_app_length.
Qed.

(** The next match, and where the search goes on. *)
Lemma next_match_spec names i :
  match filter completes names with
  | [] => (next_match names text (length text) i).1 = None
  | name :: rest => exists k, next_match names text (length text) i = (Some name, (i + S k)%nat) /\
      (k < length names)%nat /\ filter completes (drop (S k) names) = rest
  end.
Proof using Type.
  revert i. induction names as [|name names IH]; intros i; [done|].
  rewrite filter_cons. cbn [next_match]. rewrite match_completes. case_decide as Hm.
  - rewrite bool_decide_eq_true_2 by done. exists 0%nat. cbn [length drop skipn].
    split_and!; [f_equal; lia|lia|done].
  - rewrite bool_decide_eq_false_2 by done. specialize (IH (S i)). destruct (filter completes names).
    + done.
    + destruct IH as (k & -> & Hk & Hr). exists (S k). cbn [length drop skipn] in *.
      split_and!; [f_equal; lia|lia|done].
Qed.

Lemma completion_from fuel state st i :
  0 <= state -> command_generator text state st = command_generator text 1 (i, length text) ->
  (length (drop i command_names) < fuel)%nat ->
  completion_matches fuel text state st = Done (filter completes (drop i command_names)).
Proof using Type.
  revert state st i. induction fuel as [|fuel IH]; intros state st i Hs Hst Hf; [lia|].
  cbn [completion_matches]. rewrite Hst. cbn [command_generator Z.eqb].
  pose proof (next_match_spec (drop i command_names) i) as Hn.
  destruct (filter completes (drop i command_names)) as [|name rest].
  - by destruct (next_match _ _ _ _) as [o j]; cbn in Hn; subst o.
  - destruct Hn as (k & -> & Hk & Hr). rewrite drop_drop in Hr.
    rewrite (IH _ _ (i + S k)%nat); [by rewrite Hr|lia| |].
    + unfold command_generator. by rewrite (proj2 (Z.eqb_neq (state + 1) 0)) by lia.
    + rewrite length_drop in *. lia.
Qed.

(** Completion is complete and ends: for the first word of a line the calls of the generator,
    each going on where the one before it stopped, give the names of the commands that begin with the text, all
    of them, in the order of the table. *)
Theorem completion_lists_matches start st :
  filename_completion (S (length command_names)) text start st =
    Done (if start =? 0 then filter completes command_names else []).
Proof using Type.
  unfold filename_completion. destruct (start =? 0); [|done].
  apply (completion_from _ _ _ 0); [lia|done|]. rewrite drop_0. lia.
Qed.

End completion.

Example completed : filter (completes (str "re")) command_names = [str "rename"].
Proof. reflexivity. Qed.

(** ** What a command line can do to the program *)

Lemma skip_white_Forall P s : Forall P s -> Forall P (skip_white s).
Proof. induction 1; cbn [skip_white]; [done|]. case_match; [done|by constructor]. Qed.

Lemma stripwhite_Forall P s : Forall P s -> Forall P (stripwhite s).
Proof. intros H. unfold stripwhite. by apply Forall_reverse, skip_white_Forall, Forall_reverse, skip_white_Forall. Qed.

Section lines.
Context (G : gcrypt) (r : registry) (iconv : option (list Z -> list Z)) (malloc : gset Z -> Z).
Context (fuel : nat) (forkid_of : Z -> Z) (icon first : list Z) (com_status : Z -> SM unit).

Notation call := (call G r iconv malloc fuel forkid_of icon first com_status).

(** A line that fills the array of 1024 characters is copied without its end, and the
    command line is read behind it. *)
Theorem long_line_overruns line f w :
  nul_free line -> (ARG_LEN <= length (stripwhite line))%nat ->
  command_line G r iconv malloc fuel forkid_of icon first com_status line f w = Crash.
Proof using Type.
  intros Hn%stripwhite_Forall Hl. unfold command_line.
  destruct (stripwhite line) as [|c s] eqn:E; [cbn in Hl; unfold ARG_LEN in Hl; lia|]. rewrite <- E in *.
  rewrite resize_le by done. destruct (cstr (take ARG_LEN (stripwhite line))) as [s2|] eqn:Ec; [|done].
  apply cstr_Some in Ec as (_ & rest & Ec).
  assert (nul_free (take ARG_LEN (stripwhite line))) as Hf by by apply Forall_take.
  rewrite Ec in Hf. apply Forall_app in Hf as [_ Hf]. by inversion Hf.
Qed.

Lemma front_connect_missing {W} (h : handler W) name f w m wo :
  fr_server f <> 0 -> wo_heap w !! fr_server f = Some m -> name <> [] ->
  find_volume (volumes_of m) name = Some None ->
  exists w1 m1 wo1, run h (front_connect_volume forkid_of name f w) wo =
      ([], Done ((-1, set_fr_vol None f), w1), wo1) /\
    wo_heap w1 !! fr_server f = Some m1.
Proof using Type.
  intros Hs Hm Hn Hfind. destruct name as [|c name]; [done|]. unfold front_connect_volume, shell_command.
  rewrite (proj2 (Z.eqb_neq _ 0) Hs). unfold load, on_server, load, sget, slift, update, store, smodify.
  unfold mbind, SM_bind. cbn [prog_bind fst snd]. rewrite Hm. cbn [prog_bind fst snd]. rewrite Hfind.
  cbn [prog_bind fst snd]. rewrite Hm. cbn [prog_bind fst snd].  rewrite Hm. cbn [prog_bind fst snd].
  unfold sprog, connect_volume, mbind, M_bind, ask. cbn [prog_bind fst snd run].
  destruct (h (list Z) (Memory 1024) wo) as [mesg wo1].
  rewrite find_volume_spec. unfold shell_of. cbn [sh_volumes]. rewrite Hfind.
  cbn. unfold load, sget, slift, mbind, SM_bind. cbn. rewrite Hm. cbn. exists (set_heap <[fr_server f := set_sm_core (sm_core m) m]> w).
  exists (set_sm_core (sm_core m) m), wo1. split; [|apply lookup_insert_eq].
  unfold front_of. cbn. by rewrite (proj2 (Z.eqb_neq _ 0) Hs).
Qed.

(** "connect" to a volume that is not there. *)
Lemma connect_missing {W} (h : handler W) arg url f w wo rs s m w' wo' :
  fr_server f = 0 -> Url.afp_parse_url fuel first Url.afp_default_url arg = Done (0, url) ->
  Url.ur_password url <> str "-" -> Url.ur_volumename url <> [] ->
  run h (server_subconnect G r iconv malloc fuel url w) wo = (rs, Done ((0, s), w'), wo') ->
  s <> 0 -> wo_heap w' !! s = Some m ->
  find_volume (volumes_of m) (Url.ur_volumename url) = Some None ->
  exists rs' w1 m1 wo1,
    run h (com_connect G r iconv malloc fuel forkid_of first arg f w) wo =
      (rs', Done (0, mk_front (fr_curdir f) url s None, w1), wo1) /\
    wo_heap w1 !! s = Some m1.
Proof using Type.
  intros Hf Hu Hp Hv Hsub Hs Hm Hfind. unfold com_connect. rewrite Hf, Hu. cbn [Z.eqb negb sresult].
  assert (cmdline_getpass url = mret url) as Hpass.
  { unfold cmdline_getpass, bytes_eqb. by rewrite bool_decide_eq_false_2. }
  destruct (front_connect_missing h (Url.ur_volumename url) (set_fr_server s (set_fr_url url f)) w' m wo'
              Hs Hm Hv Hfind) as (w1 & m1 & wo1 & Hc & Hm1).
  exists (rs ++ []), w1, m1, wo1. split; [|exact Hm1].
  unfold mbind, SM_bind. cbn [sresult prog_bind fst snd mret SM_ret Z.eqb negb]. rewrite Hpass.
  cbn [prog_bind fst snd mret SM_ret].
  rewrite (run_bind _ _ _ _ _ _ _ Hsub). cbn [fst snd Z.eqb negb].
  rewrite (run_bind _ _ _ _ _ _ _ Hc). done.
Qed.

Lemma dir_without_volume {W} (h : handler W) curdir url s w m wo :
  s <> 0 -> wo_heap w !! s = Some m -> Url.ur_volumename url <> [] ->
  run h (call Dir [] (mk_front curdir url s None) w) wo = ([], Crashed, wo).
Proof using Type.
  intros Hs Hm Hv. unfold Afpcmd.call, on_shell, shell_command. cbn [fr_server fr_vol].
  rewrite (proj2 (Z.eqb_neq s 0) Hs). unfold on_server, load, sget, slift, mbind, SM_bind.
  cbn [prog_bind fst snd]. rewrite Hm. cbn [prog_bind fst snd]. rewrite Hm. cbn [prog_bind fst snd].
  unfold com_dir, shell_of. cbn [sh_server sh_url sh_vol fr_server fr_url fr_vol].
  rewrite (proj2 (Z.eqb_neq s 0) Hs). cbn [negb]. by destruct (Url.ur_volumename url).
Qed.

(** A volume that the server does not have crashes the client.  "connect" takes the
    URL with the volume's name before it looks for the volume, and succeeds without it; the
    next "ls" finds a name in the URL and no volume. *)
Theorem missing_volume_crashes {W} (h : handler W) arg url f w wo rs s m w' wo' :
  fr_server f = 0 -> Url.afp_parse_url fuel first Url.afp_default_url arg = Done (0, url) ->
  Url.ur_password url <> str "-" -> Url.ur_volumename url <> [] ->
  run h (server_subconnect G r iconv malloc fuel url w) wo = (rs, Done ((0, s), w'), wo') ->
  s <> 0 -> wo_heap w' !! s = Some m ->
  find_volume (volumes_of m) (Url.ur_volumename url) = Some None ->
  exists rs' wo'', run h (('(_, f) ← com_connect G r iconv malloc fuel forkid_of first arg f; call Dir [] f) w) wo =
    (rs', Crashed, wo'').
Proof using Type.
  intros Hf Hu Hp Hv Hsub Hs Hm Hfind.
  destruct (connect_missing h arg url f w wo rs s m w' wo' Hf Hu Hp Hv Hsub Hs Hm Hfind)
    as (rs1 & w1 & m1 & wo1 & Hc & Hm1).
  exists (rs1 ++ []), wo1. unfold mbind, SM_bind. rewrite (run_bind _ _ _ _ _ _ _ Hc). cbn [fst snd].
  by rewrite (dir_without_volume h _ _ _ _ _ _ Hs Hm1 Hv).
Qed.

(** A URL on the command line that cannot be read does not stop the program: it
    connects all the same, to the empty server name and without the name of the user. *)
Theorem unreadable_url_connects pw_name recursive c d s w :
  strstr (c :: d :: s) (str "://") = None ->
  cmdline_afp_setup G r iconv malloc fuel forkid_of icon first pw_name recursive (Some (c :: d :: s)) w =
  cmdline_server_startup G r iconv malloc fuel forkid_of icon recursive
    (mk_front [slash] (Url.mk_url [] [] [] [] 548 [] []) 0 None) w.
Proof using Type.
  intros Hs. unfold cmdline_afp_setup, Url.afp_parse_url. rewrite Hs. reflexivity.
Qed.

End lines.

(** ** Witnesses *)

Definition home : addrinfo := mk_addrinfo 2 1 6 7 0 [].

(** Every name has the address of a server that is connected. *)
Definition at_home : handler unit :=
  fun X e =>
    match e in env X return unit -> X * unit with
    | Getaddrinfo _ _ => fun w => (Some [home], w)
    | e => fun w => serving (fun _ w => (mk_answer 0 None [], w)) _ e w
    end.

Definition known_world : world :=
  mk_world {[1 := set_sm_used_address (Some home) named_server]} 1 no_descriptors.

Definition not_connected : front := mk_front [slash] Url.afp_default_url 0 None.

Lemma missing_volume_crashes_witness :
  exists rs' wo'', run at_home
    (('(_, f) ← com_connect toy_gcrypt init_uams None (fun _ => 2) 9 id [] (str "afp://tc/nowhere") not_connected;
      call toy_gcrypt init_uams None (fun _ => 2) 9 id [] [] (fun _ => mret tt) Dir [] f) known_world) tt =
    (rs', Crashed, wo'').
Proof.
  eapply (missing_volume_crashes toy_gcrypt init_uams None (fun _ => 2) 9 id [] [] (fun _ => mret tt)
           at_home (str "afp://tc/nowhere")
           (Url.mk_url [] [] [] (str "tc") 548 (str "nowhere") []) not_connected known_world tt _ 1);
    [reflexivity|vm_compute; reflexivity|discriminate|discriminate|vm_compute; reflexivity|discriminate| |].
  - vm_compute. reflexivity.
  - vm_compute. reflexivity.
Defined.

Lemma long_line_overruns_witness :
  command_line toy_gcrypt init_uams None (fun _ => 2) 9 id [] [] (fun _ => mret tt)
    (replicate 1024 97) not_connected known_world = Crash.
Proof.
  apply long_line_overruns.
  - apply Forall_replicate. discriminate.
  - vm_compute. lia.
Defined.

Lemma unreadable_url_connects_witness :
  cmdline_afp_setup toy_gcrypt init_uams None (fun _ => 2) 9 id [] [] (str "me") false
    (Some (str "host/volume")) known_world =
  cmdline_server_startup toy_gcrypt init_uams None (fun _ => 2) 9 id [] false
    (mk_front [slash] (Url.mk_url [] [] [] [] 548 [] []) 0 None) known_world.
Proof. apply unreadable_url_connects. reflexivity. Defined.

(** *** Options *)

(** The usage text says that "-r" is a flag; it takes the URL with it, and alone it is one
    itself. *)
Example recursive_takes_url :
  main_options [] [str "afpcmd"; str "-r"; str "afp://host/vol"] = (false, true, Some (str "afp://host/vol")) /\
  main_options [] [str "afpcmd"; str "-r"] = (false, false, Some (str "-r")) /\
  main_options [] [str "afpcmd"; str "afp://host/vol"; str "-r"] = (false, false, Some (str "afp://host/vol")).
Proof. split_and!; reflexivity. Qed.

End Afpcmd.
